(* ===== verification/_CoqProject ===== *)
-Q . S2P
Prelude.v
GoStrings.v
Sha256.v
GoTime.v
GoConv.v
Config.v
Json.v
Regexp.v
Backtrack.v
GoText.v
Mux.v
GoQuote.v
JsonParse.v
TimeText.v
JsonDecode.v
JsonIndent.v
OS.v
Inventory.v
Protocol.v
JsonAny.v
Actors.v
Plans.v
Grants.v
AuditLog.v
ServiceControl.v
System.v
Registry.v
Mutations.v
Probe.v
Broker.v
BrokerLog.v
Listener.v
Control.v
Main.v
Lifecycle.v
Client.v
Messages.v
AuditBytes.v
StateFiles.v
Answers.v
Routes.v
Wire.v
Payloads.v
Schema.v
Access.v
EndToEnd.v
