(* ===== verification/Prelude.v ===== *)
(** * Quantum Control: verification library

    Quantum Control administers one machine with two processes. [quantum-control] (src/cmd/quantum-control, src/internal/control)
    is an unprivileged HTTP API: it authenticates actors, plans operations, keeps the plans in a cache and an audit log on disk, and
    forwards confirmed plans. [qcored] (src/cmd/qcored, src/internal/broker) is the privileged broker behind a Unix socket: it has its
    own list of actors, validates everything again, keeps single-use confirmation grants on disk and runs service transactions over
    [systemctl]. This library models both programs, their start-up included, and their composition.

    ** Layers and files

    The files are listed from the bottom up; each opens with a comment of its own. Definitions keep the names of the code, records have
    one field per struct field with a short prefix, and the comments name the Go function where the name differs.

    What Go's standard library does, executable and exact on what the program passes to it:
    - [Prelude.v]: texts with arguments ([text]), values or errors ([result]), the order of strings, sorting, list lemmas.
    - [GoStrings.v]: byte strings, UTF-8, trimming, letter case, hexadecimal. [GoTime.v]: instants and RFC 3339.
    - [GoConv.v]: ParseInt, ParseDuration, SplitHostPort, ParseIP. [GoText.v]: bufio.Scanner, Cut, filepath.Base.
    - [GoQuote.v]: Unquote, ParseFloat. [Sha256.v]: SHA-256. [Json.v]: the text that json.Marshal writes.
    - [JsonParse.v]: the JSON scanner and values. [TimeText.v]: parsing RFC 3339. [JsonDecode.v]: decoding values into strings, maps,
      slices and structs, bodies under MaxBytesReader, marshalling. [JsonIndent.v]: MarshalIndent. [JsonAny.v]: values of type [any],
      the digits of floats included.
    - [Mux.v]: ServeMux, that is patterns, their conflicts, clean paths, redirects, methods; queries.
    - [Regexp.v]: anchored patterns, compiled from their text. [Backtrack.v]: patterns searched in a text, with a group.

    The parts of the programs:
    - [Config.v], src/internal/config: environment, token file, defaults, validation ([LoadControl], [LoadBroker]).
    - [OS.v]: the operating system as the observing packages see it. [Inventory.v], src/internal/inventory: observers, definitions,
      scans and classification; it exports the interface [Scanner].
    - [Protocol.v], src/internal/protocol. [Actors.v], src/internal/security/auth.go: registry files, roles, bearer tokens.
    - [Plans.v], plan.go: digests, the builder and the cache. [Grants.v], grants.go: the grant store with its file.
    - [AuditLog.v], audit.go: the hash chain with its file, redaction, queries.
    - [ServiceControl.v], src/internal/servicecontrol: unit policy, the systemctl adapter, the health probe.
    - [System.v]: what a broker operation may do to the machine, as the interfaces [System] and [SystemLaws].
    - [Registry.v] and [Mutations.v], broker/registry.go and mutations.go: operations, plans, transactions, approved execution.
    - [Probe.v], src/internal/systemprobe: the two observations of the broker.
    - [Broker.v], broker/server.go, approval.go and the start-up of qcored: the handlers and the life of the process. [BrokerLog.v]: the
      lines they log.
    - [Listener.v], broker/listener.go: creating and closing the socket.
    - [Control.v], src/internal/control: authentication, handlers, routes, and any interleaving of requests.
    - [Main.v], both main.go: commands, start-up, HTTP limits. [Lifecycle.v], both main.go: from listening to exit.
    - [Client.v], broker/client.go: the API's side of the socket, and what any client promises ([SocketClient]). [EndToEnd.v]: both
      processes together.
    - [Messages.v], the structs with JSON tags of protocol, security and broker: the bodies of both servers as bytes.
    - [Routes.v], [Server.Handler] of both servers, control/inventory_routes.go, [Client.do]: requests from their bytes to the handlers.
    - [Answers.v], broker/server.go and client.go: the answers of the broker as bytes and what the client reads in them. [Wire.v],
      [Client.do] from bytes to bytes.
    - [Payloads.v], the JSON of inventory.go and of the handlers of src/internal/control: the answers of the public API as bytes.
      [Access.v], control/server.go: the status recorder, the access log, the headers and bodies of answers.
    - [Schema.v], src/schema: the published documents, that what the programs write is valid under them, and where their readers differ.
    - [AuditBytes.v], audit.go, and [StateFiles.v], auth.go, grants.go, policy.go: the files as bytes.

    ** State and steps

    - A pure function of the code is a function. A fallible one returns [result]; an error is the format string with the values it
      quotes, without the text of a wrapped error.
    - The grant store and the audit store are records next to the file they write. A file is what a decoder reads from it, which
      [AuditBytes.v] and [StateFiles.v] compute from its bytes; system calls that may fail are answered by data ([persist_io],
      [append_io], [listen_io]), so every failure is covered.
    - A request is a route with its decoded body for [Control.v] and [Broker.v]; [Routes.v] computes both from method, path, query and
      body ([control_request], [broker_route]).
    - A serving process is a state with a partial step function over moments of its own and of its surroundings ([Lifecycle.step]).
    - A broker operation is a state-passing computation over an abstract machine ([System]) with a log of the actions it performs; it
      ends, panics (as the code does, where net/http drops the connection), or diverges, which is proved not to happen. The broker
      serves requests one after the other, in the order in which they take the lock of the grant store; what other requests do to the
      machine meanwhile is part of the abstract machine. [broker_op] adds restarts and crashes.
    - A handler of the public API is a tree of atomic effects ([prog]); requests interleave between effects by an arbitrary schedule
      ([run_pool]). The broker is the interface [BrokerAPI], the log of what was sent to it is [ExecutionLog], and clock, randomness,
      disk and inventory are [Host].
    - [Client.v] implements [BrokerAPI] over the broker model with a network that may lose or cut messages and with other users of the
      socket in between. [Wire.v] does the same with bytes, through the routes and decoders of the broker and back, and refines it. Both
      are a [SocketClient], the promise that every call to the broker is one of its own requests; against it the theorems of [Control.v]
      and [Broker.v] meet in [EndToEnd.v].
    - A handler answers with the lines it logs ([Answered]); the bodies of the broker are [body], those of the public API [payload], and
      [answer_bytes] and [payload_bytes] are their texts.
    - A scan of the inventory is a state-passing computation over an [Observer] that keeps a trace of its observations.

    ** What the theorems show

    - End to end: every service change that the public API causes was planned by an admitted caller, announced by an attempted
      append to the audit log, requested by a caller with the permission to mutate and confirmed for the same plan by another, human actor, whatever the
      interleaving, losses and restarts; and conversely an accepted request can be planned, confirmed and carried out on the machine,
      under listed sufficient conditions.
    - Broker: confirmed changes only, one execution per token, provenance of grants, exact behaviour of transactions (a refinement of
      four outcomes), at most one action and one recovery, the plain endpoint changes nothing, every request ends, every start-up is
      confined to the compiled allowlist, which policy files only narrow; systemctl gets fixed argument vectors.
    - Digests and logs: plans and audit records that verify under one hash agree or exhibit a SHA-256 collision; stores reopen to what
      they held, under the conditions the theorems list; appended events bracket each execution.
    - Public API: who is admitted under which configuration, what is forwarded, refused requests have no effect; the client reports
      what the broker answered.
    - Wire: both route tables are exactly what is written out, executions and confirmations are reached by one path, method and strict
      body each, without the broker token nothing is disclosed; the client on bytes does and returns what the client on values does.
    - Logs and documents: answers and the access log agree and every answer is one line of JSON; the journal of the broker names who
      executed and who confirmed every change; inventories, plans, audit records and grants are valid under their schemas.
    - Files: the bytes on disk are the lines and records of the models, after every append and every persisted state.
    - Start-up and exit: the processes stop after a signal, gracefully if they can; check-config succeeds exactly when serve would
      reach its listener; unauthenticated access only on loopback; the socket path is cleared only of a dead socket; numbers and
      durations are exact or refused.
    - Inventory: fixed observations only, evidence exactly as observed, classification exactly as the evidence supports, the published schema, version texts,
      systemctl output read back.
    Where the code does not do what it or its documents say, the theorem states what it does: recovery after a timeout never runs, an
    untrimmed action panics, a cut rune makes the audit log unreadable, text behind an audit record is not noticed, a managed marker
    confirms itself, an exiting qcored removes the socket of its successor, a plan with a shouted digest gets a grant outside
    its schema, a display name is measured in bytes, a log cut at the end of a line, emptied or deleted opens
    ([audit_truncation_unnoticed]), a failed version command leaves a component disabled ([failed_command_is_disabled]).

    ** Bounds and fuel

    Numbers are [Z]; where the width matters the wrap-around or the check is written out ([ParseInt], [ParseDuration], [plus64]).
    Recursion is structural but for: the waiting loop of a transaction, whose fuel is one more than the polls the context still allows,
    which [SystemLaws] makes decrease; durations and quoted strings, whose fuel is the length of the text, of which every round reads
    something ([duration_terms_fuel], [unquote_loop_fuel]); compiling a pattern (its length); a repetition inside a searched pattern
    (the runes left, [run_spec]); JSON values, with two units for every byte and one more ([parse_fuel], [parse_up]), and JSON strings, with
    one for every byte; and the eight groups of an IPv6 address. The shutdown of a process has no fuel: a measure bounds its steps.

    ** Not modelled, and why

    - Transport: the parsing of HTTP messages (a request is a method, an escaped path, a query, headers and a body), Unix and TCP
      sockets, timeouts of connections. A lost connection is a lost message of [Client.v].
    - Texts that no decision depends on are arguments: those that encoding/json puts into errors, that net/http puts into its own
      answers, and those of the operating system. How a message with values is put together is an argument as well ([message]).
    - Integers of a result are exact in JSON within the integers of [float64], which is a condition ([any_fits]) of the theorems on answers.
    - The order that [sort.Slice] gives to parameters with one name, which validation refuses; the offset from UTC in the text of an
      expiry, which denotes the same instant.
    - The log lines of failures in the public API, which no answer and no state depends on.
    - Letter case beyond ASCII and the runes that fold to ASCII; every comparison is with ASCII text.
    - src/scripts, src/deploy, src/config, src/api and src/docs hold no Go code.

    ** State of the development

    Every Go package is modelled, from the bytes of requests and files to the bytes of answers and files and the exit of the processes.
    What remains outside is listed above: transport, texts that nothing depends on, and the log lines of failures. *)

From stdpp Require Export base tactics option list gmap strings.
From stdpp Require Export sorting.
From Stdlib Require Export ZArith Lia Sorted.
From Stdlib Require Import Ascii String.

Declare Scope go_scope.
Delimit Scope go_scope with go.

(** ** Go strings are byte strings *)

(** [len(s)] of Go: the number of bytes. *)
Definition slen (s : string) : Z := Z.of_nat (String.length s).

Notation "s == t" := (String.eqb s t) (at level 70) : go_scope.
Notation "s != t" := (negb (String.eqb s t)) (at level 70) : go_scope.
Open Scope go_scope.

(** A human-readable text: a Go format string together with the values it is
    applied to. [errors.New(m)] and a constant message are [Text m []]. *)
Record text := Text { text_format : string; text_args : list string }.

#[export] Instance text_eq_dec : EqDecision text.
Proof. solve_decision. Defined.

(** ** Results: a value or a Go [error] *)

Inductive result (A : Type) : Type :=
| Ok (a : A)
| Err (e : text).
Arguments Ok {_} _.
Arguments Err {_} _.

#[export] Instance result_ret : MRet result := @Ok.
#[export] Instance result_bind : MBind result := fun A B k m =>
  match m with Ok a => k a | Err e => Err e end.
#[export] Instance result_fmap : FMap result := fun A B f m =>
  match m with Ok a => Ok (f a) | Err e => Err e end.

Lemma bind_Ok {A B} (k : A -> result B) m b : m ≫= k = Ok b <-> exists a, m = Ok a /\ k a = Ok b.
Proof. destruct m as [a|e]; simpl; [|by split; [|intros (? & ? & _)]]. split; [by exists a|by intros (? & [= ->] & ?)]. Qed.

(** [errors.New] and [fmt.Errorf]. *)
Definition errorf (format : string) (args : list string) : text := Text format args.
Definition fail {A} (message : string) : result A := Err (Text message []).

Definition is_ok {A} (r : result A) : bool :=
  match r with Ok _ => true | Err _ => false end.

(** ** Booleans of the code and propositions of the theorems *)

Create HintDb go_bool discriminated.

Lemma eqb_refl_true (s : string) : (s == s) = true.
Proof. apply String.eqb_refl. Qed.
Lemma neqb_false (s t : string) : (s != t) = false <-> s = t.
Proof. rewrite negb_false_iff. apply String.eqb_eq. Qed.
Lemma neqb_true (s t : string) : (s != t) = true <-> s <> t.
Proof. rewrite negb_true_iff. apply String.eqb_neq. Qed.

#[export] Hint Rewrite neqb_false neqb_true String.eqb_eq String.eqb_neq
  orb_true_iff orb_false_iff andb_true_iff andb_false_iff negb_true_iff negb_false_iff
  Z.ltb_lt Z.ltb_ge Z.leb_le Z.leb_gt Z.eqb_eq Z.eqb_neq : go_bool.

(** Turn every boolean equation of the context and the goal into a proposition. *)
Ltac bool_prop := repeat progress autorewrite with go_bool in *.

(** Case analysis on the guards of a Go body: one case per early return. *)
Ltac guards :=
  repeat first
    [ progress simplify_eq/=
    | case_match
    | match goal with H : mbind _ _ = _ |- _ => unfold mbind, result_bind in H end ];
  try done.

(** ** Lists *)

(** [for _, x := range l { if p(x) { return x } }]. *)
Fixpoint find_first {A B} (f : A -> option B) (l : list A) : option B :=
  match l with
  | [] => None
  | x :: l' => match f x with Some b => Some b | None => find_first f l' end
  end.

Lemma find_first_Some {A B} (f : A -> option B) l b :
  find_first f l = Some b -> exists x, x ∈ l /\ f x = Some b.
Proof.
  induction l as [|x l IH]; simpl; [done|]. destruct (f x) eqn:E; intros H.
  - simplify_eq. exists x. set_solver.
  - destruct (IH H) as (y & Hy & Ey). exists y. set_solver.
Qed.

Lemma find_first_None {A B} (f : A -> option B) l :
  find_first f l = None <-> forall x, x ∈ l -> f x = None.
Proof.
  induction l as [|x l IH]; simpl; [set_solver|]. destruct (f x) eqn:E.
  - split; [done|]. intros H. specialize (H x). set_solver.
  - rewrite IH. set_solver.
Qed.

Lemma find_first_app {A B} (f : A -> option B) l k :
  find_first f (l ++ k) =
  match find_first f l with Some b => Some b | None => find_first f k end.
Proof. induction l as [|x l IH]; simpl; [done|]. by destruct (f x). Qed.

Lemma existsb_elem {A} (p : A -> bool) (l : list A) :
  existsb p l = true <-> exists x, x ∈ l /\ p x = true.
Proof.
  rewrite existsb_exists. split; intros (x & Hx & Hp); exists x; split; try done;
    by apply list_elem_of_In.
Qed.

Lemma forallb_elem {A} (p : A -> bool) (l : list A) :
  forallb p l = true <-> forall x, x ∈ l -> p x = true.
Proof.
  rewrite forallb_forall. split; intros H x Hx; apply H; by apply list_elem_of_In.
Qed.

Lemma exists_last_or_nil {A} (l : list A) : l = [] \/ exists k x, l = k ++ [x].
Proof. destruct l as [|x l] using rev_ind; [by left|right; eauto]. Qed.

(** An element of a list that grew at its end is the new one or was there before. *)
Lemma snoc_split {A} (l : list A) x before y after :
  l ++ [x] = before ++ y :: after ->
  (after = [] /\ before = l /\ y = x) \/ (exists after', after = after' ++ [x] /\ l = before ++ y :: after').
Proof.
  destruct (exists_last_or_nil after) as [->|(after' & z & ->)]; intros E.
  - apply app_inj_tail in E as [-> ->]. by left.
  - right. exists after'. change (y :: after' ++ [z]) with ((y :: after') ++ [z]) in E.
    rewrite (assoc_L (++)) in E. apply app_inj_tail in E as [-> ->]. done.
Qed.

(** A loop whose rounds commute does not depend on the order of the list. *)
Lemma fold_left_perm {A B} (f : A -> B -> A) (l k : list B) (a : A) :
  l ≡ₚ k -> (forall a x y, x ∈ l -> y ∈ l -> f (f a x) y = f (f a y) x) -> fold_left f l a = fold_left f k a.
Proof.
  intros Hp. revert a. induction Hp as [|x l k Hp IH|x y l|l k j H1 IH1 _ IH2]; intros a Hc; simpl.
  - done.
  - apply IH. intros b u v Hu Hv. apply Hc; by right.
  - f_equal. apply Hc; [by left|right; by left].
  - rewrite IH1 by done. apply IH2. intros b u v Hu Hv. apply Hc; by rewrite H1.
Qed.

(** Writing the entries of a map one by one into an empty map, in any order. *)
Lemma fold_insert_perm {V} (m : gmap string V) (l : list (string * V)) :
  l ≡ₚ map_to_list m -> fold_left (fun m kv => <[kv.1 := kv.2]> m) l ∅ = m.
Proof.
  intros H. rewrite <- (rev_involutive l), <- fold_left_rev_right, rev_involutive.
  change (fold_right (fun (kv : string * V) m => <[kv.1 := kv.2]> m) (∅ : gmap string V) (rev l)) with
    (list_to_map (rev l) : gmap string V).
  rewrite <- (list_to_map_to_list m). apply list_to_map_proper.
  - rewrite <- Permutation_rev, H. apply NoDup_fst_map_to_list.
  - by rewrite <- Permutation_rev.
Qed.

(** ** The order of Go strings: bytewise lexicographic *)

Lemma ascii_compare_eq a b : Ascii.compare a b = Eq -> a = b.
Proof.
  unfold Ascii.compare. intros H%N.compare_eq.
  rewrite <- (ascii_N_embedding a), <- (ascii_N_embedding b). by f_equal.
Qed.

Definition str_lt (s t : string) : Prop := String.ltb s t = true.

Lemma ltb_cons a s b t :
  String.ltb (String a s) (String b t) =
  match Ascii.compare a b with Eq => String.ltb s t | Lt => true | Gt => false end.
Proof. unfold String.ltb. simpl. by destruct (Ascii.compare a b). Qed.

#[export] Instance str_lt_irrefl : Irreflexive str_lt.
Proof.
  intros s. unfold complement, str_lt. induction s as [|a s IH]; [done|].
  rewrite ltb_cons. unfold Ascii.compare. by rewrite N.compare_refl.
Qed.

#[export] Instance str_lt_trans : Transitive str_lt.
Proof.
  unfold str_lt. intros s t u. revert t u.
  induction s as [|a s IH]; intros [|b t] [|c u]; try done.
  rewrite !ltb_cons. unfold Ascii.compare.
  destruct (N.compare_spec (N_of_ascii a) (N_of_ascii b)) as [E1|E1|E1];
    destruct (N.compare_spec (N_of_ascii b) (N_of_ascii c)) as [E2|E2|E2];
    destruct (N.compare_spec (N_of_ascii a) (N_of_ascii c)) as [E3|E3|E3];
    try done; try lia; eauto.
Qed.

#[export] Instance str_lt_antisymm : AntiSymm (=) str_lt.
Proof. intros s t H1 H2. destruct (str_lt_irrefl s). by apply (str_lt_trans _ t). Qed.

Lemma str_lt_total s t : String.ltb s t = false -> s <> t -> str_lt t s.
Proof.
  unfold str_lt. revert t. induction s as [|a s IH]; intros [|b t]; try done.
  rewrite !ltb_cons. unfold Ascii.compare.
  destruct (N.compare_spec (N_of_ascii a) (N_of_ascii b)) as [E|E|E]; try done.
  - assert (a = b) as -> by (apply ascii_compare_eq; unfold Ascii.compare; by apply N.compare_eq_iff).
    rewrite N.compare_refl. intros H Hne. apply IH; [done|]. congruence.
  - intros _ _. by apply N.compare_lt_iff in E as ->.
Qed.

(** ** Sorting

    [sort.Slice] with the strict order [lt] and [sort.Strings]: insertion sort,
    which is what the Go library runs on slices of at most twelve elements. *)
Section sorting.
Context {A : Type} (key : A -> string).

Fixpoint insert_by (x : A) (l : list A) : list A :=
  match l with
  | [] => [x]
  | y :: l' => if String.ltb (key x) (key y) then x :: y :: l'
               else y :: insert_by x l'
  end.

(** Elements enter from the left, so equal keys keep their order. *)
Definition sort_by (l : list A) : list A :=
  fold_left (fun acc x => insert_by x acc) l [].

Lemma insert_by_perm x l : insert_by x l ≡ₚ x :: l.
Proof.
  induction l as [|y l IH]; simpl; [done|]. case_match; [done|].
  rewrite IH. by constructor.
Qed.

Lemma sort_by_perm_acc l acc :
  fold_left (fun acc x => insert_by x acc) l acc ≡ₚ acc ++ l.
Proof.
  revert acc. induction l as [|x l IH]; intros acc; simpl.
  - by rewrite app_nil_r.
  - rewrite IH, insert_by_perm. by rewrite <- Permutation_middle.
Qed.

Lemma sort_by_perm l : sort_by l ≡ₚ l.
Proof. unfold sort_by. by rewrite sort_by_perm_acc. Qed.

(** Without duplicate keys the result is strictly sorted, hence it does not
    depend on the order the elements came in. *)
Definition key_lt (x y : A) : Prop := str_lt (key x) (key y).

Lemma insert_by_sorted x l :
  StronglySorted key_lt l -> key x ∉ (key <$> l) ->
  StronglySorted key_lt (insert_by x l).
Proof.
  induction 1 as [|y l Hl IH Hy]; simpl; intros Hx.
  - repeat constructor.
  - destruct (String.ltb (key x) (key y)) eqn:E.
    + constructor; [by constructor|]. constructor; [done|].
      eapply Forall_impl; [exact Hy|]. intros z Hz. unfold key_lt. by etrans.
    + constructor; [apply IH; set_solver|].
      rewrite (insert_by_perm x l). constructor; [|done].
      apply str_lt_total; [done|]. set_solver.
Qed.

Lemma sort_by_sorted l : NoDup (key <$> l) -> StronglySorted key_lt (sort_by l).
Proof.
  unfold sort_by. intros Hnd.
  assert (H : forall acc, StronglySorted key_lt acc -> NoDup (key <$> (acc ++ l)) ->
            StronglySorted key_lt (fold_left (fun acc x => insert_by x acc) l acc)).
  { clear Hnd. induction l as [|x l IH]; intros acc Hs Hnd; simpl; [done|].
    assert (Hp : acc ++ x :: l ≡ₚ insert_by x acc ++ l)
      by by rewrite insert_by_perm, <- Permutation_middle.
    apply IH.
    - apply insert_by_sorted; [done|]. rewrite fmap_app, fmap_cons in Hnd.
      apply NoDup_app in Hnd as (_ & Hnd & _). intros Hin.
      by apply (Hnd _ Hin); left.
    - by rewrite <- Hp. }
  apply H; [constructor|done].
Qed.

#[local] Instance key_lt_trans : Transitive key_lt.
Proof. intros x y z. unfold key_lt. apply str_lt_trans. Qed.
#[local] Instance key_lt_antisymm : AntiSymm (=) key_lt.
Proof. intros x y H1 H2. by destruct (str_lt_irrefl (key x)); etrans. Qed.

Lemma sort_by_unique l k :
  NoDup (key <$> l) -> l ≡ₚ k -> sort_by l = sort_by k.
Proof.
  intros Hnd Hp. apply (StronglySorted_unique key_lt).
  - by apply sort_by_sorted.
  - apply sort_by_sorted. by rewrite <- Hp.
  - by rewrite !sort_by_perm.
Qed.

(** With duplicates the result is weakly sorted. *)
Definition key_le (x y : A) : Prop := String.ltb (key y) (key x) = false.

Lemma key_le_trans_lt x y z : key_lt x y -> key_le y z -> key_le x z.
Proof.
  unfold key_lt, key_le. intros Hxy Hyz. destruct (String.ltb (key z) (key x)) eqn:E; [|done].
  assert (str_lt (key z) (key y)) as H by by apply (str_lt_trans _ (key x)).
  unfold str_lt in H. congruence.
Qed.

Lemma insert_by_weak x l :
  StronglySorted key_le l -> StronglySorted key_le (insert_by x l).
Proof.
  induction 1 as [|y l Hl IH Hy]; simpl; [repeat constructor|].
  destruct (String.ltb (key x) (key y)) eqn:E.
  - constructor; [by constructor|]. constructor.
    + unfold key_le. destruct (String.ltb (key y) (key x)) eqn:E'; [|done].
      exfalso. apply (str_lt_irrefl (key x)). by apply (str_lt_trans _ (key y)).
    + eapply Forall_impl; [exact Hy|]. intros z. by apply key_le_trans_lt.
  - constructor; [done|]. rewrite (insert_by_perm x l). by constructor.
Qed.

Lemma sort_by_weak l : StronglySorted key_le (sort_by l).
Proof.
  unfold sort_by. generalize (SSorted_nil key_le). generalize (@nil A) as acc.
  induction l as [|x l IH]; intros acc Hacc; simpl; [done|]. by apply IH, insert_by_weak.
Qed.

Lemma sort_by_strict_id l : StronglySorted key_lt l -> sort_by l = l.
Proof.
  intros H. apply (StronglySorted_unique key_lt); [|done|apply sort_by_perm].
  apply sort_by_sorted. clear -H.
  induction H as [|x l _ IH Hx]; simpl; constructor; [|done].
  intros (y & Hy & Hin)%list_elem_of_fmap. rewrite Forall_forall in Hx.
  specialize (Hx y Hin). unfold key_lt in Hx. rewrite Hy in Hx.
  by apply (str_lt_irrefl (key y)).
Qed.
End sorting.

(** A change that keeps the keys keeps the order. *)
Lemma sort_by_fmap {A B} (key : A -> string) (key' : B -> string) (f : A -> B) (l : list A) :
  (forall x, key' (f x) = key x) -> f <$> sort_by key l = sort_by key' (f <$> l).
Proof.
  intros Hf. assert (H : forall x acc, f <$> insert_by key x acc = insert_by key' (f x) (f <$> acc)).
  { intros x acc. induction acc as [|y acc IH]; csimpl; [done|]. rewrite !Hf.
    destruct (String.ltb (key x) (key y)); csimpl; [done|]. by rewrite IH. }
  unfold sort_by. change (@nil B) with (f <$> @nil A). generalize (@nil A) as acc.
  induction l as [|x l IH]; intros acc; csimpl; [done|]. by rewrite IH, H.
Qed.
(** Sorting by a key sorts the keys. *)
Lemma sort_by_keys {A} (key : A -> string) (l : list A) : key <$> sort_by key l = sort_by (fun s => s) (key <$> l).
Proof. by apply sort_by_fmap. Qed.
