(* ===== verification/GoStrings.v ===== *)
(** * Byte strings as Go's standard library treats them

    The functions of [strings], [unicode/utf8] and [encoding/hex] the program
    calls.  A Go string is a sequence of bytes, a Rocq [string] of 8-bit
    characters.  UTF-8 decoding is exact ([tokens]); letter case is exact for
    ASCII and for the two non-ASCII letters whose lower case is ASCII (the
    Kelvin sign and the dotted capital I) and for the long s that folds to [s];
    other non-ASCII letters keep their case, which no caller can observe because
    every caller compares the outcome with ASCII text. *)

From S2P Require Import Prelude.
From Stdlib Require Import Ascii.

Notation bytes := (list ascii).

(** The numeric value of a byte. *)
Definition byte (a : ascii) : Z := Z.of_N (N_of_ascii a).
Definition chr (z : Z) : ascii := ascii_of_N (Z.to_N z).

Definition to_bytes : string -> bytes := String.list_ascii_of_string.
Definition of_bytes : bytes -> string := String.string_of_list_ascii.

Definition between (lo x hi : Z) : bool := (lo <=? x)%Z && (x <=? hi)%Z.

(** ** UTF-8 *)

Definition ascii7 (a : ascii) : bool := (byte a <? 128)%Z.
Definition cont (a : ascii) : bool := between 0x80 (byte a) 0xBF.

(** Well-formed encodings of two, three and four bytes. *)
Definition utf8_2 (a b : ascii) : bool := between 0xC2 (byte a) 0xDF && cont b.
Definition utf8_3 (a b c : ascii) : bool :=
  ((byte a =? 0xE0)%Z && between 0xA0 (byte b) 0xBF
   || (between 0xE1 (byte a) 0xEC || between 0xEE (byte a) 0xEF) && cont b
   || (byte a =? 0xED)%Z && between 0x80 (byte b) 0x9F) && cont c.
Definition utf8_4 (a b c d : ascii) : bool :=
  ((byte a =? 0xF0)%Z && between 0x90 (byte b) 0xBF
   || between 0xF1 (byte a) 0xF3 && cont b
   || (byte a =? 0xF4)%Z && between 0x80 (byte b) 0x8F) && cont c && cont d.

(** What [for _, r := range s] yields: the encoding of a rune, or the
    replacement rune (of width one) for a byte that starts no valid encoding. *)
Inductive token := Rune (bs : bytes) | Bad.

#[export] Instance token_eq_dec : EqDecision token.
Proof. solve_decision. Defined.

Fixpoint tokens (l : bytes) : list token :=
  match l with
  | [] => []
  | a :: l1 =>
    if ascii7 a then Rune [a] :: tokens l1 else
    match l1 with
    | b :: l2 =>
      if utf8_2 a b then Rune [a; b] :: tokens l2 else
      match l2 with
      | c :: l3 =>
        if utf8_3 a b c then Rune [a; b; c] :: tokens l3 else
        match l3 with
        | d :: l4 =>
          if utf8_4 a b c d then Rune [a; b; c; d] :: tokens l4
          else Bad :: tokens l1
        | [] => Bad :: tokens l1
        end
      | [] => Bad :: tokens l1
      end
    | [] => Bad :: tokens l1
    end
  end.

Definition proper (t : token) : bool :=
  match t with
  | Bad => true
  | Rune [a] => ascii7 a
  | Rune [a; b] => negb (ascii7 a) && utf8_2 a b
  | Rune [a; b; c] => negb (ascii7 a) && negb (utf8_2 a b) && utf8_3 a b c
  | Rune [a; b; c; d] =>
    negb (ascii7 a) && negb (utf8_2 a b) && negb (utf8_3 a b c) && utf8_4 a b c d
  | Rune _ => false
  end.

(** U+FFFD, the replacement character. *)
Definition replacement : bytes := [chr 0xEF; chr 0xBF; chr 0xBD].
Definition token_bytes (t : token) : bytes :=
  match t with Rune bs => bs | Bad => replacement end.

Definition is_rune (t : token) : bool := match t with Rune _ => true | Bad => false end.
Definition valid_utf8 (s : string) : bool := forallb is_rune (tokens (to_bytes s)).

(** [strings.ToValidUTF8(s, U+FFFD)] on single bytes: what a JSON encoder
    followed by a JSON decoder makes of a Go string. *)
Definition scrub (s : string) : string :=
  of_bytes (mjoin (token_bytes <$> tokens (to_bytes s))).

Lemma of_to_bytes s : of_bytes (to_bytes s) = s.
Proof. apply String.string_of_list_ascii_of_string. Qed.
Lemma to_of_bytes l : to_bytes (of_bytes l) = l.
Proof. apply String.list_ascii_of_string_of_list_ascii. Qed.
#[export] Hint Rewrite of_to_bytes to_of_bytes : go_bytes.

Lemma to_bytes_inj s t : to_bytes s = to_bytes t -> s = t.
Proof. intros H. by rewrite <- (of_to_bytes s), H, of_to_bytes. Qed.

Lemma to_bytes_app s t : to_bytes (s +:+ t) = to_bytes s ++ to_bytes t.
Proof. unfold to_bytes. induction s as [|a s IH]; simpl; [done|]. by rewrite IH. Qed.
Lemma of_bytes_app l k : of_bytes (l ++ k) = of_bytes l +:+ of_bytes k.
Proof. unfold of_bytes. induction l as [|a l IH]; simpl; [done|]. by rewrite IH. Qed.
#[export] Hint Rewrite to_bytes_app of_bytes_app : go_bytes.

Lemma length_to_bytes s : length (to_bytes s) = String.length s.
Proof. unfold to_bytes. induction s as [|a s IH]; simpl; [done|]. by rewrite IH. Qed.
Lemma length_of_bytes l : String.length (of_bytes l) = length l.
Proof. by rewrite <- length_to_bytes, to_of_bytes. Qed.

Lemma append_assoc (s t u : string) : (s +:+ t) +:+ u = s +:+ (t +:+ u).
Proof. apply to_bytes_inj. autorewrite with go_bytes. by rewrite app_assoc. Qed.

Lemma append_inj_l (s t u : string) : s +:+ t = s +:+ u -> t = u.
Proof. intros H%(f_equal to_bytes). autorewrite with go_bytes in H. by apply app_inv_head, to_bytes_inj in H. Qed.

(** Induction that follows the decoder. *)
Lemma bytes_strong_ind (P : bytes -> Prop) :
  (forall l, (forall k, length k < length l -> P k) -> P l) -> forall l, P l.
Proof.
  intros H l. remember (length l) as n eqn:E. revert l E.
  induction n as [n IH] using lt_wf_ind. intros l ->. apply H. eauto.
Qed.

Lemma tokens_proper l : Forall (fun t => proper t = true) (tokens l).
Proof.
  induction l as [l IH] using bytes_strong_ind.
  destruct l as [|a l1]; [constructor|]. cbn [tokens].
  repeat case_match; simplify_eq; constructor; try (apply IH; simpl; lia); simpl;
    repeat match goal with E : ?b = _ |- context [?b] => rewrite E end; done.
Qed.

(** A well-formed encoding is read back as itself, whatever follows. *)
Lemma tokens_rune t l :
  proper t = true -> t <> Bad -> tokens (token_bytes t ++ l) = t :: tokens l.
Proof.
  destruct t as [[|a [|b [|c [|d [|]]]]]|]; simpl; try done; intros H _; bool_prop;
    destruct_and?; by repeat match goal with E : ?b = _ |- context [?b] => rewrite E end.
Qed.

Definition repair (t : token) : token := match t with Bad => Rune replacement | _ => t end.

Lemma tokens_scrub s : tokens (to_bytes (scrub s)) = repair <$> tokens (to_bytes s).
Proof.
  unfold scrub. rewrite to_of_bytes. pose proof (tokens_proper (to_bytes s)) as HP.
  induction HP as [|t ts Ht _ IH]; [done|]. rewrite !fmap_cons.
  change (tokens (token_bytes t ++ mjoin (token_bytes <$> ts)) = repair t :: (repair <$> ts)).
  replace (token_bytes t) with (token_bytes (repair t)) by by destruct t.
  by rewrite tokens_rune, IH; destruct t.
Qed.

Lemma scrub_valid s : valid_utf8 s = true -> scrub s = s.
Proof.
  unfold valid_utf8, scrub. intros H. rewrite <- (of_to_bytes s) at 2. f_equal.
  revert H. generalize (to_bytes s). clear s.
  induction l as [l IH] using bytes_strong_ind. destruct l as [|a l1]; [done|].
  cbn [tokens]. repeat case_match; simpl; try done;
    intros H'; repeat f_equal; apply IH; simplify_eq/=; try done; lia.
Qed.

Lemma scrub_is_valid s : valid_utf8 (scrub s) = true.
Proof.
  unfold valid_utf8. rewrite tokens_scrub. apply forallb_elem. intros t Ht.
  apply list_elem_of_fmap in Ht as ([] & -> & _); done.
Qed.

Lemma scrub_idemp s : scrub (scrub s) = scrub s.
Proof. apply scrub_valid, scrub_is_valid. Qed.

Lemma tokens_inj_valid s t :
  valid_utf8 s = true -> valid_utf8 t = true ->
  tokens (to_bytes s) = tokens (to_bytes t) -> s = t.
Proof.
  intros Hs Ht H. rewrite <- (scrub_valid s), <- (scrub_valid t) by done.
  unfold scrub. by rewrite H.
Qed.

(** ASCII text is valid UTF-8. *)
Definition is_ascii (s : string) : bool := forallb ascii7 (to_bytes s).

Lemma tokens_ascii l : forallb ascii7 l = true -> tokens l = (fun a => Rune [a]) <$> l.
Proof.
  induction l as [|a l IH]; [done|]. simpl. intros H. bool_prop. destruct H as [Ha H].
  rewrite Ha. f_equal. auto.
Qed.

Lemma is_ascii_valid s : is_ascii s = true -> valid_utf8 s = true.
Proof.
  unfold is_ascii, valid_utf8. intros H. rewrite tokens_ascii by done.
  apply forallb_elem. intros t Ht. by apply list_elem_of_fmap in Ht as (a & -> & _).
Qed.

(** ** [strings.TrimSpace] *)

(** The white space of [unicode.IsSpace]: ASCII, NEL and NBSP, and the
    three-byte spaces U+1680, U+2000-200A, U+2028, U+2029, U+202F, U+205F, U+3000. *)
Definition space1 (a : ascii) : bool := between 9 (byte a) 13 || (byte a =? 32)%Z.
Definition space2 (a b : ascii) : bool :=
  (byte a =? 0xC2)%Z && ((byte b =? 0x85)%Z || (byte b =? 0xA0)%Z).
Definition space3 (a b c : ascii) : bool :=
  (byte a =? 0xE1)%Z && (byte b =? 0x9A)%Z && (byte c =? 0x80)%Z
  || (byte a =? 0xE2)%Z && (byte b =? 0x80)%Z
     && (between 0x80 (byte c) 0x8A || between 0xA8 (byte c) 0xA9 || (byte c =? 0xAF)%Z)
  || (byte a =? 0xE2)%Z && (byte b =? 0x81)%Z && (byte c =? 0x9F)%Z
  || (byte a =? 0xE3)%Z && (byte b =? 0x80)%Z && (byte c =? 0x80)%Z.

(** Drop spaces from the front; [p1], [p2] and [p3] recognise one of each width. *)
Section trim.
Context (p1 : ascii -> bool) (p2 : ascii -> ascii -> bool)
        (p3 : ascii -> ascii -> ascii -> bool).

Fixpoint trim_front (l : bytes) : bytes :=
  match l with
  | [] => []
  | a :: l1 =>
    if p1 a then trim_front l1 else
    match l1 with
    | [] => l
    | b :: l2 =>
      if p2 a b then trim_front l2 else
      match l2 with
      | [] => l
      | c :: l3 => if p3 a b c then trim_front l3 else l
      end
    end
  end.

(** No space stands at the front. *)
Definition no_front (l : bytes) : bool :=
  match l with
  | [] => true
  | [a] => negb (p1 a)
  | [a; b] => negb (p1 a) && negb (p2 a b)
  | a :: b :: c :: _ => negb (p1 a) && negb (p2 a b) && negb (p3 a b c)
  end.

Lemma trim_front_no_front l : no_front (trim_front l) = true.
Proof.
  induction l as [l IH] using bytes_strong_ind. destruct l as [|a l1]; [done|].
  cbn [trim_front]. repeat case_match; simplify_eq; try (apply IH; simpl; lia); simpl;
    repeat match goal with E : ?b = _ |- context [?b] => rewrite E end; done.
Qed.

Lemma trim_front_id l : no_front l = true -> trim_front l = l.
Proof.
  destruct l as [|a [|b [|c l]]]; simpl; [done| | |]; intros H; bool_prop;
    destruct_and?; by repeat match goal with E : ?b = _ |- context [?b] => rewrite E end.
Qed.

(** Cutting bytes off the end brings no space to the front. *)
Lemma no_front_app l k : no_front (l ++ k) = true -> no_front l = true.
Proof.
  destruct l as [|a [|b [|c l]]]; simpl; try done; destruct k as [|x [|y k]]; simpl; try done;
    intros H; bool_prop; tauto.
Qed.

Lemma trim_front_suffix l : exists k, l = k ++ trim_front l.
Proof.
  induction l as [l IH] using bytes_strong_ind. destruct l as [|a l1]; [by exists []|].
  cbn [trim_front]. repeat case_match; simplify_eq; try (by exists []);
    match goal with
    | |- exists k, a :: ?l = _ =>
      match goal with |- context [trim_front ?m] =>
        destruct (IH m) as [k Hk]; [simpl; lia|] end
    end.
  all: first [ by exists (a :: k); simpl; f_equal
             | by eexists (_ :: _ :: k); simpl; rewrite <- Hk
             | by eexists (_ :: _ :: _ :: k); simpl; rewrite <- Hk ].
Qed.
End trim.

Definition trim_left : bytes -> bytes := trim_front space1 space2 space3.
Definition trim_right (l : bytes) : bytes :=
  rev (trim_front space1 (fun a b => space2 b a) (fun a b c => space3 c b a) (rev l)).
Definition TrimSpace (s : string) : string := of_bytes (trim_right (trim_left (to_bytes s))).

Lemma trim_right_prefix l : exists k, l = trim_right l ++ k.
Proof.
  unfold trim_right. set (f := trim_front _ _ _).
  destruct (trim_front_suffix space1 (fun a b => space2 b a) (fun a b c => space3 c b a) (rev l))
    as [k Hk]. fold f in Hk. exists (rev k).
  rewrite <- rev_app_distr, <- Hk. by rewrite rev_involutive.
Qed.

Lemma trim_right_idemp l : trim_right (trim_right l) = trim_right l.
Proof.
  unfold trim_right. rewrite rev_involutive. f_equal. apply trim_front_id, trim_front_no_front.
Qed.

Lemma TrimSpace_idemp s : TrimSpace (TrimSpace s) = TrimSpace s.
Proof.
  unfold TrimSpace. rewrite to_of_bytes. f_equal.
  set (l := trim_left (to_bytes s)).
  assert (trim_left (trim_right l) = trim_right l) as ->; [|apply trim_right_idemp].
  destruct (trim_right_prefix l) as [k Hk].
  apply trim_front_id, (no_front_app _ _ _ _ k). rewrite <- Hk.
  apply trim_front_no_front.
Qed.

Example TrimSpace_ascii : TrimSpace "  a b " = "a b".
Proof. reflexivity. Qed.
Example TrimSpace_nbsp :
  TrimSpace (of_bytes [chr 0xC2; chr 0xA0; chr 65; chr 0xE2; chr 0x80; chr 0xA9]) = "A".
Proof. reflexivity. Qed.

(** ** Letter case *)

Definition lower_ascii (a : ascii) : ascii :=
  if between 65 (byte a) 90 then chr (byte a + 32) else a.

Definition lower_token (t : token) : bytes :=
  match t with
  | Rune [a] => [lower_ascii a]
  | Rune bs =>
    if decide (bs = [chr 0xE2; chr 0x84; chr 0xAA]) then [chr 107]
    else if decide (bs = [chr 0xC4; chr 0xB0]) then [chr 105] else bs
  | Bad => replacement
  end.

Definition ToLower (s : string) : string :=
  of_bytes (mjoin (lower_token <$> tokens (to_bytes s))).

(** Simple case folding, and [strings.EqualFold]. *)
Definition fold_token (t : token) : bytes :=
  match t with
  | Rune [a] => [lower_ascii a]
  | Rune bs =>
    if decide (bs = [chr 0xE2; chr 0x84; chr 0xAA]) then [chr 107]
    else if decide (bs = [chr 0xC5; chr 0xBF]) then [chr 115] else bs
  | Bad => replacement
  end.

Definition folded (s : string) : list bytes := fold_token <$> tokens (to_bytes s).
Definition EqualFold (s t : string) : bool := bool_decide (folded s = folded t).

Lemma EqualFold_spec s t : EqualFold s t = true <-> folded s = folded t.
Proof. apply bool_decide_eq_true. Qed.
Lemma EqualFold_refl s : EqualFold s s = true.
Proof. by apply EqualFold_spec. Qed.

(** ** Searching and cutting *)

Fixpoint Contains (s sub : string) : bool :=
  String.prefix sub s ||
  match s with EmptyString => false | String.String _ s' => Contains s' sub end.

Definition HasPrefix (s prefix : string) : bool := String.prefix prefix s.

(** [s[:limit]], used only with [limit <= len(s)]. *)
Definition slice_to (limit : Z) (s : string) : string :=
  of_bytes (take (Z.to_nat limit) (to_bytes s)).
(** [strings.TrimPrefix]. *)
Definition TrimPrefix (s prefix : string) : string :=
  if HasPrefix s prefix then of_bytes (drop (String.length prefix) (to_bytes s)) else s.

(** [strings.ReplaceAll] of one byte by another. *)
Definition replace_byte (old new : ascii) (s : string) : string :=
  of_bytes ((fun a => if Ascii.eqb a old then new else a) <$> to_bytes s).

Lemma slen_of_bytes l : slen (of_bytes l) = Z.of_nat (length l).
Proof. unfold slen. by rewrite length_of_bytes. Qed.

Lemma slen_slice_to limit s : (0 <= limit)%Z -> (slen (slice_to limit s) <= limit)%Z.
Proof.
  intros H. unfold slice_to. rewrite slen_of_bytes, length_take. lia.
Qed.

(** ** [encoding/hex] *)

Definition hex_digit (n : Z) : ascii := chr (if (n <? 10)%Z then 48 + n else 87 + n).
Definition hex_byte (a : ascii) : bytes :=
  [hex_digit (byte a / 16); hex_digit (byte a mod 16)].
Definition hex_encode (l : bytes) : string := of_bytes (mjoin (hex_byte <$> l)).

Definition from_hex (a : ascii) : option Z :=
  let z := byte a in
  if between 48 z 57 then Some (z - 48)%Z
  else if between 97 z 102 then Some (z - 87)%Z
  else if between 65 z 70 then Some (z - 55)%Z
  else None.

Fixpoint hex_decode_bytes (l : bytes) : option bytes :=
  match l with
  | [] => Some []
  | a :: b :: l' =>
    match from_hex a, from_hex b, hex_decode_bytes l' with
    | Some x, Some y, Some r => Some (chr (16 * x + y) :: r)
    | _, _, _ => None
    end
  | [_] => None
  end.
Definition hex_decode (s : string) : option bytes := hex_decode_bytes (to_bytes s).

(** Lower-case hexadecimal digits. *)
Definition lower_hex (a : ascii) : bool := between 48 (byte a) 57 || between 97 (byte a) 102.
Definition is_hex (s : string) : bool := forallb lower_hex (to_bytes s).

Lemma hex_byte_facts (a : ascii) :
  forallb lower_hex (hex_byte a) = true /\
  (from_hex (hex_digit (byte a / 16)), from_hex (hex_digit (byte a mod 16)))
  = (Some (byte a / 16)%Z, Some (byte a mod 16)%Z) /\
  chr (16 * (byte a / 16) + byte a mod 16) = a.
Proof. destruct a as [[] [] [] [] [] [] [] []]; vm_compute; done. Qed.

Lemma lower_hex_facts (a : ascii) :
  lower_hex a = true ->
  ascii7 a = true /\ lower_ascii a = a /\ is_Some (from_hex a) /\ space1 a = false.
Proof.
  destruct a as [[] [] [] [] [] [] [] []]; vm_compute; intros H; try discriminate H;
    repeat split; eauto.
Qed.

Lemma hex_decode_encode l : hex_decode (hex_encode l) = Some l.
Proof.
  unfold hex_decode, hex_encode. rewrite to_of_bytes. induction l as [|a l IH]; [done|].
  destruct (hex_byte_facts a) as (_ & E & Ea). injection E as E1 E2.
  rewrite fmap_cons.
  change (hex_decode_bytes (hex_digit (byte a / 16) :: hex_digit (byte a mod 16)
                              :: mjoin (hex_byte <$> l)) = Some (a :: l)).
  cbn [hex_decode_bytes]. by rewrite E1, E2, IH, Ea.
Qed.

Lemma hex_encode_inj l k : hex_encode l = hex_encode k -> l = k.
Proof. intros H%(f_equal hex_decode). rewrite !hex_decode_encode in H. by simplify_eq. Qed.

Lemma hex_encode_is_hex l : is_hex (hex_encode l) = true.
Proof.
  unfold is_hex, hex_encode. rewrite to_of_bytes. induction l as [|a l IH]; [done|].
  rewrite fmap_cons. change (forallb lower_hex (hex_byte a ++ mjoin (hex_byte <$> l)) = true).
  rewrite forallb_app, IH. destruct (hex_byte_facts a) as (-> & _). done.
Qed.

Lemma slen_hex_encode l : slen (hex_encode l) = (2 * Z.of_nat (length l))%Z.
Proof.
  unfold hex_encode. rewrite slen_of_bytes. induction l as [|a l IH]; [done|].
  change (Z.of_nat (S (S (length (mjoin (hex_byte <$> l))))) = 2 * Z.of_nat (S (length l)))%Z. lia.
Qed.

Lemma is_hex_ascii s : is_hex s = true -> is_ascii s = true.
Proof.
  unfold is_hex, is_ascii. rewrite !forallb_elem. intros H a Ha.
  by apply lower_hex_facts, H.
Qed.

Lemma ascii_folded s :
  is_ascii s = true -> folded s = (fun a => [lower_ascii a]) <$> to_bytes s.
Proof.
  intros H. unfold folded. rewrite tokens_ascii by done. rewrite <- list_fmap_compose. done.
Qed.

Lemma hex_folded s : is_hex s = true -> folded s = (fun a => [a]) <$> to_bytes s.
Proof.
  intros H. rewrite ascii_folded by by apply is_hex_ascii. apply list_fmap_ext.
  intros i a Ha%list_elem_of_lookup_2. unfold is_hex in H. rewrite forallb_elem in H.
  by destruct (lower_hex_facts a) as (_ & -> & _); [apply H|].
Qed.

(** Visible ASCII characters. *)
Definition graphic (a : ascii) : bool := between 33 (byte a) 126.

Lemma lower_hex_graphic a : lower_hex a = true -> graphic a = true.
Proof. unfold lower_hex, graphic, between. intros H. bool_prop. lia. Qed.

Lemma graphic_no_space a b c :
  graphic a = true -> space1 a = false /\ space2 a b = false /\ space2 b a = false /\
  space3 a b c = false /\ space3 c b a = false.
Proof.
  unfold graphic, between. intros Ha. bool_prop.
  assert (H : forall z, between 0xC2 z 0xE3 = true -> (byte a =? z)%Z = false)
    by (unfold between; intros z Hz; bool_prop; lia).
  unfold space2, space3. rewrite !H by done. unfold space1, between.
  split_and!; try done; bool_prop; destruct (decide (byte a < 128)%Z); lia.
Qed.

Lemma graphic_trimmed l : forallb graphic l = true -> forall p2 p3,
  (forall a b, graphic a = true -> p2 a b = false) -> (forall a b c, graphic a = true -> p3 a b c = false) ->
  trim_front space1 p2 p3 l = l.
Proof.
  intros H p2 p3 H2 H3. apply trim_front_id.
  destruct l as [|a [|b [|c l]]]; simpl in *; [done|..]; bool_prop; destruct_and?;
    rewrite ?H2, ?H3 by done; by destruct (graphic_no_space a a a) as [-> _].
Qed.

Lemma TrimSpace_graphic s : forallb graphic (to_bytes s) = true -> TrimSpace s = s.
Proof.
  unfold TrimSpace, trim_left, trim_right. intros H.
  rewrite (graphic_trimmed (to_bytes s)); [|done|..].
  - rewrite graphic_trimmed; [by rewrite rev_involutive, of_to_bytes|..].
    + rewrite forallb_elem in *. intros a Ha. apply H.
      apply list_elem_of_In. apply list_elem_of_In in Ha. by apply in_rev.
    + intros a b Ha. by destruct (graphic_no_space a b b Ha) as (_ & _ & -> & _).
    + intros a b c Ha. by destruct (graphic_no_space a b c Ha) as (_ & _ & _ & _ & ->).
  - intros a b Ha. by destruct (graphic_no_space a b b Ha) as (_ & -> & _).
  - intros a b c Ha. by destruct (graphic_no_space a b c Ha) as (_ & _ & _ & -> & _).
Qed.

Lemma TrimSpace_hex s : is_hex s = true -> TrimSpace s = s.
Proof.
  intros H. apply TrimSpace_graphic. unfold is_hex in H. rewrite forallb_elem in *. intros a Ha.
  apply lower_hex_graphic. by apply H.
Qed.

Lemma ToLower_hex s : is_hex s = true -> ToLower s = s.
Proof.
  intros H. unfold ToLower. pose proof (is_hex_ascii s H) as Ha. unfold is_ascii in Ha.
  rewrite tokens_ascii by done. rewrite <- list_fmap_compose.
  rewrite <- (of_to_bytes s) at 2. f_equal. unfold is_hex in H. clear Ha.
  induction (to_bytes s) as [|a l IH]; [done|]. simpl in H. apply andb_true_iff in H as [Ha Hl].
  rewrite fmap_cons. change (lower_ascii a :: mjoin (lower_token ∘ (fun a => Rune [a]) <$> l) = a :: l).
  rewrite IH by done. by destruct (lower_hex_facts a) as (_ & -> & _).
Qed.

(** Two lower-case digests that fold to the same text are equal. *)
Lemma folded_hex_inj s t : is_hex s = true -> is_hex t = true -> folded s = folded t -> s = t.
Proof.
  intros Hs Ht. rewrite !hex_folded by done. intros H. apply to_bytes_inj.
  revert H. generalize (to_bytes s), (to_bytes t). clear.
  intros l. induction l as [|x l IH]; intros [|y k] H; simplify_eq/=; f_equal; auto.
Qed.

Lemma slen_folded_ascii s : is_ascii s = true -> Z.of_nat (length (folded s)) = slen s.
Proof.
  intros H. rewrite ascii_folded, length_fmap, length_to_bytes by done. done.
Qed.

(** ** Decimal numbers ([%d] of a non-negative number) *)

From Stdlib Require Import DecimalString DecimalN DecimalFacts.

Definition decimal (n : N) : string := NilEmpty.string_of_uint (N.to_uint n).

Lemma decimal_inj n m : decimal n = decimal m -> n = m.
Proof.
  unfold decimal. intros H%(f_equal NilEmpty.uint_of_string).
  rewrite !NilEmpty.usu in H. by simplify_eq; apply Unsigned.to_uint_inj.
Qed.

Definition is_digit (a : ascii) : bool := between 48 (byte a) 57.

Lemma decimal_digits n : forallb is_digit (to_bytes (decimal n)) = true.
Proof.
  unfold decimal. generalize (N.to_uint n) as u. induction u; simpl; done.
Qed.

(** Replacing invalid bytes before lower-casing changes nothing. *)
Lemma ToLower_scrub s : ToLower (scrub s) = ToLower s.
Proof.
  unfold ToLower. rewrite tokens_scrub, <- list_fmap_compose. f_equal. f_equal.
  apply list_fmap_ext. intros i [bs|] _; [done|reflexivity].
Qed.

(** ** ASCII texts stay ASCII *)

Lemma is_ascii_app s t : is_ascii (s +:+ t) = is_ascii s && is_ascii t.
Proof. unfold is_ascii. by rewrite to_bytes_app, forallb_app. Qed.

Lemma is_ascii_TrimSpace s : is_ascii s = true -> is_ascii (TrimSpace s) = true.
Proof.
  unfold is_ascii, TrimSpace. rewrite to_of_bytes. intros H.
  destruct (trim_front_suffix space1 space2 space3 (to_bytes s)) as [k Hk]. fold trim_left in Hk.
  rewrite Hk, forallb_app in H. apply andb_true_iff in H as [_ H].
  destruct (trim_right_prefix (trim_left (to_bytes s))) as [k' Hk'].
  rewrite Hk', forallb_app in H. by apply andb_true_iff in H as [H _].
Qed.

Lemma is_ascii_slice_to limit s : is_ascii s = true -> is_ascii (slice_to limit s) = true.
Proof.
  unfold is_ascii, slice_to. rewrite to_of_bytes. rewrite <- (take_drop (Z.to_nat limit) (to_bytes s)) at 1.
  rewrite forallb_app. intros H. by apply andb_true_iff in H as [H _].
Qed.

Lemma from_hex_ascii a z : from_hex a = Some z -> ascii7 a = true.
Proof.
  unfold from_hex, ascii7, between. intros H. repeat case_match; try done; bool_prop; lia.
Qed.

Lemma is_ascii_hex_decode s l : hex_decode s = Some l -> is_ascii s = true.
Proof.
  unfold hex_decode, is_ascii. generalize (to_bytes s) as k. intros k. revert l.
  induction k as [k IH] using bytes_strong_ind. intros l.
  destruct k as [|a [|b k]]; [done..|]. cbn [hex_decode_bytes].
  destruct (from_hex a) eqn:Ea; [|done]. destruct (from_hex b) eqn:Eb; [|done].
  destruct (hex_decode_bytes k) eqn:Ek; [|done]. intros _. cbn [forallb].
  rewrite (from_hex_ascii _ _ Ea), (from_hex_ascii _ _ Eb). simpl. eapply IH; [simpl; lia|exact Ek].
Qed.
