(* ===== verification/Sha256.v ===== *)
(** * SHA-256 ([crypto/sha256], FIPS 180-4)

    The digest the program puts under plans, audit records and bearer tokens,
    executable, with the standard test vectors.  The theorems of the other files
    use only that it is a function into 32 bytes: they never assume that it has
    no collisions, they exhibit the two colliding texts instead. *)

From S2P Require Import Prelude GoStrings.
From Stdlib Require Import Ascii.
#[local] Open Scope Z_scope.

Definition w32 (x : Z) : Z := Z.land x 0xffffffff.
Definition rotr (n x : Z) : Z := Z.lor (Z.shiftr x n) (w32 (Z.shiftl x (32 - n))).
Definition xor3 (x y z : Z) : Z := Z.lxor (Z.lxor x y) z.

Definition small_sigma0 x := xor3 (rotr 7 x) (rotr 18 x) (Z.shiftr x 3).
Definition small_sigma1 x := xor3 (rotr 17 x) (rotr 19 x) (Z.shiftr x 10).
Definition big_sigma0 x := xor3 (rotr 2 x) (rotr 13 x) (rotr 22 x).
Definition big_sigma1 x := xor3 (rotr 6 x) (rotr 11 x) (rotr 25 x).
Definition choose x y z := Z.lxor (Z.land x y) (Z.land (Z.lxor x 0xffffffff) z).
Definition majority x y z := xor3 (Z.land x y) (Z.land x z) (Z.land y z).

(** The constants are not copied but computed: the first 32 bits of the fractional
    parts of the cube roots of the first 64 primes and of the square roots of the first 8. *)
Definition is_prime (n : Z) : bool :=
  forallb (fun d => negb (n mod d =? 0)) (seqZ 2 (n - 2)).
Definition primes : list Z := Eval vm_compute in filter (fun n => is_prime n = true) (seqZ 2 310).

(** The largest [r < 2 ^ bits] whose cube is at most [n]. *)
Fixpoint cube_root (bits : nat) (r n : Z) : Z :=
  match bits with
  | O => r
  | S bits =>
    let r' := r + 2 ^ Z.of_nat bits in
    cube_root bits (if r' * r' * r' <=? n then r' else r) n
  end.

Definition round_constants : list Z :=
  Eval vm_compute in (fun p => w32 (cube_root 36 0 (p * 2 ^ 96))) <$> primes.

(** The eight working variables. *)
Definition words8 : Type := Z * Z * Z * Z * Z * Z * Z * Z.

Definition initial_hash : words8 := Eval vm_compute in
  match (fun p => w32 (Z.sqrt (p * 2 ^ 64))) <$> take 8 primes with
  | [a; b; c; d; e; f; g; h] => (a, b, c, d, e, f, g, h)
  | _ => (0, 0, 0, 0, 0, 0, 0, 0)
  end.

Definition round (h : words8) (k w : Z) : words8 :=
  let '(a, b, c, d, e, f, g, hh) := h in
  let t1 := w32 (hh + big_sigma1 e + choose e f g + k + w) in
  let t2 := w32 (big_sigma0 a + majority a b c) in
  (w32 (t1 + t2), a, b, c, w32 (d + t1), e, f, g).

(** The message schedule as a sliding window of sixteen words. *)
Definition next_word (w : list Z) : Z :=
  w32 (small_sigma1 (nth 14 w 0) + nth 9 w 0 + small_sigma0 (nth 1 w 0) + nth 0 w 0).

Fixpoint rounds (ks : list Z) (w : list Z) (h : words8) : words8 :=
  match ks with
  | [] => h
  | k :: ks => rounds ks (tl w ++ [next_word w]) (round h k (nth 0 w 0))
  end.

Definition add8 (x y : words8) : words8 :=
  let '(a, b, c, d, e, f, g, h) := x in
  let '(a', b', c', d', e', f', g', h') := y in
  (w32 (a + a'), w32 (b + b'), w32 (c + c'), w32 (d + d'),
   w32 (e + e'), w32 (f + f'), w32 (g + g'), w32 (h + h')).

Fixpoint words (l : list Z) : list Z :=
  match l with
  | a :: b :: c :: d :: r => (a * 0x1000000 + b * 0x10000 + c * 0x100 + d) :: words r
  | _ => []
  end.

(** Each iteration consumes one block of sixteen words. *)
Fixpoint blocks (n : nat) (w : list Z) (h : words8) : words8 :=
  match n with
  | O => h
  | S n => blocks n (drop 16 w) (add8 h (rounds round_constants (take 16 w) h))
  end.

Definition big_endian4 (x : Z) : list Z :=
  [Z.land (Z.shiftr x 24) 255; Z.land (Z.shiftr x 16) 255; Z.land (Z.shiftr x 8) 255; Z.land x 255].

Definition padded (l : list Z) : list Z :=
  let n := Z.of_nat (length l) in
  l ++ [128] ++ repeat 0 (Z.to_nat ((55 - n) mod 64))
    ++ big_endian4 (Z.shiftr (8 * n) 32) ++ big_endian4 (w32 (8 * n)).

(** [sha256.Sum256]. *)
Definition Sum256 (s : string) : bytes :=
  let w := words (padded (byte <$> to_bytes s)) in
  let '(a, b, c, d, e, f, g, h) := blocks (Nat.div (length w) 16) w initial_hash in
  chr <$> (big_endian4 a ++ big_endian4 b ++ big_endian4 c ++ big_endian4 d ++
           big_endian4 e ++ big_endian4 f ++ big_endian4 g ++ big_endian4 h).

(** [hex.EncodeToString(digest[:])]. *)
Definition sha256_hex (s : string) : string := hex_encode (Sum256 s).

Example sha256_empty :
  sha256_hex "" = "e3b0c44298fc1c149afbf4c8996fb92427ae41e4649b934ca495991b7852b855".
Proof. vm_compute. reflexivity. Qed.
Example sha256_abc :
  sha256_hex "abc" = "ba7816bf8f01cfea414140de5dae2223b00361a396177a9cb410ff61f20015ad".
Proof. vm_compute. reflexivity. Qed.
Example sha256_two_blocks :
  sha256_hex "abcdbcdecdefdefgefghfghighijhijkijkljklmklmnlmnomnopnopq"
  = "248d6a61d20638b8e5c026930c3e6039a33ce45964ff2167f6ecedd419db06c1".
Proof. vm_compute. reflexivity. Qed.

Lemma length_Sum256 s : length (Sum256 s) = 32%nat.
Proof.
  unfold Sum256. destruct (blocks _ _ _) as [[[[[[[a b] c] d] e] f] g] h]. done.
Qed.

#[global] Opaque Sum256.

Lemma slen_sha256_hex s : slen (sha256_hex s) = 64.
Proof. unfold sha256_hex. by rewrite slen_hex_encode, length_Sum256. Qed.

Lemma sha256_hex_is_hex s : is_hex (sha256_hex s) = true.
Proof. apply hex_encode_is_hex. Qed.

(** Two different texts with one digest. *)
Definition collision (s t : string) : Prop := s <> t /\ Sum256 s = Sum256 t.

Lemma sha256_hex_inj s t : sha256_hex s = sha256_hex t -> s = t \/ collision s t.
Proof.
  intros H%hex_encode_inj. destruct (decide (s = t)); [by left|by right].
Qed.

(** [subtle.ConstantTimeCompare(x, y) == 1]. *)
Definition ConstantTimeCompare (x y : bytes) : bool := bool_decide (x = y).

(** [decodeSHA256] results are compared by bytes, so equality of digests of
    equal tokens never needs more than reflexivity. *)
Lemma ConstantTimeCompare_true x y : ConstantTimeCompare x y = true <-> x = y.
Proof. apply bool_decide_eq_true. Qed.
