(* ===== verification/GoTime.v ===== *)
(** * [time.Time] and [time.Duration]

    An instant is the number of nanoseconds since the zero value of [time.Time],
    January 1 of year 1, UTC (every instant the program stores has passed
    through [UTC()], which also drops the monotonic reading).  A duration is a
    number of nanoseconds. *)

From S2P Require Import Prelude GoStrings.
From Stdlib Require Import Ascii.
#[local] Open Scope Z_scope.

Notation time := Z.
Notation duration := Z.

Definition Millisecond : duration := 1000000.
Definition Second : duration := 1000 * Millisecond.
Definition Minute : duration := 60 * Second.

(** The methods of [time.Time]. *)
Definition IsZero (t : time) : bool := t =? 0.
Definition After (t u : time) : bool := u <? t.
Definition Before (t u : time) : bool := t <? u.
Definition Add (t : time) (d : duration) : time := t + d.
(** [Sub] saturates at the 64-bit durations. *)
Definition Sub (t u : time) : duration := Z.max (- 2 ^ 63) (Z.min (2 ^ 63 - 1) (t - u)).

(** ** [UTC().Format(time.RFC3339Nano)] *)

(** The Gregorian calendar, counted from March 1 of year 0 in eras of 400 years:
    the year of the era, the day of that year and the month (0 is March). *)
Definition year_of_era (doe : Z) : Z := (doe - doe / 1460 + doe / 36524 - doe / 146096) / 365.
Definition day_of_year (doe yoe : Z) : Z := doe - (365 * yoe + yoe / 4 - yoe / 100).
Definition month_of (doy : Z) : Z := (5 * doy + 2) / 153.

(** Days since March 1 of year 0 to (year, month, day). *)
Definition civil (z : Z) : Z * Z * Z :=
  let era := z / 146097 in
  let doe := z mod 146097 in
  let yoe := year_of_era doe in
  let doy := day_of_year doe yoe in
  let mp := month_of doy in
  let d := doy - (153 * mp + 2) / 5 + 1 in
  let m := if mp <? 10 then mp + 3 else mp - 9 in
  (yoe + era * 400 + (if m <=? 2 then 1 else 0), m, d).

(** [w] decimal digits of [n], most significant first. *)
Fixpoint digits (w : nat) (n : Z) : bytes :=
  match w with
  | O => []
  | S w => digits w (n / 10) ++ [chr (48 + n mod 10)]
  end.

(** The fraction without its trailing zeros. *)
Fixpoint drop_zeros (l : bytes) : bytes :=
  match l with
  | [] => []
  | a :: l => match drop_zeros l with
              | [] => if Ascii.eqb a (chr 48) then [] else [a]
              | r => a :: r
              end
  end.

Definition nanos_per_day : Z := 86400 * Second.
(** January 1 of year 1 comes 306 days after March 1 of year 0. *)
Definition epoch_shift : Z := 306.

Definition format_rfc3339nano (t : time) : string :=
  let '(y, m, d) := civil (t / nanos_per_day + epoch_shift) in
  let n := t mod nanos_per_day in
  let s := n / Second in
  let frac := drop_zeros (digits 9 (n mod Second)) in
  of_bytes (digits 4 y ++ [chr 45] ++ digits 2 m ++ [chr 45] ++ digits 2 d ++ [chr 84]
    ++ digits 2 (s / 3600) ++ [chr 58] ++ digits 2 (s / 60 mod 60) ++ [chr 58] ++ digits 2 (s mod 60)
    ++ (if decide (frac = []) then [] else chr 46 :: frac) ++ [chr 90]).

Example format_zero : format_rfc3339nano 0 = "0001-01-01T00:00:00Z".
Proof. vm_compute. reflexivity. Qed.
(** Unix time 1700000000.5. *)
Definition unix (s : Z) : time := (62135596800 + s) * Second.
Example format_unix : format_rfc3339nano (unix 1700000000 + 500000000) = "2023-11-14T22:13:20.5Z".
Proof. vm_compute. reflexivity. Qed.
Example format_leap : format_rfc3339nano (unix 1709210096) = "2024-02-29T12:34:56Z".
Proof. vm_compute. reflexivity. Qed.

(** ** The text determines the instant *)

(** The instants of the years 1 to 9999, the ones [time.Time] marshals to JSON
    with a four-digit year. *)
Definition max_time : time := 3652059 * nanos_per_day.
Definition time_ok (t : time) : Prop := 0 <= t < max_time.

Lemma length_digits w n : length (digits w n) = w.
Proof. revert n. induction w as [|w IH]; intros n; simpl; [done|]. rewrite length_app, IH. simpl. lia. Qed.

Lemma chr_digit_inj x y : 0 <= x < 10 -> 0 <= y < 10 -> chr (48 + x) = chr (48 + y) -> x = y.
Proof.
  intros Hx Hy. unfold chr. intros H%(f_equal N_of_ascii).
  rewrite !N_ascii_embedding in H by lia. lia.
Qed.

Lemma digits_inj w n m :
  0 <= n < 10 ^ Z.of_nat w -> 0 <= m < 10 ^ Z.of_nat w -> digits w n = digits w m -> n = m.
Proof.
  revert n m. induction w as [|w IH]; intros n m Hn Hm; [simpl in *; lia|].
  rewrite Nat2Z.inj_succ, Z.pow_succ_r in Hn, Hm by lia. cbn [digits]. intros H.
  apply app_inj_2 in H as [H1 H2]; [|done]. apply IH in H1.
  - injection H2 as H2. apply chr_digit_inj in H2; [|apply Z.mod_pos_bound; lia..].
    rewrite (Z.div_mod n 10), (Z.div_mod m 10) by lia. congruence.
  - split; [apply Z.div_pos; lia|apply Z.div_lt_upper_bound; lia].
  - split; [apply Z.div_pos; lia|apply Z.div_lt_upper_bound; lia].
Qed.

(** Fixed-width fields are read off one after the other. *)
Lemma digits_app_inj w n m l k :
  0 <= n < 10 ^ Z.of_nat w -> 0 <= m < 10 ^ Z.of_nat w ->
  digits w n ++ l = digits w m ++ k -> n = m /\ l = k.
Proof.
  intros Hn Hm H. apply app_inj_1 in H as [H ->]; [|by rewrite !length_digits].
  split; [by apply (digits_inj w)|done].
Qed.

(** Padding with zeros undoes [drop_zeros] up to the width. *)
Lemma drop_zeros_pad l : exists n, l = drop_zeros l ++ repeat (chr 48) n.
Proof.
  induction l as [|a l [n IH]]; [by exists 0%nat|]. cbn [drop_zeros].
  destruct (drop_zeros l) as [|b r] eqn:E.
  - destruct (Ascii.eqb_spec a (chr 48)) as [->|].
    + exists (S n). simpl in *. by rewrite IH at 1.
    + exists n. simpl in *. by rewrite IH at 1.
  - exists n. simpl in *. by rewrite IH at 1.
Qed.

Lemma drop_zeros_inj l k : length l = length k -> drop_zeros l = drop_zeros k -> l = k.
Proof.
  intros Hlen H. destruct (drop_zeros_pad l) as [n Hn], (drop_zeros_pad k) as [m Hm].
  assert (n = m) as ->.
  { apply (f_equal length) in Hn, Hm. rewrite length_app, repeat_length in Hn, Hm.
    rewrite H in Hn. lia. }
  by rewrite Hn, Hm, H.
Qed.

Lemma civil_parts doe (yoe := year_of_era doe) (doy := day_of_year doe yoe) (mp := month_of doy) :
  0 <= doe < 146097 ->
  0 <= yoe <= 399 /\ 0 <= doy <= 365 /\ 0 <= mp <= 11 /\ 1 <= doy - (153 * mp + 2) / 5 + 1 <= 31.
Proof.
  intros Hdoe.
  assert (Hy : 0 <= yoe <= 399)
    by (unfold yoe, year_of_era; Z.to_euclidean_division_equations; lia).
  assert (Hd : 0 <= doy <= 365)
    by (unfold doy, day_of_year, yoe, year_of_era; Z.to_euclidean_division_equations; lia).
  split; [done|]. split; [done|]. clearbody doy. unfold mp, month_of.
  Z.to_euclidean_division_equations; lia.
Qed.

Lemma civil_bounds z y m d :
  0 <= z -> civil z = (y, m, d) ->
  1 <= m <= 12 /\ 1 <= d <= 31 /\ 0 <= y <= 400 * (z / 146097) + 400.
Proof.
  unfold civil. intros Hz E.
  assert (0 <= z / 146097) by (apply Z.div_pos; lia).
  destruct (civil_parts (z mod 146097)) as (Hy & Hd & Hm & Hday); [by apply Z.mod_pos_bound|].
  cbv zeta in E. revert E. generalize dependent (month_of (day_of_year (z mod 146097) (year_of_era (z mod 146097)))).
  intros mp ? ? ?. simplify_eq. destruct (Z.ltb_spec mp 10); destruct (Z.leb_spec (mp + 3) 2);
    destruct (Z.leb_spec (mp - 9) 2); lia.
Qed.

(** The inverse of [civil]. *)
Definition days_from_civil (y m d : Z) : Z :=
  let mp := if m <=? 2 then m + 9 else m - 3 in
  let y' := if m <=? 2 then y - 1 else y in
  let yoe := y' mod 400 in
  146097 * (y' / 400) + (365 * yoe + yoe / 4 - yoe / 100 + ((153 * mp + 2) / 5 + d - 1)).

Lemma era_split yoe era : 0 <= yoe <= 399 ->
  (yoe + era * 400) / 400 = era /\ (yoe + era * 400) mod 400 = yoe.
Proof. intros H. Z.to_euclidean_division_equations; lia. Qed.

Lemma days_from_civil_civil z y m d : civil z = (y, m, d) -> days_from_civil y m d = z.
Proof.
  unfold civil. intros E.
  assert (Hz : z = 146097 * (z / 146097) + z mod 146097) by (apply Z.div_mod; lia).
  destruct (civil_parts (z mod 146097)) as (Hy & Hd & Hm & _); [by apply Z.mod_pos_bound|].
  cbv zeta in E. unfold days_from_civil.
  destruct (era_split (year_of_era (z mod 146097)) (z / 146097) Hy) as [E1 E2].
  set (yoe := year_of_era (z mod 146097)) in *.
  set (mp := month_of (day_of_year (z mod 146097) yoe)) in *. injection E as <- <- <-.
  destruct (Z.ltb_spec mp 10) as [Hmp|Hmp].
  - destruct (Z.leb_spec (mp + 3) 2); [lia|].
    rewrite Z.add_0_r, E1, E2, Z.add_simpl_r. unfold day_of_year. lia.
  - destruct (Z.leb_spec (mp - 9) 2); [|lia].
    rewrite Z.add_simpl_r, E1, E2, Z.sub_add. unfold day_of_year. lia.
Qed.

Lemma civil_inj z1 z2 : civil z1 = civil z2 -> z1 = z2.
Proof.
  intros E. destruct (civil z1) as [[y m] d] eqn:E1. symmetry in E.
  by rewrite <- (days_from_civil_civil _ _ _ _ E1), <- (days_from_civil_civil _ _ _ _ E).
Qed.

(** December 31 of year 9999 is the last day before year 10000. *)
Lemma year_9999 z y m d : 0 <= z <= 3652364 -> civil z = (y, m, d) -> y <= 9999.
Proof.
  intros Hz. unfold civil.
  destruct (civil_parts (z mod 146097)) as (Hyo & Hdo & Hmo & _); [by apply Z.mod_pos_bound|].
  intros E; injection E as <- _ _.
  assert (Hz' : z = 146097 * (z / 146097) + z mod 146097) by (apply Z.div_mod; lia).
  assert (He : z / 146097 <= 24) by (apply Z.lt_succ_r, Z.div_lt_upper_bound; lia).
  set (yoe := year_of_era (z mod 146097)) in *. set (doy := day_of_year (z mod 146097) yoe) in *.
  assert (Hlast : z / 146097 = 24 -> yoe = 399 -> month_of doy <= 9).
  { intros E1 E2. unfold month_of. enough (doy <= 305) by (Z.to_euclidean_division_equations; lia).
    unfold doy, day_of_year. rewrite E2. change (399 / 4) with 99. change (399 / 100) with 3. lia. }
  destruct (Z.ltb_spec (month_of doy) 10); destruct (Z.leb_spec (month_of doy + 3) 2);
    destruct (Z.leb_spec (month_of doy - 9) 2); lia.
Qed.

(** The date fields of an admissible instant have their width. *)
Lemma civil_ok t y m d :
  time_ok t -> civil (t / nanos_per_day + epoch_shift) = (y, m, d) ->
  0 <= y < 10 ^ Z.of_nat 4 /\ 0 <= m < 10 ^ Z.of_nat 2 /\ 0 <= d < 10 ^ Z.of_nat 2.
Proof.
  intros [H0 H1] E. unfold max_time in H1.
  assert (Hd : 0 <= t / nanos_per_day) by (apply Z.div_pos; [lia|done]).
  assert (Hd' : t / nanos_per_day <= 3652058)
    by (apply Z.lt_succ_r, Z.div_lt_upper_bound; [done|by rewrite Z.mul_comm]).
  assert (Hz : 0 <= t / nanos_per_day + epoch_shift <= 3652364) by (unfold epoch_shift; lia).
  pose proof (civil_bounds _ _ _ _ (proj1 Hz) E) as (Hm & Hday & Hy).
  pose proof (year_9999 _ _ _ _ Hz E).
  change (10 ^ Z.of_nat 4) with 10000. change (10 ^ Z.of_nat 2) with 100. lia.
Qed.

(** Hours, minutes, seconds and nanoseconds of the day. *)
Lemma clock_inj n1 n2 :
  0 <= n1 -> 0 <= n2 ->
  n1 / Second / 3600 = n2 / Second / 3600 ->
  n1 / Second / 60 mod 60 = n2 / Second / 60 mod 60 ->
  n1 / Second mod 60 = n2 / Second mod 60 ->
  n1 mod Second = n2 mod Second -> n1 = n2.
Proof.
  change Second with 1000000000. intros. Z.to_euclidean_division_equations; lia.
Qed.

Lemma clock_bounds t (n := t mod nanos_per_day) :
  0 <= n /\ 0 <= n / Second / 3600 < 10 ^ Z.of_nat 2 /\
  0 <= n / Second / 60 mod 60 < 10 ^ Z.of_nat 2 /\ 0 <= n / Second mod 60 < 10 ^ Z.of_nat 2 /\
  0 <= n mod Second < 10 ^ Z.of_nat 9.
Proof.
  change (10 ^ Z.of_nat 9) with 1000000000. change (10 ^ Z.of_nat 2) with 100.
  assert (0 <= n < 86400000000000) by (apply Z.mod_pos_bound; done). clearbody n.
  change Second with 1000000000. Z.to_euclidean_division_equations; lia.
Qed.

Lemma fraction_inj f g :
  (if decide (f = []) then [] else chr 46 :: f) ++ [chr 90]
  = (if decide (g = []) then [] else chr 46 :: g) ++ [chr 90] -> f = g.
Proof. intros H%app_inj_2; [|done]. destruct H as [H _]. repeat case_decide; by simplify_eq. Qed.

(** Equal texts, equal instants. *)
Lemma format_rfc3339nano_inj t u :
  time_ok t -> time_ok u -> format_rfc3339nano t = format_rfc3339nano u -> t = u.
Proof.
  intros Ht Hu. unfold format_rfc3339nano.
  destruct (civil (t / _ + _)) as [[y1 m1] d1] eqn:E1.
  destruct (civil (u / _ + _)) as [[y2 m2] d2] eqn:E2.
  destruct (civil_ok _ _ _ _ Ht E1) as (? & ? & ?), (civil_ok _ _ _ _ Hu E2) as (? & ? & ?).
  destruct (clock_bounds t) as (? & ? & ? & ? & ?), (clock_bounds u) as (? & ? & ? & ? & ?).
  intros E%(f_equal to_bytes). rewrite !to_of_bytes in E.
  repeat first [ apply digits_app_inj in E as [? E]; [|done..]
               | apply (app_inv_head [_]) in E ].
  apply fraction_inj, drop_zeros_inj in E; [|by rewrite !length_digits].
  apply digits_inj in E; [|done..]. subst.
  assert (t / nanos_per_day = u / nanos_per_day)
    by (rewrite <- E2 in E1; apply civil_inj in E1; lia).
  assert (t mod nanos_per_day = u mod nanos_per_day) by (apply clock_inj; done).
  rewrite (Z.div_mod t nanos_per_day), (Z.div_mod u nanos_per_day) by done. congruence.
Qed.

(** The text is plain ASCII. *)
Lemma digits_ascii w n : 0 <= n -> forallb ascii7 (digits w n) = true.
Proof.
  revert n. induction w as [|w IH]; intros n Hn; [done|]. cbn [digits].
  rewrite forallb_app, IH by (apply Z.div_pos; lia). simpl.
  pose proof (Z.mod_pos_bound n 10 ltac:(lia)). unfold ascii7, byte, chr.
  rewrite N_ascii_embedding by lia. destruct (Z.ltb_spec (Z.of_N (Z.to_N (48 + n mod 10))) 128); [done|lia].
Qed.

Lemma drop_zeros_ascii l : forallb ascii7 l = true -> forallb ascii7 (drop_zeros l) = true.
Proof.
  destruct (drop_zeros_pad l) as [n Hn]. rewrite Hn at 1. rewrite forallb_app.
  by intros [H _]%andb_true_iff.
Qed.

Lemma format_ascii t : time_ok t -> is_ascii (format_rfc3339nano t) = true.
Proof.
  intros Ht. unfold is_ascii, format_rfc3339nano.
  destruct (civil (t / _ + _)) as [[y m] d] eqn:E.
  destruct (civil_ok _ _ _ _ Ht E) as (? & ? & ?), (clock_bounds t) as (? & ? & ? & ? & ?).
  rewrite to_of_bytes, !forallb_app, !digits_ascii by lia.
  repeat match goal with |- context [forallb ascii7 [chr ?z]] =>
    change (forallb ascii7 [chr z]) with true end.
  pose proof (drop_zeros_ascii (digits 9 ((t mod nanos_per_day) mod Second))) as Hf.
  rewrite digits_ascii in Hf by lia. specialize (Hf eq_refl).
  destruct (decide _); [done|].
  match goal with |- context [forallb ascii7 (chr 46 :: ?l)] =>
    change (forallb ascii7 (chr 46 :: l)) with (forallb ascii7 l) end.
  by rewrite Hf.
Qed.
