(* ===== verification/GoConv.v ===== *)
(** * Numbers, durations and addresses as Go's standard library reads them

    [strconv.ParseInt] in base 10, [time.ParseDuration], [net.SplitHostPort], [net.ParseIP] with [IP.IsLoopback],
    [strings.Trim] with a cutset and [filepath.IsAbs].  The binary64 arithmetic of a duration with a fraction is that of
    the Standard Library's [SpecFloat]. *)

From Stdlib Require Import Ascii SpecFloat.
From S2P Require Import Prelude GoStrings GoTime.
#[local] Open Scope Z_scope.

(** ** Integers *)

Definition digit (a : ascii) : Z := byte a - 48.

Definition read_digits (l : bytes) (acc : Z) : Z := fold_left (fun n a => 10 * n + digit a) l acc.

Definition MinInt64 : Z := - 2 ^ 63.
Definition MaxInt64 : Z := 2 ^ 63 - 1.

(** [strconv.ParseInt(s, 10, 64)], and [strconv.Atoi] on 64-bit machines. *)
Definition ParseInt (s : string) : option Z :=
  let '(sign, digits) :=
    match to_bytes s with
    | a :: l => if byte a =? 45 then (-1, l) else if byte a =? 43 then (1, l) else (1, a :: l)
    | [] => (1, [])
    end in
  if bool_decide (digits = []) || negb (forallb is_digit digits) then None
  else
    let value := sign * read_digits digits 0 in
    if between MinInt64 value MaxInt64 then Some value else None.

(** ** Durations *)

(** [leadingInt]: the digits in front and the rest; [None] on overflow. *)
Fixpoint leadingInt (x : Z) (l : bytes) : option (Z * bytes) :=
  match l with
  | a :: rest =>
    if is_digit a then
      if 2 ^ 63 / 10 <? x then None
      else
        let x := 10 * x + digit a in
        if 2 ^ 63 <? x then None else leadingInt x rest
    else Some (x, l)
  | [] => Some (x, [])
  end.

Definition float64 (z : Z) : spec_float := binary_normalize 53 1024 z 0 false.
Definition fmul : spec_float -> spec_float -> spec_float := SFmul 53 1024.
Definition fdiv : spec_float -> spec_float -> spec_float := SFdiv 53 1024.

(** The conversion to [uint64] of a small non-negative number. *)
Definition truncate (f : spec_float) : Z :=
  match f with
  | S754_finite false m e => Z.shiftl (Zpos m) e
  | _ => 0
  end.

(** [leadingFraction]: digits that would overflow are skipped. *)
Fixpoint leadingFraction (x : Z) (scale : spec_float) (overflow : bool) (l : bytes) : Z * spec_float * bytes :=
  match l with
  | a :: rest =>
    if is_digit a then
      if overflow then leadingFraction x scale overflow rest
      else if (2 ^ 63 - 1) / 10 <? x then leadingFraction x scale true rest
      else
        let y := 10 * x + digit a in
        if 2 ^ 63 <? y then leadingFraction x scale true rest
        else leadingFraction y (fmul scale (float64 10)) false rest
    else (x, scale, l)
  | [] => (x, scale, [])
  end.

(** [unitMap]; the micro sign and the Greek letter mu are two bytes each. *)
Definition unit_of (u : string) : option Z :=
  if u == "ns" then Some 1
  else if (u == "us") || (u == of_bytes [chr 0xC2; chr 0xB5; chr 115]) || (u == of_bytes [chr 0xCE; chr 0xBC; chr 115])
  then Some 1000
  else if u == "ms" then Some Millisecond
  else if u == "s" then Some Second
  else if u == "m" then Some Minute
  else if u == "h" then Some (60 * Minute)
  else None.

Definition unit_byte (a : ascii) : bool := negb ((byte a =? 46) || is_digit a).

(** The longest prefix of bytes with the property, and the rest. *)
Fixpoint span (p : ascii -> bool) (l : bytes) : bytes * bytes :=
  match l with
  | a :: rest => if p a then let '(u, rest) := span p rest in (a :: u, rest) else ([], l)
  | [] => ([], [])
  end.

(** One number with its unit: its value in nanoseconds, and the rest. *)
Definition duration_term (l : bytes) : option (Z * bytes) :=
  match leadingInt 0 l with
  | None => None
  | Some (v, rest) =>
    let pre := bool_decide (length rest <> length l) in
    let '(f, scale, rest', post) :=
      match rest with
      | a :: after =>
        if byte a =? 46 then
          let '(f, scale, after') := leadingFraction 0 (float64 1) false after in
          (f, scale, after', bool_decide (length after' <> length after))
        else (0, float64 1, rest, false)
      | [] => (0, float64 1, [], false)
      end in
    if negb pre && negb post then None
    else
      let '(u, rest'') := span unit_byte rest' in
      match unit_of (of_bytes u) with
      | None => None (* a missing unit too *)
      | Some unit =>
        if 2 ^ 63 / unit <? v then None
        else
          let v := v * unit in
          let v := if 0 <? f then v + truncate (fmul (float64 f) (fdiv (float64 unit) scale)) else v in
          if 2 ^ 63 <? v then None else Some (v, rest'')
      end
  end.

Definition starts_term (l : bytes) : bool :=
  match l with a :: _ => (byte a =? 46) || is_digit a | [] => false end.

(** The loop over the terms; every term is shorter than what it is read from, so [n] is never exhausted
    ([duration_terms_fuel]). *)
Fixpoint duration_terms (n : nat) (d : Z) (l : bytes) : option Z :=
  match l, n with
  | [], _ => Some d
  | _ :: _, O => None
  | _ :: _, S n =>
    if negb (starts_term l) then None
    else
      match duration_term l with
      | None => None
      | Some (v, rest) =>
        let d := (d + v) mod 2 ^ 64 in
        if 2 ^ 63 <? d then None else duration_terms n d rest
      end
  end.

(** [time.ParseDuration]. *)
Definition ParseDuration (s : string) : option duration :=
  let '(neg, l) :=
    match to_bytes s with
    | a :: rest => if (byte a =? 45) || (byte a =? 43) then (byte a =? 45, rest) else (false, a :: rest)
    | [] => (false, [])
    end in
  if of_bytes l == "0" then Some 0
  else if bool_decide (l = []) then None
  else
    d ← duration_terms (length l) 0 l;
    if neg then Some (- d) else if 2 ^ 63 - 1 <? d then None else Some d.

(** ** Addresses *)

(** [strings.Trim] with a cutset of ASCII characters. *)
Fixpoint drop_set (set : list ascii) (l : bytes) : bytes :=
  match l with
  | a :: rest => if bool_decide (a ∈ set) then drop_set set rest else l
  | [] => []
  end.
Definition Trim (s cutset : string) : string :=
  let set := to_bytes cutset in of_bytes (rev (drop_set set (rev (drop_set set (to_bytes s))))).

(** Before and after the first, or the last, occurrence of a byte. *)
Fixpoint cut_first (c : ascii) (l : bytes) : option (bytes * bytes) :=
  match l with
  | [] => None
  | a :: rest =>
    if Ascii.eqb a c then Some ([], rest)
    else '(before, after) ← cut_first c rest; Some (a :: before, after)
  end.
Definition cut_last (c : ascii) (l : bytes) : option (bytes * bytes) :=
  '(before, after) ← cut_first c (rev l); Some (rev after, rev before).

Definition has_byte (c : ascii) (l : bytes) : bool := existsb (Ascii.eqb c) l.

Definition colon : ascii := chr 58.
Definition open_bracket : ascii := chr 91.
Definition close_bracket : ascii := chr 93.

(** [net.SplitHostPort]: host and port. *)
Definition split_host_port (l : bytes) : option (bytes * bytes) :=
  '(before, port) ← cut_last colon l;
  if match l with a :: _ => Ascii.eqb a open_bracket | [] => false end then
    '(bracketed, after) ← cut_first close_bracket l;
    if bool_decide (before = bracketed ++ [close_bracket])
       && negb (has_byte open_bracket (drop 1 l)) && negb (has_byte close_bracket after)
    then Some (drop 1 bracketed, port) else None
  else if has_byte colon before || has_byte open_bracket l || has_byte close_bracket l then None
  else Some (before, port).
Definition SplitHostPort (address : string) : option (string * string) :=
  '(host, port) ← split_host_port (to_bytes address); Some (of_bytes host, of_bytes port).

(** [netip.parseIPv4Fields]: the four bytes; [val] and [digLen] belong to the current one. *)
Fixpoint parseIPv4Fields (val : Z) (digLen : nat) (fields : list Z) (l : bytes) : option (list Z) :=
  match l with
  | [] => if (length fields <? 3)%nat then None else Some (fields ++ [val])
  | a :: rest =>
    if is_digit a then
      if (digLen =? 1)%nat && (val =? 0) then None
      else
        let val := 10 * val + digit a in
        if 255 <? val then None else parseIPv4Fields val (S digLen) fields rest
    else if byte a =? 46 then
      if (digLen =? 0)%nat || bool_decide (rest = []) then None
      else if (length fields =? 3)%nat then None
      else parseIPv4Fields 0 0 (fields ++ [val]) rest
    else None
  end.

Definition is_hex_digit (a : ascii) : bool := bool_decide (is_Some (from_hex a)).
Definition read_hex (l : bytes) : Z := fold_left (fun n a => 16 * n + default 0 (from_hex a)) l 0.

(** The loop of [netip.parseIPv6]; [n] counts the groups of two bytes that are left. *)
Fixpoint parse_groups (n : nat) (ip : list Z) (ellipsis : option nat) (l : bytes) : option (list Z * option nat * bytes) :=
  match n with
  | O => Some (ip, ellipsis, l)
  | S n =>
    let '(digits, rest) := span is_hex_digit l in
    if (4 <? length digits)%nat || (length digits =? 0)%nat then None
    else
      match rest with
      | [] => Some (ip ++ [read_hex digits / 256; read_hex digits mod 256], ellipsis, [])
      | a :: rest1 =>
        if byte a =? 46 then
          if bool_decide (ellipsis = None) && negb (length ip =? 12)%nat then None
          else if (16 <? length ip + 4)%nat then None
          else fields ← parseIPv4Fields 0 0 [] l; Some (ip ++ fields, ellipsis, [])
        else
          let ip := ip ++ [read_hex digits / 256; read_hex digits mod 256] in
          if negb (Ascii.eqb a colon) then None
          else
            match rest1 with
            | [] => None
            | b :: rest2 =>
              if Ascii.eqb b colon then
                if bool_decide (is_Some ellipsis) then None
                else if bool_decide (rest2 = []) then Some (ip, Some (length ip), [])
                else parse_groups n ip (Some (length ip)) rest2
              else parse_groups n ip ellipsis rest1
            end
      end
  end.

(** [netip.parseIPv6] without a zone, which [net.ParseIP] does not accept. *)
Definition parseIPv6 (l : bytes) : option (list Z) :=
  let '(ellipsis, rest) :=
    match l with
    | a :: b :: rest => if Ascii.eqb a colon && Ascii.eqb b colon then (Some 0%nat, rest) else (None, l)
    | _ => (None, l)
    end in
  if bool_decide (is_Some ellipsis) && bool_decide (rest = []) then Some (replicate 16 0)
  else
    '(ip, ellipsis, rest) ← parse_groups 8 [] ellipsis rest;
    if negb (bool_decide (rest = [])) then None
    else if (length ip <? 16)%nat then
      at_index ← ellipsis;
      Some (take at_index ip ++ replicate (16 - length ip) 0 ++ drop at_index ip)
    else if bool_decide (is_Some ellipsis) then None
    else Some ip.

(** [netip.ParseAddr] looks for the first dot, colon or percent sign. *)
Fixpoint addr_family (l : bytes) : option ascii :=
  match l with
  | [] => None
  | a :: rest => if (byte a =? 46) || (byte a =? 58) || (byte a =? 37) then Some a else addr_family rest
  end.

(** [net.ParseIP]: the 16 bytes. *)
Definition ParseIP (s : string) : option (list Z) :=
  let l := to_bytes s in
  family ← addr_family l;
  if byte family =? 46 then fields ← parseIPv4Fields 0 0 [] l; Some (replicate 10 0 ++ [255; 255] ++ fields)
  else if (byte family =? 37) || has_byte (chr 37) l then None
  else parseIPv6 l.

(** [IP.IsLoopback]. *)
Definition IsLoopback (ip : list Z) : bool :=
  if bool_decide (take 12 ip = replicate 10 0 ++ [255; 255]) then bool_decide (ip !! 12%nat = Some 127)
  else bool_decide (ip = replicate 15 0 ++ [1]).

(** [filepath.IsAbs] on Unix. *)
Definition IsAbs (path : string) : bool := HasPrefix path "/".

(** ** Decimal numbers are read back *)

Lemma append_nil_r s : s +:+ "" = s.
Proof. apply to_bytes_inj. rewrite to_bytes_app. apply app_nil_r. Qed.

From Stdlib Require Import DecimalString DecimalN.

Lemma read_digits_app l k acc : read_digits (l ++ k) acc = read_digits k (read_digits l acc).
Proof. apply fold_left_app. Qed.

Lemma read_digits_pos (u : Decimal.uint) (p : positive) :
  Z.pos (Pos.of_uint_acc u p) = read_digits (to_bytes (NilEmpty.string_of_uint u)) (Z.pos p).
Proof.
  revert p. induction u as [|u IH|u IH|u IH|u IH|u IH|u IH|u IH|u IH|u IH|u IH]; intros p; [done|..];
    cbn [Pos.of_uint_acc]; rewrite IH; cbn [NilEmpty.string_of_uint to_bytes String.list_ascii_of_string];
    unfold read_digits; cbn [fold_left]; f_equal.
  all: rewrite ?Pos2Z.inj_add, Pos2Z.inj_mul; match goal with |- context [digit ?a] => change (digit a) with (byte a - 48) end;
    match goal with |- context [byte ?a] => let v := eval vm_compute in (byte a) in change (byte a) with v end; lia.
Qed.

Lemma read_digits_uint (u : Decimal.uint) :
  Z.of_N (N.of_uint u) = read_digits (to_bytes (NilEmpty.string_of_uint u)) 0.
Proof.
  unfold N.of_uint. induction u as [|u IH|u _|u _|u _|u _|u _|u _|u _|u _|u _]; [done|exact IH|..]; simpl;
    rewrite ?read_digits_pos; reflexivity.
Qed.

Lemma read_digits_decimal n : read_digits (to_bytes (decimal n)) 0 = Z.of_N n.
Proof. unfold decimal. by rewrite <- read_digits_uint, DecimalN.Unsigned.of_to. Qed.

Lemma digit_range a : is_digit a = true -> 0 <= digit a <= 9.
Proof. unfold is_digit, between, digit. intros H. bool_prop. lia. Qed.

Lemma read_digits_mono l acc : forallb is_digit l = true -> 0 <= acc -> acc <= read_digits l acc.
Proof.
  revert acc. induction l as [|a l IH]; intros acc H Hacc; [unfold read_digits; simpl; lia|].
  simpl in H. apply andb_true_iff in H as [Ha H]. pose proof (digit_range a Ha).
  unfold read_digits. simpl. fold (read_digits l (10 * acc + digit a)). etransitivity; [|apply IH; [exact H|lia]]. lia.
Qed.

Lemma decimal_start n : exists a l, to_bytes (decimal n) = a :: l /\ is_digit a = true.
Proof.
  pose proof (decimal_digits n) as H. destruct (to_bytes (decimal n)) as [|a l] eqn:E.
  - exfalso. pose proof (read_digits_decimal n) as Hr. rewrite E in Hr. unfold read_digits in Hr. simpl in Hr.
    assert (n = 0%N) as -> by lia. discriminate E.
  - exists a, l. split; [done|]. simpl in H. by apply andb_true_iff in H as [? _].
Qed.

Lemma digit_not_sign a : is_digit a = true -> (byte a =? 45) = false /\ (byte a =? 43) = false /\ (byte a =? 46) = false.
Proof. unfold is_digit, between. intros H. bool_prop. split_and!; lia. Qed.

Lemma ParseInt_decimal n : ParseInt (decimal n) = if Z.of_N n <=? MaxInt64 then Some (Z.of_N n) else None.
Proof.
  unfold ParseInt. destruct (decimal_start n) as (a & l & E & Ha). pose proof (decimal_digits n) as Hd.
  pose proof (read_digits_decimal n) as Hr. rewrite E in *. destruct (digit_not_sign a Ha) as (-> & -> & _).
  rewrite bool_decide_eq_false_2 by done. rewrite Hd, Hr. cbn [negb orb]. unfold between, MinInt64, MaxInt64.
  rewrite Z.mul_1_l. by rewrite (proj2 (Z.leb_le (- 2 ^ 63) _)) by lia.
Qed.

Lemma ParseInt_range s v : ParseInt s = Some v -> MinInt64 <= v <= MaxInt64.
Proof.
  unfold ParseInt. destruct (match to_bytes s with [] => _ | _ :: _ => _ end) as [sign digits].
  destruct (_ || _); [done|]. destruct (between _ _ _) eqn:E; [|done]. intros [= <-]. unfold between in E. bool_prop. lia.
Qed.

(** *** Durations *)

Definition no_digit_front (l : bytes) : bool := match l with a :: _ => negb (is_digit a) | [] => true end.

Lemma leadingInt_digits x d l :
  forallb is_digit d = true -> no_digit_front l = true -> 0 <= x ->
  leadingInt x (d ++ l) = if read_digits d x <=? 2 ^ 63 then Some (read_digits d x, l) else
    if bool_decide (d = []) then Some (x, l) else None.
Proof.
  revert x. induction d as [|a d IH]; intros x Hd Hl Hx.
  - cbn [app]. unfold read_digits. cbn [fold_left]. rewrite bool_decide_eq_true_2 by done.
    assert (leadingInt x l = Some (x, l)) as ->; [|by destruct (_ <=? _)].
    destruct l as [|b l]; [done|]. simpl in *. by destruct (is_digit b).
  - simpl in Hd. apply andb_true_iff in Hd as [Ha Hd]. pose proof (digit_range a Ha) as Hr.
    cbn [app leadingInt]. rewrite Ha. unfold read_digits. cbn [fold_left]. fold (read_digits d (10 * x + digit a)).
    pose proof (read_digits_mono d (10 * x + digit a) Hd ltac:(lia)) as Hm.
    rewrite (bool_decide_eq_false_2 (a :: d = [])) by done.
    assert (Hdiv : 2 ^ 63 / 10 < x -> 2 ^ 63 < 10 * x) by (change (2 ^ 63 / 10) with 922337203685477580; lia).
    destruct (Z.ltb_spec (2 ^ 63 / 10) x) as [H1|H1].
    { rewrite (proj2 (Z.leb_gt _ _)) by lia. done. }
    destruct (Z.ltb_spec (2 ^ 63) (10 * x + digit a)) as [H2|H2].
    { rewrite (proj2 (Z.leb_gt _ _)) by lia. done. }
    rewrite IH by (done || lia). destruct (Z.leb_spec (read_digits d (10 * x + digit a)) (2 ^ 63)); [done|].
    case_bool_decide as He; [|done]. subst d. unfold read_digits in *. simpl in *. lia.
Qed.

Lemma span_all p u l : forallb p u = true -> (match l with a :: _ => p a = false | [] => True end) -> span p (u ++ l) = (u, l).
Proof.
  induction u as [|a u IH]; simpl; intros Hu Hl.
  - destruct l as [|b l]; [done|]. simpl. by rewrite Hl.
  - apply andb_true_iff in Hu as [-> Hu]. by rewrite IH.
Qed.

Lemma span_length p l : (length (span p l).1 + length (span p l).2 = length l)%nat.
Proof. induction l as [|a l IH]; simpl; [done|]. destruct (p a); [|done]. destruct (span p l). simpl in *. lia. Qed.

Lemma leadingInt_shorter x l v rest : leadingInt x l = Some (v, rest) -> (length rest <= length l)%nat.
Proof.
  revert x. induction l as [|a l IH]; intros x; simpl; [by intros [= _ <-]|].
  destruct (is_digit a); [|by intros [= _ <-]]. repeat case_match; try done. intros Hrec%IH. lia.
Qed.

Lemma leadingFraction_shorter x scale o l : (length (leadingFraction x scale o l).2 <= length l)%nat.
Proof.
  revert x scale o. induction l as [|a l IH]; intros x scale o; simpl; [done|].
  repeat case_match; simpl; try lia; match goal with |- context [leadingFraction ?x ?s ?o l] => specialize (IH x s o) end; lia.
Qed.

(** A term ends with a unit, so it is not empty. *)
Lemma duration_term_shorter l v rest : duration_term l = Some (v, rest) -> (length rest < length l)%nat.
Proof.
  unfold duration_term. destruct (leadingInt 0 l) as [[v0 rest0]|] eqn:E0; [|done].
  apply leadingInt_shorter in E0. destruct (match rest0 with [] => _ | _ :: _ => _ end) as [[[f scale] rest1] post] eqn:E1.
  assert (H1 : (length rest1 <= length rest0)%nat).
  { destruct rest0 as [|a after]; [by simplify_eq|]. destruct (byte a =? 46); [|by simplify_eq].
    pose proof (leadingFraction_shorter 0 (float64 1) false after) as H. destruct (leadingFraction _ _ _ _) as [[f' s'] after'].
    simplify_eq/=. lia. }
  destruct (_ && _); [done|]. pose proof (span_length unit_byte rest1) as H2. destruct (span unit_byte rest1) as [u rest2].
  destruct (unit_of (of_bytes u)) as [k|] eqn:Eu; [|done]. repeat case_match; try done; intros; simplify_eq/=;
    (destruct u as [|b u]; [discriminate Eu|simpl in *; lia]).
Qed.

Lemma duration_terms_fuel n d l : (length l <= n)%nat -> duration_terms n d l = duration_terms (length l) d l.
Proof.
  revert d l. induction n as [n IH] using lt_wf_ind. intros d l Hn. destruct l as [|a l]; [by destruct n|].
  destruct n as [|n]; [simpl in Hn; lia|]. cbn [length duration_terms]. destruct (negb _); [done|].
  destruct (duration_term (a :: l)) as [[v rest]|] eqn:E; [|done]. apply duration_term_shorter in E.
  destruct (_ <? _); [done|]. simpl in *. rewrite (IH n) by lia. symmetry. apply IH; simpl; lia.
Qed.

Lemma duration_terms_range n d l v : 0 <= d <= 2 ^ 63 -> duration_terms n d l = Some v -> 0 <= v <= 2 ^ 63.
Proof.
  revert d l. induction n as [|n IH]; intros d l Hd; destruct l as [|a l]; simpl; try done; try by intros [= <-].
  destruct (negb _); [done|]. destruct (duration_term _) as [[w rest]|]; [|done].
  destruct (2 ^ 63 <? (d + w) mod 2 ^ 64) eqn:E; [done|]. apply IH. bool_prop.
  pose proof (Z.mod_pos_bound (d + w) (2 ^ 64) ltac:(lia)). lia.
Qed.

Lemma ParseDuration_range s d : ParseDuration s = Some d -> MinInt64 <= d <= MaxInt64.
Proof.
  unfold ParseDuration, MinInt64, MaxInt64. destruct (match to_bytes s with [] => _ | _ :: _ => _ end) as [neg l].
  destruct (of_bytes l == "0"); [intros [= <-]; lia|]. case_bool_decide; [done|].
  destruct (duration_terms (length l) 0 l) as [v|] eqn:E; [|done]. apply duration_terms_range in E; [|lia]. simpl.
  destruct neg; [intros [= <-]; lia|]. destruct (Z.ltb_spec (2 ^ 63 - 1) v); [done|]. intros [= <-]. lia.
Qed.

(** A number of whole units. *)
Lemma duration_term_decimal n u k :
  unit_of u = Some k -> 0 < k -> forallb unit_byte (to_bytes u) = true ->
  duration_term (to_bytes (decimal n +:+ u)) = if Z.of_N n <=? 2 ^ 63 / k then Some (Z.of_N n * k, []) else None.
Proof.
  intros Hu Hk Hbytes. unfold duration_term. rewrite to_bytes_app.
  assert (Hfront : no_digit_front (to_bytes u) = true).
  { destruct (to_bytes u) as [|a l]; [done|]. simpl in *. apply andb_true_iff in Hbytes as [Ha _].
    unfold unit_byte in Ha. bool_prop. tauto. }
  rewrite leadingInt_digits by (done || apply decimal_digits). rewrite read_digits_decimal.
  destruct (decimal_start n) as (a & l & E & _). rewrite E.
  rewrite (bool_decide_eq_false_2 (a :: l = [])) by done.
  assert (Hle : 2 ^ 63 / k <= 2 ^ 63) by (apply Z.div_le_upper_bound; nia).
  destruct (Z.leb_spec (Z.of_N n) (2 ^ 63)) as [H|H]; [|by rewrite (proj2 (Z.leb_gt _ _)) by lia].
  rewrite (bool_decide_eq_true_2 (length _ <> length _)) by (rewrite length_app; simpl; lia). cbn [negb andb].
  assert (match to_bytes u with
    | [] => (0, float64 1, [], false)
    | a :: after => if byte a =? 46 then
        let '(f, scale, after') := leadingFraction 0 (float64 1) false after in
        (f, scale, after', bool_decide (length after' <> length after))
      else (0, float64 1, to_bytes u, false) end = (0, float64 1, to_bytes u, false)) as ->.
  { destruct (to_bytes u) as [|b r]; [done|]. simpl in Hbytes. apply andb_true_iff in Hbytes as [Hb _].
    unfold unit_byte in Hb. destruct (byte b =? 46); [discriminate Hb|done]. }
  rewrite <- (app_nil_r (to_bytes u)) at 1. rewrite (span_all unit_byte (to_bytes u) [] Hbytes I), of_to_bytes, Hu.
  rewrite Z.ltb_irrefl, (Z.ltb_antisym (Z.of_N n)). destruct (Z.leb_spec (Z.of_N n) (2 ^ 63 / k)) as [H2|H2]; cbn [negb]; [|done].
  rewrite (proj2 (Z.ltb_ge _ _)); [done|]. etransitivity; [apply Z.mul_le_mono_nonneg_r; [lia|exact H2]|].
  rewrite Z.mul_comm. apply Z.mul_div_le. lia.
Qed.

Lemma ParseDuration_decimal n u k :
  unit_of u = Some k -> 0 < k -> forallb unit_byte (to_bytes u) = true ->
  ParseDuration (decimal n +:+ u) = if Z.of_N n * k <=? MaxInt64 then Some (Z.of_N n * k) else None.
Proof.
  intros Hu Hk Hbytes. pose proof (duration_term_decimal n u k Hu Hk Hbytes) as Hterm. unfold ParseDuration.
  destruct (decimal_start n) as (a & l & E & Ha). rewrite to_bytes_app, E in *. cbn [app] in *.
  destruct (digit_not_sign a Ha) as (-> & -> & Hdot). cbn [orb].
  destruct (of_bytes (a :: l ++ to_bytes u) == "0") eqn:E0.
  { exfalso. bool_prop. apply (f_equal to_bytes) in E0. rewrite to_of_bytes in E0.
    injection E0 as _ E0. apply app_eq_nil in E0 as [_ E0]. apply (f_equal of_bytes) in E0. rewrite of_to_bytes in E0.
    subst u. discriminate Hu. }
  rewrite bool_decide_eq_false_2 by done. cbn [length duration_terms starts_term]. rewrite Ha, Hterm, orb_true_r. cbn [negb].
  unfold MaxInt64. pose proof (Z.mul_div_le (2 ^ 63) k Hk) as Hdiv.
  destruct (Z.leb_spec (Z.of_N n) (2 ^ 63 / k)) as [H1|H1].
  - assert (Z.of_N n * k <= 2 ^ 63) by nia. rewrite Z.add_0_l, Z.mod_small by lia.
    rewrite (proj2 (Z.ltb_ge _ _)) by lia.
    destruct (length (l ++ to_bytes u)); simpl; rewrite Z.ltb_antisym; by destruct (_ <=? _).
  - pose proof (Z.mul_succ_div_gt (2 ^ 63) k Hk). rewrite (proj2 (Z.leb_gt _ _)) by nia. done.
Qed.

(** *** Addresses *)

Definition dotted (a b c d : N) : string := decimal a +:+ "." +:+ decimal b +:+ "." +:+ decimal c +:+ "." +:+ decimal d.

(** A number up to 255 is read as one field. *)
Lemma parse_octet n fields l :
  (n <= 255)%N -> no_digit_front l = true ->
  exists len, parseIPv4Fields 0 0 fields (to_bytes (decimal n) ++ l) = parseIPv4Fields (Z.of_N n) (S len) fields l.
Proof.
  intros Hn _. exists (length (to_bytes (decimal n)) - 1)%nat.
  assert (H : Forall (fun z => forall fields l, parseIPv4Fields 0 0 fields (to_bytes (decimal (Z.to_N z)) ++ l) =
    parseIPv4Fields z (S (length (to_bytes (decimal (Z.to_N z))) - 1)) fields l) (seqZ 0 256)).
  { vm_compute seqZ. repeat (constructor; [intros; reflexivity|]). constructor. }
  rewrite Forall_forall in H. specialize (H (Z.of_N n)). rewrite N2Z.id in H. apply H. apply elem_of_seqZ. lia.
Qed.

Lemma parse_field n fields l :
  (n <= 255)%N -> l <> [] -> (length fields < 3)%nat ->
  parseIPv4Fields 0 0 fields (to_bytes (decimal n) ++ chr 46 :: l) = parseIPv4Fields 0 0 (fields ++ [Z.of_N n]) l.
Proof.
  intros Hn Hl Hf. destruct (parse_octet n fields (chr 46 :: l) Hn eq_refl) as [len ->].
  cbn [parseIPv4Fields]. change (is_digit (chr 46)) with false. change (byte (chr 46) =? 46) with true. cbn iota.
  rewrite (bool_decide_eq_false_2 (l = [])) by done. cbn [Nat.eqb orb].
  destruct (Nat.eqb_spec (length fields) 3); [lia|done].
Qed.

Lemma decimal_not_nil n l : to_bytes (decimal n) ++ l <> [].
Proof. destruct (decimal_start n) as (a & k & -> & _). done. Qed.

Lemma parse_dotted a b c d : (a <= 255)%N -> (b <= 255)%N -> (c <= 255)%N -> (d <= 255)%N ->
  parseIPv4Fields 0 0 [] (to_bytes (dotted a b c d)) = Some [Z.of_N a; Z.of_N b; Z.of_N c; Z.of_N d].
Proof.
  intros Ha Hb Hc Hd. unfold dotted. rewrite !to_bytes_app. change (to_bytes ".") with [chr 46]. cbn [app].
  rewrite parse_field by (done || apply decimal_not_nil || (simpl; lia)).
  rewrite parse_field by (done || apply decimal_not_nil || (simpl; lia)).
  rewrite <- (app_nil_r (to_bytes (decimal d))).
  rewrite parse_field by (done || apply decimal_not_nil || (simpl; lia)).
  destruct (parse_octet d (([] ++ [Z.of_N a]) ++ [Z.of_N b] ++ [Z.of_N c]) [] Hd eq_refl) as [len E].
  cbn [app] in *. rewrite E. done.
Qed.

Lemma has_byte_app c l k : has_byte c (l ++ k) = has_byte c l || has_byte c k.
Proof. apply existsb_app. Qed.

Lemma digits_no_byte c l : is_digit c = false -> forallb is_digit l = true -> has_byte c l = false.
Proof.
  intros Hc H. apply not_true_iff_false. unfold has_byte. rewrite existsb_elem. intros (x & Hx & E).
  apply Ascii.eqb_eq in E as <-. rewrite forallb_elem in H. specialize (H _ Hx). congruence.
Qed.

Lemma dotted_no_byte c a b d e :
  is_digit c = false -> c <> chr 46 -> has_byte c (to_bytes (dotted a b d e)) = false.
Proof.
  intros Hc Hdot. unfold dotted. rewrite !to_bytes_app, !has_byte_app, !(digits_no_byte c (to_bytes (decimal _))) by (done || apply decimal_digits).
  change (to_bytes ".") with [chr 46]. unfold has_byte. simpl. apply Ascii.eqb_neq in Hdot. by rewrite Hdot.
Qed.

Lemma cut_first_app c l k : has_byte c l = false -> cut_first c (l ++ c :: k) = Some (l, k).
Proof.
  induction l as [|a l IH]; simpl; intros H; [by rewrite Ascii.eqb_refl|].
  apply orb_false_iff in H as [H1 H2]. rewrite Ascii.eqb_sym, H1, IH by done. done.
Qed.

Lemma has_byte_rev c l : has_byte c (rev l) = has_byte c l.
Proof.
  induction l as [|a l IH]; [done|]. simpl. rewrite has_byte_app, IH. unfold has_byte. simpl. rewrite orb_false_r. apply orb_comm.
Qed.

Lemma cut_last_app c l k : has_byte c k = false -> cut_last c (l ++ c :: k) = Some (l, k).
Proof.
  intros H. unfold cut_last. rewrite rev_app_distr. simpl. rewrite <- (assoc_L (++)). simpl.
  rewrite cut_first_app by by rewrite has_byte_rev. simpl. by rewrite !rev_involutive.
Qed.

Definition no_separators (l : bytes) : Prop :=
  has_byte colon l = false /\ has_byte open_bracket l = false /\ has_byte close_bracket l = false.

Lemma SplitHostPort_plain host port :
  no_separators (to_bytes host) -> no_separators (to_bytes port) ->
  SplitHostPort (host +:+ ":" +:+ port) = Some (host, port).
Proof.
  intros (H1 & H2 & H3) (P1 & P2 & P3). unfold SplitHostPort, split_host_port. rewrite !to_bytes_app. cbn [to_bytes String.list_ascii_of_string app].
  rewrite (cut_last_app colon) by done. simpl. change (Ascii.Ascii false true false true true true false false) with colon.
  assert (Hall : has_byte open_bracket (to_bytes host ++ colon :: to_bytes port) = false /\
    has_byte close_bracket (to_bytes host ++ colon :: to_bytes port) = false).
  { rewrite !has_byte_app, H2, H3. split; simpl; [exact P2|exact P3]. }
  assert (match to_bytes host ++ colon :: to_bytes port with [] => false | a :: _ => Ascii.eqb a open_bracket end = false) as ->.
  { destruct (to_bytes host) as [|a l]; [done|]. simpl in *. apply orb_false_iff in H2 as [H2 _]. by rewrite Ascii.eqb_sym. }
  destruct Hall as [A1 A2].
  rewrite H1, A1, A2. simpl. by rewrite !of_to_bytes.
Qed.

Lemma SplitHostPort_bracketed host port :
  has_byte open_bracket (to_bytes host) = false -> has_byte close_bracket (to_bytes host) = false ->
  no_separators (to_bytes port) -> SplitHostPort ("[" +:+ host +:+ "]:" +:+ port) = Some (host, port).
Proof.
  intros H2 H3 (P1 & P2 & P3). unfold SplitHostPort, split_host_port. rewrite !to_bytes_app.
  change (to_bytes "[") with [open_bracket]. change (to_bytes "]:") with [close_bracket; colon]. cbn [app].
  set (before := open_bracket :: to_bytes host ++ [close_bracket]).
  assert (open_bracket :: to_bytes host ++ close_bracket :: colon :: to_bytes port = before ++ colon :: to_bytes port) as E.
  { unfold before. simpl. by rewrite <- (assoc_L (++)). }
  rewrite E at 1. rewrite (cut_last_app colon) by done. cbn [mbind option_bind]. rewrite Ascii.eqb_refl.
  change (open_bracket :: to_bytes host ++ close_bracket :: colon :: to_bytes port)
    with ((open_bracket :: to_bytes host) ++ close_bracket :: colon :: to_bytes port).
  rewrite cut_first_app by by simpl. cbn [mbind option_bind]. rewrite bool_decide_eq_true_2 by done. cbn [app drop].
  rewrite !drop_0, has_byte_app, H2. simpl. rewrite P2, P3. simpl. by rewrite !of_to_bytes.
Qed.

Lemma drop_set_none set l : (forall a, a ∈ l -> a ∉ set) -> drop_set set l = l.
Proof. destruct l as [|a l]; [done|]. intros H. simpl. by rewrite bool_decide_eq_false_2 by (apply H; left). Qed.

Lemma Trim_none s cutset : (forall a, a ∈ to_bytes s -> a ∉ to_bytes cutset) -> Trim s cutset = s.
Proof.
  intros H. unfold Trim. rewrite (drop_set_none _ (to_bytes s)) by done. rewrite drop_set_none.
  - by rewrite rev_involutive, of_to_bytes.
  - intros a Ha. apply H. apply list_elem_of_In in Ha. apply list_elem_of_In. by apply in_rev.
Qed.

Lemma dotted_graphic a b c d x : x ∈ to_bytes (dotted a b c d) -> is_digit x = true \/ x = chr 46.
Proof.
  unfold dotted. rewrite !to_bytes_app, !elem_of_app. change (to_bytes ".") with [chr 46].
  assert (Hd : forall n, x ∈ to_bytes (decimal n) -> is_digit x = true).
  { intros n Hx. pose proof (decimal_digits n) as H. rewrite forallb_elem in H. by apply H. }
  rewrite !list_elem_of_singleton. naive_solver.
Qed.

(** An IPv4 host is a loopback address exactly when its first number is 127. *)
Lemma ParseIP_dotted a b c d : (a <= 255)%N -> (b <= 255)%N -> (c <= 255)%N -> (d <= 255)%N ->
  exists ip, ParseIP (dotted a b c d) = Some ip /\ IsLoopback ip = (a =? 127)%N.
Proof.
  intros Ha Hb Hc Hd. exists (replicate 10 0 ++ [255; 255] ++ [Z.of_N a; Z.of_N b; Z.of_N c; Z.of_N d]). split.
  - unfold ParseIP. assert (addr_family (to_bytes (dotted a b c d)) = Some (chr 46)) as ->.
    { unfold dotted. rewrite to_bytes_app. generalize (decimal_digits a).
      induction (to_bytes (decimal a)) as [|x l IH]; [done|]. intros H. cbn [forallb] in H. apply andb_true_iff in H as [Hx H].
      cbn [app addr_family]. unfold is_digit, between in Hx. bool_prop.
      destruct (byte x =? 46) eqn:E1, (byte x =? 58) eqn:E2, (byte x =? 37) eqn:E3; bool_prop; try lia. by apply IH. }
    cbn [mbind option_bind]. change (byte (chr 46) =? 46) with true. cbn iota. by rewrite parse_dotted.
  - unfold IsLoopback. rewrite bool_decide_eq_true_2 by reflexivity. simpl.
    destruct (N.eqb_spec a 127) as [->|Hne]; [done|]. apply bool_decide_eq_false_2. intros [= E]. apply Hne. lia.
Qed.
