(* ===== verification/Config.v ===== *)
(** * Configuration of both processes

    [internal/config/config.go]: the environment variables and the token file, their defaults, parsing and validation. *)

From S2P Require Import Prelude GoStrings GoTime GoConv.
#[local] Open Scope Z_scope.

(** ** Data *)

(** [os.Getenv]: the empty string for a variable that is not set. *)
Notation environment := (string -> string).
(** [os.ReadFile]; [None] is an error. *)
Notation read_file := (string -> option string).

Definition defaultControlListen : string := "127.0.0.1:17440".
Definition defaultBrokerSocket : string := "/run/quantum-control/qcored.sock".
Definition defaultTokenFile : string := "/etc/quantum-control/broker.token".
Definition defaultAuditPath : string := "/var/lib/quantum-control/audit/audit.jsonl".
Definition defaultBrokerGrantPath : string := "/var/lib/quantum-control-broker/grants.json".
Definition defaultBodyLimit : Z := Z.shiftl 1 20.
Definition defaultTransactionTimeout : duration := 30 * Second.
Definition defaultServicePoll : duration := 250 * Millisecond.

(** [config.Control] and [config.Broker]. *)
Record ControlConfig := {
  CC_Listen : string;
  CC_APIToken : string;
  CC_ActorFile : string;
  CC_AuditPath : string;
  CC_PlanTTL : duration;
  CC_BrokerSocket : string;
  CC_BrokerToken : string;
  CC_RequestBodyLimit : Z;
  CC_HeaderTimeout : duration;
  CC_IdleTimeout : duration;
  CC_BrokerTimeout : duration
}.

Record BrokerConfig := {
  BC_SocketPath : string;
  BC_BrokerToken : string;
  BC_ActorFile : string;
  BC_GrantPath : string;
  BC_GrantTTL : duration;
  BC_ServicePolicyFile : string;
  BC_TransactionTimeout : duration;
  BC_ServicePollInterval : duration;
  BC_RequestBodyLimit : Z;
  BC_HeaderTimeout : duration;
  BC_IdleTimeout : duration
}.

(** ** Reading variables *)

Definition envOr (env : environment) (key fallback : string) : string :=
  let value := TrimSpace (env key) in
  if value != "" then value else fallback.

Definition envInt64 (env : environment) (key : string) (fallback : Z) : result Z :=
  let value := TrimSpace (env key) in
  if value == "" then Ok fallback
  else
    match ParseInt value with
    | None => Err (errorf "parse %s: %w" [key])
    | Some parsed => Ok parsed
    end.

Definition envDuration (env : environment) (key : string) (fallback : duration) : result duration :=
  let value := TrimSpace (env key) in
  if value == "" then Ok fallback
  else
    match ParseDuration value with
    | None => Err (errorf "parse %s: %w" [key])
    | Some parsed => Ok parsed
    end.

Definition loadBrokerToken (env : environment) (read : read_file) : result string :=
  let token := TrimSpace (env "QUANTUM_CONTROL_BROKER_TOKEN") in
  if token != "" then
    if slen token <? 32 then fail "broker token must contain at least 32 characters" else Ok token
  else
    let path := envOr env "QUANTUM_CONTROL_BROKER_TOKEN_FILE" defaultTokenFile in
    match read path with
    | None => Err (errorf "read broker token file %s: %w" [path])
    | Some data =>
      let token := TrimSpace data in
      if slen token <? 32 then fail "broker token must contain at least 32 characters" else Ok token
    end.

(** ** Validation *)

Definition isLoopbackListen (address : string) : bool :=
  match SplitHostPort address with
  | None => false
  | Some (host, _) =>
    let host := TrimSpace (Trim host "[]") in
    if EqualFold host "localhost" then true
    else match ParseIP host with Some ip => IsLoopback ip | None => false end
  end.

Definition ValidateControl (c : ControlConfig) : result unit :=
  match SplitHostPort (CC_Listen c) with
  | None => fail "invalid QUANTUM_CONTROL_LISTEN: %w"
  | Some _ =>
    if negb (IsAbs (CC_BrokerSocket c)) then fail "QUANTUM_CONTROL_BROKER_SOCKET must be absolute"
    else if slen (CC_BrokerToken c) <? 32 then fail "broker token must contain at least 32 characters"
    else if (CC_APIToken c != "") && (slen (CC_APIToken c) <? 32) then
      fail "QUANTUM_CONTROL_API_TOKEN must contain at least 32 characters when configured"
    else if (CC_ActorFile c != "") && negb (IsAbs (CC_ActorFile c)) then
      fail "QUANTUM_CONTROL_ACTOR_FILE must be absolute when configured"
    else if negb (IsAbs (CC_AuditPath c)) then fail "QUANTUM_CONTROL_AUDIT_PATH must be absolute"
    else if (CC_PlanTTL c <=? 0) || (15 * Minute <? CC_PlanTTL c) then
      fail "QUANTUM_CONTROL_PLAN_TTL must be greater than zero and at most 15 minutes"
    else if CC_RequestBodyLimit c <? 1024 then fail "QUANTUM_CONTROL_REQUEST_BODY_LIMIT must be at least 1024 bytes"
    else if (CC_HeaderTimeout c <=? 0) || (CC_IdleTimeout c <=? 0) || (CC_BrokerTimeout c <=? 0) then
      fail "control timeouts must be greater than zero"
    else if negb (isLoopbackListen (CC_Listen c)) && (CC_APIToken c == "") && (CC_ActorFile c == "") then
      fail "non-loopback listen address requires QUANTUM_CONTROL_API_TOKEN or QUANTUM_CONTROL_ACTOR_FILE"
    else Ok tt
  end.

Definition ValidateBroker (c : BrokerConfig) : result unit :=
  if negb (IsAbs (BC_SocketPath c)) then fail "QUANTUM_CONTROL_BROKER_SOCKET must be absolute"
  else if slen (BC_BrokerToken c) <? 32 then fail "broker token must contain at least 32 characters"
  else if (BC_ActorFile c != "") && negb (IsAbs (BC_ActorFile c)) then
    fail "QUANTUM_CONTROL_ACTOR_FILE must be absolute when configured for qcored"
  else if negb (IsAbs (BC_GrantPath c)) then fail "QUANTUM_CONTROL_GRANT_PATH must be absolute"
  else if (BC_GrantTTL c <=? 0) || (15 * Minute <? BC_GrantTTL c) then
    fail "QUANTUM_CONTROL_GRANT_TTL must be greater than zero and at most 15 minutes"
  else if (BC_ServicePolicyFile c != "") && negb (IsAbs (BC_ServicePolicyFile c)) then
    fail "QUANTUM_CONTROL_SERVICE_POLICY_FILE must be absolute when configured"
  else if (BC_TransactionTimeout c <? Second) || (2 * Minute <? BC_TransactionTimeout c) then
    fail "QUANTUM_CONTROL_TRANSACTION_TIMEOUT must be between 1 second and 2 minutes"
  else if (BC_ServicePollInterval c <? 10 * Millisecond) || (5 * Second <? BC_ServicePollInterval c) then
    fail "QUANTUM_CONTROL_SERVICE_POLL_INTERVAL must be between 10 milliseconds and 5 seconds"
  else if BC_RequestBodyLimit c <? 1024 then fail "broker request body limit must be at least 1024 bytes"
  else if (BC_HeaderTimeout c <=? 0) || (BC_IdleTimeout c <=? 0) then fail "broker timeouts must be greater than zero"
  else Ok tt.

(** ** Loading *)

Definition LoadControl (env : environment) (read : read_file) : result ControlConfig :=
  brokerToken ← loadBrokerToken env read;
  bodyLimit ← envInt64 env "QUANTUM_CONTROL_REQUEST_BODY_LIMIT" defaultBodyLimit;
  headerTimeout ← envDuration env "QUANTUM_CONTROL_HEADER_TIMEOUT" (10 * Second);
  idleTimeout ← envDuration env "QUANTUM_CONTROL_IDLE_TIMEOUT" (90 * Second);
  brokerTimeout ← envDuration env "QUANTUM_CONTROL_BROKER_TIMEOUT" (15 * Second);
  planTTL ← envDuration env "QUANTUM_CONTROL_PLAN_TTL" (5 * Minute);
  let cfg := {|
    CC_Listen := envOr env "QUANTUM_CONTROL_LISTEN" defaultControlListen;
    CC_APIToken := TrimSpace (env "QUANTUM_CONTROL_API_TOKEN");
    CC_ActorFile := TrimSpace (env "QUANTUM_CONTROL_ACTOR_FILE");
    CC_AuditPath := envOr env "QUANTUM_CONTROL_AUDIT_PATH" defaultAuditPath;
    CC_PlanTTL := planTTL;
    CC_BrokerSocket := envOr env "QUANTUM_CONTROL_BROKER_SOCKET" defaultBrokerSocket;
    CC_BrokerToken := brokerToken;
    CC_RequestBodyLimit := bodyLimit;
    CC_HeaderTimeout := headerTimeout;
    CC_IdleTimeout := idleTimeout;
    CC_BrokerTimeout := brokerTimeout
  |} in
  _ ← ValidateControl cfg;
  Ok cfg.

Definition LoadBroker (env : environment) (read : read_file) : result BrokerConfig :=
  brokerToken ← loadBrokerToken env read;
  bodyLimit ← envInt64 env "QUANTUM_CONTROL_BROKER_REQUEST_BODY_LIMIT" defaultBodyLimit;
  headerTimeout ← envDuration env "QUANTUM_CONTROL_BROKER_HEADER_TIMEOUT" (10 * Second);
  idleTimeout ← envDuration env "QUANTUM_CONTROL_BROKER_IDLE_TIMEOUT" (30 * Second);
  grantTTL ← envDuration env "QUANTUM_CONTROL_GRANT_TTL" (2 * Minute);
  transactionTimeout ← envDuration env "QUANTUM_CONTROL_TRANSACTION_TIMEOUT" defaultTransactionTimeout;
  pollInterval ← envDuration env "QUANTUM_CONTROL_SERVICE_POLL_INTERVAL" defaultServicePoll;
  let cfg := {|
    BC_SocketPath := envOr env "QUANTUM_CONTROL_BROKER_SOCKET" defaultBrokerSocket;
    BC_BrokerToken := brokerToken;
    BC_ActorFile := TrimSpace (env "QUANTUM_CONTROL_ACTOR_FILE");
    BC_GrantPath := envOr env "QUANTUM_CONTROL_GRANT_PATH" defaultBrokerGrantPath;
    BC_GrantTTL := grantTTL;
    BC_ServicePolicyFile := TrimSpace (env "QUANTUM_CONTROL_SERVICE_POLICY_FILE");
    BC_TransactionTimeout := transactionTimeout;
    BC_ServicePollInterval := pollInterval;
    BC_RequestBodyLimit := bodyLimit;
    BC_HeaderTimeout := headerTimeout;
    BC_IdleTimeout := idleTimeout
  |} in
  _ ← ValidateBroker cfg;
  Ok cfg.

(** ** What is accepted *)

(** A configuration of the public API that [Validate] accepts. *)
Record valid_control (c : ControlConfig) : Prop := {
  vc_listen : is_Some (SplitHostPort (CC_Listen c));
  vc_socket : IsAbs (CC_BrokerSocket c) = true;
  vc_token : 32 <= slen (CC_BrokerToken c);
  vc_api_token : CC_APIToken c = "" \/ 32 <= slen (CC_APIToken c);
  vc_actors : CC_ActorFile c = "" \/ IsAbs (CC_ActorFile c) = true;
  vc_audit : IsAbs (CC_AuditPath c) = true;
  vc_ttl : 0 < CC_PlanTTL c <= 15 * Minute;
  vc_body : 1024 <= CC_RequestBodyLimit c;
  vc_timeouts : 0 < CC_HeaderTimeout c /\ 0 < CC_IdleTimeout c /\ 0 < CC_BrokerTimeout c;
  vc_open : CC_APIToken c = "" -> CC_ActorFile c = "" -> isLoopbackListen (CC_Listen c) = true
}.

Record valid_broker (c : BrokerConfig) : Prop := {
  vb_socket : IsAbs (BC_SocketPath c) = true;
  vb_token : 32 <= slen (BC_BrokerToken c);
  vb_actors : BC_ActorFile c = "" \/ IsAbs (BC_ActorFile c) = true;
  vb_grants : IsAbs (BC_GrantPath c) = true;
  vb_ttl : 0 < BC_GrantTTL c <= 15 * Minute;
  vb_policy : BC_ServicePolicyFile c = "" \/ IsAbs (BC_ServicePolicyFile c) = true;
  vb_transaction : Second <= BC_TransactionTimeout c <= 2 * Minute;
  vb_poll : 10 * Millisecond <= BC_ServicePollInterval c <= 5 * Second;
  vb_body : 1024 <= BC_RequestBodyLimit c;
  vb_timeouts : 0 < BC_HeaderTimeout c /\ 0 < BC_IdleTimeout c
}.

(** One guard of a validation. *)
Lemma guard_ok (g : bool) (message : string) (rest : result unit) :
  (if g then fail message else rest) = Ok tt <-> g = false /\ rest = Ok tt.
Proof. destruct g; [|tauto]. split; [discriminate|by intros [? _]]. Qed.

Lemma ValidateControl_Ok c : ValidateControl c = Ok tt <-> valid_control c.
Proof.
  unfold ValidateControl. destruct (SplitHostPort (CC_Listen c)) as [hp|] eqn:E.
  2: { split; [discriminate|]. intros [[hp H]]. congruence. }
  rewrite !guard_ok. bool_prop. split.
  - intros H. destruct_and?. split; try tauto; try lia. by exists hp.
  - intros []. destruct_and?. split_and!; try tauto; try lia.
    destruct (decide (CC_ActorFile c = "")), (decide (CC_APIToken c = "")); auto.
Qed.

Lemma ValidateBroker_Ok c : ValidateBroker c = Ok tt <-> valid_broker c.
Proof.
  unfold ValidateBroker. rewrite !guard_ok. bool_prop. split.
  - intros H. destruct_and?. by split; try tauto; try lia.
  - intros []. destruct_and?. by split_and!; try tauto; try lia.
Qed.

(** ** Reading numbers *)

Lemma TrimSpace_number n u : forallb graphic (to_bytes u) = true -> TrimSpace (decimal n +:+ u) = decimal n +:+ u.
Proof.
  intros Hu. apply TrimSpace_graphic. rewrite to_bytes_app, forallb_app, Hu, andb_true_r.
  pose proof (decimal_digits n) as Hd. rewrite forallb_elem in *. intros a Ha%Hd.
  unfold is_digit, graphic, between in *. bool_prop. lia.
Qed.

Lemma number_not_blank n u : (decimal n +:+ u == "") = false.
Proof.
  apply String.eqb_neq. intros E%(f_equal to_bytes). rewrite to_bytes_app in E.
  destruct (decimal_start n) as (a & l & E' & _). rewrite E' in E. discriminate E.
Qed.

Lemma envInt64_range env key fallback v :
  MinInt64 <= fallback <= MaxInt64 -> envInt64 env key fallback = Ok v -> MinInt64 <= v <= MaxInt64.
Proof.
  intros Hf. unfold envInt64. destruct (_ == ""); [by intros [= <-]|].
  destruct (ParseInt _) as [w|] eqn:E; [|done]. intros [= <-]. by apply ParseInt_range in E.
Qed.

Lemma envDuration_range env key fallback d :
  MinInt64 <= fallback <= MaxInt64 -> envDuration env key fallback = Ok d -> MinInt64 <= d <= MaxInt64.
Proof.
  intros Hf. unfold envDuration. destruct (_ == ""); [by intros [= <-]|].
  destruct (ParseDuration _) as [w|] eqn:E; [|done]. intros [= <-]. by apply ParseDuration_range in E.
Qed.

(** C34 Limits and timeouts are read without loss.  A variable that is not set, or blank, gives the default; a number, with one of the
    units of a duration, gives exactly that number of nanoseconds when it fits into 64 bits and an error when it does
    not, surrounding blanks apart; and no text at all gives a value outside of 64 bits. *)
Theorem environment_numbers env key fallback :
  MinInt64 <= fallback <= MaxInt64 ->
  (TrimSpace (env key) = "" -> envInt64 env key fallback = Ok fallback /\ envDuration env key fallback = Ok fallback) /\
  (forall n, TrimSpace (env key) = decimal n ->
     envInt64 env key fallback =
       if Z.of_N n <=? MaxInt64 then Ok (Z.of_N n) else Err (errorf "parse %s: %w" [key])) /\
  (forall n u k, unit_of u = Some k -> TrimSpace (env key) = decimal n +:+ u ->
     envDuration env key fallback =
       if Z.of_N n * k <=? MaxInt64 then Ok (Z.of_N n * k) else Err (errorf "parse %s: %w" [key])) /\
  (forall v, envInt64 env key fallback = Ok v \/ envDuration env key fallback = Ok v -> MinInt64 <= v <= MaxInt64).
Proof.
  intros Hf. split; [|split; [|split]].
  - unfold envInt64, envDuration. by intros ->.
  - intros n E. unfold envInt64. rewrite E, ParseInt_decimal.
    pose proof (number_not_blank n "") as Hb. rewrite append_nil_r in Hb. rewrite Hb. by destruct (_ <=? _).
  - intros n u k Hu E. unfold envDuration. rewrite E, number_not_blank.
    assert (Hk : 0 < k /\ forallb unit_byte (to_bytes u) = true).
    { revert Hu. unfold unit_of. repeat (case_match; [intros [= <-]; bool_prop; (try destruct_or?); subst; done|]). done. }
    destruct Hk as [Hk Hbytes]. rewrite (ParseDuration_decimal n u k Hu Hk Hbytes). by destruct (_ <=? _).
  - intros v [H|H]; [by eapply envInt64_range|by eapply envDuration_range].
Qed.

(** ** Loopback addresses *)

Lemma dotted_host a b c d : TrimSpace (Trim (dotted a b c d) "[]") = dotted a b c d /\ EqualFold (dotted a b c d) "localhost" = false.
Proof.
  assert (Hall : forall x, x ∈ to_bytes (dotted a b c d) -> between 46 (byte x) 57 = true).
  { intros x [Hx| ->]%dotted_graphic; [|reflexivity]. unfold is_digit, between in *. bool_prop. lia. }
  rewrite Trim_none.
  - split.
    + apply TrimSpace_graphic, forallb_elem. intros x Hx%Hall. unfold graphic, between in *. bool_prop. lia.
    + apply bool_decide_eq_false_2. rewrite !ascii_folded.
      * intros E. assert (Hs : exists x l, to_bytes (dotted a b c d) = x :: l /\ is_digit x = true).
        { unfold dotted. rewrite to_bytes_app. destruct (decimal_start a) as (x & l & -> & Hx). by eexists _, _. }
        destruct Hs as (x & l & El & Hx). rewrite El in E. injection E as E _.
        destruct (lower_hex_facts x) as (_ & Hlow & _); [unfold lower_hex, is_digit in *; by rewrite Hx|].
        rewrite Hlow in E. subst x. discriminate Hx.
      * reflexivity.
      * apply forallb_elem. intros x Hx%Hall. unfold ascii7, between in *. bool_prop. lia.
  - intros x Hx%Hall Hin. repeat (apply elem_of_cons in Hin as [->|Hin]; [discriminate Hx|]). by apply not_elem_of_nil in Hin.
Qed.

(** Loopback addresses.  A listen address with an IPv4 host is a loopback address exactly when the first number is 127;
    the IPv6 loopback address and localhost are, all interfaces ([:port], [[::]:port]) are not; and nothing else is: the
    host of every accepted address is localhost, up to letter case, or parses to 127.0.0.0/8 or to the IPv6 loopback. *)
Theorem isLoopbackListen_spec port :
  no_separators (to_bytes port) ->
  (forall a b c d, (a <= 255)%N -> (b <= 255)%N -> (c <= 255)%N -> (d <= 255)%N ->
     isLoopbackListen (dotted a b c d +:+ ":" +:+ port) = (a =? 127)%N) /\
  isLoopbackListen ("[::1]:" +:+ port) = true /\ isLoopbackListen ("localhost:" +:+ port) = true /\
  isLoopbackListen (":" +:+ port) = false /\ isLoopbackListen ("[::]:" +:+ port) = false /\
  (forall address, isLoopbackListen address = true ->
     exists host port', SplitHostPort address = Some (host, port') /\
     let host := TrimSpace (Trim host "[]") in
     EqualFold host "localhost" = true \/
     exists ip, ParseIP host = Some ip /\
       ((exists rest, ip = replicate 10 0 ++ [255; 255; 127] ++ rest) \/ ip = replicate 15 0 ++ [1])).
Proof.
  intros Hport.
  assert (Hplain : forall host, no_separators (to_bytes host) -> isLoopbackListen (host +:+ ":" +:+ port) =
    (let host := TrimSpace (Trim host "[]") in
     if EqualFold host "localhost" then true else match ParseIP host with Some ip => IsLoopback ip | None => false end)).
  { intros host Hh. unfold isLoopbackListen. by rewrite SplitHostPort_plain. }
  assert (Hbracket : forall host, has_byte open_bracket (to_bytes host) = false -> has_byte close_bracket (to_bytes host) = false ->
    isLoopbackListen ("[" +:+ host +:+ "]:" +:+ port) =
    (let host := TrimSpace (Trim host "[]") in
     if EqualFold host "localhost" then true else match ParseIP host with Some ip => IsLoopback ip | None => false end)).
  { intros host H1 H2. unfold isLoopbackListen. by rewrite SplitHostPort_bracketed. }
  split_and!.
  - intros a b c d Ha Hb Hc Hd. rewrite Hplain.
    2: { split_and!; apply dotted_no_byte; (reflexivity || discriminate). }
    cbv zeta. destruct (dotted_host a b c d) as [-> ->]. by destruct (ParseIP_dotted a b c d Ha Hb Hc Hd) as (ip & -> & ->).
  - exact (Hbracket "::1" eq_refl eq_refl).
  - by apply (Hplain "localhost").
  - by apply (Hplain "").
  - exact (Hbracket "::" eq_refl eq_refl).
  - intros address. unfold isLoopbackListen. destruct (SplitHostPort address) as [[host port']|]; [|done]. intros H.
    exists host, port'. split; [done|]. cbv zeta. destruct (EqualFold _ _); [by left|right].
    destruct (ParseIP _) as [ip|]; [|done]. exists ip. split; [done|]. unfold IsLoopback in H.
    case_bool_decide as Hm; apply bool_decide_eq_true in H; [left|by right].
    exists (drop 13 ip). rewrite <- (take_drop 13 ip) at 1. rewrite (take_S_r _ _ _ H), Hm. done.
Qed.

Lemma isLoopbackListen_spec_witness :
  no_separators (to_bytes "17440") /\ isLoopbackListen (dotted 127 0 0 1 +:+ ":17440") = true /\
  isLoopbackListen (dotted 10 0 0 1 +:+ ":17440") = false.
Proof.
  assert (H : no_separators (to_bytes "17440")) by (vm_compute; split_and!; reflexivity).
  destruct (isLoopbackListen_spec "17440" H) as (Hdotted & _).
  split; [exact H|]. split; [apply (Hdotted 127 0 0 1)%N|apply (Hdotted 10 0 0 1)%N]; discriminate.
Defined.

Lemma environment_numbers_witness :
  (fun key => if key == "QUANTUM_CONTROL_PLAN_TTL" then " 90s " else "") "QUANTUM_CONTROL_PLAN_TTL" = " 90s " /\
  envDuration (fun key => if key == "QUANTUM_CONTROL_PLAN_TTL" then " 90s " else "") "QUANTUM_CONTROL_PLAN_TTL" (5 * Minute) =
    Ok (90 * Second).
Proof.
  split; [reflexivity|].
  destruct (environment_numbers (fun key => if key == "QUANTUM_CONTROL_PLAN_TTL" then " 90s " else "") "QUANTUM_CONTROL_PLAN_TTL"
    (5 * Minute)) as (_ & _ & H & _).
  - split; discriminate.
  - apply (H 90%N "s" Second); vm_compute; reflexivity.
Defined.
