(* ===== verification/Json.v ===== *)
(** * JSON text of Go's [encoding/json]

    [json.Marshal] of strings (HTML escaping on, as in the code), booleans,
    numbers, arrays and objects with fixed keys.  The encoding of strings is
    uniquely readable from the left up to one collapse: every byte that is not
    valid UTF-8 becomes the same escape.  Decoding a marshalled string therefore
    gives [scrub] of it. *)

From S2P Require Import Prelude GoStrings.
From Stdlib Require Import Ascii.

Definition quote_char : ascii := chr 34.
Definition backslash : ascii := chr 92.

(** [\u00XX]. *)
Definition esc_u (a : ascii) : bytes := [backslash; chr 117; chr 48; chr 48] ++ hex_byte a.

(** [appendString] of encoding/json, one rune at a time. *)
Definition esc_token (t : token) : bytes :=
  match t with
  | Rune [a] =>
    let z := byte a in
    if (z =? 34)%Z || (z =? 92)%Z then [backslash; a]
    else if (z =? 8)%Z then [backslash; chr 98]
    else if (z =? 12)%Z then [backslash; chr 102]
    else if (z =? 10)%Z then [backslash; chr 110]
    else if (z =? 13)%Z then [backslash; chr 114]
    else if (z =? 9)%Z then [backslash; chr 116]
    else if (z <? 32)%Z || (z =? 60)%Z || (z =? 62)%Z || (z =? 38)%Z then esc_u a
    else [a]
  | Rune bs =>
    if decide (bs = [chr 0xE2; chr 0x80; chr 0xA8]) then to_bytes "\u2028"
    else if decide (bs = [chr 0xE2; chr 0x80; chr 0xA9]) then to_bytes "\u2029"
    else bs
  | Bad => to_bytes "\ufffd"
  end.

Definition json_string (s : string) : string :=
  of_bytes (quote_char :: mjoin (esc_token <$> tokens (to_bytes s)) ++ [quote_char]).

Definition json_bool (b : bool) : string := if b then "true" else "false".

(** Arrays, elements separated by commas. *)
Fixpoint json_tail {A} (f : A -> string) (l : list A) : string :=
  match l with
  | [] => "]"
  | x :: l => "," +:+ f x +:+ json_tail f l
  end.
Definition json_array {A} (f : A -> string) (l : list A) : string :=
  match l with
  | [] => "[]"
  | x :: l => "[" +:+ f x +:+ json_tail f l
  end.

(** A letter, a quotation mark, an angle bracket, a newline, an accented letter,
    an invalid byte and a control character. *)
Example json_string_example :
  json_string (of_bytes [chr 97; chr 34; chr 60; chr 10; chr 0xC3; chr 0xA9; chr 0xFF; chr 1])
  = of_bytes ([chr 34; chr 97; chr 92; chr 34] ++ to_bytes "\u003c\n" ++ [chr 0xC3; chr 0xA9]
              ++ to_bytes "\ufffd\u0001" ++ [chr 34]).
Proof. reflexivity. Qed.

(** ** Reading a string back *)

(** Read one escaped rune; a bare quote ends the string. *)
Definition unesc_head (l : bytes) : option (token * bytes) :=
  match l with
  | [] => None
  | a :: l1 =>
    if Ascii.eqb a quote_char then None
    else if Ascii.eqb a backslash then
      match l1 with
      | b :: l2 =>
        match byte b with
        | 34 => Some (Rune [b], l2)
        | 92 => Some (Rune [b], l2)
        | 98 => Some (Rune [chr 8], l2)
        | 102 => Some (Rune [chr 12], l2)
        | 110 => Some (Rune [chr 10], l2)
        | 114 => Some (Rune [chr 13], l2)
        | 116 => Some (Rune [chr 9], l2)
        | 117 =>
          match hex_decode_bytes (take 4 l2) with
          | Some [h; k] =>
            let l3 := drop 4 l2 in
            if decide ((h, k) = (chr 0xFF, chr 0xFD)) then Some (Bad, l3)
            else if decide ((h, k) = (chr 0x20, chr 0x28))
              then Some (Rune [chr 0xE2; chr 0x80; chr 0xA8], l3)
            else if decide ((h, k) = (chr 0x20, chr 0x29))
              then Some (Rune [chr 0xE2; chr 0x80; chr 0xA9], l3)
            else Some (Rune [k], l3)
          | _ => None
          end
        | _ => None
        end%Z
      | [] => None
      end
    else match tokens l with
         | Rune bs :: _ => Some (Rune bs, drop (length bs) l)
         | _ => None
         end
  end.

Lemma byte_chr a : a = chr (byte a).
Proof. unfold chr, byte. rewrite N2Z.id. by rewrite ascii_N_embedding. Qed.

Lemma unesc_u a l :
  ascii7 a = true -> unesc_head (esc_u a ++ l) = Some (Rune [a], l).
Proof.
  intros Ha. destruct (hex_byte_facts a) as (_ & E & Ea). injection E as E1 E2.
  change (unesc_head (esc_u a ++ l)) with
    (match hex_decode_bytes [chr 48; chr 48; hex_digit (byte a / 16); hex_digit (byte a mod 16)] with
     | Some [h; k] =>
       if decide ((h, k) = (chr 0xFF, chr 0xFD)) then Some (Bad, l)
       else if decide ((h, k) = (chr 0x20, chr 0x28))
         then Some (Rune [chr 0xE2; chr 0x80; chr 0xA8], l)
       else if decide ((h, k) = (chr 0x20, chr 0x29))
         then Some (Rune [chr 0xE2; chr 0x80; chr 0xA9], l)
       else Some (Rune [k], l)
     | _ => None
     end).
  cbn [hex_decode_bytes]. rewrite E1, E2, Ea. cbn [from_hex].
  repeat (case_decide as Hd; [by simplify_eq|]). done.
Qed.

Lemma unesc_plain a l :
  ascii7 a = true -> byte a <> 34%Z -> byte a <> 92%Z ->
  unesc_head (a :: l) = Some (Rune [a], l).
Proof.
  intros Ha H1 H2. unfold unesc_head.
  destruct (Ascii.eqb_spec a quote_char) as [->|_]; [done|].
  destruct (Ascii.eqb_spec a backslash) as [->|_]; [done|]. cbn [tokens]. by rewrite Ha.
Qed.

Lemma unesc_ascii a l :
  ascii7 a = true -> unesc_head (esc_token (Rune [a]) ++ l) = Some (Rune [a], l).
Proof.
  intros Ha. cbn [esc_token].
  assert (Hesc : forall z (P : Prop), (forall H : byte a = z, P) -> (byte a =? z)%Z = true -> P)
    by (intros z P HP E%Z.eqb_eq; auto).
  destruct ((byte a =? 34)%Z || (byte a =? 92)%Z) eqn:E0.
  { apply orb_true_iff in E0 as [E|E]; revert E; apply Hesc; intros E;
      rewrite (byte_chr a), E; reflexivity. }
  repeat match goal with
  | |- context [if (byte a =? ?z)%Z then _ else _] =>
    destruct (byte a =? z)%Z eqn:E;
      [revert E; apply Hesc; intros E; rewrite (byte_chr a), E; reflexivity|clear E]
  end.
  case_match; [by apply unesc_u|]. bool_prop. destruct_and?. by apply unesc_plain.
Qed.

Lemma high_byte a : ascii7 a = false -> Ascii.eqb a quote_char = false /\ Ascii.eqb a backslash = false.
Proof. destruct a as [[] [] [] [] [] [] [] []]; vm_compute; done. Qed.

Lemma proper_high a b bs : proper (Rune (a :: b :: bs)) = true -> ascii7 a = false.
Proof.
  destruct bs as [|c [|d [|]]]; simpl; try done; intros H; bool_prop; tauto.
Qed.

(** A rune of several bytes that is written as it is. *)
Lemma unesc_raw a b bs l :
  proper (Rune (a :: b :: bs)) = true ->
  unesc_head ((a :: b :: bs) ++ l) = Some (Rune (a :: b :: bs), l).
Proof.
  intros H. destruct (high_byte a) as [E1 E2]; [by eapply proper_high|].
  pose proof (tokens_rune (Rune (a :: b :: bs)) l H ltac:(done)) as E. cbn [token_bytes] in E.
  unfold unesc_head. cbn [app] in *. rewrite E1, E2, E. cbn [length drop].
  do 2 f_equal. change (drop (length bs) (bs ++ l) = l). apply drop_app_length.
Qed.

(** Each escape is read back, whatever follows. *)
Lemma unesc_esc t l : proper t = true -> unesc_head (esc_token t ++ l) = Some (t, l).
Proof.
  destruct t as [[|a [|b bs]]|]; intros H; [done|by apply unesc_ascii| |done].
  unfold esc_token. case_decide as E1; [by simplify_eq|].
  case_decide as E2; [by simplify_eq|]. by apply unesc_raw.
Qed.

Lemma esc_tokens_inj ts us l k :
  Forall (fun t => proper t = true) ts -> Forall (fun t => proper t = true) us ->
  mjoin (esc_token <$> ts) ++ quote_char :: l = mjoin (esc_token <$> us) ++ quote_char :: k ->
  ts = us /\ l = k.
Proof.
  intros Hts. revert us. induction Hts as [|t ts Ht _ IH]; intros us Hus.
  - destruct Hus as [|u us Hu _]; simpl; [by intros; simplify_eq|]. intros H%(f_equal unesc_head).
    rewrite <- app_assoc, unesc_esc in H by done. done.
  - destruct Hus as [|u us Hu Hus]; simpl; intros H%(f_equal unesc_head);
      rewrite <- ?app_assoc, !unesc_esc in H by done; [done|].
    simplify_eq. by destruct (IH us) as [-> ->].
Qed.

(** Two Go strings with one JSON encoding. *)
Definition same_json (s t : string) : Prop := tokens (to_bytes s) = tokens (to_bytes t).

#[export] Instance same_json_equiv : Equivalence same_json.
Proof. split; repeat intros ?; unfold same_json in *; congruence. Qed.

Lemma same_json_valid s t :
  valid_utf8 s = true -> valid_utf8 t = true -> same_json s t -> s = t.
Proof. apply tokens_inj_valid. Qed.

(** ** Uniquely readable encoders

    [readable enc R]: two encoded values followed by anything are read back as
    [R]-related values and the same rest. *)
Definition readable {A} (enc : A -> string) (R : A -> A -> Prop) : Prop :=
  forall x y s t, enc x +:+ s = enc y +:+ t -> R x y /\ s = t.

Lemma json_string_readable : readable json_string same_json.
Proof.
  intros x y s t H%(f_equal to_bytes). unfold json_string in H.
  rewrite !to_bytes_app, !to_of_bytes in H. cbn [app] in H. injection H as H.
  rewrite <- !app_assoc in H. cbn [app] in H.
  apply esc_tokens_inj in H as [H E]; [|apply tokens_proper..].
  split; [done|by apply to_bytes_inj].
Qed.

Lemma json_bool_readable : readable json_bool eq.
Proof. intros [] [] s t; simpl; intros H; by simplify_eq. Qed.

(** An array of readable elements, none of which starts like a bracket. *)
Section arrays.
Context {A : Type} (f : A -> string) (R : A -> A -> Prop).
Context (Hf : readable f R).
Context (Hstart : forall x, exists a r, f x = String.String a r /\ a <> chr 93).

Lemma json_tail_readable : readable (json_tail f) (Forall2 R).
Proof using Hf.
  intros l. induction l as [|x l IH]; intros [|y k] s t H.
  - apply append_inj_l in H as ->. by split.
  - by injection H.
  - by injection H.
  - cbn [json_tail] in H. rewrite !append_assoc in H. apply append_inj_l in H.
    apply Hf in H as [Hxy H]. apply IH in H as [Hlk ->]. split; [by constructor|done].
Qed.

Lemma json_array_readable : readable (json_array f) (Forall2 R).
Proof using Hf Hstart.
  intros [|x l] [|y k] s t H.
  - apply append_inj_l in H as ->. by split.
  - destruct (Hstart y) as (a & r & E & Ha). cbn [json_array] in H. rewrite E in H.
    by injection H as H _.
  - destruct (Hstart x) as (a & r & E & Ha). cbn [json_array] in H. rewrite E in H.
    by injection H as H _.
  - cbn [json_array] in H. rewrite !append_assoc in H. apply append_inj_l in H.
    apply Hf in H as [Hxy H]. apply json_tail_readable in H as [Hlk ->].
    split; [by constructor|done].
Qed.
End arrays.

(** Peel a fixed piece of text off both sides. *)
Ltac peel_text H := apply append_inj_l in H.
(** Peel one encoded value, with what it determines. *)
Ltac peel lem H E := apply lem in H as [E H].

(** ** Optional fields and numbers *)

Definition json_kv (key value : string) : string := json_string key +:+ ":" +:+ value.

(** [,"key":"value"], or nothing for an empty value ([omitempty]). *)
Definition json_opt (key value : string) : string :=
  if String.eqb value "" then "" else "," +:+ json_kv key (json_string value).

(** How a field that is not the first one starts. *)
Definition field_start (key : string) : string := "," +:+ json_string key.

Lemma prefix_append p s : String.prefix p (p +:+ s) = true.
Proof.
  induction p as [|a p IH]; [by destruct s|]. simpl. destruct (ascii_dec a a); [exact IH|done].
Qed.

Lemma json_opt_readable key x y s t :
  String.prefix (field_start key) s = false -> String.prefix (field_start key) t = false ->
  json_opt key x +:+ s = json_opt key y +:+ t -> same_json x y /\ s = t.
Proof.
  intros Hs Ht. unfold json_opt, json_kv.
  destruct (String.eqb_spec x "") as [->|Hx], (String.eqb_spec y "") as [->|Hy]; rewrite ?append_assoc; intros H.
  - by simplify_eq/=.
  - change ("" +:+ s) with s in H. subst s. rewrite <- append_assoc in Hs. fold (field_start key) in Hs.
    by rewrite prefix_append in Hs.
  - change ("" +:+ t) with t in H. subst t. rewrite <- append_assoc in Ht. fold (field_start key) in Ht.
    by rewrite prefix_append in Ht.
  - do 3 apply append_inj_l in H. by apply json_string_readable.
Qed.

(** An optional field of another name in front changes nothing for the search of a field. *)
Lemma prefix_opt p key x s :
  (forall r, String.prefix p (field_start key +:+ r) = false) ->
  String.prefix p s = false -> String.prefix p (json_opt key x +:+ s) = false.
Proof.
  intros Hk Hs. unfold json_opt, json_kv. destruct (String.eqb x ""); [exact Hs|].
  rewrite !append_assoc, <- append_assoc. apply Hk.
Qed.

Lemma digits_readable l k l' k' :
  forallb is_digit l = true -> forallb is_digit k = true ->
  match l' with a :: _ => is_digit a = false | [] => True end ->
  match k' with a :: _ => is_digit a = false | [] => True end ->
  l ++ l' = k ++ k' -> l = k /\ l' = k'.
Proof.
  revert k. induction l as [|a l IH]; intros [|b k]; simpl; intros Hl Hk Hl' Hk' H.
  - done.
  - subst l'. apply andb_true_iff in Hk as [Hb _]. congruence.
  - subst k'. apply andb_true_iff in Hl as [Ha _]. congruence.
  - injection H as -> H. apply andb_true_iff in Hl as [_ Hl]. apply andb_true_iff in Hk as [_ Hk].
    destruct (IH k Hl Hk Hl' Hk' H) as [-> ->]. done.
Qed.

Lemma decimal_readable n m s t : decimal n +:+ "," +:+ s = decimal m +:+ "," +:+ t -> n = m /\ s = t.
Proof.
  intros H%(f_equal to_bytes). rewrite !to_bytes_app in H.
  apply digits_readable in H as [H1 H2]; try apply decimal_digits; try reflexivity.
  apply to_bytes_inj, decimal_inj in H1. injection H2 as H2. split; [exact H1|by apply to_bytes_inj].
Qed.
