(* ===== verification/Regexp.v ===== *)
(** * The regular expressions of the program

    [regexp.MustCompile]/[MatchString] on the dialect the program writes:
    an anchored sequence of character classes or literal characters with bounded
    repetition, [^[a-z][a-z0-9.-]{1,31}:...$].  A pattern outside the dialect is
    reported as one that does not compile.  All classes are ASCII, so matching
    bytes is matching runes. *)

From S2P Require Import Prelude GoStrings.
From Stdlib Require Import Ascii.

Notation char_class := (list (ascii * ascii)).

Record item := Item { item_class : char_class; item_min : nat; item_max : nat }.
Notation regexp := (list item).

Definition in_class (c : char_class) (a : ascii) : bool :=
  existsb (fun '(lo, hi) => between (byte lo) (byte a) (byte hi)) c.

(** ** Compilation *)

(** After the opening bracket, up to and including the closing one. *)
Fixpoint parse_class (l : bytes) (acc : char_class) : option (char_class * bytes) :=
  match l with
  | [] => None
  | a :: l1 =>
    if Ascii.eqb a "]" then Some (rev acc, l1) else
    match l1 with
    | d :: ((b :: l3) as l2) =>
      if Ascii.eqb d "-" then
        if Ascii.eqb b "]" then Some (rev ((d, d) :: (a, a) :: acc), l3)
        else parse_class l3 ((a, b) :: acc)
      else parse_class l1 ((a, a) :: acc)
    | _ => parse_class l1 ((a, a) :: acc)
    end
  end.

Fixpoint parse_number (l : bytes) (acc : nat) : nat * bytes :=
  match l with
  | a :: l' => if is_digit a then parse_number l' (10 * acc + Z.to_nat (byte a - 48)) else (acc, l)
  | [] => (acc, l)
  end.

(** An optional [{m,n}] or [{m}]. *)
Definition parse_repeat (l : bytes) : option (nat * nat * bytes) :=
  match l with
  | a :: l1 =>
    if Ascii.eqb a "{" then
      match parse_number l1 0 with
      | (m, c :: l2) =>
        if Ascii.eqb c "}" then Some (m, m, l2) else
        match parse_number l2 0 with
        | (n, d :: l3) =>
          if Ascii.eqb c "," && Ascii.eqb d "}" then Some (m, n, l3) else None
        | _ => None
        end
      | _ => None
      end
    else Some (1, 1, l)
  | [] => Some (1, 1, l)
  end.

(** [fuel] bounds the number of items; the length of the pattern is enough. *)
Fixpoint parse_items (fuel : nat) (l : bytes) : option regexp :=
  match fuel, l with
  | S fuel, a :: l1 =>
    if Ascii.eqb a "$" then (if decide (l1 = []) then Some [] else None)
    else
      '(c, l2) ← (if Ascii.eqb a "[" then parse_class l1 [] else Some ([(a, a)], l1));
      '(m, n, l3) ← parse_repeat l2;
      items ← parse_items fuel l3;
      Some (Item c m n :: items)
  | _, _ => None
  end.

(** [regexp.Compile]. *)
Definition Compile (pattern : string) : option regexp :=
  match to_bytes pattern with
  | a :: l => if Ascii.eqb a "^" then parse_items (length l) l else None
  | [] => None
  end.

(** ** Matching, by backtracking *)

Fixpoint match_item (c : char_class) (lo hi : nat) (k : bytes -> bool) (l : bytes) : bool :=
  (lo =? 0)%nat && k l ||
  match hi, l with
  | S hi, a :: l' => in_class c a && match_item c (Nat.pred lo) hi k l'
  | _, _ => false
  end.

Fixpoint match_items (r : regexp) (l : bytes) : bool :=
  match r with
  | [] => match l with [] => true | _ => false end
  | Item c lo hi :: r => match_item c lo hi (match_items r) l
  end.

Definition MatchString (r : regexp) (s : string) : bool := match_items r (to_bytes s).

(** [regexp.MustCompile(p).MatchString(s)]; it panics for no pattern of the program. *)
Definition matches (pattern : string) (s : string) : bool :=
  match Compile pattern with Some r => MatchString r s | None => false end.

(** ** What a match means *)

Lemma match_item_spec c lo hi k l :
  lo <= hi ->
  match_item c lo hi k l = true <->
  exists l1 l2, l = l1 ++ l2 /\ forallb (in_class c) l1 = true /\
                lo <= length l1 <= hi /\ k l2 = true.
Proof.
  revert lo l. induction hi as [|hi IH]; intros lo l Hlo; cbn [match_item].
  - assert (lo = 0) as -> by lia. cbn. rewrite orb_false_r. split.
    + intros H. by exists [], l.
    + intros ([|] & l2 & -> & _ & ? & ?); simpl in *; [done|lia].
  - rewrite orb_true_iff, andb_true_iff, Nat.eqb_eq. split.
    + intros [[-> H]|H]; [exists [], l; simpl; split_and!; auto with lia|].
      destruct l as [|a l]; [done|]. apply andb_true_iff in H as [Ha H].
      apply IH in H as (l1 & l2 & -> & H1 & H2 & H3); [|lia].
      exists (a :: l1), l2. simpl. rewrite Ha. split_and!; try done; lia.
    + intros ([|a l1] & l2 & -> & H1 & H2 & H3); simpl in *; [left; split; [lia|done]|].
      right. apply andb_true_iff in H1 as [-> H1]. apply IH; [lia|].
      exists l1, l2. split_and!; try done; lia.
Qed.

Lemma match_items_cons c lo hi r l :
  lo <= hi ->
  match_items (Item c lo hi :: r) l = true <->
  exists l1 l2, l = l1 ++ l2 /\ forallb (in_class c) l1 = true /\
                lo <= length l1 <= hi /\ match_items r l2 = true.
Proof. apply match_item_spec. Qed.

(** The last item takes all that is left. *)
Lemma match_items_last c lo hi l :
  lo <= hi ->
  match_items [Item c lo hi] l = true <->
  forallb (in_class c) l = true /\ lo <= length l <= hi.
Proof.
  intros H. rewrite match_items_cons by done. split.
  - intros (l1 & [|] & -> & ? & ? & ?); [|done]. by rewrite app_nil_r.
  - intros [H1 H2]. exists l, []. by rewrite app_nil_r.
Qed.

(** One character of a class. *)
Lemma match_items_one c r l :
  match_items (Item c 1 1 :: r) l = true <->
  exists a l', l = a :: l' /\ in_class c a = true /\ match_items r l' = true.
Proof.
  rewrite match_items_cons by done. split.
  - intros ([|a [|]] & l2 & -> & H & ? & ?); simpl in *; try lia.
    rewrite andb_true_r in H. eauto.
  - intros (a & l' & -> & H & ?). exists [a], l'. simpl. by rewrite H.
Qed.
