(* ===== verification/Backtrack.v ===== *)
(** * Regular expressions searched in a text

    [regexp.FindStringSubmatch] for the one pattern of the program that is not anchored (the dialect of [Regexp.v] is): runes,
    word boundaries, sequences, options and repetitions that prefer more, and one capturing group.  The first match is the
    leftmost one, and among those that start there the one the preferences put first, as in Perl.  [run] lists the ways to match in
    the order of preference; [denotes] says what they are. *)

From S2P Require Import Prelude GoStrings Regexp.
From Stdlib Require Import Ascii.
#[local] Open Scope Z_scope.

Inductive regex :=
| Sat (p : token -> bool)
| Boundary                  (* \b *)
| Cat (r s : regex)
| Opt (r : regex)           (* r? *)
| Plus (r : regex)          (* r+ *)
| Group (r : regex).        (* (r) *)

(** A position in a text: the runes before it, the last one first, those after it, and what the group captured. *)
Record cursor := Cursor { seen : list token; ahead : list token; captured : list token }.

#[export] Instance cursor_eq_dec : EqDecision cursor.
Proof. solve_decision. Defined.

(** ASCII word characters, on which [\b] depends. *)
Definition word_byte (a : ascii) : bool :=
  is_digit a || between 65 (byte a) 90 || between 97 (byte a) 122 || (byte a =? 95).
Definition word_at (l : list token) : bool :=
  match l with Rune [a] :: _ => word_byte a | _ => false end.
Definition at_boundary (c : cursor) : bool := xorb (word_at (seen c)) (word_at (ahead c)).

(** The runes passed on the way from [c] to [d]. *)
Definition passed (c d : cursor) : list token := rev (take (length (seen d) - length (seen c)) (seen d)).
Definition capture (c d : cursor) : cursor := Cursor (seen d) (ahead d) (passed c d).

(** One or more times, most preferred. *)
Fixpoint again (f : cursor -> list cursor) (n : nat) (c : cursor) : list cursor :=
  match n with
  | O => []
  | S n => d ← f c; again f n d ++ [d]
  end.

(** The positions after a match, in the order of preference.  A repetition ends because each round passes a rune. *)
Fixpoint run (r : regex) (c : cursor) : list cursor :=
  match r with
  | Sat p =>
    match ahead c with
    | t :: l => if p t then [Cursor (t :: seen c) l (captured c)] else []
    | [] => []
    end
  | Boundary => if at_boundary c then [c] else []
  | Cat r s => d ← run r c; run s d
  | Opt r => run r c ++ [c]
  | Plus r => again (run r) (length (ahead c)) c
  | Group r => capture c <$> run r c
  end.

Fixpoint find (r : regex) (before after : list token) : option cursor :=
  match run r (Cursor before after []) with
  | d :: _ => Some d
  | [] => match after with t :: l => find r (t :: before) l | [] => None end
  end.

Definition text_of (l : list token) : string := of_bytes (mjoin (token_bytes <$> l)).

(** The text of the group of the first match. *)
Definition FindStringSubmatch (r : regex) (s : string) : option string :=
  (fun d => text_of (captured d)) <$> find r [] (tokens (to_bytes s)).

(** ** Runes of a class, without regard to case *)

(** [(?i)]: a class also takes what folds to one of its letters, [Kelvin] and the long s among them. *)
Definition upper_ascii (a : ascii) : ascii := if between 97 (byte a) 122 then chr (byte a - 32) else a.
Definition insensitive (c : char_class) (t : token) : bool :=
  match fold_token t with [a] => in_class c a || in_class c (upper_ascii a) | _ => false end.

(** ** What the matches are *)

Inductive denotes : regex -> cursor -> cursor -> Prop :=
| denotes_sat p t before after g : p t = true ->
    denotes (Sat p) (Cursor before (t :: after) g) (Cursor (t :: before) after g)
| denotes_boundary c : at_boundary c = true -> denotes Boundary c c
| denotes_cat r s c d e : denotes r c d -> denotes s d e -> denotes (Cat r s) c e
| denotes_opt r c d : denotes r c d -> denotes (Opt r) c d
| denotes_skip r c : denotes (Opt r) c c
| denotes_once r c d : denotes r c d -> denotes (Plus r) c d
| denotes_more r c d e : denotes r c d -> denotes (Plus r) d e -> denotes (Plus r) c e
| denotes_group r c d : denotes r c d -> denotes (Group r) c (capture c d).

(** Whether each match passes a rune. *)
Fixpoint passes (r : regex) : bool :=
  match r with
  | Sat _ => true
  | Boundary | Opt _ => false
  | Cat r s => passes r || passes s
  | Plus r | Group r => passes r
  end.
(** Only such patterns are repeated. *)
Fixpoint repeatable (r : regex) : bool :=
  match r with
  | Sat _ | Boundary => true
  | Cat r s => repeatable r && repeatable s
  | Opt r | Group r => repeatable r
  | Plus r => passes r && repeatable r
  end.
(** The runes a match may pass. *)
Fixpoint letters (r : regex) (t : token) : bool :=
  match r with
  | Sat p => p t
  | Boundary => false
  | Cat r s => letters r t || letters s t
  | Opt r | Plus r | Group r => letters r t
  end.

(** A match moves over runes of the pattern. *)
Lemma denotes_moves r c d : denotes r c d ->
  exists w, ahead c = w ++ ahead d /\ seen d = rev w ++ seen c /\ Forall (fun t => letters r t = true) w.
Proof.
  induction 1 as [p t before after g Hp|c|r s c d e _ IH1 _ IH2|r c d _ IH|r c|r c d _ IH|r c d e _ IH1 _ IH2|r c d _ IH]; simpl.
  - exists [t]. auto.
  - by exists [].
  - destruct IH1 as (w & Ha & Hs & Hw), IH2 as (v & Ha' & Hs' & Hv). exists (w ++ v).
    rewrite Ha, Ha', Hs', Hs, rev_app_distr, <- !app_assoc. split_and!; [done..|].
    apply Forall_app. split; eapply Forall_impl; try eassumption; simpl; intros t ->; [done|apply orb_true_r].
  - exact IH.
  - by exists [].
  - exact IH.
  - destruct IH1 as (w & Ha & Hs & Hw), IH2 as (v & Ha' & Hs' & Hv). exists (w ++ v).
    rewrite Ha, Ha', Hs', Hs, rev_app_distr, <- !app_assoc. split_and!; [done..|]. by apply Forall_app.
  - destruct IH as (w & ? & ? & ?). by exists w.
Qed.

Lemma passed_spec c d w : seen d = rev w ++ seen c -> passed c d = w.
Proof.
  intros E. unfold passed. rewrite E, length_app, Nat.add_sub, take_app_length, rev_involutive. done.
Qed.

Lemma denotes_passes r c d : denotes r c d -> passes r = true -> (length (ahead d) < length (ahead c))%nat.
Proof.
  assert (Hle : forall r c d, denotes r c d -> (length (ahead d) <= length (ahead c))%nat).
  { intros ? ? ? (w & -> & _)%denotes_moves. rewrite length_app. lia. }
  induction 1 as [p t before after g Hp|c|r s c d e H1 IH1 H2 IH2|r c d H IH|r c|r c d H IH|r c d e H1 IH1 H2 IH2|r c d H IH];
    simpl; intros Hr; try done.
  - lia.
  - apply Hle in H1 as ?, H2 as ?. apply orb_true_iff in Hr as [?|?]; [specialize (IH1 ltac:(done))|specialize (IH2 ltac:(done))]; lia.
  - auto.
  - specialize (IH1 Hr). specialize (IH2 Hr). lia.
  - auto.
Qed.

(** Matching by backtracking finds exactly what the pattern denotes. *)
Lemma run_spec r c d : repeatable r = true -> d ∈ run r c <-> denotes r c d.
Proof.
  revert c d. induction r as [p| |r IHr s IHs|r IH|r IH|r IH]; intros c d Hr; simpl in *.
  - destruct c as [before [|t after] g]; simpl; [split; [by intros ?%not_elem_of_nil|by inversion 1]|].
    destruct (p t) eqn:E.
    + rewrite list_elem_of_singleton. split; [intros ->; by constructor|by inversion 1].
    + split; [by intros ?%not_elem_of_nil|inversion 1; congruence].
  - destruct (at_boundary c) eqn:E.
    + rewrite list_elem_of_singleton. split; [intros ->; by constructor|by inversion 1].
    + split; [by intros ?%not_elem_of_nil|inversion 1; congruence].
  - apply andb_true_iff in Hr as [Hr Hs]. rewrite list_elem_of_bind. split.
    + intros (e & He & Hd). econstructor; [by apply IHr|by apply IHs].
    + inversion 1; subst. exists d0. by rewrite IHr, IHs.
  - rewrite elem_of_app, list_elem_of_singleton, IH by done. split.
    + intros [?| ->]; by constructor.
    + inversion 1; auto.
  - apply andb_true_iff in Hr as [Hp Hr]. assert (Hn : (length (ahead c) <= length (ahead c))%nat) by done. revert Hn.
    generalize (length (ahead c)) at 2 3 as n. intros n. revert c. induction n as [|n IHn]; intros c Hn; simpl.
    + split; [by intros ?%not_elem_of_nil|]. intros H%denotes_passes; [lia|done].
    + rewrite list_elem_of_bind. setoid_rewrite elem_of_app. setoid_rewrite list_elem_of_singleton. split.
      * intros (e & He & H). apply IH in H; [|done]. pose proof (denotes_passes _ _ _ H Hp).
        destruct He as [He| ->]; [|by apply denotes_once]. apply denotes_more with e; [done|]. apply IHn; [lia|done].
      * inversion 1; subst; [exists d; by rewrite IH by done; auto|].
        exists d0. rewrite IH by done. split; [|done]. left. apply IHn; [|done].
        pose proof (denotes_passes r c d0 ltac:(done) Hp). lia.
  - rewrite list_elem_of_fmap. split.
    + intros (e & -> & He). constructor. by apply IH.
    + inversion 1; subst. eexists. split; [done|]. by apply IH.
Qed.

(** A search ends at the first position where the pattern matches, and fails when there is none. *)
Lemma find_Some r before after d : repeatable r = true -> find r before after = Some d ->
  exists skipped rest, after = skipped ++ rest /\ denotes r (Cursor (rev skipped ++ before) rest []) d.
Proof.
  intros Hr. revert before. induction after as [|t after IH]; intros before; simpl.
  - destruct (run r (Cursor before [] [])) as [|e l] eqn:E; [done|]. intros [= ->]. exists [], []. split; [done|].
    apply run_spec; [done|]. simpl app. rewrite E. by left.
  - destruct (run r (Cursor before (t :: after) [])) as [|e l] eqn:E.
    + intros (skipped & rest & -> & H)%IH. exists (t :: skipped), rest. simpl. rewrite <- app_assoc. done.
    + intros [= ->]. exists [], (t :: after). split; [done|]. apply run_spec; [done|]. simpl app. rewrite E. by left.
Qed.

Lemma find_None r before after : repeatable r = true -> find r before after = None ->
  forall skipped rest d, after = skipped ++ rest -> ~ denotes r (Cursor (rev skipped ++ before) rest []) d.
Proof.
  intros Hr. revert before. induction after as [|t after IH]; intros before Hf skipped rest d Hsplit H; simpl in Hf;
    (destruct (run r (Cursor before _ [])) as [|e l] eqn:E; [|done]).
  - symmetry in Hsplit. apply app_eq_nil in Hsplit as [-> ->]. apply run_spec in H; [|done].
    simpl app in H. rewrite E in H. by apply not_elem_of_nil in H.
  - destruct skipped as [|u skipped]; simplify_eq/=.
    + apply run_spec in H; [|done]. simpl app in H. rewrite E in H. by apply not_elem_of_nil in H.
    + rewrite <- app_assoc in H. by apply (IH _ Hf skipped rest d).
Qed.
