(* ===== verification/GoText.v ===== *)
(** * Lines, fields and paths of a text

    [bufio.Scanner] with its default limits, [strings.Cut] at one byte and [filepath.Base], which the readers of [systemctl]
    output and of system files use. *)

From S2P Require Import Prelude GoStrings GoConv.
From Stdlib Require Import Ascii.
#[local] Open Scope Z_scope.

Notation newline := (chr 10).
Definition no_byte (a : ascii) (s : string) : bool := forallb (fun b => negb (Ascii.eqb b a)) (to_bytes s).

(** ** Lines *)

(** The lines of a text; the last one need not end in a newline. *)
Fixpoint split_lines (l : bytes) : list bytes :=
  match l with
  | [] => []
  | a :: l =>
    if Ascii.eqb a newline then [] :: split_lines l
    else match split_lines l with [] => [[a]] | line :: rest => (a :: line) :: rest end
  end.

(** [bufio.ScanLines] drops one carriage return. *)
Definition drop_cr (l : bytes) : bytes :=
  match rev l with a :: k => if Ascii.eqb a (chr 13) then rev k else l | [] => [] end.

(** A line and its newline must fit into the buffer, [bufio.MaxScanTokenSize]. *)
Definition line_fits (l : bytes) : bool := (Z.of_nat (length l) <? 64 * 1024).

(** The lines that [Scan] yields, and whether it stopped at one that is too long. *)
Fixpoint scan (lines : list bytes) : list string * bool :=
  match lines with
  | [] => ([], false)
  | line :: rest =>
    if line_fits line then let '(read, failed) := scan rest in (of_bytes (drop_cr line) :: read, failed) else ([], true)
  end.
Definition scan_lines (s : string) : list string * bool := scan (split_lines (to_bytes s)).

(** ** Fields *)

(** [strings.Cut(s, sep)] for a separator of one byte. *)
Definition Cut (sep : ascii) (s : string) : option (string * string) :=
  '(before, after) ← cut_first sep (to_bytes s); Some (of_bytes before, of_bytes after).

(** ** Paths *)

Fixpoint drop_slashes (l : bytes) : bytes :=
  match l with a :: k => if Ascii.eqb a "/" then drop_slashes k else l | [] => [] end.
Fixpoint to_slash (l : bytes) : bytes :=
  match l with a :: k => if Ascii.eqb a "/" then [] else a :: to_slash k | [] => [] end.
(** [filepath.Base]: the last element of a path. *)
Definition Base (path : string) : string :=
  if path == "" then "."
  else
    let element := rev (to_slash (drop_slashes (rev (to_bytes path)))) in
    match element with [] => "/" | _ => of_bytes element end.

Example Base_unit : Base "/lib/systemd/system/php8.2-fpm.service" = "php8.2-fpm.service" /\ Base "/etc//" = "etc" /\ Base "//" = "/".
Proof. by vm_compute. Qed.
Example scan_lines_example :
  scan_lines (of_bytes [chr 97; chr 13; chr 10; chr 10; chr 98]) = (["a"; ""; "b"], false).
Proof. by vm_compute. Qed.

(** ** Printing and reading *)

Definition print_lines (lines : list string) : string :=
  of_bytes (mjoin ((fun line => to_bytes line ++ [newline]) <$> lines)).

Lemma split_lines_app line l : forallb (fun b => negb (Ascii.eqb b newline)) line = true ->
  split_lines (line ++ newline :: l) = line :: split_lines l.
Proof.
  induction line as [|a line IH]; simpl; [done|]. intros [Ha Hl]%andb_true_iff. apply negb_true_iff in Ha.
  rewrite Ha, IH by done. done.
Qed.

(** A line the scanner reads back as it is. *)
Definition plain_line (line : string) : bool :=
  no_byte newline line && no_byte (chr 13) line && line_fits (to_bytes line).

Lemma drop_cr_plain l : forallb (fun b => negb (Ascii.eqb b (chr 13))) l = true -> drop_cr l = l.
Proof.
  intros H. unfold drop_cr. destruct (rev l) as [|a k] eqn:E.
  - apply (f_equal (@rev ascii)) in E. rewrite rev_involutive in E. done.
  - apply (f_equal (@rev ascii)) in E. rewrite rev_involutive in E. subst l. simpl in H.
    rewrite forallb_app in H. apply andb_true_iff in H as [_ H]. simpl in H. destruct (Ascii.eqb a (chr 13)); done.
Qed.

Lemma scan_print lines : forallb plain_line lines = true -> scan_lines (print_lines lines) = (lines, false).
Proof.
  unfold scan_lines, print_lines. rewrite to_of_bytes.
  induction lines as [|line lines IH]; [done|]. csimpl.
  intros [[[Hn Hr]%andb_true_iff Hf]%andb_true_iff Hl]%andb_true_iff.
  rewrite <- (app_assoc (to_bytes line)). cbn [app]. rewrite (split_lines_app _ _ Hn). cbn [scan]. rewrite Hf, (IH Hl).
  rewrite drop_cr_plain by exact Hr. by rewrite of_to_bytes.
Qed.

Lemma Cut_app sep key value : no_byte sep key = true ->
  Cut sep (of_bytes (to_bytes key ++ sep :: to_bytes value)) = Some (key, value).
Proof.
  intros H. unfold Cut. rewrite to_of_bytes.
  rewrite cut_first_app.
  - simpl. by rewrite !of_to_bytes.
  - unfold has_byte. unfold no_byte in H. induction (to_bytes key) as [|a l IH]; [done|]. simpl in *. apply andb_true_iff in H as [Ha%negb_true_iff Hl].
    rewrite Ascii.eqb_sym, Ha. by apply IH.
Qed.

Lemma Cut_line key value : no_byte "=" key = true -> Cut "=" (key +:+ "=" +:+ value) = Some (key, value).
Proof.
  intros H. rewrite <- (Cut_app "=" key value H). f_equal. apply to_bytes_inj. by rewrite to_of_bytes, !to_bytes_app.
Qed.
