(* ===== verification/Mux.v ===== *)
(** * Request routing of Go's [net/http]

    [http.ServeMux] (Go 1.22 and later) for patterns made of a method, literal segments, wildcards for one segment and a trailing
    slash: parsing and registering patterns, cleaning and redirecting paths, the search for a handler, and the answers to
    requests that no pattern takes.  The escaped path of a request is what its request line holds; its decoded path is [unescape] of it. *)

From S2P Require Import Prelude GoStrings GoConv.
From Stdlib Require Import Ascii.
#[local] Open Scope Z_scope.

(** ** Paths *)

Definition slash : ascii := chr 47.

(** [strings.Split] at one byte. *)
Fixpoint split_byte (sep : ascii) (l : bytes) : list bytes :=
  match l with
  | [] => [[]]
  | a :: l =>
    if Ascii.eqb a sep then [] :: split_byte sep l
    else match split_byte sep l with part :: parts => (a :: part) :: parts | [] => [[a]] end
  end.

(** [url.PathUnescape]. *)
Fixpoint unescape_bytes (l : bytes) : option bytes :=
  match l with
  | [] => Some []
  | a :: l =>
    if byte a =? 37 then
      match l with
      | h :: k :: l =>
        h ← from_hex h; k ← from_hex k; rest ← unescape_bytes l; Some (chr (16 * h + k) :: rest)
      | _ => None
      end
    else rest ← unescape_bytes l; Some (a :: rest)
  end.
(** An escape that cannot be read is left as it is. *)
Definition unescape (s : string) : string := match unescape_bytes (to_bytes s) with Some l => of_bytes l | None => s end.

(** [path.Clean] of a rooted path, by its elements; the last one first. *)
Fixpoint clean_elements (out : list bytes) (parts : list bytes) : list bytes :=
  match parts with
  | [] => out
  | part :: parts =>
    let s := of_bytes part in
    if (s == "") || (s == ".") then clean_elements out parts
    else if s == ".." then clean_elements (tail out) parts
    else clean_elements (part :: out) parts
  end.
Definition join_rooted (elements : list bytes) : bytes :=
  match elements with [] => [slash] | _ => mjoin ((fun part => slash :: part) <$> elements) end.
Definition ends_in_slash (l : bytes) : bool := match rev l with a :: _ => Ascii.eqb a slash | [] => false end.

(** [cleanPath]: a trailing slash is kept. *)
Definition clean_path (path : string) : string :=
  match to_bytes path with
  | [] => "/"
  | a :: _ =>
    let l := if Ascii.eqb a slash then to_bytes path else slash :: to_bytes path in
    let np := join_rooted (rev (clean_elements [] (split_byte slash l))) in
    of_bytes (if ends_in_slash l && negb (bool_decide (np = [slash])) then np ++ [slash] else np)
  end.

(** The segments a path is matched by: unescaped, with ["/"] for a trailing slash ([firstSegment]). *)
Fixpoint mark_segments (parts : list bytes) : list string :=
  match parts with
  | [] => []
  | [part] => [match part with [] => "/" | _ => unescape (of_bytes part) end]
  | part :: parts => unescape (of_bytes part) :: mark_segments parts
  end.
Definition path_segments (path : string) : list string :=
  match to_bytes path with [] => [] | _ :: l => mark_segments (split_byte slash l) end.

(** ** Patterns *)

Inductive segment := Lit (s : string) | Wild (name : string) | Multi.
Record pattern := Pattern { P_Method : string; P_Segments : list segment }.

#[export] Instance segment_eq_dec : EqDecision segment.
Proof. solve_decision. Defined.
#[export] Instance pattern_eq_dec : EqDecision pattern.
Proof. solve_decision. Defined.

(** An identifier of ASCII letters, digits and underscores. *)
Definition wildcard_name (name : bytes) : bool :=
  match name with
  | [] => false
  | a :: _ =>
    negb (is_digit a) &&
    forallb (fun c => between 97 (byte c) 122 || between 65 (byte c) 90 || is_digit c || (byte c =? 95)) name
  end.
Definition parse_segment (part : bytes) : option segment :=
  match part with
  | a :: l =>
    if byte a =? 123 then
      match rev l with
      | b :: name => if (byte b =? 125) && wildcard_name (rev name) then Some (Wild (of_bytes (rev name))) else None
      | [] => None
      end
    else if has_byte (chr 123) part then None else Some (Lit (unescape (of_bytes part)))
  | [] => None
  end.
Fixpoint parse_segments (parts : list bytes) : option (list segment) :=
  match parts with
  | [] => Some []
  | [[]] => Some [Multi]
  | part :: parts => s ← parse_segment part; rest ← parse_segments parts; Some (s :: rest)
  end.
(** ["METHOD /path"]; hosts and other wildcards are outside the dialect. *)
Definition parse_pattern (s : string) : option pattern :=
  '(method, path) ← cut_first (chr 32) (to_bytes s);
  match path with
  | a :: rest => if Ascii.eqb a slash then segments ← parse_segments (split_byte slash rest); Some (Pattern (of_bytes method) segments)
                 else None
  | [] => None
  end.

Example parse_pattern_examples :
  parse_pattern "GET /" = Some (Pattern "GET" [Multi]) /\
  parse_pattern "GET /v1/services/{unit}" = Some (Pattern "GET" [Lit "v1"; Lit "services"; Wild "unit"]) /\
  parse_pattern "GET /{2}" = None.
Proof. by vm_compute. Qed.

(** *** Registration *)

Inductive relationship := Equivalent | MoreGeneral | MoreSpecific | Disjoint | Overlaps.
#[export] Instance relationship_eq_dec : EqDecision relationship.
Proof. solve_decision. Defined.

(** [combineRelationships]. *)
Definition combine_relationships (r1 r2 : relationship) : relationship :=
  match r1 with
  | Equivalent => r2
  | Disjoint => Disjoint
  | Overlaps => if decide (r2 = Disjoint) then Disjoint else Overlaps
  | MoreGeneral =>
    match r2 with Equivalent | MoreGeneral => MoreGeneral | MoreSpecific | Overlaps => Overlaps | Disjoint => Disjoint end
  | MoreSpecific =>
    match r2 with Equivalent | MoreSpecific => MoreSpecific | MoreGeneral | Overlaps => Overlaps | Disjoint => Disjoint end
  end.
Definition compare_segments (s1 s2 : segment) : relationship :=
  match s1, s2 with
  | Multi, Multi | Wild _, Wild _ => Equivalent
  | Multi, _ => MoreGeneral
  | _, Multi => MoreSpecific
  | Wild _, Lit s => if s == "/" then Disjoint else MoreGeneral
  | Lit s, Wild _ => if s == "/" then Disjoint else MoreSpecific
  | Lit s, Lit t => if s == t then Equivalent else Disjoint
  end.
Fixpoint compare_paths (rel : relationship) (p1 p2 : list segment) : relationship :=
  match p1, p2 with
  | [], [] => rel
  | [], _ :: _ | _ :: _, [] => Disjoint
  | [Multi], s2 :: ((_ :: _) as rest) => combine_relationships (combine_relationships rel (compare_segments Multi s2)) MoreGeneral
  | s1 :: ((_ :: _) as rest), [Multi] => combine_relationships (combine_relationships rel (compare_segments s1 Multi)) MoreSpecific
  | s1 :: p1, s2 :: p2 =>
    let rel := combine_relationships rel (compare_segments s1 s2) in
    if decide (rel = Disjoint) then Disjoint else compare_paths rel p1 p2
  end.
(** [conflictsWith], for patterns with a method: the registration of such a pattern panics. *)
Definition conflicts (p q : pattern) : bool :=
  let method := if P_Method p == P_Method q then Equivalent
                else if (P_Method p == "GET") && (P_Method q == "HEAD") then MoreGeneral
                else if (P_Method p == "HEAD") && (P_Method q == "GET") then MoreSpecific
                else Disjoint in
  bool_decide (combine_relationships method (compare_paths Equivalent (P_Segments p) (P_Segments q)) ∈ [Equivalent; Overlaps]).

Fixpoint register {A} (routes : list (string * A)) (table : list (pattern * A)) : option (list (pattern * A)) :=
  match routes with
  | [] => Some table
  | (s, a) :: routes =>
    p ← parse_pattern s;
    if existsb (fun q => conflicts p q.1) table then None else register routes (table ++ [(p, a)])
  end.

Fixpoint conflict_free (seen patterns : list pattern) : bool :=
  match patterns with
  | [] => true
  | p :: patterns => negb (existsb (conflicts p) seen) && conflict_free (seen ++ [p]) patterns
  end.
Lemma register_zip {A} (routes : list (string * A)) table patterns :
  mapM parse_pattern routes.*1 = Some patterns -> conflict_free table.*1 patterns = true ->
  register routes table = Some (table ++ zip patterns routes.*2).
Proof.
  revert table patterns. induction routes as [|[s a] routes IH]; intros table patterns Hp Hc.
  - injection Hp as <-. by rewrite app_nil_r.
  - rewrite fmap_cons in Hp.
    change (mapM parse_pattern ((s, a).1 :: routes.*1)) with
      (p ← parse_pattern s; ps ← mapM parse_pattern routes.*1; Some (p :: ps)) in Hp.
    apply bind_Some in Hp as (p & Ep & Hp). apply bind_Some in Hp as (ps & Eps & [= <-]).
    cbn [conflict_free] in Hc. apply andb_true_iff in Hc as [Hn Hc]. cbn [register]. rewrite Ep. cbn [mbind option_bind].
    assert (He : existsb (fun q : pattern * A => conflicts p q.1) table = existsb (conflicts p) table.*1).
    { clear. induction table as [|[q b] table IH]; [done|]. csimpl. by rewrite IH. }
    rewrite He. apply negb_true_iff in Hn. rewrite Hn. rewrite (IH (table ++ [(p, a)]) ps Eps).
    + by rewrite <- app_assoc.
    + rewrite fmap_app. exact Hc.
Qed.

(** ** Finding a handler *)

Section matching.
Context {A : Type}.
Notation candidates := (list (list segment * A)).

Definition after_literal (seg : string) (cands : candidates) : candidates :=
  omap (fun '(p, a) => match p with Lit s :: p => if s == seg then Some (p, a) else None | _ => None end) cands.
Definition after_wild (cands : candidates) : candidates :=
  omap (fun '(p, a) => match p with Wild _ :: p => Some (p, a) | _ => None end) cands.
Definition at_multi (cands : candidates) : option A :=
  find_first (fun '(p, a) => match p with [Multi] => Some a | _ => None end) cands.
Definition at_end (cands : candidates) : option A :=
  find_first (fun '(p, a) => match p with [] => Some a | _ => None end) cands.

(** [matchPath]: the handler and the values of the wildcards. *)
Fixpoint match_path (segs : list string) (cands : candidates) : option (A * list string) :=
  match segs with
  | [] => a ← at_end cands; Some (a, [])
  | seg :: rest =>
    match match_path rest (after_literal seg cands) with
    | Some found => Some found
    | None =>
      match (if seg == "/" then None else match_path rest (after_wild cands)) with
      | Some (a, values) => Some (a, seg :: values)
      | None => a ← at_multi cands; Some (a, [])
      end
    end
  end.

Definition with_method (method : string) (table : list (pattern * A)) : list (list segment * (pattern * A)) :=
  omap (fun '(p, a) => if P_Method p == method then Some (P_Segments p, (p, a)) else None) table.
End matching.

(** What a mux does with a request that is not served by a handler. *)
Inductive unmatched :=
| MuxBadRequest
| MuxNotFound
| MuxNotAllowed (allow : list string)
| MuxRedirect (path : string).
Definition unmatched_status (u : unmatched) : Z :=
  match u with MuxBadRequest => 400 | MuxNotFound => 404 | MuxNotAllowed _ => 405 | MuxRedirect _ => 301 end.

Inductive mux_answer (A : Type) :=
| Served (a : A) (values : list string)
| Unmatched (u : unmatched).
Arguments Served {_} _ _.
Arguments Unmatched {_} _.

Section mux.
Context {A : Type} (table : list (pattern * A)).

(** [matchMethodAndPath]: [GET] patterns also take [HEAD] requests. *)
Definition match_method_path (method path : string) : option (pattern * A * list string) :=
  let segs := path_segments path in
  match match_path segs (with_method method table) with
  | Some (pa, values) => Some (pa, values)
  | None => if method == "HEAD" then match_path segs (with_method "GET" table) else None
  end.

(** [exactMatch]. *)
Definition exact_match (found : option (pattern * A * list string)) (path : string) : bool :=
  match found with
  | None => false
  | Some (p, _, _) =>
    if negb (bool_decide (last (P_Segments p) = Some Multi)) then true
    else ends_in_slash (to_bytes path) &&
         (length (P_Segments p) =? length (List.filter (Ascii.eqb slash) (to_bytes path)))%nat
  end.

(** [matchingMethods], sorted. *)
Definition methods_of (path : string) : list string :=
  let found := List.filter (fun m => bool_decide (is_Some (match_path (path_segments path) (with_method m table))))
                 (P_Method <$> table.*1) in
  if existsb (String.eqb "GET") found then "HEAD" :: found else found.
Definition matching_methods (path : string) : list string :=
  let all := methods_of path ++ (if ends_in_slash (to_bytes path) then [] else methods_of (path +:+ "/")) in
  sort_by (fun s => s) (remove_dups all).

Definition no_handler (path : string) : mux_answer A :=
  match matching_methods path with [] => Unmatched MuxNotFound | allow => Unmatched (MuxNotAllowed allow) end.

(** [matchOrRedirect]: the location to redirect to when only the path with a trailing slash has a handler, or the match. *)
Definition match_or_redirect (method escaped path : string) : string + option (pattern * A * list string) :=
  let found := match_method_path method path in
  let slashed := path +:+ "/" in
  if negb (exact_match found path) && negb (ends_in_slash (to_bytes path)) && exact_match (match_method_path method slashed) slashed
  then inl (clean_path (unescape escaped) +:+ "/")
  else inr found.

(** [ServeMux.ServeHTTP] and [findHandler]; paths of [CONNECT] requests are not cleaned. *)
Definition find_handler (method escaped : string) : mux_answer A :=
  if escaped == "*" then Unmatched MuxBadRequest
  else
    let path := if method == "CONNECT" then escaped else clean_path escaped in
    match match_or_redirect method escaped path with
    | inl location => Unmatched (MuxRedirect location)
    | inr found =>
      if path != escaped then Unmatched (MuxRedirect path)
      else
        match found with
        | Some (_, a, values) => Served a values
        | None => no_handler path
        end
    end.
End mux.

(** ** Queries *)

(** [url.QueryUnescape]. *)
Definition query_unescape (l : bytes) : option string :=
  l ← unescape_bytes ((fun a => if byte a =? 43 then chr 32 else a) <$> l); Some (of_bytes l).
(** [url.ParseQuery], without the parts that are not understood. *)
Definition parse_query (raw : string) : list (string * string) :=
  omap (fun part =>
    if bool_decide (part = []) || has_byte (chr 59) part then None
    else
      let '(key, value) := match cut_first (chr 61) part with Some kv => kv | None => (part, []) end in
      key ← query_unescape key; value ← query_unescape value; Some (key, value)) (split_byte (chr 38) (to_bytes raw)).
(** [Values.Get]: the first value of that name. *)
Definition query_get (name raw : string) : string :=
  default "" (find_first (fun kv => if kv.1 == name then Some kv.2 else None) (parse_query raw)).

Example query_examples :
  query_get "limit" "action=a%20b&limit=5&limit=7" = "5" /\ query_get "action" "action=a%20b+c&limit=5" = "a b c" /\
  query_get "limit" "limit=1;x&limit" = "" /\ query_get "action" "action=%zz" = "".
Proof. by vm_compute. Qed.
Example clean_path_examples :
  clean_path "/a//b/../c/" = "/a/c/" /\ clean_path "" = "/" /\ clean_path "/.." = "/" /\ path_segments "/v1/services/a%2Fb" = ["v1"; "services"; "a/b"] /\
  path_segments "/v1/" = ["v1"; "/"].
Proof. by vm_compute. Qed.

(** ** What a match means *)

Fixpoint fits (p : list segment) (segs : list string) : Prop :=
  match p, segs with
  | [], [] => True
  | [Multi], _ :: _ => True
  | Lit s :: p, seg :: segs => s = seg /\ fits p segs
  | Wild _ :: p, seg :: segs => seg <> "/" /\ fits p segs
  | _, _ => False
  end.

Section fitting.
Context {A : Type}.
Implicit Types cands : list (list segment * A).

Lemma match_path_fits segs cands a values :
  match_path segs cands = Some (a, values) -> exists p, (p, a) ∈ cands /\ fits p segs.
Proof.
  revert cands values. induction segs as [|seg rest IH]; intros cands values; cbn [match_path].
  - intros (a' & H & [= <- <-])%bind_Some. apply find_first_Some in H as ([p b] & Hin & H).
    destruct p; [|done]. injection H as ->. by exists [].
  - destruct (match_path rest (after_literal seg cands)) as [[a' v']|] eqn:E.
    { intros [= <- <-]. apply IH in E as (p & Hin & Hfit).
      apply list_elem_of_omap in Hin as ([q b] & Hin & H). destruct q as [|[s|n|] q]; try done.
      destruct (String.eqb_spec s seg) as [->|]; [|done]. injection H as <- <-. by exists (Lit seg :: q). }
    destruct (seg == "/") eqn:Es; bool_prop.
    + intros (a'' & H & [= <- <-])%bind_Some. apply find_first_Some in H as ([p b] & Hin & H).
      destruct p as [|[] [|]]; try done. injection H as ->. by exists [Multi].
    + destruct (match_path rest (after_wild cands)) as [[a'' v'']|] eqn:E2.
      * intros [= <- <-]. apply IH in E2 as (p & Hin & Hfit).
        apply list_elem_of_omap in Hin as ([q b] & Hin & H). destruct q as [|[s|n|] q]; try done.
        injection H as <- <-. by exists (Wild n :: q).
      * intros (a3 & H & [= <- <-])%bind_Some. apply find_first_Some in H as ([p b] & Hin & H).
        destruct p as [|[] [|]]; try done. injection H as ->. by exists [Multi].
Qed.

Lemma match_path_none segs : match_path segs (@nil (list segment * A)) = None.
Proof. induction segs as [|seg segs IH]; cbn [match_path]; [done|]. cbn. rewrite IH. by destruct (seg == "/"). Qed.
End fitting.

(** Tables whose only pattern with a trailing slash is the root, as both servers have them. *)
Definition rooted_pattern (p : pattern) : bool :=
  bool_decide (P_Segments p = [Multi]) ||
  forallb (fun s => match s with Lit s => s != "/" | Wild _ => true | Multi => false end) (P_Segments p).
Definition rooted_table {A} (table : list (pattern * A)) : Prop := forallb rooted_pattern table.*1 = true.

Lemma fits_trailing_slash p segs :
  forallb (fun s => match s with Lit s => s != "/" | Wild _ => true | Multi => false end) p = true -> ~ fits p (segs ++ ["/"]).
Proof.
  revert segs. induction p as [|s p IH]; intros segs H; [destruct segs; cbn; tauto|].
  cbn [forallb] in H. apply andb_true_iff in H as [Hs H]. destruct s as [s|n|]; [| |done].
  - destruct segs as [|seg segs]; cbn [app fits]; intros [E Hf]; [by rewrite E in Hs|by apply (IH segs H)].
  - destruct segs as [|seg segs]; cbn [app fits]; intros [E Hf]; [done|by apply (IH segs H)].
Qed.

Lemma split_byte_nonempty sep l : split_byte sep l <> [].
Proof. destruct l as [|a l]; cbn [split_byte]; [done|]. case_match; [done|]. by destruct (split_byte sep l). Qed.
Lemma split_byte_snoc sep l : split_byte sep (l ++ [sep]) = split_byte sep l ++ [[]].
Proof.
  induction l as [|a l IH]; cbn [split_byte app]; [by rewrite Ascii.eqb_refl|]. rewrite IH.
  destruct (Ascii.eqb a sep); [done|]. pose proof (split_byte_nonempty sep l). by destruct (split_byte sep l).
Qed.
Lemma mark_segments_snoc parts : exists segs, mark_segments (parts ++ [[]]) = segs ++ ["/"].
Proof.
  induction parts as [|part parts [segs IH]]; [by exists []|]. cbn [app mark_segments].
  destruct (parts ++ [[]]) as [|x y] eqn:E; [by destruct parts|]. rewrite IH. by exists (unescape (of_bytes part) :: segs).
Qed.
Lemma path_segments_slash path : (exists l, to_bytes path = slash :: l) -> exists segs, path_segments (path +:+ "/") = segs ++ ["/"].
Proof.
  intros [l E]. unfold path_segments. rewrite to_bytes_app, E. cbn [app].
  change (to_bytes "/") with [slash]. rewrite split_byte_snoc. apply mark_segments_snoc.
Qed.

Section serving.
Context {A : Type} (table : list (pattern * A)).
Implicit Types method path escaped : string.

Lemma elem_with_method method p (pa : pattern * A) :
  (p, pa) ∈ with_method method table -> pa ∈ table /\ P_Segments pa.1 = p /\ P_Method pa.1 = method.
Proof.
  intros H. apply list_elem_of_omap in H as ([q a] & Hin & H). destruct (String.eqb_spec (P_Method q) method); [|done].
  by injection H as <- <-.
Qed.

Lemma match_method_path_elem method path p a values :
  match_method_path table method path = Some (p, a, values) -> (p, a) ∈ table /\ fits (P_Segments p) (path_segments path).
Proof.
  unfold match_method_path. cbv zeta.
  assert (Hm : forall m, match_path (path_segments path) (with_method m table) = Some ((p, a), values) ->
    (p, a) ∈ table /\ fits (P_Segments p) (path_segments path)).
  { intros m (q & Hin & Hf)%match_path_fits. by apply elem_with_method in Hin as (H & <- & _). }
  destruct (match_path _ (with_method method table)) as [[pa v]|] eqn:E.
  - intros [= -> ->]. by apply (Hm method).
  - destruct (method == "HEAD"); [|done]. apply Hm.
Qed.

Lemma no_redirect method path :
  rooted_table table -> (exists l, to_bytes path = slash :: l) ->
  exact_match (match_method_path table method (path +:+ "/")) (path +:+ "/") = false.
Proof.
  intros Ht [l E]. unfold exact_match. destruct (match_method_path _ _ _) as [[[p a] values]|] eqn:Em; [|done].
  apply match_method_path_elem in Em as [Hin Hf]. unfold rooted_table in Ht. rewrite forallb_elem in Ht.
  specialize (Ht p). rewrite list_elem_of_fmap in Ht. specialize (Ht ltac:(by exists (p, a))).
  unfold rooted_pattern in Ht. apply orb_true_iff in Ht as [Ht|Ht].
  - apply bool_decide_eq_true in Ht. rewrite Ht. cbn [negb last length]. rewrite bool_decide_eq_true_2 by done. cbn [negb].
    rewrite to_bytes_app, E. apply andb_false_iff. right. apply Nat.eqb_neq.
    change (to_bytes "/") with [slash]. cbn [app List.filter]. rewrite Ascii.eqb_refl, List.filter_app. cbn [length].
    rewrite length_app. cbn. lia.
  - exfalso. destruct (path_segments_slash path) as [segs Es]; [by exists l|]. rewrite Es in Hf.
    by apply fits_trailing_slash in Hf.
Qed.

(** On such a table a clean path is served by what it matches, and never redirected. *)
Lemma find_handler_clean method escaped :
  rooted_table table -> clean_path escaped = escaped -> (exists l, to_bytes escaped = slash :: l) ->
  find_handler table method escaped =
    match match_method_path table method escaped with
    | Some (_, a, values) => Served a values
    | None => no_handler table escaped
    end.
Proof.
  intros Ht Hc Hs. unfold find_handler. destruct (String.eqb_spec escaped "*") as [->|_]; [by destruct Hs|]. rewrite Hc.
  assert (Hp : (if method == "CONNECT" then escaped else escaped) = escaped) by by destruct (method == "CONNECT").
  rewrite Hp. unfold match_or_redirect. rewrite no_redirect by done. rewrite andb_false_r. by rewrite String.eqb_refl.
Qed.

(** A path that is not clean reaches no handler. *)
Lemma find_handler_unclean method escaped :
  with_method "CONNECT" table = [] -> clean_path escaped <> escaped -> exists u, find_handler table method escaped = Unmatched u.
Proof.
  intros Ht Hc. unfold find_handler. destruct (escaped == "*"); [by eexists|].
  destruct (String.eqb_spec method "CONNECT") as [->|_].
  - unfold match_or_redirect, match_method_path. cbv zeta. rewrite Ht, !match_path_none. cbn. rewrite andb_false_r.
    rewrite String.eqb_refl. cbn. unfold no_handler. case_match; by eexists.
  - destruct (match_or_redirect _ _ _ _); [by eexists|]. apply String.eqb_neq in Hc. rewrite Hc. by eexists.
Qed.
End serving.

(** A clean path starts with a slash. *)
Lemma clean_path_slash path : exists l, to_bytes (clean_path path) = slash :: l.
Proof.
  unfold clean_path. destruct (to_bytes path) as [|a l]; [by eexists|]. rewrite to_of_bytes.
  assert (Hj : forall elements, exists l, join_rooted elements = slash :: l) by (intros [|x y]; by eexists).
  destruct (Hj (rev (clean_elements [] (split_byte slash (if Ascii.eqb a slash then a :: l else slash :: a :: l))))) as [k Hk].
  rewrite Hk. destruct (_ && _); by eexists.
Qed.
