(* ===== verification/GoQuote.v ===== *)
(** * Quoted strings and floating-point numbers

    [strconv.Unquote] and [strconv.ParseFloat] to 64 bits, which read [/etc/os-release] and [/proc/uptime].  A number is rounded
    once, from its exact value, by the binary64 arithmetic of the Standard Library's [SpecFloat]. *)

From Stdlib Require Import Ascii SpecFloat.
From S2P Require Import Prelude GoStrings GoConv.
#[local] Open Scope Z_scope.

(** ** [strconv.Unquote] *)

(** [utf8.DecodeRune]: the first rune, and the rest. *)
Definition decode_rune (l : bytes) : option (token * bytes) :=
  match tokens l with
  | [] => None
  | Rune bs :: _ => Some (Rune bs, drop (length bs) l)
  | Bad :: _ => Some (Bad, drop 1 l)
  end.

(** [utf8.ValidRune] and [utf8.AppendRune]. *)
Definition valid_rune (r : Z) : bool := between 0 r 0xD7FF || between 0xE000 r 0x10FFFF.
Definition encode_rune (r : Z) : bytes :=
  let tail n := chr (0x80 + (r / 2 ^ n) mod 64) in
  if r <? 0x80 then [chr r]
  else if r <? 0x800 then [chr (0xC0 + r / 64); tail 0]
  else if r <? 0x10000 then [chr (0xE0 + r / 4096); tail 6; tail 0]
  else [chr (0xF0 + r / 262144); tail 12; tail 6; tail 0].

Definition quote_double : ascii := chr 34.
Definition quote_single : ascii := chr 39.
Definition quote_raw : ascii := chr 96.
Definition backslash : ascii := chr 92.

Definition is_octal (a : ascii) : bool := between 48 (byte a) 55.
(** Exactly [n] digits at the front. *)
Definition exactly (n : nat) (p : ascii -> bool) (l : bytes) : option (bytes * bytes) :=
  let digits := take n l in
  if (length digits =? n)%nat && forallb p digits then Some (digits, drop n l) else None.

Definition simple_escape (c : ascii) : option ascii :=
  find_first (fun '(a, b) => if Ascii.eqb c a then Some (chr b) else None)
    [("a", 7); ("b", 8); ("f", 12); ("n", 10); ("r", 13); ("t", 9); ("v", 11)]%char.

(** [UnquoteChar] after a backslash: the bytes it stands for, and the rest. *)
Definition unquote_escape (quote : ascii) (l : bytes) : option (bytes * bytes) :=
  match l with
  | [] => None
  | c :: s =>
    match simple_escape c with
    | Some b => Some ([b], s)
    | None =>
      if Ascii.eqb c "x" then '(digits, s) ← exactly 2 is_hex_digit s; Some ([chr (read_hex digits)], s)
      else if Ascii.eqb c "u" then
        '(digits, s) ← exactly 4 is_hex_digit s;
        if valid_rune (read_hex digits) then Some (encode_rune (read_hex digits), s) else None
      else if Ascii.eqb c "U" then
        '(digits, s) ← exactly 8 is_hex_digit s;
        if valid_rune (read_hex digits) then Some (encode_rune (read_hex digits), s) else None
      else if is_octal c then
        '(digits, s) ← exactly 2 is_octal s;
        let v := fold_left (fun n a => 8 * n + digit a) digits (digit c) in
        if 255 <? v then None else Some ([chr v], s)
      else if Ascii.eqb c backslash then Some ([backslash], s)
      else if (Ascii.eqb c quote_single || Ascii.eqb c quote_double) && Ascii.eqb c quote then Some ([c], s)
      else None
    end
  end.
Definition unquote_char (quote : ascii) (l : bytes) : option (bytes * bytes) :=
  match l with
  | [] => None
  | a :: s =>
    if negb (ascii7 a) then '(t, s) ← decode_rune l; Some (token_bytes t, s)
    else if negb (Ascii.eqb a backslash) then Some ([a], s)
    else unquote_escape quote s
  end.

(** The loop of [unquote] up to the closing quote; each round reads a byte at least, so [n] is never exhausted. *)
Fixpoint unquote_loop (n : nat) (quote : ascii) (l out : bytes) : option (bytes * bytes) :=
  match n, l with
  | _, [] | O, _ => None
  | S n, a :: rest =>
    if Ascii.eqb a quote then Some (out, rest)
    else if byte a =? 10 then None
    else
      '(b, rest) ← unquote_char quote l;
      if Ascii.eqb quote quote_single then
        match rest with
        | c :: rest => if Ascii.eqb c quote then Some (out ++ b, rest) else None
        | [] => None
        end
      else unquote_loop n quote rest (out ++ b)
  end.

Definition Unquote (s : string) : option string :=
  match to_bytes s with
  | [] => None
  | quote :: l =>
    '(out, rest) ←
      (if Ascii.eqb quote quote_raw then
         '(inside, rest) ← cut_first quote_raw l; Some (List.filter (fun a => negb (byte a =? 13)) inside, rest)
       else if Ascii.eqb quote quote_double || Ascii.eqb quote quote_single then unquote_loop (length l) quote l []
       else None);
    if bool_decide (rest = []) then Some (of_bytes out) else None
  end.

Definition quoted (l : bytes) : string := of_bytes (quote_double :: l ++ [quote_double]).
Example Unquote_examples :
  Unquote (quoted (to_bytes "Quantum CoreOS " ++ [backslash; quote_double] ++ to_bytes "Foundation" ++ [backslash; quote_double]))
    = Some (of_bytes (to_bytes "Quantum CoreOS " ++ [quote_double] ++ to_bytes "Foundation" ++ [quote_double])) /\
  Unquote (quoted [backslash; "x"; "4"; "1"; backslash; "1"; "0"; "2"]%char) = Some "AB" /\
  Unquote (quoted [backslash; "u"; "0"; "3"; "9"; "b"]%char) = Some (of_bytes [chr 0xCE; chr 0x9B]) /\
  Unquote (quoted [backslash; "9"]%char) = None /\ Unquote "plain" = None /\ Unquote (of_bytes [quote_double]) = None.
Proof. by vm_compute. Qed.

(** ** [strconv.ParseFloat] *)

Definition lower_byte (a : ascii) : Z := byte (lower_ascii a).
Definition hex_letter (a : ascii) : bool := between 97 (lower_byte a) 102.

(** [underscoreOK] after the sign and the base prefix; [i] is the kind of the last byte: a digit, an underscore or other. *)
Inductive seen_byte := SawStart | SawDigit | SawUnderscore | SawOther.
Fixpoint underscores_ok (hex : bool) (i : seen_byte) (l : bytes) : bool :=
  match l with
  | [] => match i with SawUnderscore => false | _ => true end
  | a :: l =>
    if is_digit a || hex && hex_letter a then underscores_ok hex SawDigit l
    else if byte a =? 95 then match i with SawDigit => underscores_ok hex SawUnderscore l | _ => false end
    else match i with SawUnderscore => false | _ => underscores_ok hex SawOther l end
  end.
Definition underscoreOK (l : bytes) : bool :=
  let l := match l with a :: rest => if (byte a =? 45) || (byte a =? 43) then rest else l | [] => [] end in
  match l with
  | a :: b :: rest =>
    let base := lower_byte b in
    if (byte a =? 48) && ((base =? 98) || (base =? 111) || (base =? 120)) then underscores_ok (base =? 120) SawDigit rest
    else underscores_ok false SawStart l
  | _ => underscores_ok false SawStart l
  end.

(** The digits of the mantissa: its value, the number of digits after the point, whether a digit and whether a point was seen. *)
Fixpoint read_mantissa (hex : bool) (mant frac : Z) (sawdigits sawdot : bool) (l : bytes) : Z * Z * bool * bytes :=
  match l with
  | [] => (mant, frac, sawdigits, [])
  | a :: rest =>
    let next v := read_mantissa hex ((if hex then 16 else 10) * mant + v) (if sawdot then frac + 1 else frac) true sawdot rest in
    if byte a =? 95 then read_mantissa hex mant frac sawdigits sawdot rest
    else if byte a =? 46 then if sawdot then (mant, frac, sawdigits, l) else read_mantissa hex mant frac sawdigits true rest
    else if is_digit a then next (digit a)
    else if hex && hex_letter a then next (lower_byte a - 87)
    else (mant, frac, sawdigits, l)
  end.

(** The digits of the exponent; it is cut off at five digits. *)
Fixpoint read_exponent (e : Z) (l : bytes) : Z * bytes :=
  match l with
  | a :: rest =>
    if byte a =? 95 then read_exponent e rest
    else if is_digit a then read_exponent (if e <? 10000 then 10 * e + digit a else e) rest
    else (e, l)
  | [] => (e, [])
  end.

(** [m * 10^e] and [m * 2^e] to the nearest number, ties to even. *)
Definition nearest (neg hex : bool) (m e : Z) : spec_float :=
  match m with
  | Zpos p =>
    if hex then binary_round 53 1024 neg p e
    else if 0 <=? e then
      match Zpos p * 10 ^ e with Zpos q => binary_round 53 1024 neg q 0 | _ => S754_zero neg end
    else match 10 ^ (- e) with Zpos q => SFdiv 53 1024 (S754_finite neg p 0) (S754_finite false q 0) | _ => S754_nan end
  | _ => S754_zero neg
  end.

Definition EqualFold_bytes (l : bytes) (s : string) : bool := bool_decide (lower_ascii <$> l = to_bytes s).

(** [readFloat] on the whole text: sign, base, mantissa and exponent. *)
Definition read_float (s : bytes) : option (bool * bool * Z * Z) :=
  let '(neg, l) := match s with
                   | a :: rest => if byte a =? 43 then (false, rest) else if byte a =? 45 then (true, rest) else (false, s)
                   | [] => (false, [])
                   end in
  let '(hex, l) := match l with
                   | a :: b :: c :: rest => if (byte a =? 48) && (lower_byte b =? 120) then (true, c :: rest) else (false, l)
                   | _ => (false, l)
                   end in
  let '(mant, frac, sawdigits, l) := read_mantissa hex 0 0 false false l in
  if negb sawdigits then None
  else
    '(e, l) ←
      (match l with
       | a :: rest =>
         if lower_byte a =? (if hex then 112 else 101) then
           let '(sign, rest) := match rest with
                                | b :: more => if byte b =? 43 then (1, more) else if byte b =? 45 then (-1, more) else (1, rest)
                                | [] => (1, [])
                                end in
           match rest with
           | d :: _ => if is_digit d then let '(e, rest) := read_exponent 0 rest in Some (sign * e, rest) else None
           | [] => None
           end
         else if hex then None else Some (0, l)
       | [] => if hex then None else Some (0, l)
       end);
    if existsb (fun a => byte a =? 95) s && negb (underscoreOK s) then None
    else if bool_decide (l = []) then Some (neg, hex, mant, e - (if hex then 4 * frac else frac)) else None.

(** [ParseFloat(s, 64)]; [None] is an error, a number out of range among them. *)
Definition ParseFloat (s : string) : option spec_float :=
  let l := to_bytes s in
  let '(signed, neg, l') := match l with
                            | a :: rest => if byte a =? 43 then (true, false, rest) else if byte a =? 45 then (true, true, rest)
                                           else (false, false, l)
                            | [] => (false, false, [])
                            end in
  if EqualFold_bytes l' "inf" || EqualFold_bytes l' "infinity" then Some (S754_infinity neg)
  else if negb signed && EqualFold_bytes l "nan" then Some S754_nan
  else
    '(neg, hex, mant, e) ← read_float l;
    match nearest neg hex mant e with
    | S754_infinity _ => None
    | f => Some f
    end.

Example ParseFloat_examples :
  ParseFloat "0.5" = Some (S754_finite false 4503599627370496 (-53)) /\
  ParseFloat "350735.47" = Some (fdiv (float64 35073547) (float64 100)) /\
  ParseFloat "1e3" = Some (float64 1000) /\ ParseFloat "-0x1p-2" = Some (S754_finite true 4503599627370496 (-54)) /\
  ParseFloat "1_000" = Some (float64 1000) /\ ParseFloat "1__0" = None /\ ParseFloat "" = None /\ ParseFloat "1e400" = None /\
  ParseFloat "1.2.3" = None /\ ParseFloat "-Inf" = Some (S754_infinity true).
Proof. by vm_compute. Qed.

(** A text that needs no escapes between double quotes. *)
Definition unescaped (a : ascii) : bool :=
  ascii7 a && negb (Ascii.eqb a quote_double) && negb (Ascii.eqb a backslash) && negb (byte a =? 10).

Lemma unquote_loop_plain l rest out n : forallb unescaped l = true -> (length l < n)%nat ->
  unquote_loop n quote_double (l ++ quote_double :: rest) out = Some (out ++ l, rest).
Proof.
  revert n out. induction l as [|a l IH]; intros [|n] out Hl Hn; simpl in Hn; try lia; cbn [app unquote_loop].
  - rewrite Ascii.eqb_refl. by rewrite app_nil_r.
  - simpl in Hl. apply andb_true_iff in Hl as [Ha Hl]. unfold unescaped in Ha.
    apply andb_true_iff in Ha as [Ha Hnl%negb_true_iff]. apply andb_true_iff in Ha as [Ha Hb].
    apply andb_true_iff in Ha as [Ha Hq%negb_true_iff].
    rewrite Hq, Hnl. unfold unquote_char. rewrite Ha, Hb. simpl. rewrite IH by (done || lia). by rewrite <- app_assoc.
Qed.

Lemma Unquote_plain s : forallb unescaped (to_bytes s) = true -> Unquote (quoted (to_bytes s)) = Some s.
Proof.
  intros H. unfold Unquote, quoted. rewrite to_of_bytes.
  change (Ascii.eqb quote_double quote_raw) with false. rewrite Ascii.eqb_refl. cbn [orb].
  rewrite (unquote_loop_plain (to_bytes s) [] []); [|done|rewrite length_app; simpl; lia]. simpl. by rewrite of_to_bytes.
Qed.

(** Each round of the loop shortens the text, so its length is fuel enough. *)
Lemma exactly_shorter n p l digits rest : exactly n p l = Some (digits, rest) -> (length rest <= length l)%nat.
Proof.
  unfold exactly. destruct (_ && _); [|done]. intros [= <- <-]. rewrite length_drop. lia.
Qed.
Lemma unquote_escape_shorter quote l b rest : unquote_escape quote l = Some (b, rest) -> (length rest < length l)%nat.
Proof.
  unfold unquote_escape. destruct l as [|c s]; [done|]. simpl. intros H.
  repeat (case_match; simplify_option_eq; try lia);
    match goal with E : exactly _ _ _ = Some _ |- _ => apply exactly_shorter in E; lia end.
Qed.
Lemma decode_rune_shorter a l t rest : decode_rune (a :: l) = Some (t, rest) -> (length rest <= length l)%nat.
Proof.
  unfold decode_rune. destruct (tokens (a :: l)) as [|[bs|] ts] eqn:E; [done| |]; intros [= <- <-]; rewrite length_drop; [|simpl; lia].
  pose proof (tokens_proper (a :: l)) as Hp. rewrite E in Hp. apply Forall_cons in Hp as [Hp _].
  destruct bs as [|b bs]; [done|]. simpl. lia.
Qed.
Lemma unquote_char_shorter quote l b rest : unquote_char quote l = Some (b, rest) -> (length rest < length l)%nat.
Proof.
  unfold unquote_char. destruct l as [|a s]; [done|]. intros H. simpl. repeat case_match; simplify_option_eq; try lia.
  - destruct (decode_rune (a :: s)) as [[t r]|] eqn:E; simplify_eq/=. apply decode_rune_shorter in E. lia.
  - apply unquote_escape_shorter in H. lia.
Qed.
Lemma unquote_loop_fuel n quote l out : (length l <= n)%nat -> unquote_loop n quote l out = unquote_loop (length l) quote l out.
Proof.
  revert l out. induction n as [n IH] using lt_wf_ind. intros l out Hn. destruct l as [|a l]; [by destruct n|].
  destruct n as [|n]; [simpl in Hn; lia|]. cbn [unquote_loop length].
  destruct (Ascii.eqb a quote); [done|]. destruct (byte a =? 10); [done|].
  destruct (unquote_char quote (a :: l)) as [[b rest]|] eqn:E; [|done]. apply unquote_char_shorter in E. simpl in E, Hn. simpl.
  destruct (Ascii.eqb quote quote_single); [done|].
  rewrite (IH n), (IH (length l)) by (simpl; lia). done.
Qed.
