(* ===== verification/JsonParse.v ===== *)
(** * JSON values: reading and printing

    The syntax check of [encoding/json] (scanner.go) with the values it delimits, [unquote] (decode.go) and compact printing.
    Strings are kept as they stand between their quotes, because [time.Time] reads them so.  A parser has three outcomes: a value
    with what follows it, the end of the input inside a value, and a byte that fits nowhere. *)

From S2P Require Import Prelude GoStrings GoTime GoConv GoQuote.
From S2P Require Import Json.
From Stdlib Require Import Ascii.
#[local] Open Scope Z_scope.

Inductive json :=
| JNull
| JBool (b : bool)
| JNumber (text : bytes)
| JString (raw : bytes)
| JArray (items : list json)
| JObject (members : list (bytes * json)).

Inductive outcome (A : Type) := Parsed (a : A) (rest : bytes) | More | Malformed.
Arguments Parsed {_} _ _.
Arguments More {_}.
Arguments Malformed {_}.

Definition and_then {A B} (o : outcome A) (k : A -> bytes -> outcome B) : outcome B :=
  match o with Parsed a rest => k a rest | More => More | Malformed => Malformed end.
Definition parsed_as {A B} (f : A -> B) (o : outcome A) : outcome B := and_then o (fun a rest => Parsed (f a) rest).

(** ** The scanner *)

Definition json_space (a : ascii) : bool := (byte a =? 32) || (byte a =? 9) || (byte a =? 13) || (byte a =? 10).
Fixpoint skip_space (l : bytes) : bytes :=
  match l with
  | a :: rest => if json_space a then skip_space rest else l
  | [] => []
  end.

(** [stateInString] and its escapes, up to the closing quote. *)
Definition escapable (a : ascii) : bool :=
  existsb (Z.eqb (byte a)) [98; 102; 110; 114; 116; 92; 47; 34].
Fixpoint scan_string (l : bytes) : outcome bytes :=
  match l with
  | [] => More
  | a :: l =>
    if Ascii.eqb a quote_char then Parsed [] l
    else if Ascii.eqb a backslash then
      match l with
      | [] => More
      | b :: l =>
        if escapable b then parsed_as (fun raw => a :: b :: raw) (scan_string l)
        else if byte b =? 117 then
          match l with
          | h1 :: h2 :: h3 :: h4 :: l =>
            if forallb is_hex_digit [h1; h2; h3; h4] then
              parsed_as (fun raw => a :: b :: h1 :: h2 :: h3 :: h4 :: raw) (scan_string l)
            else Malformed
          | _ => if forallb is_hex_digit l then More else Malformed
          end
        else Malformed
      end
    else if byte a <? 32 then Malformed
    else parsed_as (cons a) (scan_string l)
  end.

(** Numbers: one digit at least where digits have to be. *)
Definition some_digits (l : bytes) : outcome bytes :=
  match l with
  | [] => More
  | a :: _ => if is_digit a then let '(digits, rest) := span is_digit l in Parsed digits rest else Malformed
  end.
Definition integer_part (l : bytes) : outcome bytes :=
  match l with
  | a :: rest => if byte a =? 48 then Parsed [a] rest else some_digits l
  | [] => More
  end.
Definition fraction_part (l : bytes) : outcome bytes :=
  match l with
  | a :: rest => if byte a =? 46 then parsed_as (cons a) (some_digits rest) else Parsed [] l
  | [] => Parsed [] []
  end.
Definition exponent_part (l : bytes) : outcome bytes :=
  match l with
  | a :: rest =>
    if (byte a =? 101) || (byte a =? 69) then
      match rest with
      | b :: rest' =>
        if (byte b =? 43) || (byte b =? 45) then parsed_as (fun digits => a :: b :: digits) (some_digits rest')
        else parsed_as (cons a) (some_digits rest)
      | [] => More
      end
    else Parsed [] l
  | [] => Parsed [] []
  end.
Definition scan_number (l : bytes) : outcome bytes :=
  let '(sign, l) := match l with a :: rest => if byte a =? 45 then ([a], rest) else ([], l) | [] => ([], []) end in
  and_then (integer_part l) (fun i l =>
  and_then (fraction_part l) (fun f l =>
  parsed_as (fun e => sign ++ i ++ f ++ e) (exponent_part l))).

Fixpoint scan_word (word : bytes) (l : bytes) : outcome () :=
  match word, l with
  | [], _ => Parsed () l
  | _ :: _, [] => More
  | a :: word, b :: l => if Ascii.eqb a b then scan_word word l else Malformed
  end.

Definition maxNestingDepth : Z := 10000.

(** Objects and arrays below [depth] others. *)
Fixpoint parse_value (n : nat) (depth : Z) (l : bytes) : outcome json :=
  match n with
  | O => Malformed
  | S n =>
    match skip_space l with
    | [] => More
    | a :: rest =>
      let c := byte a in
      if c =? 34 then parsed_as JString (scan_string rest)
      else if c =? 123 then
        if maxNestingDepth <=? depth then Malformed
        else
          match skip_space rest with
          | [] => More
          | b :: rest' =>
            if byte b =? 125 then Parsed (JObject []) rest' else parsed_as JObject (parse_members n (depth + 1) rest)
          end
      else if c =? 91 then
        if maxNestingDepth <=? depth then Malformed
        else
          match skip_space rest with
          | [] => More
          | b :: rest' =>
            if byte b =? 93 then Parsed (JArray []) rest' else parsed_as JArray (parse_items n (depth + 1) rest)
          end
      else if c =? 116 then parsed_as (fun _ => JBool true) (scan_word (to_bytes "rue") rest)
      else if c =? 102 then parsed_as (fun _ => JBool false) (scan_word (to_bytes "alse") rest)
      else if c =? 110 then parsed_as (fun _ => JNull) (scan_word (to_bytes "ull") rest)
      else if (c =? 45) || is_digit a then parsed_as JNumber (scan_number (a :: rest))
      else Malformed
    end
  end
with parse_items (n : nat) (depth : Z) (l : bytes) : outcome (list json) :=
  match n with
  | O => Malformed
  | S n =>
    and_then (parse_value n depth l) (fun v rest =>
      match skip_space rest with
      | [] => More
      | a :: rest =>
        if byte a =? 93 then Parsed [v] rest
        else if byte a =? 44 then parsed_as (cons v) (parse_items n depth rest)
        else Malformed
      end)
  end
with parse_members (n : nat) (depth : Z) (l : bytes) : outcome (list (bytes * json)) :=
  match n with
  | O => Malformed
  | S n =>
    match skip_space l with
    | [] => More
    | a :: rest =>
      if byte a =? 34 then
        and_then (scan_string rest) (fun key rest =>
          match skip_space rest with
          | [] => More
          | a :: rest =>
            if byte a =? 58 then
              and_then (parse_value n depth rest) (fun v rest =>
                match skip_space rest with
                | [] => More
                | a :: rest =>
                  if byte a =? 125 then Parsed [(key, v)] rest
                  else if byte a =? 44 then parsed_as (cons (key, v)) (parse_members n depth rest)
                  else Malformed
                end)
            else Malformed
          end)
      else Malformed
    end
  end.

(** Every round reads something, or is the first of an array (see [parse_fuel]). *)
Definition value_fuel (l : bytes) : nat := 2 * length l + 1.
Definition parse (l : bytes) : outcome json := parse_value (value_fuel l) 0 l.

(** ** Strings *)

(** [getu4]. *)
Definition u4 (l : bytes) : option (Z * bytes) :=
  match l with
  | a :: b :: l =>
    if Ascii.eqb a backslash && (byte b =? 117) then '(digits, l) ← exactly 4 is_hex_digit l; Some (read_hex digits, l)
    else None
  | _ => None
  end.
(** [utf16.IsSurrogate] and [utf16.DecodeRune]. *)
Definition surrogate (r : Z) : bool := between 0xD800 r 0xDFFF.
Definition surrogate_pair (r1 r2 : Z) : option Z :=
  if between 0xD800 r1 0xDBFF && between 0xDC00 r2 0xDFFF
  then Some ((r1 - 0xD800) * 1024 + (r2 - 0xDC00) + 0x10000) else None.

(** One round of [unquoteBytes]: the bytes it writes, and the rest.  [None] is an escape that no scanned string has. *)
Definition unquote_rune (l : bytes) : option (bytes * bytes) :=
  match l with
  | [] => None
  | a :: rest =>
    if Ascii.eqb a backslash then
      match u4 l with
      | Some (r, rest) =>
        if surrogate r then
          match '(r2, rest) ← u4 rest; r ← surrogate_pair r r2; Some (r, rest) with
          | Some (r, rest) => Some (encode_rune r, rest)
          | None => Some (replacement, rest)
          end
        else Some (encode_rune r, rest)
      | None =>
        match rest with
        | [] => None
        | b :: rest =>
          let c := byte b in
          if c =? 117 then None
          else Some ([if c =? 98 then chr 8 else if c =? 102 then chr 12 else if c =? 110 then chr 10
                      else if c =? 114 then chr 13 else if c =? 116 then chr 9 else b], rest)
        end
      end
    else '(t, rest) ← decode_rune l; Some (token_bytes t, rest)
  end.
Fixpoint unquote_loop (n : nat) (l : bytes) : bytes :=
  match n with
  | O => []
  | S n => match unquote_rune l with Some (bs, rest) => bs ++ unquote_loop n rest | None => [] end
  end.
(** Every round reads a byte at least. *)
Definition unquote (raw : bytes) : string := of_bytes (unquote_loop (length raw) raw).

(** ** Printing *)

(** What stands between the quotes of a marshalled string. *)
Definition escape (s : string) : bytes := mjoin (esc_token <$> tokens (to_bytes s)).
Definition quoted_raw (raw : bytes) : bytes := quote_char :: raw ++ [quote_char].

Definition print_seq {A} (f : A -> bytes) (close : Z) : list A -> bytes :=
  fix go l :=
    match l with
    | [] => [chr close]
    | [x] => f x ++ [chr close]
    | x :: l => f x ++ chr 44 :: go l
    end.
Fixpoint print (v : json) : bytes :=
  match v with
  | JNull => to_bytes "null"
  | JBool b => to_bytes (json_bool b)
  | JNumber text => text
  | JString raw => quoted_raw raw
  | JArray items => chr 91 :: print_seq print 93 items
  | JObject members => chr 123 :: print_seq (fun kv => quoted_raw kv.1 ++ chr 58 :: print kv.2) 125 members
  end.

Lemma json_string_print s : to_bytes (json_string s) = print (JString (escape s)).
Proof. unfold json_string. by rewrite to_of_bytes. Qed.

Definition sample : bytes :=
  to_bytes " {'a' : [1, -0.5e+3,true ] ,'b':{},'c':null } x".
Definition with_quotes (l : bytes) : bytes := (fun a => if byte a =? 39 then quote_char else a) <$> l.
Example parse_sample :
  parse (with_quotes sample) =
  Parsed (JObject [(to_bytes "a", JArray [JNumber (to_bytes "1"); JNumber (to_bytes "-0.5e+3"); JBool true]);
                   (to_bytes "b", JObject []); (to_bytes "c", JNull)]) (to_bytes " x") /\
  parse (with_quotes (to_bytes "{'a':1")) = More /\ parse (with_quotes (to_bytes "{'a':1,}")) = Malformed /\
  parse (to_bytes "01") = Parsed (JNumber (to_bytes "0")) (to_bytes "1") /\ parse (to_bytes "-") = More.
Proof. by vm_compute. Qed.
(** An escape, a surrogate pair, a lone surrogate and an invalid byte. *)
Example unquote_sample :
  unquote (to_bytes "a\n\u0041" ++ to_bytes "\ud83d\ude00" ++ to_bytes "\ud83dx" ++ [chr 0xFF]) =
  of_bytes ([chr 97; chr 10; chr 65; chr 0xF0; chr 0x9F; chr 0x98; chr 0x80] ++ replacement ++ [chr 120] ++ replacement).
Proof. by vm_compute. Qed.

(** ** Progress, and enough fuel *)

(** Less than [n] bytes are left. *)
Definition left_below {A} (n : nat) (o : outcome A) : Prop := match o with Parsed _ rest => (length rest < n)%nat | _ => True end.

Lemma left_below_le {A} n m (o : outcome A) : (n <= m)%nat -> left_below n o -> left_below m o.
Proof. destruct o; simpl; lia. Qed.
Lemma parsed_as_left {A B} (f : A -> B) n (o : outcome A) : left_below n o -> left_below n (parsed_as f o).
Proof. by destruct o. Qed.
Lemma and_then_left {A B} n m (o : outcome A) (k : A -> bytes -> outcome B) :
  left_below m o -> (forall a rest, (length rest < m)%nat -> left_below n (k a rest)) -> left_below n (and_then o k).
Proof. destruct o; simpl; auto. Qed.
#[local] Hint Resolve parsed_as_left : core.

Lemma skip_space_length l : (length (skip_space l) <= length l)%nat.
Proof. induction l as [|a l IH]; simpl; [lia|]. destruct (json_space a); simpl; lia. Qed.
Lemma skip_space_cons l a rest : skip_space l = a :: rest -> (length rest < length l)%nat.
Proof. pose proof (skip_space_length l) as H. intros E. rewrite E in H. simpl in H. lia. Qed.

Lemma scan_string_left l : left_below (length l) (scan_string l).
Proof.
  induction l as [l IH] using bytes_strong_ind. destruct l as [|a l]; [exact I|]. cbn [scan_string].
  assert (Hrec : forall {B} (f : bytes -> B) k, (length k < length (a :: l))%nat ->
    left_below (length (a :: l)) (parsed_as f (scan_string k))).
  { intros B f k Hk. apply parsed_as_left. eapply left_below_le; [|by apply IH]. lia. }
  repeat case_match; subst; first [exact I | apply Hrec; simpl; lia | simpl; lia].
Qed.

Lemma some_digits_left l : left_below (length l) (some_digits l).
Proof.
  destruct l as [|a l]; [exact I|]. cbn [some_digits]. destruct (is_digit a) eqn:E; [|exact I].
  cbn [span]. rewrite E. pose proof (span_length is_digit l). destruct (span is_digit l). simpl in *. lia.
Qed.
Lemma scan_number_left l : left_below (length l) (scan_number l).
Proof.
  assert (Hi : forall l, left_below (length l) (integer_part l)).
  { intros [|a l']; [exact I|]. cbn [integer_part]. case_match; [simpl; lia|apply some_digits_left]. }
  assert (Hf : forall l, left_below (S (length l)) (fraction_part l)).
  { intros [|a l']; [simpl; lia|]. cbn [fraction_part]. case_match; [|simpl; lia]. apply parsed_as_left.
    eapply left_below_le; [|apply some_digits_left]. simpl. lia. }
  assert (He : forall l, left_below (S (length l)) (exponent_part l)).
  { intros [|a l']; [simpl; lia|]. cbn [exponent_part]. repeat case_match; try exact I; try (simpl; lia); apply parsed_as_left;
      (eapply left_below_le; [|apply some_digits_left]); simpl; lia. }
  unfold scan_number. set (p := match l with [] => _ | _ => _ end).
  assert (Hp : (length p.2 <= length l)%nat) by (unfold p; repeat case_match; simpl; lia).
  destruct p as [sign l']. simpl in Hp.
  eapply and_then_left; [apply Hi|]. intros i l1 H1. eapply and_then_left; [apply Hf|]. intros f l2 H2.
  apply parsed_as_left. eapply left_below_le; [|apply He]. lia.
Qed.
Lemma scan_word_left word l : left_below (S (length l)) (scan_word word l).
Proof.
  revert l. induction word as [|a word IH]; intros [|b l]; simpl; try lia. destruct (Ascii.eqb a b); [|exact I].
  eapply left_below_le; [|apply IH]. lia.
Qed.

Lemma parsers_left n :
  (forall depth l, left_below (length l) (parse_value n depth l)) /\
  (forall depth l, left_below (length l) (parse_items n depth l)) /\
  (forall depth l, left_below (length l) (parse_members n depth l)).
Proof.
  induction n as [|n (IHv & IHi & IHm)]; [done|]. split_and!; intros depth l.
  - cbn [parse_value]. destruct (skip_space l) as [|a rest] eqn:E; [exact I|]. apply skip_space_cons in E.
    cbv zeta. repeat case_match; try exact I; try apply parsed_as_left;
      try (eapply left_below_le; [|first [apply scan_string_left | apply scan_word_left | apply IHi | apply IHm]]; simpl; lia).
    1, 2: match goal with H : skip_space _ = _ |- _ => apply skip_space_cons in H end; simpl; lia.
    eapply left_below_le; [|apply scan_number_left]. simpl. lia.
  - cbn [parse_items]. eapply and_then_left; [apply IHv|]. intros v rest Hr.
    destruct (skip_space rest) as [|a rest'] eqn:E; [exact I|]. apply skip_space_cons in E.
    repeat case_match; try exact I; [simpl; lia|]. apply parsed_as_left. eapply left_below_le; [|apply IHi]. lia.
  - cbn [parse_members]. destruct (skip_space l) as [|a rest] eqn:E; [exact I|]. apply skip_space_cons in E.
    case_match; [|exact I]. eapply and_then_left; [apply scan_string_left|]. intros key rest1 H1.
    destruct (skip_space rest1) as [|b rest2] eqn:E2; [exact I|]. apply skip_space_cons in E2.
    case_match; [|exact I]. eapply and_then_left; [apply IHv|]. intros v rest3 H3.
    destruct (skip_space rest3) as [|c rest4] eqn:E4; [exact I|]. apply skip_space_cons in E4.
    repeat case_match; try exact I; [simpl; lia|]. apply parsed_as_left. eapply left_below_le; [|apply IHm]. lia.
Qed.

Lemma and_then_ext {A B} (o : outcome A) (k k' : A -> bytes -> outcome B) n :
  left_below n o -> (forall a rest, (length rest < n)%nat -> k a rest = k' a rest) -> and_then o k = and_then o k'.
Proof. destruct o; simpl; auto. Qed.
Lemma skip_space_nonempty l : skip_space l <> [] -> (length (skip_space l) <= length l)%nat /\ (0 < length l)%nat.
Proof. intros H. split; [apply skip_space_length|]. destruct l; simpl in *; [done|lia]. Qed.

(** More fuel than [value_fuel] changes nothing. *)
Lemma parse_fuel n m :
  (forall depth l, (2 * length l + 1 <= n)%nat -> (2 * length l + 1 <= m)%nat -> parse_value n depth l = parse_value m depth l) /\
  (forall depth l, (2 * length l + 2 <= n)%nat -> (2 * length l + 2 <= m)%nat -> parse_items n depth l = parse_items m depth l) /\
  (forall depth l, (2 * length l + 2 <= n)%nat -> (2 * length l + 2 <= m)%nat -> parse_members n depth l = parse_members m depth l).
Proof.
  revert m. induction n as [|n IH]; [repeat split; intros; lia|]. intros [|m]; [repeat split; intros; lia|].
  destruct (IH m) as (IHv & IHi & IHm). split_and!; intros depth l Hn Hm.
  - cbn [parse_value]. destruct (skip_space l) as [|a rest] eqn:E; [done|]. apply skip_space_cons in E.
    cbv zeta. repeat case_match; try done; f_equal; [apply IHm|apply IHi]; lia.
  - cbn [parse_items]. rewrite (IHv depth l) by lia. eapply and_then_ext; [apply parsers_left|]. intros v rest Hr.
    destruct (skip_space rest) as [|a rest'] eqn:E; [done|]. apply skip_space_cons in E.
    repeat case_match; try done. f_equal. apply IHi; lia.
  - cbn [parse_members]. destruct (skip_space l) as [|a rest] eqn:E; [done|]. apply skip_space_cons in E.
    case_match; [|done]. eapply and_then_ext; [apply scan_string_left|]. intros key rest1 H1.
    destruct (skip_space rest1) as [|b rest2] eqn:E2; [done|]. apply skip_space_cons in E2.
    case_match; [|done]. rewrite (IHv depth rest2) by lia. eapply and_then_ext; [apply parsers_left|]. intros v rest3 H3.
    destruct (skip_space rest3) as [|c rest4] eqn:E4; [done|]. apply skip_space_cons in E4.
    repeat case_match; try done. f_equal. apply IHm; lia.
Qed.

(** ** Reading what was printed *)

Section induction.
Context (P : json -> Prop).
Hypothesis HNull : P JNull.
Hypothesis HBool : forall b, P (JBool b).
Hypothesis HNumber : forall text, P (JNumber text).
Hypothesis HString : forall raw, P (JString raw).
Hypothesis HArray : forall items, Forall P items -> P (JArray items).
Hypothesis HObject : forall members, Forall (fun kv => P kv.2) members -> P (JObject members).

Fixpoint json_nested_ind (v : json) : P v :=
  match v with
  | JNull => HNull
  | JBool b => HBool b
  | JNumber text => HNumber text
  | JString raw => HString raw
  | JArray items =>
    HArray items ((fix go l : Forall P l :=
      match l with [] => Forall_nil_2 P | x :: l => Forall_cons_2 P x l (json_nested_ind x) (go l) end) items)
  | JObject members =>
    HObject members ((fix go (l : list (bytes * json)) : Forall (fun kv => P kv.2) l :=
      match l with
      | [] => Forall_nil_2 _
      | kv :: l => Forall_cons_2 (fun kv => P kv.2) kv l (json_nested_ind kv.2) (go l)
      end) members)
  end.
End induction.

(** The byte after a number does not go on with it. *)
Definition number_goes_on (a : ascii) : bool := is_digit a || (byte a =? 46) || (byte a =? 101) || (byte a =? 69).
Definition number_ends (l : bytes) : Prop := match l with [] => True | a :: _ => number_goes_on a = false end.
Definition number_text (text : bytes) : bool :=
  match scan_number text with Parsed t rest => bool_decide (t = text) && bool_decide (rest = []) | _ => false end.

(** Bytes that may stand between the quotes of a string. *)
Definition raw_string (raw : bytes) : Prop := forall l, scan_string (raw ++ quote_char :: l) = Parsed raw l.

(** Syntactically correct below [depth] objects and arrays. *)
Fixpoint well_formed (depth : Z) (v : json) : Prop :=
  match v with
  | JNull | JBool _ => True
  | JNumber text => number_text text = true
  | JString raw => raw_string raw
  | JArray items => depth < maxNestingDepth /\ fold_right (fun v P => well_formed (depth + 1) v /\ P) True items
  | JObject members =>
    depth < maxNestingDepth /\
    fold_right (fun kv P => (raw_string kv.1 /\ well_formed (depth + 1) kv.2) /\ P) True members
  end.

Lemma fold_and_Forall {A} (P : A -> Prop) l : fold_right (fun x Q => P x /\ Q) True l <-> Forall P l.
Proof. induction l as [|x l IH]; simpl; [by split|]. by rewrite IH, Forall_cons. Qed.

(** *** Numbers *)

Lemma span_app p l k u r :
  span p l = (u, r) -> (r = [] -> match k with a :: _ => p a = false | [] => True end) -> span p (l ++ k) = (u, r ++ k).
Proof.
  revert u r. induction l as [|a l IH]; intros u r; simpl.
  - intros [= <- <-] Hk. destruct k as [|a k]; [done|]. simpl. by rewrite Hk.
  - destruct (p a) eqn:E; [|by intros [= <- <-] _]. destruct (span p l) as [u' r'] eqn:Es.
    intros [= <- <-] Hk. by rewrite (IH u' r' eq_refl Hk).
Qed.

Lemma number_ends_digit l : number_ends l -> match l with a :: _ => is_digit a = false | [] => True end.
Proof. destruct l as [|a l]; [done|]. unfold number_ends, number_goes_on. intros H. bool_prop. tauto. Qed.

Lemma some_digits_app l k u r :
  number_ends k -> some_digits l = Parsed u r -> some_digits (l ++ k) = Parsed u (r ++ k).
Proof.
  destruct l as [|a l]; [done|]. cbn [some_digits app]. destruct (is_digit a); [|done].
  destruct (span is_digit (a :: l)) as [u' r'] eqn:E. intros Hk [= <- <-].
  change (a :: l ++ k) with ((a :: l) ++ k). erewrite span_app; [done|exact E|]. intros _. by apply number_ends_digit.
Qed.

Lemma parsed_as_Parsed {A B} (f : A -> B) o b r : parsed_as f o = Parsed b r -> exists a, o = Parsed a r /\ f a = b.
Proof. destruct o; simpl; intros [=]; subst. by eexists. Qed.
Lemma and_then_Parsed {A B} (o : outcome A) (k : A -> bytes -> outcome B) b r :
  and_then o k = Parsed b r -> exists a rest, o = Parsed a rest /\ k a rest = Parsed b r.
Proof. destruct o; simpl; intros H; [|done..]. by eexists _, _. Qed.

Lemma integer_part_app l k u r :
  number_ends k -> integer_part l = Parsed u r -> integer_part (l ++ k) = Parsed u (r ++ k).
Proof.
  intros Hk. destruct l as [|a l]; [done|]. cbn [integer_part app]. destruct (byte a =? 48); [by intros [= <- <-]|].
  intros H. by apply (some_digits_app (a :: l)).
Qed.
Lemma fraction_part_app l k u r :
  number_ends k -> fraction_part l = Parsed u r -> fraction_part (l ++ k) = Parsed u (r ++ k).
Proof.
  intros Hk. destruct l as [|a l]; cbn [fraction_part app].
  - intros [= <- <-]. destruct k as [|a k]; [done|]. cbn [fraction_part].
    unfold number_ends, number_goes_on in Hk. destruct (byte a =? 46); [by rewrite orb_true_r in Hk|done].
  - destruct (byte a =? 46); [|by intros [= <- <-]]. intros (d & H & <-)%parsed_as_Parsed.
    by rewrite (some_digits_app _ _ _ _ Hk H).
Qed.
Lemma exponent_part_app l k u r :
  number_ends k -> exponent_part l = Parsed u r -> exponent_part (l ++ k) = Parsed u (r ++ k).
Proof.
  intros Hk. destruct l as [|a l]; cbn [exponent_part app].
  - intros [= <- <-]. destruct k as [|a k]; [done|]. cbn [exponent_part].
    unfold number_ends, number_goes_on in Hk. by destruct (byte a =? 101), (byte a =? 69); rewrite ?orb_true_r in Hk.
  - destruct (_ || _); [|by intros [= <- <-]]. destruct l as [|b l]; [done|]. cbn [app].
    destruct (_ || _); intros (d & H & <-)%parsed_as_Parsed.
    + by rewrite (some_digits_app _ _ _ _ Hk H).
    + change (b :: l ++ k) with ((b :: l) ++ k). by rewrite (some_digits_app _ _ _ _ Hk H).
Qed.

Lemma scan_number_app text k : number_text text = true -> number_ends k -> scan_number (text ++ k) = Parsed text k.
Proof.
  unfold number_text. intros H Hk.
  assert (Hs : scan_number text = Parsed text []).
  { destruct (scan_number text) as [t rest| |]; try done. bool_prop. destruct H as [H1 H2].
    by apply bool_decide_eq_true in H1 as ->, H2 as ->. }
  clear H. revert Hs. unfold scan_number.
  destruct text as [|a text]; [done|]. cbn [app].
  assert (Hgo : forall sign l t,
    and_then (integer_part l) (fun i l => and_then (fraction_part l) (fun f l =>
      parsed_as (fun e => sign ++ i ++ f ++ e) (exponent_part l))) = Parsed t [] ->
    and_then (integer_part (l ++ k)) (fun i l => and_then (fraction_part l) (fun f l =>
      parsed_as (fun e => sign ++ i ++ f ++ e) (exponent_part l))) = Parsed t k).
  { intros sign l t (i & l1 & Hi & (f & l2 & Hf & (e & He & <-)%parsed_as_Parsed)%and_then_Parsed)%and_then_Parsed.
    rewrite (integer_part_app _ _ _ _ Hk Hi). cbn [and_then]. rewrite (fraction_part_app _ _ _ _ Hk Hf). cbn [and_then].
    by rewrite (exponent_part_app _ _ _ _ Hk He). }
  destruct (byte a =? 45); [apply Hgo|]. change (a :: text ++ k) with ((a :: text) ++ k). apply Hgo.
Qed.

Lemma number_text_head text : number_text text = true -> exists a l, text = a :: l /\ (byte a =? 45) || is_digit a = true.
Proof.
  unfold number_text, scan_number. destruct text as [|a l]; [done|]. intros H. exists a, l. split; [done|].
  destruct (byte a =? 45); [done|]. cbn [integer_part some_digits orb] in *. destruct (byte a =? 48) eqn:E0.
  - apply Z.eqb_eq in E0. unfold is_digit, between. rewrite E0. done.
  - by destruct (is_digit a).
Qed.

(** *** Values *)

Definition prints_back (depth : Z) (v : json) : Prop :=
  forall n rest, (2 * length (print v) + 1 <= n)%nat -> number_ends rest -> parse_value n depth (print v ++ rest) = Parsed v rest.

Lemma scan_word_app word l : scan_word word (word ++ l) = Parsed () l.
Proof. induction word as [|a word IH]; simpl; [by destruct l|]. by rewrite Ascii.eqb_refl. Qed.

Lemma print_starts v depth : well_formed depth v -> exists a l, print v = a :: l /\ json_space a = false /\ byte a <> 93.
Proof.
  destruct v as [|[]|text|raw|items|members]; intros H; try by eexists _, _.
  apply number_text_head in H as (a & l & -> & H). exists a, l. split; [done|].
  unfold is_digit, between, json_space in *. bool_prop. lia.
Qed.

Lemma skip_printed depth v rest : well_formed depth v -> skip_space (print v ++ rest) = print v ++ rest.
Proof. intros (a & l & -> & H & _)%print_starts. simpl. by rewrite H. Qed.

Lemma parse_items_print depth items rest n :
  items <> [] -> Forall (prints_back depth) items -> (2 * length (print_seq print 93 items) + 2 <= n)%nat ->
  parse_items n depth (print_seq print 93 items ++ rest) = Parsed items rest.
Proof.
  intros Hne H. revert n. induction H as [|v items Hv H IH]; [done|]. intros [|n] Hn; [lia|].
  destruct items as [|w items].
  - cbn [print_seq] in *. rewrite length_app in Hn. cbn [parse_items length] in *. rewrite <- app_assoc, Hv; [done|lia|done].
  - change (print_seq print 93 (v :: w :: items)) with (print v ++ chr 44 :: print_seq print 93 (w :: items)) in *.
    rewrite length_app in Hn. cbn [parse_items length] in *. rewrite <- app_assoc, Hv; [|lia|done].
    cbn [and_then]. change ((chr 44 :: print_seq print 93 (w :: items)) ++ rest) with (chr 44 :: (print_seq print 93 (w :: items) ++ rest)).
    change (skip_space (chr 44 :: (print_seq print 93 (w :: items) ++ rest))) with
      (chr 44 :: (print_seq print 93 (w :: items) ++ rest)).
    cbn beta iota. change (byte (chr 44) =? 93) with false. change (byte (chr 44) =? 44) with true. cbn beta iota.
    rewrite IH; [done|done|lia].
Qed.

Definition print_member (kv : bytes * json) : bytes := quoted_raw kv.1 ++ chr 58 :: print kv.2.

Lemma parse_member_head n depth (kv : bytes * json) l :
  raw_string kv.1 -> prints_back depth kv.2 -> number_ends l -> (2 * length (print kv.2) + 1 <= n)%nat ->
  parse_members (S n) depth (print_member kv ++ l) =
    match skip_space l with
    | [] => More
    | a :: rest =>
      if byte a =? 125 then Parsed [kv] rest
      else if byte a =? 44 then parsed_as (cons kv) (parse_members n depth rest) else Malformed
    end.
Proof.
  intros Hk Hv Hl Hn. destruct kv as [key v]. unfold print_member, quoted_raw. cbn [fst snd] in *.
  cbn [app parse_members skip_space]. change (json_space quote_char) with false. cbn beta iota.
  change (byte quote_char =? 34) with true. cbn beta iota. rewrite <- !app_assoc. cbn [app].
  change (raw_string key) in Hk. rewrite Hk. cbn [and_then skip_space]. change (json_space (chr 58)) with false. cbn beta iota.
  change (byte (chr 58) =? 58) with true. cbn beta iota. by rewrite Hv.
Qed.

Lemma parse_members_print depth members rest n :
  members <> [] -> Forall (fun kv => raw_string kv.1 /\ prints_back depth kv.2) members ->
  (2 * length (print_seq print_member 125 members) + 2 <= n)%nat ->
  parse_members n depth (print_seq print_member 125 members ++ rest) = Parsed members rest.
Proof.
  intros Hne H. revert n. induction H as [|kv members [Hk Hv] H IH]; [done|]. intros [|n] Hn; [lia|].
  assert (Hlen : (length (print kv.2) <= length (print_member kv))%nat)
    by (unfold print_member; rewrite length_app; simpl; lia).
  destruct members as [|kv' members].
  - cbn [print_seq] in *. rewrite length_app in Hn. cbn [length] in Hn.
    rewrite <- app_assoc. rewrite parse_member_head; [done..|lia].
  - change (print_seq print_member 125 (kv :: kv' :: members)) with
      (print_member kv ++ chr 44 :: print_seq print_member 125 (kv' :: members)) in *.
    rewrite length_app in Hn. cbn [length] in Hn. rewrite <- app_assoc.
    rewrite parse_member_head; [|done|done|done|lia].
    change ((chr 44 :: ?l) ++ rest) with (chr 44 :: (l ++ rest)).
    change (skip_space (chr 44 :: ?l)) with (chr 44 :: l). cbn beta iota.
    change (byte (chr 44) =? 125) with false. change (byte (chr 44) =? 44) with true. cbn beta iota.
    rewrite IH; [done|done|lia].
Qed.

Lemma parse_number n depth l a rest :
  skip_space l = a :: rest -> (byte a =? 45) || is_digit a = true ->
  parse_value (S n) depth l = parsed_as JNumber (scan_number (a :: rest)).
Proof.
  intros Hs Ha. cbn [parse_value]. rewrite Hs. cbv zeta.
  assert (Hb : byte a = 45 \/ 48 <= byte a <= 57) by (unfold is_digit, between in Ha; bool_prop; lia).
  rewrite Ha. repeat (case_match; [exfalso; bool_prop; lia|]). done.
Qed.

(** An object or array that is not empty. *)
Lemma parse_open n depth (array : bool) b rest :
  depth < maxNestingDepth -> json_space b = false -> byte b <> (if array then 93 else 125) ->
  parse_value (S n) depth (chr (if array then 91 else 123) :: b :: rest) =
    if array then parsed_as JArray (parse_items n (depth + 1) (b :: rest))
    else parsed_as JObject (parse_members n (depth + 1) (b :: rest)).
Proof.
  intros Hd Hb Hne. apply Z.leb_gt in Hd. apply Z.eqb_neq in Hne.
  assert (Hskip : skip_space (b :: rest) = b :: rest) by (simpl; by rewrite Hb).
  destruct array; cbn [parse_value].
  - change (skip_space (chr 91 :: b :: rest)) with (chr 91 :: b :: rest). cbv zeta beta iota.
    change (byte (chr 91)) with 91. cbn [Z.eqb Pos.eqb]. by rewrite Hd, Hskip, Hne.
  - change (skip_space (chr 123 :: b :: rest)) with (chr 123 :: b :: rest). cbv zeta beta iota.
    change (byte (chr 123)) with 123. cbn [Z.eqb Pos.eqb]. by rewrite Hd, Hskip, Hne.
Qed.

(** What [print] writes is read back as it was, whatever follows. *)
Lemma parse_print v depth : well_formed depth v -> prints_back depth v.
Proof.
  revert depth. induction v as [|b|text|raw|items IH|members IH] using json_nested_ind;
    intros depth Hwf [|n] rest Hn Hrest; try lia.
  - by destruct rest.
  - destruct b; by destruct rest.
  - destruct (number_text_head text Hwf) as (a & l & E & Ha). cbn [print].
    rewrite (parse_number n depth (text ++ rest) a (l ++ rest)); [|by rewrite E; apply (skip_printed depth (JNumber (a :: l))); rewrite <- E|done].
    change (a :: l ++ rest) with ((a :: l) ++ rest). rewrite <- E. by rewrite scan_number_app.
  - cbn [print well_formed] in *. unfold quoted_raw. cbn [app parse_value skip_space].
    change (json_space quote_char) with false. cbv zeta. change (byte quote_char =? 34) with true. cbn beta iota.
    rewrite <- app_assoc. cbn [app]. by rewrite Hwf.
  - cbn [well_formed] in Hwf. destruct Hwf as [Hd Hwf]. apply (fold_and_Forall (well_formed (depth + 1))) in Hwf.
    destruct items as [|v items]; [cbn; destruct (Z.leb_spec maxNestingDepth depth); [lia|done]|].
    assert (Hback : Forall (prints_back (depth + 1)) (v :: items)).
    { rewrite Forall_forall in *. intros x Hx. by apply IH, Hwf. }
    apply Forall_cons in Hwf as [Hv _]. pose proof (print_starts _ _ Hv) as (a & l & Ea & Hsp & Hne).
    assert (Ep : exists l', print_seq print 93 (v :: items) = a :: l').
    { destruct items; cbn [print_seq]; rewrite Ea; by eexists. }
    destruct Ep as [l' Ep]. cbn [print] in *. rewrite Ep in *.
    cbn [app]. rewrite (parse_open n depth true) by done.
    change (a :: l' ++ rest) with ((a :: l') ++ rest). rewrite <- Ep in *.
    rewrite parse_items_print; [done|done|done|]. cbn [length] in Hn. lia.
  - cbn [well_formed] in Hwf. destruct Hwf as [Hd Hwf].
    apply (fold_and_Forall (fun kv => raw_string kv.1 /\ well_formed (depth + 1) kv.2)) in Hwf.
    destruct members as [|kv members]; [cbn; destruct (Z.leb_spec maxNestingDepth depth); [lia|done]|].
    assert (Hback : Forall (fun kv => raw_string kv.1 /\ prints_back (depth + 1) kv.2) (kv :: members)).
    { rewrite Forall_forall in *. intros x Hx. destruct (Hwf x Hx). split; [done|]. by apply IH. }
    assert (Ep : exists l', print_seq print_member 125 (kv :: members) = quote_char :: l').
    { destruct members; by eexists. }
    destruct Ep as [l' Ep]. cbn [print] in *. change (fun kv => quoted_raw kv.1 ++ chr 58 :: print kv.2) with print_member in *.
    rewrite Ep in *. cbn [app]. rewrite (parse_open n depth false) by done.
    change (quote_char :: l' ++ rest) with ((quote_char :: l') ++ rest). rewrite <- Ep in *.
    rewrite parse_members_print; [done|done|done|]. cbn [length] in Hn. lia.
Qed.

(** *** Strings *)

Lemma parsed_as_compose {A B C} (f : A -> B) (g : B -> C) (h : A -> C) o :
  (forall a, g (f a) = h a) -> parsed_as g (parsed_as f o) = parsed_as h o.
Proof. intros H. destruct o; [|done..]. cbn. by rewrite H. Qed.

Lemma scan_high a l : ascii7 a = false -> scan_string (a :: l) = parsed_as (cons a) (scan_string l).
Proof.
  intros H. destruct (high_byte a H) as [E1 E2]. cbn [scan_string].
  rewrite E1, E2. unfold ascii7 in H. apply Z.ltb_ge in H. by rewrite (proj2 (Z.ltb_ge _ _)) by lia.
Qed.
Lemma scan_high_all bs l : Forall (fun a => ascii7 a = false) bs -> scan_string (bs ++ l) = parsed_as (app bs) (scan_string l).
Proof.
  induction 1 as [|a bs Ha _ IH]; [cbn [app]; by destruct (scan_string l)|]. cbn [app]. rewrite scan_high, IH by done.
  by apply parsed_as_compose.
Qed.

Lemma proper_high_all a b bs : proper (Rune (a :: b :: bs)) = true -> Forall (fun a => ascii7 a = false) (a :: b :: bs).
Proof.
  assert (Hlow : forall x z, between 0x80 (byte x) z = true -> ascii7 x = false).
  { unfold between, ascii7. intros x z H. apply Z.ltb_ge. bool_prop. lia. }
  assert (Hc : forall x, cont x = true -> ascii7 x = false) by (intros x; apply Hlow).
  assert (Hlo : forall x y z, (128 <=? y) = true -> between y (byte x) z = true -> ascii7 x = false).
  { unfold between, ascii7. intros x y z Hy H. apply Z.ltb_ge. bool_prop. lia. }
  destruct bs as [|c [|d [|]]]; unfold proper; intros H; try discriminate H; bool_prop.
  all: destruct_and?; constructor; [assumption|].
  - unfold utf8_2 in *. bool_prop. destruct_and?. repeat constructor; auto.
  - unfold utf8_3 in *. bool_prop. destruct_and?. repeat constructor; [|auto].
    destruct_or?; destruct_and?; first [by apply Hc | by eapply Hlo; [|eassumption]].
  - unfold utf8_4 in *. bool_prop. destruct_and?. repeat constructor; [|auto..].
    destruct_or?; destruct_and?; first [by apply Hc | by eapply Hlo; [|eassumption]].
Qed.

Lemma scan_esc t l : proper t = true -> scan_string (esc_token t ++ l) = parsed_as (app (esc_token t)) (scan_string l).
Proof.
  destruct t as [[|a [|b bs]]|]; intros H; [done| | |reflexivity].
  - destruct a as [[] [] [] [] [] [] [] []]; first [discriminate H | reflexivity].
  - unfold esc_token. case_decide as E1; [by simplify_eq|]. case_decide as E2; [by simplify_eq|].
    by apply scan_high_all, proper_high_all.
Qed.

Lemma escape_raw s : raw_string (escape s).
Proof.
  intros l. unfold escape. pose proof (tokens_proper (to_bytes s)) as H.
  induction H as [|t ts Ht _ IH]; [done|]. rewrite fmap_cons.
  change (mjoin (esc_token t :: ?k)) with (esc_token t ++ mjoin k). rewrite <- app_assoc, scan_esc, IH by done. done.
Qed.

Lemma unquote_esc t l : proper t = true -> unquote_rune (esc_token t ++ l) = Some (token_bytes t, l).
Proof.
  destruct t as [[|a [|b bs]]|]; intros H; [done| | |reflexivity].
  - destruct a as [[] [] [] [] [] [] [] []]; first [discriminate H | reflexivity].
  - unfold esc_token. case_decide as E1; [by simplify_eq|]. case_decide as E2; [by simplify_eq|].
    destruct (high_byte a) as [_ Ea]; [by eapply proper_high|].
    unfold unquote_rune, decode_rune. pose proof (tokens_rune (Rune (a :: b :: bs)) l H ltac:(done)) as E.
    cbn [token_bytes app] in E. cbn [app]. rewrite Ea, E.
    change (a :: b :: bs ++ l) with ((a :: b :: bs) ++ l). by rewrite drop_app_length.
Qed.

Lemma esc_token_nonempty t : proper t = true -> (0 < length (esc_token t))%nat.
Proof.
  destruct t as [[|a [|b bs]]|]; intros H; [done| | |simpl; lia]; unfold esc_token; [|repeat case_decide; simpl; lia].
  repeat case_match; simpl; lia.
Qed.

(** A marshalled string comes back with its bytes that are not UTF-8 replaced. *)
Lemma unquote_escape s : unquote (escape s) = scrub s.
Proof.
  unfold unquote, scrub, escape. f_equal. pose proof (tokens_proper (to_bytes s)) as H.
  assert (Hn : forall n, (length (mjoin (esc_token <$> tokens (to_bytes s))) <= n)%nat ->
    unquote_loop n (mjoin (esc_token <$> tokens (to_bytes s))) = mjoin (token_bytes <$> tokens (to_bytes s))).
  { induction H as [|t ts Ht _ IH]; intros n Hn; [by destruct n|]. rewrite !fmap_cons in *.
    change (mjoin (esc_token t :: ?k)) with (esc_token t ++ mjoin k) in *. rewrite length_app in Hn.
    pose proof (esc_token_nonempty t Ht). destruct n as [|n]; [lia|]. cbn [unquote_loop].
    rewrite unquote_esc by done. change (mjoin (token_bytes t :: ?k)) with (token_bytes t ++ mjoin k).
    rewrite IH; [done|]. lia. }
  by apply Hn.
Qed.

(** ** Reading on

    What follows a value that was read to its end does not change it. *)

Lemma skip_space_more l a rest k : skip_space l = a :: rest -> skip_space (l ++ k) = a :: rest ++ k.
Proof. induction l as [|b l IH]; cbn [skip_space app]; [done|]. destruct (json_space b); [done|]. by intros [= <- <-]. Qed.

Lemma scan_string_more l raw rest k : scan_string l = Parsed raw rest -> scan_string (l ++ k) = Parsed raw (rest ++ k).
Proof.
  revert raw. induction l as [l IH] using bytes_strong_ind. intros raw. destruct l as [|a l]; [done|]. cbn [scan_string app].
  destruct (Ascii.eqb a quote_char); [by intros [= <- <-]|]. destruct (Ascii.eqb a backslash).
  - destruct l as [|b l]; [done|]. cbn [app]. destruct (escapable b).
    { intros (r & Hr & <-)%parsed_as_Parsed. rewrite (IH l) with (raw := r); [done|simpl; lia|done]. }
    destruct (byte b =? 117); [|done].
    destruct l as [|h1 [|h2 [|h3 [|h4 l]]]]; try (case_match; discriminate). cbn [app].
    destruct (forallb _ _); [|done]. intros (r & Hr & <-)%parsed_as_Parsed.
    rewrite (IH l) with (raw := r); [done|simpl; lia|done].
  - destruct (byte a <? 32); [done|]. intros (r & Hr & <-)%parsed_as_Parsed.
    rewrite (IH l) with (raw := r); [done|simpl; lia|done].
Qed.

Lemma scan_word_more word l rest k : scan_word word l = Parsed () rest -> scan_word word (l ++ k) = Parsed () (rest ++ k).
Proof.
  revert l. induction word as [|a word IH]; intros [|b l]; cbn [scan_word app]; try done.
  - intros [= <-]. by destruct k.
  - by intros [= <-].
  - destruct (Ascii.eqb a b); [apply IH|done].
Qed.

Lemma span_more p l u r k : span p l = (u, r) -> r <> [] -> span p (l ++ k) = (u, r ++ k).
Proof. intros H Hr. eapply span_app; [exact H|]. by intros ->. Qed.
Lemma some_digits_more l u r k : some_digits l = Parsed u r -> r <> [] -> some_digits (l ++ k) = Parsed u (r ++ k).
Proof.
  destruct l as [|a l]; [done|]. cbn [some_digits app]. destruct (is_digit a); [|done].
  destruct (span is_digit (a :: l)) as [u' r'] eqn:E. intros [= <- <-] Hr.
  change (a :: l ++ k) with ((a :: l) ++ k). by rewrite (span_more _ _ _ _ _ E Hr).
Qed.
Lemma exponent_part_more l u r k : exponent_part l = Parsed u r -> r <> [] -> exponent_part (l ++ k) = Parsed u (r ++ k).
Proof.
  destruct l as [|a l]; cbn [exponent_part app]; [by intros [= <- <-]|].
  destruct (_ || _); [|by intros [= <- <-]]. destruct l as [|b l]; [done|]. cbn [app].
  destruct (_ || _); intros (d & H & <-)%parsed_as_Parsed Hr.
  - by rewrite (some_digits_more _ _ _ _ H Hr).
  - change (b :: l ++ k) with ((b :: l) ++ k). by rewrite (some_digits_more _ _ _ _ H Hr).
Qed.
Lemma exponent_part_rest l u r : exponent_part l = Parsed u r -> r <> [] -> l <> [].
Proof. by destruct l; [intros [= <- <-]|]. Qed.
Lemma fraction_part_more l u r k : fraction_part l = Parsed u r -> r <> [] -> fraction_part (l ++ k) = Parsed u (r ++ k).
Proof.
  destruct l as [|a l]; cbn [fraction_part app]; [by intros [= <- <-]|].
  destruct (byte a =? 46); [|by intros [= <- <-]]. intros (d & H & <-)%parsed_as_Parsed Hr.
  by rewrite (some_digits_more _ _ _ _ H Hr).
Qed.
Lemma fraction_part_rest l u r : fraction_part l = Parsed u r -> r <> [] -> l <> [].
Proof. by destruct l; [intros [= <- <-]|]. Qed.
Lemma integer_part_more l u r k : integer_part l = Parsed u r -> r <> [] -> integer_part (l ++ k) = Parsed u (r ++ k).
Proof.
  destruct l as [|a l]; [done|]. cbn [integer_part app]. destruct (byte a =? 48); [by intros [= <- <-]|].
  apply (some_digits_more (a :: l)).
Qed.
Lemma scan_number_more l text rest k : scan_number l = Parsed text rest -> rest <> [] -> scan_number (l ++ k) = Parsed text (rest ++ k).
Proof.
  unfold scan_number. intros H Hr.
  assert (Hs : exists sign l', match l with a :: r => if byte a =? 45 then ([a], r) else ([], l) | [] => ([], []) end = (sign, l')
    /\ match l ++ k with a :: r => if byte a =? 45 then ([a], r) else ([], l ++ k) | [] => ([], []) end = (sign, l' ++ k)).
  { destruct l as [|a l]; [by cbn in H|]. cbn [app]. destruct (byte a =? 45); by eexists _, _. }
  destruct Hs as (sign & l' & E1 & E2). rewrite E1 in H. rewrite E2. cbn [fst snd] in *.
  apply and_then_Parsed in H as (i & l1 & Hi & H). apply and_then_Parsed in H as (f & l2 & Hf & H).
  apply parsed_as_Parsed in H as (e & He & <-). pose proof (exponent_part_rest _ _ _ He Hr) as H2.
  rewrite (integer_part_more _ _ _ k Hi) by by eapply fraction_part_rest. cbn [and_then].
  rewrite (fraction_part_more _ _ _ k Hf) by done. cbn [and_then]. by rewrite (exponent_part_more _ _ _ k He).
Qed.

(** The end of an object or array is its last byte; the end of any other value is seen at the byte after it. *)
Definition delimited (v : json) : bool := match v with JArray _ | JObject _ => true | _ => false end.

Lemma parse_more n :
  (forall depth l v rest k, parse_value n depth l = Parsed v rest -> delimited v = true \/ rest <> [] ->
     parse_value n depth (l ++ k) = Parsed v (rest ++ k)) /\
  (forall depth l vs rest k, parse_items n depth l = Parsed vs rest -> parse_items n depth (l ++ k) = Parsed vs (rest ++ k)) /\
  (forall depth l ms rest k, parse_members n depth l = Parsed ms rest -> parse_members n depth (l ++ k) = Parsed ms (rest ++ k)).
Proof.
  induction n as [|n (IHv & IHi & IHm)]; [done|]. split; [|split].
  - intros depth l v rest k. cbn [parse_value]. destruct (skip_space l) as [|a l1] eqn:E; [done|].
    rewrite (skip_space_more _ _ _ k E). cbv zeta.
    destruct (byte a =? 34).
    { intros (raw & H & <-)%parsed_as_Parsed _. by rewrite (scan_string_more _ _ _ k H). }
    destruct (byte a =? 123); [|destruct (byte a =? 91)].
    1, 2: destruct (_ <=? _); [done|]; destruct (skip_space l1) as [|b l2] eqn:E1; [done|];
      rewrite (skip_space_more _ _ _ k E1); case_match; [by intros [= <- <-]|];
      intros (ms & H1 & <-)%parsed_as_Parsed _; first [by rewrite (IHm _ _ _ _ k H1) | by rewrite (IHi _ _ _ _ k H1)].
    destruct (byte a =? 116); [|destruct (byte a =? 102); [|destruct (byte a =? 110)]].
    1, 2, 3: intros ([] & H & <-)%parsed_as_Parsed _; by rewrite (scan_word_more _ _ _ k H).
    destruct (_ || _); [|done]. intros (text & H & <-)%parsed_as_Parsed [Hd|Hr]; [done|].
    change (a :: l1 ++ k) with ((a :: l1) ++ k). by rewrite (scan_number_more _ _ _ k H Hr).
  - intros depth l vs rest k. cbn [parse_items]. intros (v & l1 & Hv & H)%and_then_Parsed.
    destruct (skip_space l1) as [|a l2] eqn:E; [done|].
    rewrite (IHv _ _ _ _ k Hv) by (right; by intros ->). cbn [and_then]. rewrite (skip_space_more _ _ _ k E).
    destruct (byte a =? 93); [by injection H as <- <-|]. destruct (byte a =? 44); [|done].
    apply parsed_as_Parsed in H as (vs' & H & <-). by rewrite (IHi _ _ _ _ k H).
  - intros depth l ms rest k. cbn [parse_members]. destruct (skip_space l) as [|a l1] eqn:E; [done|].
    rewrite (skip_space_more _ _ _ k E). destruct (byte a =? 34); [|done].
    intros (key & l2 & Hk & H)%and_then_Parsed. rewrite (scan_string_more _ _ _ k Hk). cbn [and_then].
    destruct (skip_space l2) as [|b l3] eqn:E2; [done|]. rewrite (skip_space_more _ _ _ k E2).
    destruct (byte b =? 58); [|done]. apply and_then_Parsed in H as (v & l4 & Hv & H).
    destruct (skip_space l4) as [|c l5] eqn:E4; [done|].
    rewrite (IHv _ _ _ _ k Hv) by (right; by intros ->). cbn [and_then]. rewrite (skip_space_more _ _ _ k E4).
    destruct (byte c =? 125); [by injection H as <- <-|]. destruct (byte c =? 44); [|done].
    apply parsed_as_Parsed in H as (ms' & H & <-). by rewrite (IHm _ _ _ _ k H).
Qed.

(** More fuel does not change a value either. *)
Lemma parse_up n : forall m, (n <= m)%nat ->
  (forall depth l v rest, parse_value n depth l = Parsed v rest -> parse_value m depth l = Parsed v rest) /\
  (forall depth l vs rest, parse_items n depth l = Parsed vs rest -> parse_items m depth l = Parsed vs rest) /\
  (forall depth l ms rest, parse_members n depth l = Parsed ms rest -> parse_members m depth l = Parsed ms rest).
Proof.
  induction n as [|n IH]; [done|]. intros [|m] Hm; [lia|]. destruct (IH m) as (IHv & IHi & IHm); [lia|]. split; [|split].
  - intros depth l v rest. cbn [parse_value]. destruct (skip_space l) as [|a l1]; [done|]. cbv zeta.
    repeat (case_match; try done); intros (ms & Hp & <-)%parsed_as_Parsed;
      first [by rewrite (IHm _ _ _ _ Hp) | by rewrite (IHi _ _ _ _ Hp) | by rewrite Hp].
  - intros depth l vs rest. cbn [parse_items]. intros (v & l1 & Hv & H)%and_then_Parsed. rewrite (IHv _ _ _ _ Hv).
    cbn [and_then]. destruct (skip_space l1) as [|a l2]; [done|]. destruct (byte a =? 93); [done|].
    destruct (byte a =? 44); [|done]. apply parsed_as_Parsed in H as (vs' & H & <-). by rewrite (IHi _ _ _ _ H).
  - intros depth l ms rest. cbn [parse_members]. destruct (skip_space l) as [|a l1]; [done|].
    destruct (byte a =? 34); [|done]. intros (key & l2 & Hk & H)%and_then_Parsed. rewrite Hk. cbn [and_then].
    destruct (skip_space l2) as [|b l3]; [done|]. destruct (byte b =? 58); [|done].
    apply and_then_Parsed in H as (v & l4 & Hv & H). rewrite (IHv _ _ _ _ Hv). cbn [and_then].
    destruct (skip_space l4) as [|c l5]; [done|]. destruct (byte c =? 125); [done|]. destruct (byte c =? 44); [|done].
    apply parsed_as_Parsed in H as (ms' & H & <-). by rewrite (IHm _ _ _ _ H).
Qed.

(** *** The parser as a whole *)

Lemma parse_printed v rest : well_formed 0 v -> number_ends rest -> parse (print v ++ rest) = Parsed v rest.
Proof. intros H Hr. apply parse_print; [done| |done]. unfold value_fuel. rewrite length_app. lia. Qed.

(** No beginning of a printed text is taken for a whole object or array. *)
Lemma parse_cut_short v n w rest :
  well_formed 0 v -> (n < length (print v))%nat -> parse (take n (print v)) = Parsed w rest -> delimited w = false /\ rest = [].
Proof.
  intros Hv Hn H. destruct (decide (delimited w = true \/ rest <> [])) as [Hs|Hs].
  2: { split; [by destruct (delimited w); [destruct Hs; left|]|]. destruct rest; [done|]. destruct Hs. by right. }
  exfalso. unfold parse in H. apply (parse_more _) with (k := drop n (print v)) in H; [|exact Hs].
  rewrite take_drop in H. apply (parse_up _ (value_fuel (print v))) in H; [|unfold value_fuel; rewrite length_take; lia].
  pose proof (parse_printed v [] Hv I) as Hp. rewrite app_nil_r in Hp. unfold parse in Hp. rewrite Hp in H.
  injection H as _ H. symmetry in H. apply app_eq_nil in H as [_ H]. apply (f_equal length) in H.
  rewrite length_drop in H. simpl in H. lia.
Qed.

(** A printed object or array ends with its last byte, whatever follows. *)
Lemma parse_delimited v k : well_formed 0 v -> delimited v = true -> parse (print v ++ k) = Parsed v k.
Proof.
  intros Hv Hd. pose proof (parse_printed v [] Hv I) as H. rewrite app_nil_r in H. unfold parse in *.
  apply (parse_more _) with (k := k) in H; [|by left]. apply (parse_up _ (value_fuel (print v ++ k))) in H; [exact H|].
  unfold value_fuel. rewrite length_app. lia.
Qed.

(** ** Decimal numbers *)

From Stdlib Require DecimalFacts DecimalN.

(** A decimal number has no leading zero, so it is a JSON number. *)
Lemma decimal_leading n l : to_bytes (decimal n) = chr 48 :: l -> l = [].
Proof.
  unfold decimal. assert (E : N.to_uint n = Decimal.unorm (N.to_uint n)) by (by rewrite <-DecimalN.Unsigned.to_of, DecimalN.Unsigned.of_to).
  rewrite E. unfold Decimal.unorm. destruct (Decimal.nzhead (N.to_uint n)) as [|u|u|u|u|u|u|u|u|u|u] eqn:Eu; try discriminate.
  - by intros [= <-].
  - exfalso. by apply (DecimalFacts.nzhead_nonzero (N.to_uint n) u).
Qed.
Lemma decimal_number n : number_text (to_bytes (decimal n)) = true.
Proof.
  destruct (decimal_start n) as (a & l & E & Ha). pose proof (decimal_digits n) as Hd. rewrite E in Hd. cbn in Hd.
  apply andb_true_iff in Hd as [_ Hd]. unfold number_text, scan_number. rewrite E.
  destruct (digit_not_sign a Ha) as (-> & _ & _). unfold integer_part. destruct (Z.eqb_spec (byte a) 48) as [H48|_].
  - assert (l = []) as -> by (apply (decimal_leading n); rewrite E; f_equal; rewrite <-H48; apply byte_chr).
    cbn. by rewrite !bool_decide_eq_true_2.
  - unfold some_digits. rewrite Ha. rewrite <-(app_nil_r (a :: l)), (span_all is_digit (a :: l) []) by (cbn; by rewrite ?Ha).
    cbn. rewrite !app_nil_r. by rewrite !bool_decide_eq_true_2.
Qed.
