(* ===== verification/TimeText.v ===== *)
(** * Reading instants

    [time.Parse] with the layout RFC 3339, which [Time.UnmarshalJSON] ends up in: one-digit hours, a comma before the fraction and
    offsets up to 24:60 are accepted, digits of the fraction beyond the ninth are dropped.  Only the instant is kept, not the zone it was
    written in. *)

From S2P Require Import Prelude GoStrings GoTime GoConv GoQuote.
From Stdlib Require Import Ascii.
#[local] Open Scope Z_scope.

(** [getnum]: two digits, or one where the layout allows it. *)
Definition getnum (fixed : bool) (l : bytes) : option (Z * bytes) :=
  match l with
  | a :: rest =>
    if negb (is_digit a) then None
    else
      match rest with
      | b :: rest' =>
        if is_digit b then Some (10 * digit a + digit b, rest') else if fixed then None else Some (digit a, rest)
      | [] => if fixed then None else Some (digit a, rest)
      end
  | [] => None
  end.
(** A byte of the layout. *)
Definition literal (c : Z) (l : bytes) : option bytes :=
  match l with a :: rest => if byte a =? c then Some rest else None | [] => None end.

(** The fraction of a second, in nanoseconds ([parseNanoseconds]); there may be none. *)
Definition fraction (l : bytes) : Z * bytes :=
  match l with
  | a :: rest =>
    if (byte a =? 46) || (byte a =? 44) then
      let '(all, after) := span is_digit rest in
      let read := take 9 all in
      if bool_decide (all = []) then (0, l) else (read_digits read 0 * 10 ^ (9 - Z.of_nat (length read)), after)
    else (0, l)
  | [] => (0, [])
  end.

(** The offset of the zone in seconds. *)
Definition zone_offset (l : bytes) : option (Z * bytes) :=
  match l with
  | a :: rest =>
    if byte a =? 90 then Some (0, rest)
    else
      sign ← (if byte a =? 43 then Some 1 else if byte a =? 45 then Some (-1) else None);
      '(hour, rest) ← getnum true rest;
      rest ← literal 58 rest;
      '(minute, rest) ← getnum true rest;
      if (24 <? hour) || (60 <? minute) then None else Some (sign * ((hour * 60 + minute) * 60), rest)
  | [] => None
  end.

Definition is_leap (y : Z) : bool := (y mod 4 =? 0) && (negb (y mod 100 =? 0) || (y mod 400 =? 0)).
Definition days_in (m y : Z) : Z :=
  if m =? 2 then if is_leap y then 29 else 28
  else if (m =? 4) || (m =? 6) || (m =? 9) || (m =? 11) then 30 else 31.

Definition year (l : bytes) : option (Z * bytes) := '(y, rest) ← exactly 4 is_digit l; Some (read_digits y 0, rest).

Definition parse_rfc3339 (l : bytes) : option time :=
  '(y, l) ← year l; l ← literal 45 l;
  '(m, l) ← getnum true l; l ← literal 45 l;
  '(d, l) ← getnum true l; l ← literal 84 l;
  '(hour, l) ← getnum false l; l ← literal 58 l;
  '(minute, l) ← getnum true l; l ← literal 58 l;
  '(second, l) ← getnum true l;
  let '(nanos, l) := fraction l in
  '(offset, l) ← zone_offset l;
  if negb (bool_decide (l = [])) || negb (between 1 m 12) || negb (between 1 d (days_in m y))
     || (24 <=? hour) || (60 <=? minute) || (60 <=? second)
  then None
  else Some ((days_from_civil y m d - epoch_shift) * nanos_per_day
             + ((hour * 60 + minute) * 60 + second - offset) * Second + nanos).

Example parse_rfc3339_examples :
  parse_rfc3339 (to_bytes "2023-11-14T22:13:20.5Z") = Some (unix 1700000000 + 500000000) /\
  parse_rfc3339 (to_bytes "2023-11-15T0:13:20,50+02:00") = Some (unix 1700000000 + 500000000) /\
  parse_rfc3339 (to_bytes "2024-02-29T12:34:56Z") = Some (unix 1709210096) /\
  parse_rfc3339 (to_bytes "2023-02-29T12:34:56Z") = None /\ parse_rfc3339 (to_bytes "2024-02-29T24:00:00Z") = None.
Proof. by vm_compute. Qed.

(** ** Reading what was written *)

Lemma byte_chr_id z : 0 <= z < 256 -> byte (chr z) = z.
Proof. intros H. unfold byte, chr. rewrite N_ascii_embedding by lia. lia. Qed.

Lemma digit_of n : is_digit (chr (48 + n mod 10)) = true /\ digit (chr (48 + n mod 10)) = n mod 10.
Proof.
  pose proof (Z.mod_pos_bound n 10 ltac:(lia)). unfold is_digit, digit, between. rewrite byte_chr_id by lia.
  split; [|lia]. apply andb_true_iff. rewrite !Z.leb_le. lia.
Qed.

Lemma read_digits_digits w n : 0 <= n < 10 ^ Z.of_nat w -> read_digits (digits w n) 0 = n.
Proof.
  revert n. induction w as [|w IH]; intros n Hn; [simpl in *; lia|]. cbn [digits].
  rewrite Nat2Z.inj_succ, Z.pow_succ_r in Hn by lia. rewrite read_digits_app, IH.
  - cbn. destruct (digit_of n) as [_ ->]. rewrite (Z.div_mod n 10) at 3 by lia. lia.
  - split; [apply Z.div_pos; lia|apply Z.div_lt_upper_bound; lia].
Qed.

Lemma digits_all w n : forallb is_digit (digits w n) = true.
Proof.
  revert n. induction w as [|w IH]; intros n; [done|]. cbn [digits]. rewrite forallb_app, IH.
  cbn. by destruct (digit_of n) as [-> _].
Qed.

Lemma getnum_digits fixed n l : 0 <= n < 100 -> getnum fixed (digits 2 n ++ l) = Some (n, l).
Proof.
  intros H. cbn [digits app getnum].
  destruct (digit_of (n / 10)) as [-> E1], (digit_of n) as [-> E2]. cbn [negb]. rewrite E1, E2.
  do 2 f_equal. rewrite (Z.mod_small (n / 10)); [rewrite (Z.div_mod n 10) at 3; lia|].
  split; [apply Z.div_pos; lia|apply Z.div_lt_upper_bound; lia].
Qed.

Lemma year_digits y l : 0 <= y < 10000 -> year (digits 4 y ++ l) = Some (y, l).
Proof.
  intros H. unfold year, exactly. rewrite (take_app_length' (digits 4 y)), (drop_app_length' (digits 4 y)) by by rewrite length_digits.
  rewrite length_digits, digits_all. cbn. change (Some (read_digits (digits 4 y) 0, l) = Some (y, l)).
  by rewrite read_digits_digits.
Qed.

Lemma read_digits_zeros l k : read_digits (l ++ repeat (chr 48) k) 0 = read_digits l 0 * 10 ^ Z.of_nat k.
Proof.
  rewrite read_digits_app. generalize (read_digits l 0) as a. induction k as [|k IH]; intros a.
  - cbn. lia.
  - cbn [repeat]. change (read_digits (chr 48 :: ?l) a) with (read_digits l (10 * a + 0)).
    rewrite IH, Nat2Z.inj_succ, Z.pow_succ_r by lia. lia.
Qed.

Lemma fraction_format n l (frac := drop_zeros (digits 9 n)) :
  0 <= n < 10 ^ 9 ->
  fraction ((if decide (frac = []) then [] else chr 46 :: frac) ++ chr 90 :: l) = (n, chr 90 :: l).
Proof.
  intros Hn. destruct (drop_zeros_pad (digits 9 n)) as [k Hk]. fold frac in Hk.
  assert (Hread : n = read_digits frac 0 * 10 ^ Z.of_nat k).
  { rewrite <- read_digits_zeros, <- Hk. by rewrite read_digits_digits. }
  assert (Hlen : (length frac + k = 9)%nat).
  { apply (f_equal length) in Hk. rewrite length_digits, length_app, repeat_length in Hk. lia. }
  destruct (decide (frac = [])) as [E|Hne].
  { rewrite E in Hread. cbn in Hread. by subst n. }
  assert (Hall : forallb is_digit frac = true).
  { pose proof (digits_all 9 n) as H. rewrite Hk, forallb_app in H. by apply andb_true_iff in H as [H _]. }
  cbn [app fraction]. change ((byte (chr 46) =? 46) || (byte (chr 46) =? 44)) with true. cbn beta iota.
  rewrite span_all by done. rewrite bool_decide_eq_false_2 by done. rewrite take_ge by lia.
  f_equal. rewrite Hread. f_equal. f_equal. lia.
Qed.

(** The calendar never counts a day that its month does not have. *)
Lemma is_leap_era y era : is_leap (y + era * 400) = is_leap y.
Proof.
  unfold is_leap. replace (y + era * 400) with (y + era * 4 * 100) at 2 by lia.
  replace (y + era * 400) with (y + era * 100 * 4) at 1 by lia. by rewrite !Z.mod_add by lia.
Qed.

Definition long_year_leaps (yoe : Z) : bool :=
  implb (year_of_era (365 * yoe + yoe / 4 - yoe / 100 + 365) =? yoe) (is_leap (yoe + 1)).
Lemma long_years_leap : forallb long_year_leaps (Z.of_nat <$> seq 0 400) = true.
Proof. by vm_compute. Qed.

Lemma day_365_leaps doe :
  0 <= doe < 146097 -> day_of_year doe (year_of_era doe) = 365 -> is_leap (year_of_era doe + 1) = true.
Proof.
  intros Hdoe H. destruct (civil_parts doe Hdoe) as (Hy & _).
  pose proof long_years_leap as Hall. rewrite forallb_elem in Hall.
  specialize (Hall (year_of_era doe)). unfold long_year_leaps, day_of_year in *.
  replace (365 * year_of_era doe + year_of_era doe / 4 - year_of_era doe / 100 + 365) with doe in Hall by lia.
  rewrite Z.eqb_refl in Hall. apply Hall. apply list_elem_of_fmap. exists (Z.to_nat (year_of_era doe)). split; [lia|].
  apply list_elem_of_In, in_seq. lia.
Qed.

Lemma civil_day z y m d : civil z = (y, m, d) -> between 1 d (days_in m y) = true /\ between 1 m 12 = true.
Proof.
  unfold civil. pose proof (Z.mod_pos_bound z 146097 ltac:(lia)) as Hdoe.
  pose proof (civil_parts _ Hdoe) as (Hy & Hd & Hm & Hday).
  pose proof (day_365_leaps _ Hdoe) as Hleap.
  cbv zeta in *. set (yoe := year_of_era (z mod 146097)) in *. set (doy := day_of_year (z mod 146097) yoe) in *.
  assert (Hmp : month_of doy * 153 <= 5 * doy + 2 < (month_of doy + 1) * 153)
    by (unfold month_of; Z.to_euclidean_division_equations; lia).
  generalize dependent (month_of doy). intros mp Hm Hday Hmp. intros E. unfold between. rewrite !andb_true_iff, !Z.leb_le.
  assert (Hcases : mp = 0 \/ mp = 1 \/ mp = 2 \/ mp = 3 \/ mp = 4 \/ mp = 5 \/ mp = 6 \/ mp = 7 \/ mp = 8 \/ mp = 9 \/
    mp = 10 \/ mp = 11) by lia.
  destruct (decide (mp = 11)) as [->|Hne].
  - cbn in E, Hday, Hmp. injection E as <- <- <-. unfold days_in. change (11 - 9) with 2. cbn [Z.eqb Pos.eqb].
    replace (yoe + z / 146097 * 400 + 1) with (yoe + 1 + z / 146097 * 400) by lia. rewrite is_leap_era.
    change ((153 * 11 + 2) / 5) with 337 in *.
    destruct (decide (doy = 365)) as [Heq|]; [rewrite (Hleap Heq); lia|]. destruct (is_leap (yoe + 1)); lia.
  - repeat (destruct Hcases as [->|Hcases];
      [cbn in E, Hday, Hmp; injection E as <- <- <-;
       match goal with |- context [days_in ?m ?y] =>
         generalize y; intros y'; let r := eval vm_compute in (days_in m y') in change (days_in m y') with r end;
       match goal with |- context [(153 * ?k + 2) / 5] =>
         let r := eval vm_compute in ((153 * k + 2) / 5) in change ((153 * k + 2) / 5) with r in * end; lia|]).
    lia.
Qed.

Lemma literal_hit c l : 0 <= c < 256 -> literal c ([chr c] ++ l) = Some l.
Proof. intros H. cbn [app literal]. by rewrite byte_chr_id, Z.eqb_refl. Qed.
Lemma Some_bind {A B} (a : A) (k : A -> option B) : Some a ≫= k = k a.
Proof. done. Qed.

(** A marshalled instant is read back. *)
Lemma parse_format t : time_ok t -> parse_rfc3339 (to_bytes (format_rfc3339nano t)) = Some t.
Proof.
  intros Ht. unfold format_rfc3339nano. destruct (civil (t / _ + _)) as [[y m] d] eqn:E. cbv zeta.
  destruct (civil_ok _ _ _ _ Ht E) as (Hy & Hm & Hd), (clock_bounds t) as (H0 & Hh & Hmi & Hs & Hn).
  change (10 ^ Z.of_nat 4) with 10000 in Hy. change (10 ^ Z.of_nat 2) with 100 in *.
  destruct (civil_day _ _ _ _ E) as [Hday Hmonth]. apply days_from_civil_civil in E.
  rewrite to_of_bytes. unfold parse_rfc3339.
  set (n := t mod nanos_per_day) in *.
  assert (Hr : n / Second / 3600 < 24 /\ n / Second / 60 mod 60 < 60 /\ n / Second mod 60 < 60).
  { assert (0 <= n < 86400000000000) by (apply Z.mod_pos_bound; done). clearbody n.
    change Second with 1000000000. Z.to_euclidean_division_equations; lia. }
  rewrite year_digits by done.
  repeat (rewrite Some_bind, literal_hit, Some_bind, getnum_digits by (done || lia)). rewrite Some_bind.
  rewrite fraction_format by done. cbn [zone_offset]. change (byte (chr 90) =? 90) with true. cbn [mbind option_bind].
  rewrite bool_decide_eq_true_2, Hday, Hmonth by done. destruct Hr as (H1 & H2 & H3).
  apply Z.leb_gt in H1, H2, H3. rewrite H1, H2, H3. cbn [negb orb]. f_equal. rewrite E.
  rewrite (Z.div_mod t nanos_per_day) at 2 by done. fold n.
  assert (Hsec : n = ((n / Second / 3600 * 60 + n / Second / 60 mod 60) * 60 + n / Second mod 60) * Second + n mod Second).
  { clear -H0. change Second with 1000000000. Z.to_euclidean_division_equations; lia. }
  lia.
Qed.
