(* ===== verification/JsonDecode.v ===== *)
(** * Decoding JSON into the program's types

    [json.Decoder] with [DisallowUnknownFields] over [http.MaxBytesReader], and [json.Marshal] of the same types.

    Go decodes into what is there already: a member that comes twice is decoded twice into the same place, where [null] leaves
    strings, booleans, instants and structs alone and empties maps and slices, objects add to maps and structs, and the elements of an
    array are decoded into the slots that earlier arrays left.  A [decoder] therefore reads all the values given for one place, in order.
    An error anywhere fails the whole decoding. *)

From S2P Require Import Prelude GoStrings GoTime GoConv GoQuote JsonParse TimeText.
From S2P Require Import Json.
From Stdlib Require Import Ascii.
#[local] Open Scope Z_scope.

Definition decoder (A : Type) : Type := list json -> option A.

(** ** Values of basic types, maps and slices *)

Definition to_scalar {A} (zero : A) (f : json -> option A) : decoder A := fun vs =>
  fold_left (fun old v => a ← old; match v with JNull => Some a | _ => f v end) vs (Some zero).
Definition to_string : decoder string := to_scalar "" (fun v => match v with JString raw => Some (unquote raw) | _ => None end).
Definition to_bool : decoder bool := to_scalar false (fun v => match v with JBool b => Some b | _ => None end).
(** [Time.UnmarshalJSON] reads the bytes between the quotes as they are. *)
Definition to_instant : decoder time := to_scalar 0 (fun v => match v with JString raw => parse_rfc3339 raw | _ => None end).

(** [map[string]string]; every entry is decoded into an empty string. *)
Definition add_entry (m : option (gmap string string)) (kv : bytes * json) : option (gmap string string) :=
  m ← m; s ← to_string [kv.2]; Some (<[unquote kv.1 := s]> m).
Definition to_map : decoder (gmap string string) := fun vs =>
  fold_left (fun m v =>
    m ← m;
    match v with
    | JNull => Some ∅
    | JObject members => fold_left add_entry members (Some m)
    | _ => None
    end) vs (Some ∅).

(** The slots behind a slice, each with the values decoded into it, and how many of them are in the slice. *)
Fixpoint assign_slots (slots : list (list json)) (items : list json) : list (list json) :=
  match items with
  | [] => slots
  | v :: items => (default [] (head slots) ++ [v]) :: assign_slots (tail slots) items
  end.
Definition slots_step (slice : option (list (list json) * nat)) (v : json) : option (list (list json) * nat) :=
  '(slots, _) ← slice;
  match v with
  | JNull | JArray [] => Some ([], O)
  | JArray items => Some (assign_slots slots items, length items)
  | _ => None
  end.
Definition items_of (v : json) : list json := match v with JArray items => items | _ => [] end.
(** An element that cannot be decoded is an error even when it is overwritten later. *)
Definition to_slice {A} (d : decoder A) : decoder (list A) := fun vs =>
  '(slots, n) ← fold_left slots_step vs (Some ([], O));
  _ ← mapM (fun v => d [v]) (v ← vs; items_of v);
  mapM d (take n slots).

(** ** Structs *)

(** The field a member is for: the one of that name, or one that differs in letter case only. *)
Definition resolve (names : list string) (key : string) : option string :=
  if bool_decide (key ∈ names) then Some key else find_first (fun name => if EqualFold name key then Some name else None) names.

Fixpoint all_members (vs : list json) : option (list (bytes * json)) :=
  match vs with
  | [] => Some []
  | JNull :: vs => all_members vs
  | JObject members :: vs => rest ← all_members vs; Some (members ++ rest)
  | _ :: _ => None
  end.
Definition values_of (names : list string) (members : list (bytes * json)) (name : string) : list json :=
  omap (fun kv => if decide (resolve names (unquote kv.1) = Some name) then Some kv.2 else None) members.

(** [fields] decodes the fields from the values given for each; [strict] is [DisallowUnknownFields]. *)
Definition to_struct {A} (strict : bool) (names : list string) (fields : (string -> list json) -> option A) : decoder A := fun vs =>
  members ← all_members vs;
  if strict && existsb (fun kv => bool_decide (resolve names (unquote kv.1) = None)) members then None
  else fields (values_of names members).

(** No member of a strictly decoded object is unknown, and nothing but an object or [null] is a struct. *)
Lemma to_struct_strict {A} names (fields : (string -> list json) -> option A) v a :
  to_struct true names fields [v] = Some a ->
  v = JNull \/ exists members, v = JObject members /\ forall key value, (key, value) ∈ members -> resolve names (unquote key) <> None.
Proof.
  unfold to_struct. destruct v as [| | | | |members]; cbn [all_members mbind option_bind]; try done; [by left|].
  rewrite app_nil_r. cbn [andb]. destruct (existsb _ _) eqn:E; [done|]. intros _. right. exists members. split; [done|].
  intros key value Hin Hn. apply not_true_iff_false in E. apply E. apply existsb_elem. exists (key, value). split; [done|].
  by apply bool_decide_eq_true.
Qed.

(** ** Bodies *)

Inductive body_outcome (A : Type) :=
| OverLimit
| Undecodable
| Trailing
| Value (a : A).
Arguments OverLimit {_}.
Arguments Undecodable {_}.
Arguments Trailing {_}.
Arguments Value {_} _.

(** Two calls of [Decode] on the first [limit] bytes, the second of which has to meet the end of the body. *)
Definition read_body {A} (limit : Z) (d : decoder A) (body : bytes) : body_outcome A :=
  let over := limit <? Z.of_nat (length body) in
  match parse (take (Z.to_nat limit) body) with
  | Malformed => Undecodable
  | More => if over then OverLimit else Undecodable
  | Parsed v rest =>
    if over && bool_decide (rest = []) && negb (delimited v) then OverLimit
    else
      match d [v] with
      | None => Undecodable
      | Some a => if over || negb (bool_decide (skip_space rest = [])) then Trailing else Value a
      end
  end.

(** Nothing that exceeds the limit is ever decoded. *)
Lemma read_body_bounded {A} limit (d : decoder A) body a : read_body limit d body = Value a -> Z.of_nat (length body) <= limit.
Proof.
  unfold read_body. destruct (Z.ltb_spec limit (Z.of_nat (length body))) as [H|H]; [|lia]. cbn [orb].
  intros E. repeat case_match; discriminate.
Qed.

(** What is decoded is one JSON value with nothing but white space after it. *)
Lemma read_body_value {A} limit (d : decoder A) body a :
  read_body limit d body = Value a <->
  Z.of_nat (length body) <= limit /\ exists v rest, parse body = Parsed v rest /\ skip_space rest = [] /\ d [v] = Some a.
Proof.
  split.
  - intros H. pose proof (read_body_bounded _ _ _ _ H) as Hlen. split; [exact Hlen|]. revert H. unfold read_body.
    rewrite (proj2 (Z.ltb_ge _ _)) by lia. rewrite take_ge by lia. cbn [andb orb]. intros H.
    destruct (parse body) as [v rest| |]; try discriminate H. destruct (d [v]) as [b|] eqn:Ed; [|discriminate H].
    case_bool_decide as Hr; [|discriminate H]. injection H as <-. by exists v, rest.
  - intros (Hlen & v & rest & Hp & Hr & Hd). unfold read_body. rewrite (proj2 (Z.ltb_ge _ _)) by lia. rewrite take_ge by lia.
    rewrite Hp. cbn [andb]. rewrite Hd, Hr. by rewrite bool_decide_eq_true_2.
Qed.

(** ** Marshalling *)

Definition of_string (s : string) : json := JString (escape s).
Definition of_instant (t : time) : json := JString (to_bytes (format_rfc3339nano t)).
Definition of_struct (members : list (string * json)) : json := JObject ((fun kv => (escape kv.1, kv.2)) <$> members).
Definition of_map (m : gmap string string) : json :=
  of_struct ((fun kv => (kv.1, of_string kv.2)) <$> sort_by fst (map_to_list m)).
Definition of_slice {A} (f : A -> json) (l : list A) : json := JArray (f <$> l).
(** A member that is left out when [empty]. *)
Definition omit_if (empty : bool) (member : string * json) : list (string * json) := if empty then [] else [member].
(** A pointer that is left out when nil. *)
Definition optional_member {A} (name : string) (f : A -> json) (a : option A) : list (string * json) :=
  match a with Some a => [(name, f a)] | None => [] end.
Definition marshal (v : json) : bytes := print v.

(** ** Decoding what was marshalled *)

Lemma to_string_of s : to_string [of_string s] = Some (scrub s).
Proof. unfold to_string, to_scalar. cbn. by rewrite unquote_escape. Qed.
Lemma to_instant_of t : time_ok t -> to_instant [of_instant t] = Some t.
Proof. intros H. unfold to_instant, to_scalar. cbn [fold_left of_instant mbind option_bind]. by apply parse_format. Qed.

Lemma fold_option_Some {A B} (f : A -> B -> option A) (g : A -> B -> A) l a :
  (forall a b, b ∈ l -> f a b = Some (g a b)) ->
  fold_left (fun o b => a ← o; f a b) l (Some a) = Some (fold_left g l a).
Proof.
  revert a. induction l as [|b l IH]; intros a H; [done|]. cbn [fold_left mbind option_bind].
  rewrite H by by left. apply IH. intros a' b' Hb. apply H. by right.
Qed.

Lemma add_entry_of m k s : add_entry (Some m) (escape k, of_string s) = Some (<[scrub k := scrub s]> m).
Proof.
  unfold add_entry. cbn [mbind option_bind fst snd]. pose proof (to_string_of s) as H. unfold of_string in *. rewrite H.
  cbn [mbind option_bind]. by rewrite unquote_escape.
Qed.
Lemma to_map_of m :
  to_map [of_map m] = Some (fold_left (fun m kv => <[scrub kv.1 := scrub kv.2]> m) (sort_by fst (map_to_list m)) ∅).
Proof.
  unfold to_map, of_map, of_struct. cbn [fold_left mbind option_bind]. generalize (sort_by fst (map_to_list m)) as l. clear m.
  intros l. generalize (∅ : gmap string string) as m. induction l as [|[k s] l IH]; intros m; [done|].
  rewrite !fmap_cons. cbn [fold_left fst snd]. rewrite add_entry_of. apply IH.
Qed.

Lemma mapM_map {A B C} (d : B -> option C) (f : A -> B) (g : A -> C) l :
  (forall x, x ∈ l -> d (f x) = Some (g x)) -> mapM d (f <$> l) = Some (g <$> l).
Proof.
  intros H. induction l as [|x l IH]; [done|]. rewrite fmap_cons.
  change (mapM d (f x :: (f <$> l))) with (y ← d (f x); k ← mapM d (f <$> l); Some (y :: k)).
  rewrite H by by left. cbn [mbind option_bind]. rewrite IH; [done|]. intros y Hy. apply H. by right.
Qed.

Lemma assign_slots_fresh items : assign_slots [] items = (fun v => [v]) <$> items.
Proof. induction items as [|v items IH]; [done|]. cbn [assign_slots head tail default app]. by rewrite IH. Qed.

Lemma to_slice_of {A B} (d : decoder B) (f : A -> json) (g : A -> B) l :
  (forall x, x ∈ l -> d [f x] = Some (g x)) -> to_slice d [of_slice f l] = Some (g <$> l).
Proof.
  intros H. unfold to_slice, of_slice. cbn [fold_left slots_step mbind option_bind].
  destruct (f <$> l) as [|v vs] eqn:E.
  { by destruct l. }
  rewrite <- E. cbn [mbind option_bind list_bind items_of]. rewrite app_nil_r.
  rewrite (mapM_map (fun v => d [v]) f g) by done. cbn [mbind option_bind].
  rewrite assign_slots_fresh, take_ge by by rewrite !length_fmap.
  rewrite <- list_fmap_compose. by apply mapM_map.
Qed.

(** *** What is marshalled is correct JSON *)

Definition plain (a : ascii) : bool :=
  between 32 (byte a) 126 && forallb (fun c => negb (byte a =? c)) [34; 92; 38; 60; 62]. (* quote, backslash, &, <, > *)
Lemma plain_raw l : forallb plain l = true -> raw_string l.
Proof.
  intros H k. induction l as [|a l IH]; [done|]. cbn [forallb app] in *. apply andb_true_iff in H as [Ha H].
  unfold plain, between in Ha. cbn [forallb] in Ha. cbn [scan_string].
  assert (Hne : forall z, byte a <> z -> Ascii.eqb a (chr z) = false \/ (z < 0 \/ 255 < z)).
  { intros z Hz. destruct (Ascii.eqb_spec a (chr z)) as [->|]; [|by left]. right.
    destruct (decide (0 <= z < 256)); [|lia]. by rewrite byte_chr_id in Hz. }
  unfold quote_char, backslash. bool_prop. destruct (Hne 34) as [->|]; [lia| |lia]. destruct (Hne 92) as [->|]; [lia| |lia].
  rewrite (proj2 (Z.ltb_ge _ _)) by lia. change (chr 34 :: k) with (quote_char :: k). by rewrite IH.
Qed.

Lemma digits_plain w n : forallb plain (digits w n) = true.
Proof.
  pose proof (digits_all w n) as H. rewrite forallb_elem in *. intros a Ha. specialize (H a Ha).
  unfold is_digit, plain, between in *. cbn [forallb]. bool_prop. lia.
Qed.
Lemma format_plain t : forallb plain (to_bytes (format_rfc3339nano t)) = true.
Proof.
  unfold format_rfc3339nano. destruct (civil _) as [[y m] d]. cbv zeta. rewrite to_of_bytes, !forallb_app, !digits_plain.
  set (n := t mod nanos_per_day). destruct (drop_zeros_pad (digits 9 (n mod Second))) as [k Hk].
  pose proof (digits_plain 9 (n mod Second)) as H. rewrite Hk, forallb_app in H. apply andb_true_iff in H as [H _].
  destruct (decide _); [done|]. cbn [forallb]. rewrite H. done.
Qed.

(** Such a text is marshalled as it is. *)
Lemma escape_plain s : forallb plain (to_bytes s) = true -> escape s = to_bytes s.
Proof.
  intros H. unfold escape.
  rewrite tokens_ascii by (rewrite forallb_elem in *; intros a Ha; specialize (H a Ha); unfold plain, ascii7, between in *; bool_prop; lia).
  rewrite <-list_fmap_compose. induction (to_bytes s) as [|a l IH]; [done|]. cbn [forallb] in H. apply andb_true_iff in H as [Ha H].
  change (esc_token (Rune [a]) ++ mjoin (esc_token ∘ (fun a => Rune [a]) <$> l) = a :: l). rewrite IH by done. change (a :: l) with ([a] ++ l). f_equal. unfold plain, between in Ha. cbn [forallb] in Ha. unfold esc_token.
  bool_prop. repeat case_match; bool_prop; try lia. done.
Qed.
Lemma of_instant_string t : of_instant t = of_string (format_rfc3339nano t).
Proof. unfold of_instant, of_string. by rewrite escape_plain by apply format_plain. Qed.

Lemma of_string_wf depth s : well_formed depth (of_string s).
Proof. apply escape_raw. Qed.
Lemma of_instant_wf depth t : well_formed depth (of_instant t).
Proof. apply plain_raw, format_plain. Qed.
Lemma of_struct_wf depth members :
  depth < maxNestingDepth -> Forall (fun kv => well_formed (depth + 1) kv.2) members -> well_formed depth (of_struct members).
Proof.
  intros Hd H. split; [done|]. apply (fold_and_Forall (fun kv => raw_string kv.1 /\ well_formed (depth + 1) kv.2)).
  apply Forall_fmap. eapply Forall_impl; [exact H|]. intros kv Hkv. split; [apply escape_raw|exact Hkv].
Qed.
Lemma of_map_wf depth m : depth < maxNestingDepth -> well_formed depth (of_map m).
Proof. intros H. apply of_struct_wf; [done|]. apply Forall_fmap, Forall_true. intros kv. apply of_string_wf. Qed.
Lemma of_slice_wf {A} depth (f : A -> json) l :
  depth < maxNestingDepth -> Forall (fun x => well_formed (depth + 1) (f x)) l -> well_formed depth (of_slice f l).
Proof. intros Hd H. split; [done|]. apply (fold_and_Forall (well_formed (depth + 1))). by apply Forall_fmap. Qed.
Lemma omit_if_wf depth empty member :
  well_formed depth member.2 -> Forall (fun kv => well_formed depth kv.2) (omit_if empty member).
Proof. intros H. destruct empty; repeat constructor. exact H. Qed.

(** *** Bodies *)

(** A body within the limit is decoded, one beyond it is refused. *)
Lemma read_body_marshal {A} limit (d : decoder A) v :
  well_formed 0 v -> delimited v = true ->
  let outcome := read_body limit d (marshal v) in
  if Z.of_nat (length (marshal v)) <=? limit then outcome = match d [v] with Some a => Value a | None => Undecodable end
  else outcome = OverLimit \/ outcome = Undecodable.
Proof.
  intros Hv Hd outcome. unfold outcome, read_body, marshal. destruct (Z.leb_spec (Z.of_nat (length (print v))) limit) as [H|H].
  - rewrite (proj2 (Z.ltb_ge _ _)) by lia. rewrite take_ge by lia.
    pose proof (parse_printed v [] Hv I) as Hp. rewrite app_nil_r in Hp. rewrite Hp. cbn [orb andb skip_space].
    by destruct (d [v]).
  - rewrite (proj2 (Z.ltb_lt _ _)) by lia. destruct (parse _) as [w rest| |] eqn:E; [|by left|by right].
    apply parse_cut_short in E as [-> ->]; [by left|done|]. destruct v; try done; cbn [print length] in *; lia.
Qed.

(** *** Structs *)

(** The values a marshalled struct has for a field. *)
Definition given (members : list (string * json)) (name : string) : list json :=
  omap (fun kv => if kv.1 == name then Some kv.2 else None) members.

Definition field_names (names : list string) (members : list (string * json)) : bool :=
  forallb (fun kv => bool_decide (kv.1 ∈ names) && valid_utf8 kv.1) members.

Lemma resolve_own names name : name ∈ names -> resolve names name = Some name.
Proof. intros H. unfold resolve. by rewrite bool_decide_eq_true_2. Qed.

Lemma values_of_struct names members name :
  field_names names members = true ->
  values_of names ((fun kv => (escape kv.1, kv.2)) <$> members) name = given members name.
Proof.
  intros H. unfold field_names in H. rewrite forallb_elem in H. unfold values_of, given.
  induction members as [|[k v] members IH]; [done|]. rewrite fmap_cons.
  assert (Hk : resolve names (unquote (escape k)) = Some k).
  { specialize (H (k, v) ltac:(by left)). cbn in H. apply andb_true_iff in H as [Hk Hv]. apply bool_decide_eq_true in Hk.
    rewrite unquote_escape, scrub_valid by done. by apply resolve_own. }
  cbn [omap list_omap fst snd]. rewrite Hk, IH by (intros kv Hkv; apply H; by right).
  destruct (String.eqb_spec k name) as [->|Hne]; [by rewrite decide_True|]. rewrite decide_False; [done|]. by intros [= ?].
Qed.

(** A struct that was marshalled is decoded field by field. *)
Lemma to_struct_of {A} strict names (fields : (string -> list json) -> option A) members :
  field_names names members = true ->
  to_struct strict names fields [of_struct members] = fields (values_of names ((fun kv => (escape kv.1, kv.2)) <$> members)).
Proof.
  intros H. unfold to_struct, of_struct. cbn [all_members mbind option_bind]. rewrite app_nil_r.
  destruct (existsb _ _) eqn:E; [|by rewrite andb_false_r]. exfalso. revert E. intros (kv & Hin & Hkv)%existsb_elem. apply list_elem_of_fmap in Hin as ([k v] & -> & Hin).
  unfold field_names in H. rewrite forallb_elem in H. specialize (H _ Hin). cbn [fst snd] in H, Hkv. apply andb_true_iff in H as [Hk Hv].
  apply bool_decide_eq_true in Hk, Hkv. rewrite unquote_escape, scrub_valid in Hkv by done.
  by rewrite resolve_own in Hkv.
Qed.

Lemma given_app l k name : given (l ++ k) name = given l name ++ given k name.
Proof. unfold given. by rewrite omap_app. Qed.
Lemma given_omit empty key v name : given (omit_if empty (key, v)) name = if key == name then (if empty then [] else [v]) else [].
Proof. unfold given. destruct empty; cbn; by destruct (key == name). Qed.
Lemma given_optional {A} key (f : A -> json) (a : option A) name :
  given (optional_member key f a) name = if key == name then match a with Some a => [f a] | None => [] end else [].
Proof. unfold given, optional_member. destruct a; cbn; by destruct (key == name). Qed.
Lemma field_names_app names l k : field_names names (l ++ k) = field_names names l && field_names names k.
Proof. apply forallb_app. Qed.
Lemma field_names_omit names empty member : field_names names [member] = true -> field_names names (omit_if empty member) = true.
Proof. by destruct empty. Qed.

(** A string that is left out when empty. *)
Lemma field_names_optional {A} names key (f : A -> json) a : field_names names [(key, JNull)] = true ->
  field_names names (optional_member key f a) = true.
Proof. by destruct a. Qed.
Lemma optional_member_wf {A} depth key (f : A -> json) a : (forall a, well_formed depth (f a)) ->
  Forall (fun kv => well_formed depth kv.2) (optional_member key f a).
Proof. intros H. destruct a; repeat constructor. apply H. Qed.

Lemma to_string_optional s : to_string (if s == "" then [] else [of_string s]) = Some (scrub s).
Proof. destruct (String.eqb_spec s "") as [->|]; [done|]. apply to_string_of. Qed.
Lemma to_map_optional m :
  to_map (if bool_decide (m = ∅) then [] else [of_map m]) =
  Some (fold_left (fun m kv => <[scrub kv.1 := scrub kv.2]> m) (sort_by fst (map_to_list m)) ∅).
Proof. case_bool_decide as H; [by subst m|]. apply to_map_of. Qed.
