(* ===== verification/JsonIndent.v ===== *)
(** * Indented JSON

    [json.MarshalIndent] with an empty prefix and two spaces, in which the grant store is written: the parser of [JsonParse.v] reads the
    same value back. *)

From S2P Require Import Prelude GoStrings GoConv Json JsonParse TimeText JsonDecode.
From Stdlib Require Import Ascii.
#[local] Open Scope Z_scope.

(** A new line at a level. *)
Definition line_break (level : nat) : bytes := chr 10 :: repeat (chr 32) (2 * level).

(** Elements on lines of their own; nothing is written between the brackets of an empty array or object. *)
Definition indent_seq {A} (f : A -> bytes) (close : bytes) : list A -> bytes :=
  fix go l :=
    match l with
    | [] => close
    | [x] => f x ++ close
    | x :: l => f x ++ chr 44 :: go l
    end.
Fixpoint print_indent (level : nat) (v : json) : bytes :=
  match v with
  | JArray [] => [chr 91; chr 93]
  | JObject [] => [chr 123; chr 125]
  | JArray items =>
    chr 91 :: indent_seq (fun v => line_break (S level) ++ print_indent (S level) v) (line_break level ++ [chr 93]) items
  | JObject members =>
    chr 123 :: indent_seq (fun kv => line_break (S level) ++ quoted_raw kv.1 ++ [chr 58; chr 32] ++ print_indent (S level) kv.2)
                 (line_break level ++ [chr 125]) members
  | v => print v
  end.

Example print_indent_example :
  of_bytes (print_indent 0 (of_struct [("a", JArray [JNull; JArray []]); ("b", JBool true)])) =
  of_bytes (with_quotes (to_bytes "{" ++ line_break 1 ++ to_bytes "'a': [" ++ line_break 2 ++ to_bytes "null," ++ line_break 2
    ++ to_bytes "[]" ++ line_break 1 ++ to_bytes "]," ++ line_break 1 ++ to_bytes "'b': true" ++ line_break 0 ++ to_bytes "}")).
Proof. by vm_compute. Qed.

(** ** Reading it back *)

Lemma skip_spaces n l : skip_space (repeat (chr 32) n ++ l) = skip_space l.
Proof. by induction n. Qed.
Lemma skip_break level l : skip_space (line_break level ++ l) = skip_space l.
Proof. unfold line_break. cbn [app skip_space]. change (json_space (chr 10)) with true. apply skip_spaces. Qed.
Lemma break_ends level l : number_ends (line_break level ++ l).
Proof. done. Qed.

Lemma parse_value_break n depth level l : parse_value n depth (line_break level ++ l) = parse_value n depth l.
Proof. destruct n as [|n]; [done|]. cbn [parse_value]. by rewrite skip_break. Qed.
Lemma parse_members_break n depth level l : parse_members n depth (line_break level ++ l) = parse_members n depth l.
Proof. destruct n as [|n]; [done|]. cbn [parse_members]. by rewrite skip_break. Qed.

Definition indents_back (level : nat) (depth : Z) (v : json) : Prop :=
  forall n rest, (2 * length (print_indent level v) + 1 <= n)%nat -> number_ends rest ->
    parse_value n depth (print_indent level v ++ rest) = Parsed v rest.

(** The byte behind an element, and what follows it. *)
Definition after_element {A} (close : Z) (one : A) (next : bytes -> outcome (list A)) (l : bytes) : outcome (list A) :=
  match skip_space l with
  | [] => More
  | a :: rest => if byte a =? close then Parsed [one] rest else if byte a =? 44 then parsed_as (cons one) (next rest) else Malformed
  end.
Lemma after_last {A} close (one : A) next level rest : json_space (chr close) = false -> 0 <= close < 256 ->
  after_element close one next ((line_break level ++ [chr close]) ++ rest) = Parsed [one] rest.
Proof.
  intros Hs Hc. unfold after_element. rewrite <-app_assoc, skip_break. cbn [app skip_space]. rewrite Hs.
  cbv beta iota. by rewrite byte_chr_id, Z.eqb_refl.
Qed.
Lemma after_comma {A} close (one : A) next l : close <> 44 ->
  after_element close one next (chr 44 :: l) = parsed_as (cons one) (next l).
Proof.
  intros Hc. unfold after_element. change (skip_space (chr 44 :: l)) with (chr 44 :: l). cbv beta iota.
  change (byte (chr 44)) with 44. by rewrite (proj2 (Z.eqb_neq 44 close)) by congruence.
Qed.

Lemma parse_items_indent level depth items rest n (f := fun v => line_break (S level) ++ print_indent (S level) v) :
  items <> [] -> Forall (indents_back (S level) depth) items ->
  (2 * length (indent_seq f (line_break level ++ [chr 93]) items) + 2 <= n)%nat ->
  parse_items n depth (indent_seq f (line_break level ++ [chr 93]) items ++ rest) = Parsed items rest.
Proof.
  intros Hne H. revert n. induction H as [|v items Hv H IH]; [done|]. intros [|n] Hn; [lia|].
  assert (Hstep : forall l, number_ends l -> (2 * length (print_indent (S level) v) + 1 <= n)%nat ->
    parse_items (S n) depth (f v ++ l) = after_element 93 v (parse_items n depth) l).
  { intros l Hl Hlen. unfold f. rewrite <-app_assoc. cbn [parse_items]. by rewrite parse_value_break, Hv. }
  assert (Hf : (length (print_indent (S level) v) <= length (f v))%nat) by (unfold f; rewrite length_app; lia).
  destruct items as [|w items].
  - cbn [indent_seq] in *. rewrite length_app in Hn. rewrite <-app_assoc. rewrite Hstep by (done || lia). by apply after_last.
  - change (indent_seq f ?c (v :: w :: items)) with (f v ++ chr 44 :: indent_seq f c (w :: items)) in *.
    rewrite length_app in Hn. cbn [length] in Hn. rewrite <-app_assoc. cbn [app]. rewrite Hstep by (done || lia).
    rewrite after_comma by done. rewrite IH; [done|done|lia].
Qed.

Lemma parse_members_indent level depth members rest n
    (f := fun kv => line_break (S level) ++ quoted_raw kv.1 ++ [chr 58; chr 32] ++ print_indent (S level) kv.2) :
  members <> [] -> Forall (fun kv => raw_string kv.1 /\ indents_back (S level) depth kv.2) members ->
  (2 * length (indent_seq f (line_break level ++ [chr 125]) members) + 2 <= n)%nat ->
  parse_members n depth (indent_seq f (line_break level ++ [chr 125]) members ++ rest) = Parsed members rest.
Proof.
  intros Hne H. revert n. induction H as [|kv members [Hk Hv] H IH]; [done|]. intros [|n] Hn; [lia|].
  assert (Hstep : forall l, number_ends l -> (2 * length (print_indent (S level) kv.2) + 1 <= n)%nat ->
    parse_members (S n) depth (f kv ++ l) = after_element 125 kv (parse_members n depth) l).
  { intros l Hl Hlen. destruct kv as [key v]. unfold f. cbn [fst snd] in *. rewrite <-app_assoc, parse_members_break.
    unfold quoted_raw. cbn [app parse_members skip_space]. change (json_space quote_char) with false. cbn beta iota.
    change (byte quote_char =? 34) with true. cbn beta iota. rewrite <-!app_assoc. cbn [app].
    change (raw_string key) in Hk. rewrite Hk. cbn [and_then skip_space]. change (json_space (chr 58)) with false. cbn beta iota.
    change (byte (chr 58) =? 58) with true. cbn beta iota.
    destruct n as [|n]; [lia|]. change (parse_value (S n) depth (chr 32 :: ?l)) with (parse_value (S n) depth l). by rewrite Hv. }
  assert (Hf : (length (print_indent (S level) kv.2) <= length (f kv))%nat) by (unfold f; rewrite !length_app; lia).
  destruct members as [|kv' members].
  - cbn [indent_seq] in *. rewrite length_app in Hn. rewrite <-app_assoc. rewrite Hstep by (done || lia). by apply after_last.
  - change (indent_seq f ?c (kv :: kv' :: members)) with (f kv ++ chr 44 :: indent_seq f c (kv' :: members)) in *.
    rewrite length_app in Hn. cbn [length] in Hn. rewrite <-app_assoc. cbn [app]. rewrite Hstep by (done || lia).
    rewrite after_comma by done. rewrite IH; [done|done|lia].
Qed.

(** A line break keeps the parser from closing the bracket at once. *)
Lemma parse_open_break n depth (array : bool) level b rest :
  depth < maxNestingDepth -> json_space b = false -> byte b <> (if array then 93 else 125) ->
  parse_value (S n) depth (chr (if array then 91 else 123) :: line_break level ++ b :: rest) =
    if array then parsed_as JArray (parse_items n (depth + 1) (line_break level ++ b :: rest))
    else parsed_as JObject (parse_members n (depth + 1) (line_break level ++ b :: rest)).
Proof.
  intros Hd Hb Hne. apply Z.leb_gt in Hd. apply Z.eqb_neq in Hne.
  assert (Hskip : skip_space (line_break level ++ b :: rest) = b :: rest) by (rewrite skip_break; simpl; by rewrite Hb).
  destruct array; cbn [parse_value].
  - change (skip_space (chr 91 :: ?l)) with (chr 91 :: l). cbv zeta beta iota.
    change (byte (chr 91)) with 91. cbn [Z.eqb Pos.eqb]. by rewrite Hd, Hskip, Hne.
  - change (skip_space (chr 123 :: ?l)) with (chr 123 :: l). cbv zeta beta iota.
    change (byte (chr 123)) with 123. cbn [Z.eqb Pos.eqb]. by rewrite Hd, Hskip, Hne.
Qed.

Lemma indent_starts v level depth : well_formed depth v -> exists a l, print_indent level v = a :: l /\ json_space a = false /\ byte a <> 93.
Proof. destruct v as [| | | |[]|[]]; intros H; try exact (print_starts _ _ H); by eexists _, _. Qed.

Lemma parse_indent v level depth : well_formed depth v -> indents_back level depth v.
Proof.
  revert level depth. induction v as [|b|text|raw|items IH|members IH] using json_nested_ind; intros level depth Hwf.
  1, 2, 3, 4: intros n rest; by apply parse_print.
  - destruct items as [|v items]; [intros n rest; by apply (parse_print (JArray []))|]. intros [|n] rest Hn Hrest; [lia|].
    cbn [well_formed] in Hwf. destruct Hwf as [Hd Hwf]. apply (fold_and_Forall (well_formed (depth + 1))) in Hwf.
    assert (Hback : Forall (indents_back (S level) (depth + 1)) (v :: items)).
    { rewrite Forall_forall in *. intros x Hx. by apply IH, Hwf. }
    apply Forall_cons in Hwf as [Hv _]. pose proof (indent_starts v (S level) _ Hv) as (a & l & Ea & Hsp & Hne).
    set (f := fun v => line_break (S level) ++ print_indent (S level) v).
    assert (Ep : exists l', indent_seq f (line_break level ++ [chr 93]) (v :: items) = line_break (S level) ++ a :: l').
    { unfold f. destruct items; cbn [indent_seq]; rewrite Ea, <-app_assoc; by eexists. }
    destruct Ep as [l' Ep]. change (print_indent level (JArray (v :: items))) with (chr 91 :: indent_seq f (line_break level ++ [chr 93]) (v :: items)) in *.
    rewrite Ep in *. change ((chr 91 :: line_break (S level) ++ a :: l') ++ rest) with (chr 91 :: (line_break (S level) ++ a :: l') ++ rest).
    rewrite <-app_assoc. cbn [app]. rewrite (parse_open_break n depth true) by done.
    change (a :: l' ++ rest) with ((a :: l') ++ rest). rewrite app_assoc, <-Ep in *.
    unfold f. rewrite parse_items_indent; [done|done|done|]. cbn [length] in Hn. fold f. lia.
  - destruct members as [|kv members]; [intros n rest; by apply (parse_print (JObject []))|]. intros [|n] rest Hn Hrest; [lia|].
    cbn [well_formed] in Hwf. destruct Hwf as [Hd Hwf].
    apply (fold_and_Forall (fun kv => raw_string kv.1 /\ well_formed (depth + 1) kv.2)) in Hwf.
    assert (Hback : Forall (fun kv => raw_string kv.1 /\ indents_back (S level) (depth + 1) kv.2) (kv :: members)).
    { rewrite Forall_forall in *. intros x Hx. destruct (Hwf x Hx). split; [done|]. by apply IH. }
    set (f := fun kv => line_break (S level) ++ quoted_raw kv.1 ++ [chr 58; chr 32] ++ print_indent (S level) kv.2).
    assert (Ep : exists l', indent_seq f (line_break level ++ [chr 125]) (kv :: members) = line_break (S level) ++ quote_char :: l').
    { unfold f, quoted_raw. destruct members; cbn [indent_seq]; rewrite <-app_assoc; by eexists. }
    destruct Ep as [l' Ep]. change (print_indent level (JObject (kv :: members))) with (chr 123 :: indent_seq f (line_break level ++ [chr 125]) (kv :: members)) in *.
    rewrite Ep in *. change ((chr 123 :: line_break (S level) ++ quote_char :: l') ++ rest) with (chr 123 :: (line_break (S level) ++ quote_char :: l') ++ rest).
    rewrite <-app_assoc. cbn [app]. rewrite (parse_open_break n depth false) by done.
    change (quote_char :: l' ++ rest) with ((quote_char :: l') ++ rest). rewrite app_assoc, <-Ep in *.
    unfold f. rewrite parse_members_indent; [done|done|done|]. cbn [length] in Hn. fold f. lia.
Qed.

Lemma parse_indented v rest : well_formed 0 v -> number_ends rest -> parse (print_indent 0 v ++ rest) = Parsed v rest.
Proof. intros H Hr. apply parse_indent; [done| |done]. unfold value_fuel. rewrite length_app. lia. Qed.
