(* ===== verification/OS.v ===== *)
(** * The operating system as the observing packages see it

    What [os], [os/exec], [path/filepath.Glob], [time.Now] and the context of a call answer to [internal/inventory] and
    [internal/systemprobe].  The state is abstract, so answers may change from call to call. *)

From S2P Require Import Prelude GoStrings GoTime.

(** [os.Stat]. *)
Inductive stat_answer := Exists | NotExists | StatFailed (e : text).

(** [exec.Cmd.Output]: the standard output, the error output of a program that failed, or another failure. *)
Inductive output_answer := Output (stdout : string) | ExitError (stderr : string) | NotRun (e : text).

Class OS (O : Type) := {
  os_Stat : string -> O -> stat_answer * O;
  (** Opening and reading a file to its end: what was read, and whether reading failed after it. *)
  os_File : string -> O -> option (string * bool) * O;
  os_LookPath : string -> O -> option string * O;
  (** [exec.Cmd.CombinedOutput] without an error. *)
  os_CombinedOutput : string -> list string -> O -> option string * O;
  os_Output : string -> list string -> O -> output_answer * O;
  os_Glob : string -> O -> result (list string) * O;
  os_Hostname : O -> result string * O;
  (** [runtime.GOOS], [runtime.GOARCH] and [runtime.NumCPU()]. *)
  os_GOOS : string;
  os_GOARCH : string;
  os_NumCPU : Z;
  os_Now : O -> time * O;
  (** [ctx.Err()]. *)
  os_Err : O -> option text * O
}.
