(* ===== verification/Inventory.v ===== *)
(** * The component inventory

    [internal/inventory/inventory.go]: the observations a scan may make, their implementation on the host, the compiled component
    definitions, and the classification of what was observed.  [Observer] is the interface of the code; a scan keeps a trace of
    its observations and their answers. *)

From S2P Require Import Prelude GoStrings GoTime Regexp Backtrack GoText OS.
From Stdlib Require Import Ascii.
#[local] Open Scope Z_scope.

Definition SchemaVersion : string := "quantum.control/component-inventory/v1alpha1".

(** [type Ownership string] and [type Health string]. *)
Notation Ownership := string (only parsing).
Definition OwnershipManaged : Ownership := "managed".
Definition OwnershipExternal : Ownership := "external".
Definition OwnershipDisabled : Ownership := "disabled".
Definition OwnershipUnknown : Ownership := "unknown".
Notation Health := string (only parsing).
Definition HealthHealthy : Health := "healthy".
Definition HealthDegraded : Health := "degraded".
Definition HealthDisabled : Health := "disabled".
Definition HealthUnknown : Health := "unknown".

Record Listener := { Ln_Address : string; Ln_Port : Z; Ln_Protocol : string }.
Record Evidence := Seen { Evi_Kind : string; Evi_Source : string; Evi_Detail : string }.

Record Component := {
  Cp_ID : string;
  Cp_Name : string;
  Cp_Category : string;
  Cp_Version : string;
  Cp_Ownership : Ownership;
  Cp_Health : Health;
  Cp_Services : list string;
  Cp_Listeners : list Listener;
  Cp_Roots : list string;
  Cp_Capabilities : list string;
  Cp_Evidence : list Evidence;
  Cp_ObservedAt : time;
  Cp_Warnings : list string
}.

Record Snapshot := { Sn_Schema : string; Sn_ObservedAt : time; Sn_Components : list Component }.

Record ServiceState := { SS_Unit : string; SS_LoadState : string; SS_ActiveState : string; SS_SubState : string }.

#[export] Instance Evidence_eq_dec : EqDecision Evidence.
Proof. solve_decision. Defined.
#[export] Instance ServiceState_eq_dec : EqDecision ServiceState.
Proof. solve_decision. Defined.

(** ** Observers *)

(** [Observer], with the clock of [Service] and the context of the call. *)
Class Observer (O : Type) := {
  obs_PathExists : string -> O -> result bool * O;
  obs_ReadFile : string -> Z -> O -> result string * O;
  obs_Command : string -> list string -> O -> result string * O;
  obs_Service : string -> O -> result ServiceState * O;
  obs_Glob : string -> O -> result (list string) * O;
  obs_now : O -> time * O;
  obs_Err : O -> option text * O
}.

(** [Scanner]: what the public API asks of an inventory. *)
Class Scanner (H : Type) := {
  scan_Snapshot : H -> result Snapshot * H;
  scan_Component : string -> H -> result (option Component) * H
}.

(** *** The observer on the host *)

Section native.
Context {O : Type} `{!OS O}.

Definition native_PathExists (path : string) (o : O) : result bool * O :=
  let '(stat, o) := os_Stat path o in
  (match stat with Exists => Ok true | NotExists => Ok false | StatFailed e => Err e end, o).

(** The reader stops one byte after the limit. *)
Definition native_ReadFile (path : string) (limit : Z) (o : O) : result string * O :=
  let '(file, o) := os_File path o in
  (match file with
   | None => fail "open"
   | Some (content, failed) =>
     let data := slice_to (limit + 1) content in
     if failed && (slen content <? limit + 1) then fail "read"
     else if limit <? slen data then fail "file exceeds read limit"
     else Ok data
   end, o).

Definition native_Command (name : string) (args : list string) (o : O) : result string * O :=
  let '(path, o) := os_LookPath name o in
  match path with
  | None => (fail "command unavailable", o)
  | Some path =>
    let '(data, o) := os_CombinedOutput path args o in
    (match data with
     | None => fail "fixed probe command failed"
     | Some data => Ok (if Z.shiftl 16 10 <? slen data then slice_to (Z.shiftl 16 10) data else data)
     end, o)
  end.

(** One line of [systemctl show]. *)
Definition service_line (state : ServiceState) (line : string) : ServiceState :=
  match Cut "=" line with
  | None => state
  | Some (key, value) =>
    if key == "Id" then {| SS_Unit := value; SS_LoadState := SS_LoadState state; SS_ActiveState := SS_ActiveState state; SS_SubState := SS_SubState state |}
    else if key == "LoadState" then {| SS_Unit := SS_Unit state; SS_LoadState := value; SS_ActiveState := SS_ActiveState state; SS_SubState := SS_SubState state |}
    else if key == "ActiveState" then {| SS_Unit := SS_Unit state; SS_LoadState := SS_LoadState state; SS_ActiveState := value; SS_SubState := SS_SubState state |}
    else if key == "SubState" then {| SS_Unit := SS_Unit state; SS_LoadState := SS_LoadState state; SS_ActiveState := SS_ActiveState state; SS_SubState := value |}
    else state
  end.
Definition parse_service (unit data : string) : result ServiceState :=
  let '(lines, failed) := scan_lines data in
  if failed then fail "invalid systemctl response"
  else Ok (fold_left service_line lines {| SS_Unit := unit; SS_LoadState := ""; SS_ActiveState := ""; SS_SubState := "" |}).

Definition native_Service (unit : string) (o : O) : result ServiceState * O :=
  let '(path, o) := os_LookPath "systemctl" o in
  match path with
  | None => (fail "systemctl unavailable", o)
  | Some path =>
    let '(data, o) := os_Output path ["show"; "--no-page"; "--property=Id,LoadState,ActiveState,SubState"; unit] o in
    (match data with Output data => parse_service unit data | _ => fail "systemctl fixed probe failed" end, o)
  end.

#[export] Instance NativeObserver : Observer O := {
  obs_PathExists := native_PathExists;
  obs_ReadFile := native_ReadFile;
  obs_Command := native_Command;
  obs_Service := native_Service;
  obs_Glob := os_Glob;
  obs_now := os_Now;
  obs_Err := os_Err
}.
End native.

(** ** Versions *)

Definition digit_class : char_class := [("0", "9")]%char.
Definition version_class : char_class := [("0", "9"); ("A", "Z"); ("a", "z"); (".", "."); ("-", "-")]%char.
Definition one_of (c : char_class) : regex := Sat (insensitive c).

(** [(?i)\b(?:v)?([0-9]+(?:\.[0-9]+){1,3}(?:[-+._][0-9A-Za-z.-]+)?)\b] *)
Definition version_number : regex :=
  let part := Cat (one_of [(".", ".")]%char) (Plus (one_of digit_class)) in
  Cat (Plus (one_of digit_class))
    (Cat (Cat part (Opt (Cat part (Opt part))))
       (Opt (Cat (one_of [("-", "-"); ("+", "+"); (".", "."); ("_", "_")]%char) (Plus (one_of version_class))))).
Definition versionPattern : regex :=
  Cat Boundary (Cat (Opt (one_of [("v", "v")]%char)) (Cat (Group version_number) Boundary)).

Definition control_rune (t : token) : bool :=
  match t with Rune [a] => (byte a <? 0x20) || (byte a =? 0x7f) | _ => false end.
Definition forbidden_words : list string := ["password"; "token"; "secret"; "credential"].

Definition cleanVersion (value : string) : string :=
  let value := TrimSpace value in
  if value == "" then ""
  else
    match FindStringSubmatch versionPattern value with
    | Some version => TrimPrefix version "v"
    | None =>
      let value := if 128 <? slen value then slice_to 128 value else value in
      if existsb control_rune (tokens (to_bytes value)) then ""
      else if existsb (Contains (ToLower value)) forbidden_words then ""
      else value
    end.

Definition appendUnique (values : list string) (value : string) : list string :=
  if existsb (String.eqb value) values then values else values ++ [value].

(** ** Definitions *)

Record versionProbe := Probe { Probe_Command : string; Probe_Args : list string }.

Record definition := {
  D_ID : string;
  D_Name : string;
  D_Category : string;
  D_Paths : list string;
  D_ManagedMarker : string;
  D_VersionFiles : list string;
  D_Versions : list versionProbe;
  D_Services : list string;
  D_ServiceGlobs : list string;
  D_Globs : list string;
  D_Capabilities : list string
}.

Definition defaultDefinitions : list definition := [
  {| D_ID := "keyhelp"; D_Name := "KeyHelp"; D_Category := "hosting-control";
     D_Paths := ["/etc/keyhelp"; "/home/keyhelp"]; D_ManagedMarker := "";
     D_VersionFiles := []; D_Versions := [];
     D_Services := ["keyhelp.service"]; D_ServiceGlobs := [];
     D_Globs := []; D_Capabilities := ["databases"; "domains"; "hosting-control"; "tls"] |};
  {| D_ID := "apache"; D_Name := "Apache HTTP Server"; D_Category := "web-server";
     D_Paths := ["/etc/apache2"; "/etc/httpd"]; D_ManagedMarker := "";
     D_VersionFiles := []; D_Versions := [Probe "apache2" ["-v"]; Probe "httpd" ["-v"]];
     D_Services := ["apache2.service"; "httpd.service"]; D_ServiceGlobs := [];
     D_Globs := []; D_Capabilities := ["http"; "reverse-proxy"] |};
  {| D_ID := "nginx"; D_Name := "Nginx"; D_Category := "web-server";
     D_Paths := ["/etc/nginx"]; D_ManagedMarker := "";
     D_VersionFiles := []; D_Versions := [Probe "nginx" ["-v"]];
     D_Services := ["nginx.service"]; D_ServiceGlobs := [];
     D_Globs := []; D_Capabilities := ["http"; "reverse-proxy"] |};
  {| D_ID := "php"; D_Name := "PHP / PHP-FPM"; D_Category := "application-runtime";
     D_Paths := ["/etc/php"]; D_ManagedMarker := "";
     D_VersionFiles := []; D_Versions := [Probe "php" ["-v"]];
     D_Services := ["php-fpm.service"]; D_ServiceGlobs := ["/etc/systemd/system/php*-fpm.service"; "/lib/systemd/system/php*-fpm.service"; "/usr/lib/systemd/system/php*-fpm.service"];
     D_Globs := ["/run/php/php*-fpm.sock"]; D_Capabilities := ["fastcgi"; "php"] |};
  {| D_ID := "mariadb"; D_Name := "MariaDB / MySQL"; D_Category := "database";
     D_Paths := ["/etc/mysql"; "/var/lib/mysql"]; D_ManagedMarker := "";
     D_VersionFiles := []; D_Versions := [Probe "mariadb" ["--version"]; Probe "mysql" ["--version"]];
     D_Services := ["mariadb.service"; "mysql.service"]; D_ServiceGlobs := [];
     D_Globs := []; D_Capabilities := ["sql"] |};
  {| D_ID := "postgresql"; D_Name := "PostgreSQL"; D_Category := "database";
     D_Paths := ["/etc/postgresql"; "/var/lib/postgresql"]; D_ManagedMarker := "";
     D_VersionFiles := []; D_Versions := [Probe "psql" ["--version"]];
     D_Services := ["postgresql.service"]; D_ServiceGlobs := [];
     D_Globs := []; D_Capabilities := ["sql"] |};
  {| D_ID := "container-runtime"; D_Name := "Container Runtime"; D_Category := "containers";
     D_Paths := ["/var/lib/docker"; "/var/lib/containers"]; D_ManagedMarker := "";
     D_VersionFiles := []; D_Versions := [Probe "docker" ["--version"]; Probe "podman" ["--version"]];
     D_Services := ["docker.service"; "podman.service"]; D_ServiceGlobs := [];
     D_Globs := []; D_Capabilities := ["containers"] |};
  {| D_ID := "ollama"; D_Name := "Ollama"; D_Category := "ai-runtime";
     D_Paths := ["/usr/local/bin/ollama"; "/usr/bin/ollama"]; D_ManagedMarker := "";
     D_VersionFiles := []; D_Versions := [Probe "ollama" ["--version"]];
     D_Services := ["ollama.service"]; D_ServiceGlobs := [];
     D_Globs := []; D_Capabilities := ["local-inference"] |};
  {| D_ID := "quantum-runtime"; D_Name := "Quantum Runtime"; D_Category := "ai-runtime";
     D_Paths := ["/usr/local/bin/quantum-runtime"; "/etc/quantum-runtime"]; D_ManagedMarker := "/etc/quantum-runtime/.managed.json";
     D_VersionFiles := []; D_Versions := [];
     D_Services := ["quantum-runtime.service"]; D_ServiceGlobs := [];
     D_Globs := []; D_Capabilities := ["local-inference"; "model-registry"; "streaming"] |};
  {| D_ID := "searxng"; D_Name := "SearXNG"; D_Category := "search";
     D_Paths := ["/etc/searxng"; "/opt/searxng"]; D_ManagedMarker := "";
     D_VersionFiles := []; D_Versions := [Probe "searxng" ["--version"]];
     D_Services := ["searxng.service"]; D_ServiceGlobs := [];
     D_Globs := []; D_Capabilities := ["web-search"] |};
  {| D_ID := "ember-coreui"; D_Name := "Ember CoreUI"; D_Category := "application";
     D_Paths := ["/opt/ember-coreui"; "/srv/ember-coreui"; "/var/lib/ember-coreui"]; D_ManagedMarker := "";
     D_VersionFiles := ["/opt/ember-coreui/VERSION"; "/srv/ember-coreui/VERSION"]; D_Versions := [];
     D_Services := ["ember-coreui.service"]; D_ServiceGlobs := [];
     D_Globs := []; D_Capabilities := ["ai-ui"] |};
  {| D_ID := "starlight-unit-game"; D_Name := "STΛRLIGHT UNIT Game/Repack"; D_Category := "application";
     D_Paths := ["/opt/starlight-unit-game"; "/srv/starlight-unit-game"; "/var/www/starlight-unit"]; D_ManagedMarker := "";
     D_VersionFiles := ["/opt/starlight-unit-game/VERSION"; "/srv/starlight-unit-game/VERSION"]; D_Versions := [];
     D_Services := ["starlight-unit-game.service"; "ember-worker.service"; "ember-worker-media.service"]; D_ServiceGlobs := [];
     D_Globs := []; D_Capabilities := ["ember-workers"; "game"] |}
].

(** ** Scanning *)

(** An observation with its answer. *)
Inductive probe :=
| ProbePath (path : string) (found : result bool)
| ProbeRead (path : string) (limit : Z) (data : result string)
| ProbeCommand (name : string) (args : list string) (output : result string)
| ProbeService (unit : string) (state : result ServiceState)
| ProbeGlob (pattern : string) (matches : result (list string)).

Record sight (O : Type) := Sight { sight_observer : O; sight_trace : list probe }.
Arguments Sight {_} _ _.
Arguments sight_observer {_} _.
Arguments sight_trace {_} _.

Definition scanning (O A : Type) : Type := sight O -> A * sight O.
#[export] Instance scanning_ret O : MRet (scanning O) := fun A a s => (a, s).
#[export] Instance scanning_bind O : MBind (scanning O) := fun A B k m s => let '(a, s) := m s in k a s.

(** What a scan has found so far. *)
Record findings := {
  Fd_Roots : list string;
  Fd_Services : list string;
  Fd_Evidence : list Evidence;
  Fd_Positive : Z;
  Fd_NonMarker : Z;
  Fd_ProbeErrors : Z;
  Fd_ManagedMarker : bool;
  Fd_Active : bool;
  Fd_Inactive : bool;
  Fd_Versions : list string
}.

Definition nothing : findings :=
  {| Fd_Roots := []; Fd_Services := []; Fd_Evidence := []; Fd_Positive := 0; Fd_NonMarker := 0; Fd_ProbeErrors := 0;
     Fd_ManagedMarker := false; Fd_Active := false; Fd_Inactive := false; Fd_Versions := [] |}.

Definition probe_error (f : findings) : findings :=
  {| Fd_Roots := Fd_Roots f; Fd_Services := Fd_Services f; Fd_Evidence := Fd_Evidence f; Fd_Positive := Fd_Positive f;
     Fd_NonMarker := Fd_NonMarker f; Fd_ProbeErrors := Fd_ProbeErrors f + 1; Fd_ManagedMarker := Fd_ManagedMarker f;
     Fd_Active := Fd_Active f; Fd_Inactive := Fd_Inactive f; Fd_Versions := Fd_Versions f |}.
Definition found_path (path : string) (f : findings) : findings :=
  {| Fd_Roots := appendUnique (Fd_Roots f) path; Fd_Services := Fd_Services f;
     Fd_Evidence := Fd_Evidence f ++ [Seen "path" path "present"]; Fd_Positive := Fd_Positive f + 1;
     Fd_NonMarker := Fd_NonMarker f + 1; Fd_ProbeErrors := Fd_ProbeErrors f; Fd_ManagedMarker := Fd_ManagedMarker f;
     Fd_Active := Fd_Active f; Fd_Inactive := Fd_Inactive f; Fd_Versions := Fd_Versions f |}.
Definition found_marker (path : string) (f : findings) : findings :=
  {| Fd_Roots := Fd_Roots f; Fd_Services := Fd_Services f;
     Fd_Evidence := Fd_Evidence f ++ [Seen "ownership-marker" path "present"]; Fd_Positive := Fd_Positive f + 1;
     Fd_NonMarker := Fd_NonMarker f; Fd_ProbeErrors := Fd_ProbeErrors f; Fd_ManagedMarker := true;
     Fd_Active := Fd_Active f; Fd_Inactive := Fd_Inactive f; Fd_Versions := Fd_Versions f |}.
Definition found_file (path : string) (f : findings) : findings :=
  {| Fd_Roots := Fd_Roots f; Fd_Services := Fd_Services f;
     Fd_Evidence := Fd_Evidence f ++ [Seen "filesystem" path "present"]; Fd_Positive := Fd_Positive f + 1;
     Fd_NonMarker := Fd_NonMarker f + 1; Fd_ProbeErrors := Fd_ProbeErrors f; Fd_ManagedMarker := Fd_ManagedMarker f;
     Fd_Active := Fd_Active f; Fd_Inactive := Fd_Inactive f; Fd_Versions := Fd_Versions f |}.
Definition service_detail (state : ServiceState) : string :=
  SS_LoadState state +:+ "/" +:+ SS_ActiveState state +:+ "/" +:+ SS_SubState state.
Definition found_service (state : ServiceState) (f : findings) : findings :=
  let active := SS_ActiveState state == "active" in
  {| Fd_Roots := Fd_Roots f; Fd_Services := appendUnique (Fd_Services f) (SS_Unit state);
     Fd_Evidence := Fd_Evidence f ++ [Seen "service" (SS_Unit state) (service_detail state)]; Fd_Positive := Fd_Positive f + 1;
     Fd_NonMarker := Fd_NonMarker f + 1; Fd_ProbeErrors := Fd_ProbeErrors f; Fd_ManagedMarker := Fd_ManagedMarker f;
     Fd_Active := Fd_Active f || active; Fd_Inactive := Fd_Inactive f || negb active; Fd_Versions := Fd_Versions f |}.
Definition found_version (kind source value : string) (f : findings) : findings :=
  {| Fd_Roots := Fd_Roots f; Fd_Services := Fd_Services f;
     Fd_Evidence := Fd_Evidence f ++ [Seen kind source value]; Fd_Positive := Fd_Positive f + 1;
     Fd_NonMarker := Fd_NonMarker f + 1; Fd_ProbeErrors := Fd_ProbeErrors f; Fd_ManagedMarker := Fd_ManagedMarker f;
     Fd_Active := Fd_Active f; Fd_Inactive := Fd_Inactive f; Fd_Versions := appendUnique (Fd_Versions f) value |}.

(** The ownership, the health and the first warning after the scan. *)
Definition ownership (f : findings) : Ownership :=
  if Fd_ManagedMarker f && (Fd_NonMarker f =? 0) then OwnershipUnknown
  else if Fd_ManagedMarker f then OwnershipManaged
  else if 0 <? Fd_Positive f then OwnershipExternal
  else if 0 <? Fd_ProbeErrors f then OwnershipUnknown
  else OwnershipDisabled.
Definition owned (o : Ownership) : bool := (o == OwnershipManaged) || (o == OwnershipExternal).
Definition health (f : findings) : Health :=
  let o := ownership f in
  if owned o then if Fd_Active f then HealthHealthy else if Fd_Inactive f then HealthDegraded else HealthUnknown
  else if o == OwnershipUnknown then HealthUnknown
  else HealthDisabled.
Definition warnings (f : findings) : list string :=
  (if (1 <? length (Fd_Versions f))%nat then ["conflicting version evidence was withheld"] else []) ++
  (if Fd_ManagedMarker f && (Fd_NonMarker f =? 0) then ["managed marker exists without confirming runtime evidence"]
   else if negb (Fd_ManagedMarker f) && negb (0 <? Fd_Positive f) && (0 <? Fd_ProbeErrors f) then
     ["one or more read-only probes were inconclusive"]
   else []) ++
  (if owned (ownership f) && (0 <? Fd_ProbeErrors f) then ["some optional read-only probes were unavailable"] else []).

Definition sort_Strings : list string -> list string := sort_by (fun s => s).

(** [scanDefinition] after its probes. *)
Definition conclude (d : definition) (observed : time) (f : findings) : Component :=
  {| Cp_ID := D_ID d; Cp_Name := D_Name d; Cp_Category := D_Category d;
     Cp_Version := match Fd_Versions f with [version] => version | _ => "" end;
     Cp_Ownership := ownership f; Cp_Health := health f;
     Cp_Services := sort_Strings (Fd_Services f); Cp_Listeners := []; Cp_Roots := sort_Strings (Fd_Roots f);
     Cp_Capabilities := sort_Strings (D_Capabilities d); Cp_Evidence := Fd_Evidence f; Cp_ObservedAt := observed;
     Cp_Warnings := warnings f |}.

Section scanning.
Context {O : Type} `{!Observer O}.

(** An observation and its entry in the trace. *)
Definition look {A} (f : O -> A * O) (entry : A -> list probe) : scanning O A := fun s =>
  let '(a, o) := f (sight_observer s) in (a, Sight o (sight_trace s ++ entry a)).

Definition PathExists (path : string) : scanning O (result bool) := look (obs_PathExists path) (fun r => [ProbePath path r]).
Definition ReadFile (path : string) (limit : Z) : scanning O (result string) :=
  look (obs_ReadFile path limit) (fun r => [ProbeRead path limit r]).
Definition Command (name : string) (args : list string) : scanning O (result string) :=
  look (obs_Command name args) (fun r => [ProbeCommand name args r]).
Definition Service (unit : string) : scanning O (result ServiceState) := look (obs_Service unit) (fun r => [ProbeService unit r]).
Definition Glob (pattern : string) : scanning O (result (list string)) := look (obs_Glob pattern) (fun r => [ProbeGlob pattern r]).
Definition now : scanning O time := look obs_now (fun _ => []).
Definition ctx_Err : scanning O (option text) := look obs_Err (fun _ => []).

(** A loop over a slice with the findings as its state. *)
Fixpoint each {A F} (f : A -> F -> scanning O F) (l : list A) (x : F) : scanning O F :=
  match l with
  | [] => mret x
  | a :: l => x ← f a x; each f l x
  end.

(** The bodies of the loops of [scanDefinition]. *)
Definition scan_path (path : string) (f : findings) : scanning O findings :=
  exists_ ← PathExists path;
  match exists_ with
  | Err _ => mret (probe_error f)
  | Ok false => mret f
  | Ok true => mret (found_path path f)
  end.
Definition scan_marker (marker : string) (f : findings) : scanning O findings :=
  if marker == "" then mret f
  else
    exists_ ← PathExists marker;
    match exists_ with
    | Err _ => mret (probe_error f)
    | Ok false => mret f
    | Ok true => mret (found_marker marker f)
    end.
Definition scan_glob (pattern : string) (f : findings) : scanning O findings :=
  matches ← Glob pattern;
  match matches with
  | Err _ => mret (probe_error f)
  | Ok matches => mret (fold_left (fun f path => found_file path f) matches f)
  end.
Definition scan_service_glob (pattern : string) (state : findings * list string) : scanning O (findings * list string) :=
  matches ← Glob pattern;
  match matches with
  | Err _ => mret (probe_error state.1, state.2)
  | Ok matches => mret (state.1, fold_left (fun names path => appendUnique names (Base path)) matches state.2)
  end.
Definition scan_service (unit : string) (f : findings) : scanning O findings :=
  state ← Service unit;
  match state with
  | Err _ => mret (probe_error f)
  | Ok state =>
    if (SS_LoadState state == "") || (SS_LoadState state == "not-found") then mret f else mret (found_service state f)
  end.
Definition scan_version_file (file : string) (f : findings) : scanning O findings :=
  exists_ ← PathExists file;
  match exists_ with
  | Err _ => mret (probe_error f)
  | Ok false => mret f
  | Ok true =>
    data ← ReadFile file 4096;
    match data with
    | Err _ => mret (probe_error f)
    | Ok data =>
      let value := cleanVersion data in
      if value == "" then mret f else mret (found_version "version-file" file value f)
    end
  end.
Definition scan_version (p : versionProbe) (f : findings) : scanning O findings :=
  output ← Command (Probe_Command p) (Probe_Args p);
  match output with
  | Err _ => mret f
  | Ok output =>
    let value := cleanVersion output in
    if value == "" then mret f else mret (found_version "version" (Probe_Command p) value f)
  end.

Definition scan_probes (d : definition) : scanning O findings :=
  f ← each scan_path (D_Paths d) nothing;
  f ← scan_marker (D_ManagedMarker d) f;
  f ← each scan_glob (D_Globs d) f;
  '(f, serviceNames) ← each scan_service_glob (D_ServiceGlobs d) (f, D_Services d);
  f ← each scan_service serviceNames f;
  f ← each scan_version_file (D_VersionFiles d) f;
  each scan_version (D_Versions d) f.

Definition scanDefinition (d : definition) (observed : time) : scanning O (result Component) :=
  err ← ctx_Err;
  match err with
  | Some err => mret (Err err)
  | None => f ← scan_probes d; mret (Ok (conclude d observed f))
  end.

(** The loop of [Snapshot]. *)
Fixpoint scan_all (definitions : list definition) (observed : time) (components : list Component) :
    scanning O (result (list Component)) :=
  match definitions with
  | [] => mret (Ok components)
  | d :: definitions =>
    component ← scanDefinition d observed;
    match component with
    | Err err => mret (Err err)
    | Ok component => scan_all definitions observed (components ++ [component])
    end
  end.

(** [Service.Snapshot] and [Service.Component], for the definitions of [NewScanner]. *)
Definition take_Snapshot (definitions : list definition) : scanning O (result Snapshot) :=
  err ← ctx_Err;
  match err with
  | Some err => mret (Err err)
  | None =>
    observed ← now;
    components ← scan_all definitions observed [];
    match components with
    | Err err => mret (Err err)
    | Ok components =>
      mret (Ok {| Sn_Schema := SchemaVersion; Sn_ObservedAt := observed; Sn_Components := sort_by Cp_ID components |})
    end
  end.

(** The component, if the identifier is known; an error comes with [found = true]. *)
Fixpoint find_Component (definitions : list definition) (id : string) : scanning O (option (result Component)) :=
  match definitions with
  | [] => mret None
  | d :: definitions =>
    if D_ID d != id then find_Component definitions id
    else observed ← now; component ← scanDefinition d observed; mret (Some component)
  end.

(** [NewScanner]: a scan of the compiled definitions; its trace is not kept. *)
#[export] Instance NewScanner : Scanner O := {
  scan_Snapshot o :=
    let '(snapshot, s) := take_Snapshot defaultDefinitions (Sight o []) in (snapshot, sight_observer s);
  scan_Component id o :=
    let '(component, s) := find_Component defaultDefinitions id (Sight o []) in
    (match component with
     | None => Ok None
     | Some (Ok component) => Ok (Some component)
     | Some (Err err) => Err err
     end, sight_observer s)
}.
End scanning.

(** ** Reasoning about scans *)

Section traces.
Context {O : Type} `{!Observer O}.
Implicit Types s : sight O.

(** A scan only appends to the trace; [Q] relates what it appends to its result. *)
Definition yields {A} (m : scanning O A) (Q : list probe -> A -> Prop) : Prop :=
  forall s, exists own, sight_trace (m s).2 = sight_trace s ++ own /\ Q own (m s).1.

Lemma yields_ret {A} (a : A) (Q : list probe -> A -> Prop) : Q [] a -> yields (mret a) Q.
Proof. intros H s. exists []. by rewrite app_nil_r. Qed.

Lemma yields_bind {A B} (m : scanning O A) (k : A -> scanning O B) P (Q : list probe -> B -> Prop) :
  yields m P -> (forall own a, P own a -> yields (k a) (fun more b => Q (own ++ more) b)) -> yields (m ≫= k) Q.
Proof.
  intros Hm Hk s. unfold mbind, scanning_bind. destruct (Hm s) as (own & Ht & Ha). destruct (m s) as [a s1]; simpl in *.
  destruct (Hk own a Ha s1) as (more & Ht' & Hb). exists (own ++ more). by rewrite Ht', Ht, <- app_assoc.
Qed.

Lemma yields_look {A} (f : O -> A * O) entry (Q : list probe -> A -> Prop) :
  (forall a, Q (entry a) a) -> yields (look f entry) Q.
Proof. intros H s. unfold look. destruct (f (sight_observer s)) as [a o]. by exists (entry a). Qed.

Lemma yields_weaken {A} (m : scanning O A) (P Q : list probe -> A -> Prop) :
  yields m P -> (forall own a, P own a -> Q own a) -> yields m Q.
Proof. intros Hm HQ s. destruct (Hm s) as (own & ? & ?). exists own. auto. Qed.

Lemma yields_each {A F} (f : A -> F -> scanning O F) (l : list A) (x : F) (I : list probe -> F -> Prop) own :
  I own x -> (forall a x own, a ∈ l -> I own x -> yields (f a x) (fun more y => I (own ++ more) y)) ->
  yields (each f l x) (fun more y => I (own ++ more) y).
Proof.
  revert x own. induction l as [|a l IH]; intros x own Hx Hf; simpl.
  - apply yields_ret. by rewrite app_nil_r.
  - eapply yields_bind; [apply Hf; [by left|done]|]. simpl. intros more y Hy.
    eapply yields_weaken; [apply IH; [exact Hy|]|].
    + intros b z own' Hb. apply Hf. by right.
    + simpl. intros more' z. by rewrite app_assoc.
Qed.
Lemma yields_and {A} (m : scanning O A) (P Q : list probe -> A -> Prop) :
  yields m P -> yields m Q -> yields m (fun own a => P own a /\ Q own a).
Proof.
  intros HP HQ s. destruct (HP s) as (own & Ht & H1), (HQ s) as (own' & Ht' & H2). exists own. split; [done|].
  rewrite Ht in Ht'. by apply app_inv_head in Ht' as ->.
Qed.

End traces.

(** ** What was found and what it rests on *)

Definition is_marker (e : Evidence) : bool := Evi_Kind e == "ownership-marker".
Definition of_kind (kind : string) (e : Evidence) : bool := Evi_Kind e == kind.
Definition is_version (e : Evidence) : bool := of_kind "version-file" e || of_kind "version" e.
Definition unique (values : list string) : list string := fold_left appendUnique values [].

(** Observations that failed; a version command that fails is not one. *)
Definition inconclusive (p : probe) : bool :=
  match p with
  | ProbePath _ (Err _) | ProbeRead _ _ (Err _) | ProbeService _ (Err _) | ProbeGlob _ (Err _) => true
  | _ => false
  end.
Definition loaded (state : ServiceState) : bool := negb ((SS_LoadState state == "") || (SS_LoadState state == "not-found")).
Definition active_unit (p : probe) : bool :=
  match p with ProbeService _ (Ok state) => loaded state && (SS_ActiveState state == "active") | _ => false end.
Definition inactive_unit (p : probe) : bool :=
  match p with ProbeService _ (Ok state) => loaded state && (SS_ActiveState state != "active") | _ => false end.

(** What a piece of evidence rests on. *)
Inductive backed (own : list probe) : Evidence -> Prop :=
| backed_path path : ProbePath path (Ok true) ∈ own -> backed own (Seen "path" path "present")
| backed_marker path : ProbePath path (Ok true) ∈ own -> backed own (Seen "ownership-marker" path "present")
| backed_file pattern matches path : ProbeGlob pattern (Ok matches) ∈ own -> path ∈ matches ->
    backed own (Seen "filesystem" path "present")
| backed_service unit state : ProbeService unit (Ok state) ∈ own -> loaded state = true ->
    backed own (Seen "service" (SS_Unit state) (service_detail state))
| backed_version_file path data : ProbeRead path 4096 (Ok data) ∈ own -> cleanVersion data <> "" ->
    backed own (Seen "version-file" path (cleanVersion data))
| backed_version name arguments output : ProbeCommand name arguments (Ok output) ∈ own -> cleanVersion output <> "" ->
    backed own (Seen "version" name (cleanVersion output)).

Record facts (own : list probe) (f : findings) : Prop := {
  fact_positive : Fd_Positive f = Z.of_nat (length (Fd_Evidence f));
  fact_nonmarker : Fd_NonMarker f = Z.of_nat (length (List.filter (fun e => negb (is_marker e)) (Fd_Evidence f)));
  fact_errors : Fd_ProbeErrors f = Z.of_nat (length (List.filter inconclusive own));
  fact_marker : Fd_ManagedMarker f = existsb is_marker (Fd_Evidence f);
  fact_active : Fd_Active f = existsb active_unit own;
  fact_inactive : Fd_Inactive f = existsb inactive_unit own;
  fact_versions : Fd_Versions f = unique (Evi_Detail <$> List.filter is_version (Fd_Evidence f));
  fact_roots : Fd_Roots f = unique (Evi_Source <$> List.filter (of_kind "path") (Fd_Evidence f));
  fact_services : Fd_Services f = unique (Evi_Source <$> List.filter (of_kind "service") (Fd_Evidence f));
  fact_backed : Forall (backed own) (Fd_Evidence f)
}.

Lemma backed_mono own more e : backed own e -> backed (own ++ more) e.
Proof. destruct 1; econstructor; try done; apply elem_of_app; by left. Qed.
Lemma backed_all_mono own more l : Forall (backed own) l -> Forall (backed (own ++ more)) l.
Proof. intros H. eapply Forall_impl; [exact H|]. intros e. apply backed_mono. Qed.

Lemma unique_snoc l x : unique (l ++ [x]) = appendUnique (unique l) x.
Proof. unfold unique. by rewrite fold_left_app. Qed.

Lemma app_two {A} (l : list A) x y : l ++ [x; y] = (l ++ [x]) ++ [y].
Proof. by rewrite <- app_assoc. Qed.

(** Observations that say nothing. *)
Definition silent (p : probe) : bool := negb (inconclusive p || active_unit p || inactive_unit p).

(** Closes the equations of [facts] after a step that is known. *)
Ltac fact_step := constructor; simpl;
  rewrite ?List.filter_app, ?existsb_app, ?fmap_app, ?length_app; simpl;
  rewrite ?fmap_app; simpl; rewrite ?unique_snoc, ?app_nil_r, ?orb_false_r, ?orb_true_r, ?length_app; simpl.

Lemma facts_more own f p : facts own f -> silent p = true -> facts (own ++ [p]) f.
Proof.
  intros [] [[Hi Ha]%orb_false_iff Hn]%negb_true_iff%orb_false_iff. fact_step; rewrite ?Hi, ?Ha, ?Hn; simpl;
    rewrite ?orb_false_r; try done; [rewrite Nat.add_0_r; done|by apply backed_all_mono].
Qed.

Lemma facts_error own f p : facts own f -> inconclusive p = true -> facts (own ++ [p]) (probe_error f).
Proof.
  intros [] Hp. fact_step; rewrite ?Hp; simpl; try done.
  - rewrite fact_errors0. lia.
  - destruct p as [? []|? ? []|? ? []|? []|? []]; simpl in *; try done; by rewrite orb_false_r.
  - destruct p as [? []|? ? []|? ? []|? []|? []]; simpl in *; try done; by rewrite orb_false_r.
  - by apply backed_all_mono.
Qed.

Lemma facts_nothing : facts [] nothing.
Proof. by constructor. Qed.

(** The findings after one more piece of evidence [e]. *)
Ltac fact_found := fact_step; try done; try congruence; try lia;
  try (apply Forall_app; split; [by try apply backed_all_mono|constructor; [|by constructor]]).

Lemma facts_path own f path : facts own f -> facts (own ++ [ProbePath path (Ok true)]) (found_path path f).
Proof. intros []. fact_found. constructor. apply elem_of_app. right. by left. Qed.
Lemma facts_marker own f path : facts own f -> facts (own ++ [ProbePath path (Ok true)]) (found_marker path f).
Proof. intros []. fact_found. constructor. apply elem_of_app. right. by left. Qed.
Lemma facts_file own f pattern matches path : facts own f -> ProbeGlob pattern (Ok matches) ∈ own -> path ∈ matches ->
  facts own (found_file path f).
Proof. intros [] Hg Hp. fact_found. by econstructor. Qed.
Lemma facts_service own f unit state : facts own f -> loaded state = true ->
  facts (own ++ [ProbeService unit (Ok state)]) (found_service state f).
Proof.
  intros [] Hl. fact_found; rewrite ?Hl, ?orb_false_r; simpl; try congruence.
  apply (backed_service _ unit); [|done]. apply elem_of_app. right. by left.
Qed.
Lemma facts_version own f kind source value : facts own f -> kind = "version-file" \/ kind = "version" ->
  backed own (Seen kind source value) -> facts own (found_version kind source value f).
Proof. intros [] [-> | ->] Hb; fact_found; done. Qed.

Section scans.
Context {O : Type} `{!Observer O}.

Lemma scan_path_facts path f own : facts own f ->
  yields (O := O) (scan_path path f) (fun more g => facts (own ++ more) g).
Proof.
  intros Hf. unfold scan_path, PathExists. eapply yields_bind; [by apply (yields_look _ _ (fun l r => l = [ProbePath path r]))|].
  simpl. intros ? [[]|e] ->; apply yields_ret; simpl; [by apply facts_path|by apply facts_more|by apply facts_error].
Qed.

Lemma scan_marker_facts path f own : facts own f ->
  yields (O := O) (scan_marker path f) (fun more g => facts (own ++ more) g).
Proof.
  intros Hf. unfold scan_marker, PathExists. destruct (path == ""); [apply yields_ret; by rewrite app_nil_r|].
  eapply yields_bind; [by apply (yields_look _ _ (fun l r => l = [ProbePath path r]))|].
  simpl. intros ? [[]|e] ->; apply yields_ret; simpl; [by apply facts_marker|by apply facts_more|by apply facts_error].
Qed.

Lemma found_files_facts own pattern matches l f : facts own f -> ProbeGlob pattern (Ok matches) ∈ own -> l ⊆ matches ->
  facts own (fold_left (fun f path => found_file path f) l f).
Proof.
  revert f. induction l as [|path l IH]; intros f Hf Hg Hl; simpl; [done|].
  apply IH; [|done|set_solver]. eapply facts_file; [done..|set_solver].
Qed.

Lemma scan_glob_facts pattern f own : facts own f ->
  yields (O := O) (scan_glob pattern f) (fun more g => facts (own ++ more) g).
Proof.
  intros Hf. unfold scan_glob, Glob. eapply yields_bind; [by apply (yields_look _ _ (fun l r => l = [ProbeGlob pattern r]))|].
  simpl. intros ? [matches|e] ->; apply yields_ret; simpl; [|by apply facts_error].
  eapply (found_files_facts _ pattern matches); [by apply facts_more| |done]. apply elem_of_app. right. by left.
Qed.

Lemma scan_service_glob_facts pattern state own : facts own state.1 ->
  yields (O := O) (scan_service_glob pattern state) (fun more g => facts (own ++ more) g.1).
Proof.
  intros Hf. unfold scan_service_glob, Glob.
  eapply yields_bind; [by apply (yields_look _ _ (fun l r => l = [ProbeGlob pattern r]))|].
  simpl. intros ? [matches|e] ->; apply yields_ret; simpl; [by apply facts_more|by apply facts_error].
Qed.

Lemma scan_service_facts unit f own : facts own f ->
  yields (O := O) (scan_service unit f) (fun more g => facts (own ++ more) g).
Proof.
  intros Hf. unfold scan_service, Service.
  eapply yields_bind; [by apply (yields_look _ _ (fun l r => l = [ProbeService unit r]))|].
  simpl. intros ? [state|e] ->; simpl; [|apply yields_ret; simpl; by apply facts_error].
  destruct ((SS_LoadState state == "") || (SS_LoadState state == "not-found")) eqn:El; apply yields_ret; simpl.
  - apply facts_more; [done|]. unfold silent, active_unit, inactive_unit, loaded. simpl. by rewrite El.
  - apply facts_service; [done|]. unfold loaded. by rewrite El.
Qed.

Lemma scan_version_file_facts file f own : facts own f ->
  yields (O := O) (scan_version_file file f) (fun more g => facts (own ++ more) g).
Proof.
  intros Hf. unfold scan_version_file, PathExists.
  eapply yields_bind; [by apply (yields_look _ _ (fun l r => l = [ProbePath file r]))|].
  simpl. intros ? [[]|e] ->; [|apply yields_ret; simpl; by apply facts_more|apply yields_ret; simpl; by apply facts_error].
  unfold ReadFile. eapply yields_bind; [by apply (yields_look _ _ (fun l r => l = [ProbeRead file 4096 r]))|].
  simpl. intros ? [data|e] ->; simpl.
  - assert (Hm : facts (own ++ [ProbePath file (Ok true); ProbeRead file 4096 (Ok data)]) f).
    { rewrite app_two. by do 2 (apply facts_more; [|done]). }
    destruct (cleanVersion data == "") eqn:Ev; apply yields_ret; simpl; [done|].
    apply facts_version; [done|by left|]. apply String.eqb_neq in Ev. constructor; [|done].
    apply elem_of_app. right. right. by left.
  - apply yields_ret. simpl. rewrite app_two. apply facts_error; [|done]. by apply facts_more.
Qed.

Lemma scan_version_facts p f own : facts own f ->
  yields (O := O) (scan_version p f) (fun more g => facts (own ++ more) g).
Proof.
  intros Hf. unfold scan_version, Command.
  eapply yields_bind; [by apply (yields_look _ _ (fun l r => l = [ProbeCommand (Probe_Command p) (Probe_Args p) r]))|].
  simpl. intros ? [output|e] ->; simpl; [|apply yields_ret; simpl; by apply facts_more].
  destruct (cleanVersion output == "") eqn:Ev; apply yields_ret; simpl; [by apply facts_more|].
  apply facts_version; [by apply facts_more|by right|]. apply String.eqb_neq in Ev. econstructor; [|done].
  apply elem_of_app. right. by left.
Qed.

(** A loop with the findings keeps their meaning. *)
Lemma each_facts {A} (step : A -> findings -> scanning O findings) (l : list A) own f :
  (forall a f own, facts own f -> yields (step a f) (fun more g => facts (own ++ more) g)) ->
  facts own f -> yields (each step l f) (fun more g => facts (own ++ more) g).
Proof. intros Hs Hf. apply (yields_each step l f facts own); auto. Qed.

Lemma scan_probes_facts d : yields (O := O) (scan_probes d) facts.
Proof.
  unfold scan_probes.
  eapply yields_bind; [apply (each_facts scan_path _ []); [apply scan_path_facts|exact facts_nothing]|]. simpl. intros o1 f1 H1.
  eapply yields_bind; [apply (scan_marker_facts _ _ o1 H1)|]. simpl. intros o2 f2 H2.
  eapply yields_bind; [apply (each_facts _ _ _ _ scan_glob_facts H2)|]. simpl. intros o3 f3 H3.
  eapply yields_bind.
  { apply (yields_each _ _ _ (fun own state => facts own state.1) ((o1 ++ o2) ++ o3)); [exact H3|].
    intros. by apply scan_service_glob_facts. }
  simpl. intros o4 [f4 names] H4.
  eapply yields_bind; [apply (each_facts _ _ _ _ scan_service_facts H4)|]. simpl. intros o5 f5 H5.
  eapply yields_bind; [apply (each_facts _ _ _ _ scan_version_file_facts H5)|]. simpl. intros o6 f6 H6.
  eapply yields_weaken; [apply (each_facts _ _ _ _ scan_version_facts H6)|]. simpl. intros o7 f7 H7.
  by rewrite <- !app_assoc in *.
Qed.
End scans.

(** ** What the observations add up to *)

(** The evidence an answer amounts to. *)
Definition seen_path (kind path : string) (r : result bool) : list Evidence :=
  match r with Ok true => [Seen kind path "present"] | _ => [] end.
Definition seen_files (r : result (list string)) : list Evidence :=
  match r with Ok matches => (fun path => Seen "filesystem" path "present") <$> matches | Err _ => [] end.
Definition seen_service (r : result ServiceState) : list Evidence :=
  match r with
  | Ok state => if loaded state then [Seen "service" (SS_Unit state) (service_detail state)] else []
  | Err _ => []
  end.
Definition seen_version (kind source : string) (r : result string) : list Evidence :=
  match r with
  | Ok data => if cleanVersion data == "" then [] else [Seen kind source (cleanVersion data)]
  | Err _ => []
  end.

(** What is asked for one item of a definition, and the evidence that the answers amount to. *)
Definition asks_path (kind path : string) (own : list probe) (evidence : list Evidence) : Prop :=
  exists r, own = [ProbePath path r] /\ evidence = seen_path kind path r.
Definition asks_marker (marker : string) (own : list probe) (evidence : list Evidence) : Prop :=
  if marker == "" then own = [] /\ evidence = [] else asks_path "ownership-marker" marker own evidence.
Definition asks_glob (pattern : string) (own : list probe) (evidence : list Evidence) : Prop :=
  exists r, own = [ProbeGlob pattern r] /\ evidence = seen_files r.
Definition asks_unit_glob (pattern : string) (own : list probe) (evidence : list Evidence) : Prop :=
  exists r, own = [ProbeGlob pattern r] /\ evidence = [].
Definition asks_service (unit : string) (own : list probe) (evidence : list Evidence) : Prop :=
  exists r, own = [ProbeService unit r] /\ evidence = seen_service r.
Definition asks_version_file (file : string) (own : list probe) (evidence : list Evidence) : Prop :=
  (exists r, r <> Ok true /\ own = [ProbePath file r] /\ evidence = []) \/
  exists data, own = [ProbePath file (Ok true); ProbeRead file 4096 data] /\ evidence = seen_version "version-file" file data.
Definition asks_version (p : versionProbe) (own : list probe) (evidence : list Evidence) : Prop :=
  exists r, own = [ProbeCommand (Probe_Command p) (Probe_Args p) r] /\ evidence = seen_version "version" (Probe_Command p) r.

(** Every item is asked for in order, and the evidence is collected in this order. *)
Inductive asked {A} (asks : A -> list probe -> list Evidence -> Prop) : list A -> list probe -> list Evidence -> Prop :=
| asked_nil : asked asks [] [] []
| asked_cons a l own evidence more evidence' :
    asks a own evidence -> asked asks l more evidence' -> asked asks (a :: l) (own ++ more) (evidence ++ evidence').

(** The units: those of the definition, and the base names of the files that its unit patterns matched. *)
Definition service_names (d : definition) (own : list probe) : list string :=
  fold_left (fun names p =>
    match p with
    | ProbeGlob _ (Ok matches) => fold_left (fun names path => appendUnique names (Base path)) matches names
    | _ => names
    end) own (D_Services d).

(** A trace with its evidence: everything the definition names is asked for, once and in order, and every answer that
    shows something present is in the evidence, which holds nothing else. *)
Inductive explains (d : definition) : list probe -> list Evidence -> Prop :=
| explains_by paths e1 marker e2 files e3 names services e5 version_files e6 versions e7 :
    asked (asks_path "path") (D_Paths d) paths e1 -> asks_marker (D_ManagedMarker d) marker e2 ->
    asked asks_glob (D_Globs d) files e3 -> asked asks_unit_glob (D_ServiceGlobs d) names [] ->
    asked asks_service (service_names d names) services e5 ->
    asked asks_version_file (D_VersionFiles d) version_files e6 -> asked asks_version (D_Versions d) versions e7 ->
    explains d (paths ++ marker ++ files ++ names ++ services ++ version_files ++ versions)
      (e1 ++ e2 ++ e3 ++ e5 ++ e6 ++ e7).

(** A step that asks and collects. *)
Definition collects (asks : list probe -> list Evidence -> Prop) (f : findings) (own : list probe) (g : findings) : Prop :=
  exists evidence, asks own evidence /\ Fd_Evidence g = Fd_Evidence f ++ evidence.

Lemma found_files_evidence l f : Fd_Evidence (fold_left (fun f path => found_file path f) l f) =
  Fd_Evidence f ++ ((fun path => Seen "filesystem" path "present") <$> l).
Proof. revert f. induction l as [|path l IH]; intros f; simpl; [by rewrite app_nil_r|]. rewrite IH. simpl. by rewrite <- app_assoc. Qed.

Section collecting.
Context {O : Type} `{!Observer O}.

(** One observation with all its answers. *)
Ltac look_at entry := eapply yields_bind; [by apply (yields_look _ _ (fun l r => l = entry r))|]; simpl; intros ? ? ->.
Ltac collected := apply yields_ret; eexists; split; [by eexists|]; simpl; rewrite ?app_nil_r; try done.

Lemma scan_path_collects path f : yields (O := O) (scan_path path f) (collects (asks_path "path" path) f).
Proof. unfold scan_path, PathExists. look_at (fun r => [ProbePath path r]). case_match; [case_match|]; collected. Qed.
Lemma scan_marker_collects marker f : yields (O := O) (scan_marker marker f) (collects (asks_marker marker) f).
Proof.
  unfold scan_marker, PathExists, asks_marker. destruct (marker == "").
  - apply yields_ret. exists []. by rewrite app_nil_r.
  - look_at (fun r => [ProbePath marker r]). case_match; [case_match|]; collected.
Qed.
Lemma scan_glob_collects pattern f : yields (O := O) (scan_glob pattern f) (collects (asks_glob pattern) f).
Proof. unfold scan_glob, Glob. look_at (fun r => [ProbeGlob pattern r]). case_match; collected. apply found_files_evidence. Qed.
Lemma scan_service_collects unit f : yields (O := O) (scan_service unit f) (collects (asks_service unit) f).
Proof.
  unfold scan_service, Service. look_at (fun r => [ProbeService unit r]). case_match; [|collected].
  destruct (_ || _) eqn:El; apply yields_ret; eexists; (split; [by eexists|]); simpl; unfold loaded; rewrite El; simpl;
    by rewrite ?app_nil_r.
Qed.
Lemma scan_version_collects p f : yields (O := O) (scan_version p f) (collects (asks_version p) f).
Proof.
  unfold scan_version, Command. look_at (fun r => [ProbeCommand (Probe_Command p) (Probe_Args p) r]). case_match; [|collected].
  destruct (cleanVersion _ == "") eqn:Ev; apply yields_ret; eexists; (split; [by eexists|]); simpl; rewrite Ev; by rewrite ?app_nil_r.
Qed.
Lemma scan_version_file_collects file f : yields (O := O) (scan_version_file file f) (collects (asks_version_file file) f).
Proof.
  unfold scan_version_file, PathExists. look_at (fun r => [ProbePath file r]).
  case_match; [case_match|]; [|apply yields_ret; exists []; (split; [left; eexists; split_and!; [|reflexivity..]; done|]);
    by rewrite app_nil_r..].
  unfold ReadFile. look_at (fun r => [ProbeRead file 4096 r]). case_match.
  - destruct (cleanVersion _ == "") eqn:Ev; apply yields_ret; eexists; (split; [right; by eexists|]); simpl; rewrite Ev;
      by rewrite ?app_nil_r.
  - apply yields_ret. eexists. split; [right; by eexists|]. simpl. by rewrite app_nil_r.
Qed.

Lemma each_collects {A} (step : A -> findings -> scanning O findings) asks (l : list A) f :
  (forall a f, yields (step a f) (collects (asks a) f)) -> yields (each step l f) (collects (asked asks l) f).
Proof.
  intros Hs. revert f. induction l as [|a l IH]; intros f; simpl.
  - apply yields_ret. exists []. split; [constructor|by rewrite app_nil_r].
  - eapply yields_bind; [apply Hs|]. simpl. intros own g (e & Ha & Eg).
    eapply yields_weaken; [apply IH|]. intros more h (e' & Hl & Eh). exists (e ++ e'). split; [by constructor|].
    by rewrite Eh, Eg, app_assoc.
Qed.

(** The unit patterns collect names. *)
Lemma each_unit_glob l f names : yields (O := O) (each scan_service_glob l (f, names)) (fun own state =>
  asked asks_unit_glob l own [] /\ Fd_Evidence state.1 = Fd_Evidence f /\
  state.2 = fold_left (fun names p =>
    match p with
    | ProbeGlob _ (Ok matches) => fold_left (fun names path => appendUnique names (Base path)) matches names
    | _ => names
    end) own names).
Proof.
  revert f names. induction l as [|pattern l IH]; intros f names; simpl.
  - apply yields_ret. split; [constructor|done].
  - eapply yields_bind with (P := fun own state => exists r, own = [ProbeGlob pattern r] /\
      Fd_Evidence state.1 = Fd_Evidence f /\ state.2 = match r with
        | Ok matches => fold_left (fun names path => appendUnique names (Base path)) matches names | Err _ => names end).
    { unfold scan_service_glob, Glob. look_at (fun r => [ProbeGlob pattern r]). case_match; apply yields_ret; eexists; split_and!; done. }
    intros own [g names'] (r & -> & Eg & En). simpl in *.
    eapply yields_weaken; [apply IH|]. simpl. intros more [h names''] (Hl & Eh & En'). split; [|split]; simpl in *.
    + change (asked asks_unit_glob (pattern :: l) ([ProbeGlob pattern r] ++ more) ([] ++ [])). constructor; [by eexists|done].
    + by rewrite Eh.
    + rewrite En', En. by destruct r.
Qed.

Lemma scan_probes_explains d : yields (O := O) (scan_probes d) (fun own f => explains d own (Fd_Evidence f)).
Proof.
  unfold scan_probes.
  eapply yields_bind; [by apply (each_collects _ _ _ _ scan_path_collects)|]. simpl. intros o1 f1 (e1 & H1 & E1).
  eapply yields_bind; [apply scan_marker_collects|]. simpl. intros o2 f2 (e2 & H2 & E2).
  eapply yields_bind; [by apply (each_collects _ _ _ _ scan_glob_collects)|]. simpl. intros o3 f3 (e3 & H3 & E3).
  eapply yields_bind; [apply each_unit_glob|]. simpl. intros o4 [f4 names] (H4 & E4 & En). simpl in *.
  eapply yields_bind; [by apply (each_collects _ _ _ _ scan_service_collects)|]. simpl. intros o5 f5 (e5 & H5 & E5).
  eapply yields_bind; [by apply (each_collects _ _ _ _ scan_version_file_collects)|]. simpl. intros o6 f6 (e6 & H6 & E6).
  eapply yields_weaken; [by apply (each_collects _ _ _ _ scan_version_collects)|]. simpl. intros o7 f7 (e7 & H7 & E7).
  rewrite E7, E6, E5, E4, E3, E2, E1. simpl. rewrite <- !app_assoc. subst names.
  by apply explains_by.
Qed.
End collecting.

(** ** Classification *)

Lemma count_existsb {A} (p : A -> bool) (l : list A) :
  (0 <? Z.of_nat (length (List.filter p l))) = existsb p l /\ (Z.of_nat (length (List.filter p l)) =? 0) = negb (existsb p l).
Proof.
  induction l as [|a l [IH1 IH2]]; simpl; [done|]. destruct (p a); simpl; [|done].
  split; [apply Z.ltb_lt; lia|done].
Qed.

Definition confirmed (c : Component) : bool := existsb (fun e => negb (is_marker e)) (Cp_Evidence c).
Definition marked (c : Component) : bool := existsb is_marker (Cp_Evidence c).

Lemma evidence_split l : (0 <? Z.of_nat (length l)) = existsb is_marker l || existsb (fun e => negb (is_marker e)) l.
Proof.
  destruct l as [|e l]; [done|]. cbn [existsb]. destruct (is_marker e); simpl; [done|]. by rewrite orb_true_r.
Qed.

(** The two switches of [scanDefinition] as functions of the evidence and the trace. *)
Lemma ownership_spec d observed own f : facts own f -> let c := conclude d observed f in
  ownership f = if confirmed c then if marked c then OwnershipManaged else OwnershipExternal
                else if marked c || existsb inconclusive own then OwnershipUnknown else OwnershipDisabled.
Proof.
  intros [] c. unfold ownership, confirmed, marked, c. simpl.
  rewrite fact_positive0, fact_nonmarker0, fact_errors0, fact_marker0, evidence_split.
  rewrite (proj2 (count_existsb _ (Fd_Evidence f))), (proj1 (count_existsb inconclusive own)).
  by destruct (existsb is_marker _), (existsb (fun e => negb (is_marker e)) _), (existsb inconclusive own).
Qed.

Lemma health_spec d observed own f : facts own f -> let c := conclude d observed f in
  health f = if confirmed c then
               if existsb active_unit own then HealthHealthy
               else if existsb inactive_unit own then HealthDegraded else HealthUnknown
             else if marked c || existsb inconclusive own then HealthUnknown else HealthDisabled.
Proof.
  intros Hf c. unfold health. rewrite (ownership_spec d observed own f Hf). fold c. destruct Hf as [].
  rewrite fact_active0, fact_inactive0. by destruct (confirmed c), (marked c), (existsb inconclusive own).
Qed.

Section classification.
Context {O : Type} `{!Observer O}.

Lemma scanDefinition_facts d observed : yields (O := O) (scanDefinition d observed) (fun own r =>
  match r with
  | Ok c => exists f, facts own f /\ explains d own (Fd_Evidence f) /\ c = conclude d observed f
  | Err _ => own = []
  end).
Proof.
  unfold scanDefinition, ctx_Err. eapply yields_bind; [by apply (yields_look _ _ (fun l r => l = []))|]. simpl.
  intros ? [e|] ->; [by apply yields_ret|].
  eapply yields_bind; [apply yields_and; [apply scan_probes_facts|apply scan_probes_explains]|]. simpl.
  intros own f [Hf He]. apply yields_ret. exists f. by rewrite app_nil_r.
Qed.

Lemma scanDefinition_component d observed (s : sight O) c s' : scanDefinition d observed s = (Ok c, s') ->
  exists own f, sight_trace s' = sight_trace s ++ own /\ facts own f /\ explains d own (Fd_Evidence f) /\
    c = conclude d observed f.
Proof.
  intros E. destruct (scanDefinition_facts d observed s) as (own & Ht & Hr). rewrite E in Ht, Hr. simpl in *.
  destruct Hr as (f & ? & ? & ?). eauto 6.
Qed.

(** C36 What a scan claims of a component is what it observed.  Its observations ask for everything the definition names, once and in
    order, and its evidence is what the answers amount to, no more and no less ([explains]): a path or marker that is
    present, each file a pattern matched, each unit that is loaded, each version read.  A component is managed exactly when an ownership
    marker and some other evidence were found, external when there is evidence but no marker, disabled when there is no
    evidence and no observation that counts failed (a version command that fails does not count,
    [failed_command_is_disabled]), and unknown otherwise; it is healthy exactly when it is owned by someone and one of its
    units is loaded and active, degraded when its loaded units are all inactive; a version is reported only when all
    version evidence agrees; and the services and roots listed are those of the evidence. *)
Theorem ownership_evidence d observed (s : sight O) c s' : scanDefinition d observed s = (Ok c, s') ->
  exists own, sight_trace s' = sight_trace s ++ own /\
  explains d own (Cp_Evidence c) /\
  (Cp_Ownership c = OwnershipManaged <-> marked c = true /\ confirmed c = true) /\
  (Cp_Ownership c = OwnershipExternal <-> marked c = false /\ confirmed c = true) /\
  (Cp_Ownership c = OwnershipDisabled <-> Cp_Evidence c = [] /\ existsb inconclusive own = false) /\
  (Cp_Ownership c = OwnershipUnknown <-> confirmed c = false /\ (marked c = true \/ existsb inconclusive own = true)) /\
  (Cp_Health c = HealthHealthy <-> confirmed c = true /\ existsb active_unit own = true) /\
  (Cp_Health c = HealthDegraded <->
     confirmed c = true /\ existsb active_unit own = false /\ existsb inactive_unit own = true) /\
  (Cp_Health c = HealthDisabled <-> Cp_Ownership c = OwnershipDisabled) /\
  Cp_Version c = match unique (Evi_Detail <$> List.filter is_version (Cp_Evidence c)) with [v] => v | _ => "" end /\
  Cp_Services c = sort_Strings (unique (Evi_Source <$> List.filter (of_kind "service") (Cp_Evidence c))) /\
  Cp_Roots c = sort_Strings (unique (Evi_Source <$> List.filter (of_kind "path") (Cp_Evidence c))) /\
  Forall (backed own) (Cp_Evidence c).
Proof.
  intros (own & f & Ht & Hf & Hex & Hc)%scanDefinition_component. exists own. split; [done|]. split; [by subst c|].
  assert (Ho : Cp_Ownership c = ownership f) by by subst c. assert (Hh : Cp_Health c = health f) by by subst c.
  assert (He : Cp_Evidence c = [] <-> marked c = false /\ confirmed c = false).
  { unfold marked, confirmed. pose proof (evidence_split (Cp_Evidence c)) as H. split; [by intros ->|].
    intros [Em Ec]. rewrite Em, Ec in H. by destruct (Cp_Evidence c). }
  rewrite Ho, Hh, He, (ownership_spec d observed own f Hf), (health_spec d observed own f Hf), <- Hc. subst c. destruct Hf as [].
  simpl Cp_Version. simpl Cp_Services. simpl Cp_Roots. simpl Cp_Evidence.
  rewrite fact_versions0, fact_services0, fact_roots0.
  destruct (marked _), (confirmed _), (existsb inconclusive own), (existsb active_unit own), (existsb inactive_unit own);
    split_and!; try done; (split; intros Hx; [first [discriminate Hx|auto]|decompose [and or] Hx; try discriminate; done]).
Qed.
End classification.

(** ** The observations a scan makes *)

(** [unit] is named by the definition, or is the base name of a file that one of its patterns matched. *)
Definition named_unit (d : definition) (own : list probe) (unit : string) : Prop :=
  unit ∈ D_Services d \/
  exists pattern matches path,
    pattern ∈ D_ServiceGlobs d /\ ProbeGlob pattern (Ok matches) ∈ own /\ path ∈ matches /\ unit = Base path.

Definition allowed (d : definition) (own : list probe) (p : probe) : Prop :=
  match p with
  | ProbePath path _ => path ∈ D_Paths d \/ path = D_ManagedMarker d \/ path ∈ D_VersionFiles d
  | ProbeRead path limit _ => path ∈ D_VersionFiles d /\ limit = 4096
  | ProbeCommand name arguments _ => Probe name arguments ∈ D_Versions d
  | ProbeService unit _ => named_unit d own unit
  | ProbeGlob pattern _ => pattern ∈ D_Globs d \/ pattern ∈ D_ServiceGlobs d
  end.
Definition confined (d : definition) (own : list probe) : Prop := Forall (allowed d own) own.

Lemma named_unit_mono d own more unit : named_unit d own unit -> named_unit d (own ++ more) unit.
Proof.
  intros [?|(pattern & matches & path & ? & ? & ? & ?)]; [by left|]. right. exists pattern, matches, path.
  split_and!; [done| |done|done]. apply elem_of_app. by left.
Qed.
Lemma allowed_mono d own more p : allowed d own p -> allowed d (own ++ more) p.
Proof. destruct p; simpl; try done. apply named_unit_mono. Qed.
Lemma confined_snoc d own p : confined d own -> allowed d own p -> confined d (own ++ [p]).
Proof.
  intros Ho Hp. apply Forall_app. split; [|constructor; [by apply allowed_mono|done]].
  eapply Forall_impl; [exact Ho|]. intros q. apply allowed_mono.
Qed.

Section confinement.
Context {O : Type} `{!Observer O}.

(** One observation that is allowed, and what follows it. *)
Lemma confined_look {A B} d own (f : O -> A * O) (entry : A -> probe) (k : A -> scanning O B) (Q : list probe -> B -> Prop) :
  confined d own -> (forall a, allowed d own (entry a)) ->
  (forall a, confined d (own ++ [entry a]) -> yields (k a) (fun more b => Q (own ++ entry a :: more) b)) ->
  yields (look f (fun a => [entry a]) ≫= k) (fun more b => Q (own ++ more) b).
Proof.
  intros Ho Ha Hk. eapply yields_bind; [by apply (yields_look _ _ (fun l a => l = [entry a]))|]. simpl.
  intros ? a ->. apply Hk. by apply confined_snoc.
Qed.

Lemma confined_ret {A} d own more (a : A) : confined d (own ++ more) ->
  yields (O := O) (mret a) (fun more' _ => confined d (own ++ more ++ more')).
Proof. intros H. apply yields_ret. by rewrite app_nil_r. Qed.

Lemma scan_path_confined d path f own : path ∈ D_Paths d -> confined d own ->
  yields (O := O) (scan_path path f) (fun more _ => confined d (own ++ more)).
Proof.
  intros Hp Ho. unfold scan_path, PathExists. apply (confined_look d own _ _ _ (fun own _ => confined d own)); [done|by left|].
  intros [[]|e] H; by apply (confined_ret d own [_]).
Qed.

Lemma scan_marker_confined d f own : confined d own ->
  yields (O := O) (scan_marker (D_ManagedMarker d) f) (fun more _ => confined d (own ++ more)).
Proof.
  intros Ho. unfold scan_marker, PathExists. destruct (D_ManagedMarker d == ""); [apply yields_ret; by rewrite app_nil_r|].
  apply (confined_look d own _ _ _ (fun own _ => confined d own)); [done|by right; left|].
  intros [[]|e] H; by apply (confined_ret d own [_]).
Qed.

Lemma scan_glob_confined d pattern f own : pattern ∈ D_Globs d -> confined d own ->
  yields (O := O) (scan_glob pattern f) (fun more _ => confined d (own ++ more)).
Proof.
  intros Hp Ho. unfold scan_glob, Glob. apply (confined_look d own _ _ _ (fun own _ => confined d own)); [done|by left|].
  intros [matches|e] H; by apply (confined_ret d own [_]).
Qed.

Lemma append_names_named d own pattern matches l names :
  pattern ∈ D_ServiceGlobs d -> ProbeGlob pattern (Ok matches) ∈ own -> l ⊆ matches -> Forall (named_unit d own) names ->
  Forall (named_unit d own) (fold_left (fun names path => appendUnique names (Base path)) l names).
Proof.
  revert names. induction l as [|path l IH]; intros names Hp Hg Hl Hn; simpl; [done|].
  apply IH; [done|done|set_solver|]. unfold appendUnique. destruct (existsb _ _); [done|].
  apply Forall_app. split; [done|]. constructor; [|done]. right. exists pattern, matches, path. set_solver.
Qed.

Lemma scan_service_glob_confined d pattern (state : findings * list string) own : pattern ∈ D_ServiceGlobs d ->
  confined d own /\ Forall (named_unit d own) state.2 ->
  yields (O := O) (scan_service_glob pattern state)
    (fun more state => confined d (own ++ more) /\ Forall (named_unit d (own ++ more)) state.2).
Proof.
  intros Hp [Ho Hn]. unfold scan_service_glob, Glob.
  apply (confined_look d own _ _ _ (fun own state => confined d own /\ Forall (named_unit d own) state.2)); [done|by right|].
  assert (Hm : forall p, Forall (named_unit d (own ++ [p])) state.2).
  { intros p. eapply Forall_impl; [exact Hn|]. intros u. apply named_unit_mono. }
  intros [matches|e] H; apply yields_ret; simpl; (split; [done|]); [|done].
  apply (append_names_named d _ pattern matches); [done| |done|done]. apply elem_of_app. right. by left.
Qed.

Lemma scan_service_confined d unit f own : named_unit d own unit -> confined d own ->
  yields (O := O) (scan_service unit f) (fun more _ => confined d (own ++ more)).
Proof.
  intros Hu Ho. unfold scan_service, Service. apply (confined_look d own _ _ _ (fun own _ => confined d own)); [done|done|].
  intros [state|e] H; [destruct (_ || _)|]; by apply (confined_ret d own [_]).
Qed.

Lemma scan_version_file_confined d file f own : file ∈ D_VersionFiles d -> confined d own ->
  yields (O := O) (scan_version_file file f) (fun more _ => confined d (own ++ more)).
Proof.
  intros Hp Ho. unfold scan_version_file, PathExists.
  apply (confined_look d own _ _ _ (fun own _ => confined d own)); [done|by right; right|].
  intros [[]|e] H; try by apply (confined_ret d own [_]). unfold ReadFile.
  eapply yields_weaken; [apply (confined_look d (own ++ [ProbePath file (Ok true)]) _ _ _ (fun own _ => confined d own)); [done|done|]|].
  - intros [data|e] H'; [destruct (_ == _)|]; by apply (confined_ret d (own ++ _) [_]).
  - simpl. intros more b. by rewrite <- app_assoc.
Qed.

Lemma scan_version_confined d p f own : p ∈ D_Versions d -> confined d own ->
  yields (O := O) (scan_version p f) (fun more _ => confined d (own ++ more)).
Proof.
  intros Hp Ho. unfold scan_version, Command. apply (confined_look d own _ _ _ (fun own _ => confined d own)); [done|by destruct p|].
  intros [output|e] H; [destruct (_ == _)|]; by apply (confined_ret d own [_]).
Qed.

Lemma each_confined {A} d (step : A -> findings -> scanning O findings) (l : list A) own f :
  (forall a f own, a ∈ l -> confined d own -> yields (step a f) (fun more _ => confined d (own ++ more))) ->
  confined d own -> yields (each step l f) (fun more _ => confined d (own ++ more)).
Proof. intros Hs Ho. apply (yields_each step l f (fun own _ => confined d own) own); auto. Qed.

Lemma scan_probes_confined d : yields (O := O) (scan_probes d) (fun own _ => confined d own).
Proof.
  unfold scan_probes. assert (H0 : confined d []) by constructor.
  eapply yields_bind; [apply (each_confined d _ _ [] _ (fun a f own => scan_path_confined d a f own) H0)|]. simpl. intros o1 f1 H1.
  eapply yields_bind; [apply (scan_marker_confined d f1 o1 H1)|]. simpl. intros o2 f2 H2.
  eapply yields_bind; [apply (each_confined d _ _ _ _ (fun a f own => scan_glob_confined d a f own) H2)|]. simpl. intros o3 f3 H3.
  eapply yields_bind.
  { apply (yields_each _ _ _ (fun own state => confined d own /\ Forall (named_unit d own) state.2) ((o1 ++ o2) ++ o3)).
    - split; [exact H3|]. apply Forall_forall. intros u Hu. by left.
    - intros a x own Ha Hx. by apply scan_service_glob_confined. }
  simpl. intros o4 [f4 names] [H4 Hn].
  eapply yields_bind.
  { apply (yields_each _ _ _ (fun own _ => confined d own /\ Forall (named_unit d own) names) (((o1 ++ o2) ++ o3) ++ o4)); [by split|].
    intros u f own Hu [Ho Hall]. rewrite Forall_forall in Hall.
    eapply yields_weaken; [apply (scan_service_confined d u f own); auto|]. simpl. intros more _ Hc. split; [done|].
    apply Forall_forall. intros v Hv. apply named_unit_mono. auto. }
  simpl. intros o5 f5 [H5 _].
  eapply yields_bind; [apply (each_confined d _ _ _ _ (fun a f own => scan_version_file_confined d a f own) H5)|].
  simpl. intros o6 f6 H6.
  eapply yields_weaken; [apply (each_confined d _ _ _ _ (fun a f own => scan_version_confined d a f own) H6)|].
  simpl. intros o7 f7 H7. by rewrite <- !app_assoc in *.
Qed.

Lemma scanDefinition_confined d observed : yields (O := O) (scanDefinition d observed) (fun own _ => confined d own).
Proof.
  unfold scanDefinition, ctx_Err. eapply yields_bind; [by apply (yields_look _ _ (fun l r => l = []))|]. simpl.
  intros ? [e|] ->; [apply yields_ret; constructor|]. eapply yields_bind; [apply scan_probes_confined|]. simpl.
  intros own f Hf. apply yields_ret. by rewrite app_nil_r.
Qed.
End confinement.

(** *** The compiled definitions *)

#[export] Instance versionProbe_eq_dec : EqDecision versionProbe.
Proof. solve_decision. Defined.

(** What the whole inventory may ever ask for. *)
Definition fixed_paths : list string := [
  "/etc/keyhelp"; "/home/keyhelp"; "/etc/apache2"; "/etc/httpd"; "/etc/nginx"; "/etc/php"; "/etc/mysql"; "/var/lib/mysql";
  "/etc/postgresql"; "/var/lib/postgresql"; "/var/lib/docker"; "/var/lib/containers"; "/usr/local/bin/ollama"; "/usr/bin/ollama";
  "/usr/local/bin/quantum-runtime"; "/etc/quantum-runtime"; "/etc/searxng"; "/opt/searxng"; "/opt/ember-coreui"; "/srv/ember-coreui";
  "/var/lib/ember-coreui"; "/opt/starlight-unit-game"; "/srv/starlight-unit-game"; "/var/www/starlight-unit";
  ""; "/etc/quantum-runtime/.managed.json"].
Definition fixed_files : list string := [
  "/opt/ember-coreui/VERSION"; "/srv/ember-coreui/VERSION"; "/opt/starlight-unit-game/VERSION"; "/srv/starlight-unit-game/VERSION"].
Definition fixed_programs : list string := [
  "apache2"; "httpd"; "nginx"; "php"; "mariadb"; "mysql"; "psql"; "docker"; "podman"; "ollama"; "searxng"].
Definition fixed_units : list string := [
  "keyhelp.service"; "apache2.service"; "httpd.service"; "nginx.service"; "php-fpm.service"; "mariadb.service"; "mysql.service";
  "postgresql.service"; "docker.service"; "podman.service"; "ollama.service"; "quantum-runtime.service"; "searxng.service";
  "ember-coreui.service"; "starlight-unit-game.service"; "ember-worker.service"; "ember-worker-media.service"].
Definition fixed_unit_globs : list string := [
  "/etc/systemd/system/php*-fpm.service"; "/lib/systemd/system/php*-fpm.service"; "/usr/lib/systemd/system/php*-fpm.service"].

Definition fixed (own : list probe) (p : probe) : Prop :=
  match p with
  | ProbePath path _ => path ∈ fixed_paths ++ fixed_files
  | ProbeRead path limit _ => path ∈ fixed_files /\ limit = 4096
  | ProbeCommand name arguments _ => name ∈ fixed_programs /\ (arguments = ["-v"] \/ arguments = ["--version"])
  | ProbeService unit _ => unit ∈ fixed_units \/
      exists pattern matches path, pattern ∈ fixed_unit_globs /\ ProbeGlob pattern (Ok matches) ∈ own /\ path ∈ matches /\
        unit = Base path
  | ProbeGlob pattern _ => pattern ∈ "/run/php/php*-fpm.sock" :: fixed_unit_globs
  end.

Lemma defaults_fixed : Forall (fun d =>
  D_Paths d ⊆ fixed_paths /\ D_ManagedMarker d ∈ fixed_paths /\ D_VersionFiles d ⊆ fixed_files /\ D_Services d ⊆ fixed_units /\
  D_ServiceGlobs d ⊆ fixed_unit_globs /\ D_Globs d ⊆ ["/run/php/php*-fpm.sock"] /\
  Forall (fun p => Probe_Command p ∈ fixed_programs /\ (Probe_Args p = ["-v"] \/ Probe_Args p = ["--version"])) (D_Versions d))
  defaultDefinitions.
Proof. apply (bool_decide_unpack _). vm_compute. exact I. Qed.

Lemma allowed_fixed d own p : d ∈ defaultDefinitions -> allowed d own p -> fixed own p.
Proof.
  intros Hd. pose proof defaults_fixed as H. rewrite Forall_forall in H.
  specialize (H d Hd) as (Hp & Hm & Hf & Hs & Hsg & Hg & Hv). destruct p; cbn [allowed fixed]; rewrite ?elem_of_app.
  - intros [?|[->|?]]; auto.
  - intros [? ->]. auto.
  - rewrite Forall_forall in Hv. apply (Hv (Probe name args)).
  - intros [?|(pattern & matches & path & ? & ? & ? & ->)]; [by left; auto|]. right. exists pattern, matches, path. auto.
  - intros [?|?]; rewrite elem_of_cons; [left|right; auto]. apply list_elem_of_singleton. auto.
Qed.

Lemma fixed_mono own more p : fixed own p -> fixed (own ++ more) p.
Proof.
  destruct p; simpl; try done. intros [?|(pattern & matches & path & ? & ? & ? & ?)]; [by left|]. right.
  exists pattern, matches, path. split_and!; [done| |done|done]. apply elem_of_app. by left.
Qed.
Lemma fixed_before own more p : fixed own p -> fixed (more ++ own) p.
Proof.
  destruct p; simpl; try done. intros [?|(pattern & matches & path & ? & ? & ? & ?)]; [by left|]. right.
  exists pattern, matches, path. split_and!; [done| |done|done]. apply elem_of_app. by right.
Qed.
Definition all_fixed (own : list probe) : Prop := Forall (fixed own) own.
Lemma all_fixed_app own more : all_fixed own -> all_fixed more -> all_fixed (own ++ more).
Proof.
  intros Ho Hm. apply Forall_app. split.
  - eapply Forall_impl; [exact Ho|]. intros p. apply fixed_mono.
  - eapply Forall_impl; [exact Hm|]. intros p. apply fixed_before.
Qed.

Section fixed_probes.
Context {O : Type} `{!Observer O}.

Lemma scanDefinition_fixed d observed : d ∈ defaultDefinitions ->
  yields (O := O) (scanDefinition d observed) (fun own _ => all_fixed own).
Proof.
  intros Hd. eapply yields_weaken; [apply scanDefinition_confined|]. simpl. intros own _ Ho.
  eapply Forall_impl; [exact Ho|]. intros p. by apply allowed_fixed.
Qed.

Lemma scan_all_fixed ds observed acc : ds ⊆ defaultDefinitions ->
  yields (O := O) (scan_all ds observed acc) (fun own _ => all_fixed own).
Proof.
  revert acc. induction ds as [|d ds IH]; intros acc Hd; simpl; [by apply yields_ret; constructor|].
  eapply yields_bind; [apply scanDefinition_fixed; set_solver|]. simpl. intros own [c|e] Ho.
  - eapply yields_weaken; [apply IH; set_solver|]. simpl. intros more _. by apply all_fixed_app.
  - apply yields_ret. by rewrite app_nil_r.
Qed.

Lemma take_Snapshot_fixed ds : ds ⊆ defaultDefinitions -> yields (O := O) (take_Snapshot ds) (fun own _ => all_fixed own).
Proof.
  intros Hds. unfold take_Snapshot, ctx_Err, now. eapply yields_bind; [by apply (yields_look _ _ (fun l r => l = []))|]. simpl.
  intros ? [e|] ->; [apply yields_ret; constructor|].
  eapply yields_bind; [by apply (yields_look _ _ (fun l r => l = []))|]. simpl. intros ? observed ->.
  eapply yields_bind; [by apply scan_all_fixed|]. simpl. intros own [components|e] Ho; apply yields_ret; by rewrite app_nil_r.
Qed.

Lemma find_Component_fixed ds id : ds ⊆ defaultDefinitions ->
  yields (O := O) (find_Component ds id) (fun own _ => all_fixed own).
Proof.
  induction ds as [|d ds IH]; intros Hd; simpl; [by apply yields_ret; constructor|].
  destruct (D_ID d != id); [apply IH; set_solver|]. unfold now.
  eapply yields_bind; [by apply (yields_look _ _ (fun l r => l = []))|]. simpl. intros ? observed ->.
  eapply yields_bind; [apply scanDefinition_fixed; set_solver|]. simpl. intros own r Ho. apply yields_ret. by rewrite app_nil_r.
Qed.

Lemma find_Component_unknown ds id (s : sight O) : id ∉ D_ID <$> ds -> find_Component ds id s = (None, s).
Proof.
  induction ds as [|d ds IH]; simpl; [done|]. intros Hid.
  assert ((D_ID d != id) = true) as ->. { apply neqb_true. set_solver. } apply IH. set_solver.
Qed.

(** C37 Whatever the host answers, an inventory observes only what is compiled in: it asks for the existence of fixed paths,
    reads at most 4096 bytes of four fixed version files, starts eleven fixed programs (no shell among them) with a fixed
    version flag, expands four fixed patterns, and asks systemd about fixed units and about files that three of the patterns
    matched.  The identifier in a request only selects a definition: an unknown one causes no observation at all. *)
Theorem inventory_probes_fixed (s : sight O) (id : string) :
  (exists own, sight_trace (take_Snapshot defaultDefinitions s).2 = sight_trace s ++ own /\ Forall (fixed own) own) /\
  (exists own, sight_trace (find_Component defaultDefinitions id s).2 = sight_trace s ++ own /\ Forall (fixed own) own) /\
  (id ∉ D_ID <$> defaultDefinitions -> find_Component defaultDefinitions id s = (None, s)).
Proof.
  split; [|split].
  - destruct (take_Snapshot_fixed defaultDefinitions (reflexivity _) s) as (own & Ht & Ho). exact (ex_intro _ own (conj Ht Ho)).
  - destruct (find_Component_fixed defaultDefinitions id (reflexivity _) s) as (own & Ht & Ho). exact (ex_intro _ own (conj Ht Ho)).
  - apply find_Component_unknown.
Qed.
End fixed_probes.

(** ** The published contract *)

Lemma appendUnique_elem l x y : y ∈ appendUnique l x <-> y ∈ l \/ y = x.
Proof.
  unfold appendUnique. destruct (existsb _ l) eqn:E; [|by rewrite elem_of_app, list_elem_of_singleton].
  apply existsb_elem in E as (z & Hz & ->%String.eqb_eq). split; [auto|]. by intros [?| ->].
Qed.
Lemma appendUnique_NoDup l x : NoDup l -> NoDup (appendUnique l x).
Proof.
  intros H. unfold appendUnique. destruct (existsb _ l) eqn:E; [done|]. apply NoDup_app. split; [done|]. split; [|apply NoDup_singleton].
  intros y Hy ->%list_elem_of_singleton. assert (existsb (String.eqb x) l = true); [|congruence].
  apply existsb_elem. exists x. by rewrite String.eqb_refl.
Qed.
Lemma unique_NoDup l : NoDup (unique l).
Proof.
  unfold unique. assert (H : NoDup (@nil string)) by constructor. revert H. generalize (@nil string) as acc.
  induction l as [|x l IH]; intros acc H; simpl; [done|]. by apply IH, appendUnique_NoDup.
Qed.

(** [sort.Strings] of distinct strings. *)
Lemma sort_Strings_sorted l : NoDup l -> StronglySorted str_lt (sort_Strings l).
Proof. intros H. apply (sort_by_sorted (fun s => s)). by rewrite list_fmap_id. Qed.

(** [schema/component-inventory-v1alpha1.schema.json], without the formats of strings it leaves open. *)
Definition id_pattern : string := "^[a-z0-9][a-z0-9-]{0,63}$".
Record conforms (observed : time) (c : Component) : Prop := {
  conforms_id : matches id_pattern (Cp_ID c) = true;
  conforms_ownership : Cp_Ownership c ∈ ["managed"; "external"; "disabled"; "unknown"];
  conforms_health : Cp_Health c ∈ ["healthy"; "degraded"; "disabled"; "unknown"];
  conforms_services : StronglySorted str_lt (Cp_Services c);
  conforms_roots : StronglySorted str_lt (Cp_Roots c);
  conforms_capabilities : StronglySorted str_lt (Cp_Capabilities c);
  conforms_listeners : Cp_Listeners c = [];
  conforms_observed : Cp_ObservedAt c = observed
}.

Lemma defaults_conform : Forall (fun d => matches id_pattern (D_ID d) = true /\ NoDup (D_Capabilities d)) defaultDefinitions.
Proof. apply (bool_decide_unpack _). vm_compute. exact I. Qed.

Lemma ownership_enum f : ownership f ∈ ["managed"; "external"; "disabled"; "unknown"].
Proof. unfold ownership. repeat case_match; set_solver. Qed.
Lemma health_enum f : health f ∈ ["healthy"; "degraded"; "disabled"; "unknown"].
Proof. unfold health. repeat case_match; set_solver. Qed.

Lemma conclude_conforms d observed own f : d ∈ defaultDefinitions -> facts own f -> conforms observed (conclude d observed f).
Proof.
  intros Hd []. pose proof defaults_conform as H. rewrite Forall_forall in H. destruct (H d Hd) as [Hid Hcap].
  constructor; simpl; [done|apply ownership_enum|apply health_enum| | | |done|done].
  - rewrite fact_services0. apply sort_Strings_sorted, unique_NoDup.
  - rewrite fact_roots0. apply sort_Strings_sorted, unique_NoDup.
  - by apply sort_Strings_sorted.
Qed.

Section contract.
Context {O : Type} `{!Observer O}.

Definition scanned (observed : time) (d : definition) (c : Component) : Prop := Cp_ID c = D_ID d /\ conforms observed c.

Lemma scanDefinition_conforms d observed : d ∈ defaultDefinitions ->
  yields (O := O) (scanDefinition d observed) (fun _ r => match r with Ok c => scanned observed d c | Err _ => True end).
Proof.
  intros Hd. eapply yields_weaken; [apply scanDefinition_facts|]. simpl. intros own [c|] H; [|done].
  destruct H as (f & Hf & _ & ->). split; [done|]. by apply (conclude_conforms d observed own).
Qed.

Lemma scan_all_conforms ds observed acc done_ : ds ⊆ defaultDefinitions -> Forall2 (scanned observed) done_ acc ->
  yields (O := O) (scan_all ds observed acc)
    (fun _ r => match r with Ok cs => Forall2 (scanned observed) (done_ ++ ds) cs | Err _ => True end).
Proof.
  revert acc done_. induction ds as [|d ds IH]; intros acc done_ Hd Hacc; simpl.
  - apply yields_ret. by rewrite app_nil_r.
  - eapply yields_bind; [apply scanDefinition_conforms; set_solver|]. simpl. intros own [c|e] Hc; [|by apply yields_ret].
    eapply yields_weaken; [apply (IH _ (done_ ++ [d])); [set_solver|]|].
    + by apply Forall2_app; [|constructor].
    + simpl. intros more [cs|e]; [|done]. by rewrite <- app_assoc.
Qed.

Lemma take_Snapshot_conforms ds : ds ⊆ defaultDefinitions ->
  yields (O := O) (take_Snapshot ds) (fun _ r =>
    match r with
    | Ok snapshot => exists cs, snapshot = {| Sn_Schema := SchemaVersion; Sn_ObservedAt := Sn_ObservedAt snapshot;
                                              Sn_Components := sort_by Cp_ID cs |} /\
                                Forall2 (scanned (Sn_ObservedAt snapshot)) ds cs
    | Err _ => True
    end).
Proof.
  intros Hd. unfold take_Snapshot, ctx_Err, now. eapply yields_bind; [by apply (yields_look _ _ (fun l r => l = []))|]. simpl.
  intros ? [e|] ->; [by apply yields_ret|].
  eapply yields_bind; [by apply (yields_look _ _ (fun l r => l = []))|]. simpl. intros ? observed ->.
  eapply yields_bind; [apply (scan_all_conforms ds observed [] []); [done|constructor]|]. simpl.
  intros own [cs|e] H; apply yields_ret; [|done]. by exists cs.
Qed.

(** Scans end with an error only when their context has ended. *)
Definition context_lives : Prop := forall o : O, (obs_Err o).1 = None.

Lemma scanDefinition_answers d observed (s : sight O) : context_lives -> is_ok (scanDefinition d observed s).1 = true.
Proof.
  intros Hc. unfold scanDefinition, ctx_Err, look, mbind, scanning_bind. pose proof (Hc (sight_observer s)) as H.
  destruct (obs_Err (sight_observer s)) as [err o]. simpl in H. subst err. simpl.
  destruct (scan_probes d _) as [f s1]. done.
Qed.

Lemma scan_all_answers ds observed acc (s : sight O) : context_lives -> is_ok (scan_all ds observed acc s).1 = true.
Proof.
  intros Hc. revert acc s. induction ds as [|d ds IH]; intros acc s; simpl; [done|]. unfold mbind, scanning_bind.
  pose proof (scanDefinition_answers d observed s Hc) as H. destruct (scanDefinition d observed s) as [[c|e] s1]; [|done]. apply IH.
Qed.

Lemma take_Snapshot_answers ds (s : sight O) : context_lives -> is_ok (take_Snapshot ds s).1 = true.
Proof.
  intros Hc. unfold take_Snapshot, ctx_Err, now, look, mbind, scanning_bind. pose proof (Hc (sight_observer s)) as H.
  destruct (obs_Err (sight_observer s)) as [err o]. simpl in H. subst err. simpl. destruct (obs_now o) as [observed o1]. simpl.
  match goal with |- context [scan_all ds observed [] ?s] =>
    pose proof (scan_all_answers ds observed [] s Hc) as H; destruct (scan_all ds observed [] s) as [[cs|e] s1]; [done|done] end.
Qed.

Lemma snapshot_conforms (s : sight O) snapshot :
  (take_Snapshot defaultDefinitions s).1 = Ok snapshot ->
  Sn_Schema snapshot = SchemaVersion /\ Forall (conforms (Sn_ObservedAt snapshot)) (Sn_Components snapshot) /\
  exists cs, Sn_Components snapshot = sort_by Cp_ID cs /\ Cp_ID <$> cs = D_ID <$> defaultDefinitions.
Proof.
  intros E. destruct (take_Snapshot_conforms defaultDefinitions (reflexivity _) s) as (own & _ & H). rewrite E in H.
  destruct H as (cs & -> & Hcs). cbn [Sn_Schema Sn_Components Sn_ObservedAt] in *. split; [reflexivity|]. split.
  - rewrite sort_by_perm. clear -Hcs. induction Hcs as [|d c ds cs [_ H] _ IH]; constructor; assumption.
  - exists cs. split; [reflexivity|]. clear -Hcs. induction Hcs as [|d c ds cs [H _] _ IH]; [reflexivity|]. by rewrite !fmap_cons, H, IH.
Qed.

(** C39 Every inventory has the promised form, whatever the host answers: it lists the twelve compiled components once
    each, in the order of their identifiers, all observed at the time of the inventory, with sorted lists without repetition and
    values of the enumerations, and no guessed listeners; and it fails only when its context has ended. *)
Theorem inventory_contract (s : sight O) :
  (context_lives -> exists snapshot, (take_Snapshot defaultDefinitions s).1 = Ok snapshot) /\
  match (take_Snapshot defaultDefinitions s).1 with
  | Err _ => True
  | Ok snapshot =>
    Sn_Schema snapshot = SchemaVersion /\
    Cp_ID <$> Sn_Components snapshot = ["apache"; "container-runtime"; "ember-coreui"; "keyhelp"; "mariadb"; "nginx"; "ollama";
      "php"; "postgresql"; "quantum-runtime"; "searxng"; "starlight-unit-game"] /\
    Forall (conforms (Sn_ObservedAt snapshot)) (Sn_Components snapshot)
  end.
Proof.
  split.
  - intros Hc. pose proof (take_Snapshot_answers defaultDefinitions s Hc) as H.
    destruct (take_Snapshot defaultDefinitions s).1 as [snapshot|e]; [by exists snapshot|discriminate H].
  - destruct (take_Snapshot defaultDefinitions s).1 as [snapshot|e] eqn:E; [|exact I].
    destruct (snapshot_conforms s snapshot E) as (Hs & Hc & cs & Ecs & Hids). split; [exact Hs|]. split; [|exact Hc].
    rewrite Ecs, sort_by_keys, Hids. vm_compute. reflexivity.
Qed.
End contract.

(** ** Version texts *)

Definition version_rune (t : token) : bool :=
  insensitive version_class t || insensitive [("-", "-"); ("+", "+"); (".", "."); ("_", "_")]%char t.

(** The group of a match is a version number. *)
Lemma versionPattern_match before after d : denotes versionPattern (Cursor before after []) d ->
  exists t w, captured d = t :: w /\ insensitive digit_class t = true /\ Forall (fun t => version_rune t = true) (t :: w).
Proof.
  intros H. unfold versionPattern, one_of in H.
  inversion H as [| |? ? c d1 e _ H1| | | | |]; subst. inversion H1 as [| |? ? c' d2 e' _ H2| | | | |]; subst.
  inversion H2 as [| |? ? c'' d3 e'' H3 H4| | | | |]; subst. inversion H4; subst. inversion H3 as [| | | | | | |? ? d4 H5]; subst.
  pose proof (denotes_moves _ _ _ H5) as (w & _ & Hs & Hw). simpl captured. rewrite (passed_spec _ _ w Hs).
  assert (Hlet : Forall (fun t => version_rune t = true) w).
  { eapply Forall_impl; [exact Hw|]. intros t. unfold version_number, one_of, version_rune. simpl.
    assert (Hd : insensitive digit_class t = true -> insensitive version_class t = true).
    { unfold insensitive. destruct (fold_token t) as [|a [|]]; [done| |done]. unfold in_class. simpl. intros E.
      rewrite !orb_false_r in E. apply orb_true_iff in E as [-> | ->]; simpl; rewrite ?orb_true_r; done. }
    assert (Hdot : insensitive [(".", ".")]%char t = true -> insensitive version_class t = true).
    { unfold insensitive. destruct (fold_token t) as [|a [|]]; [done| |done]. unfold in_class. simpl. intros E.
      rewrite !orb_false_r in E. apply orb_true_iff in E as [-> | ->]; simpl; rewrite ?orb_true_r; done. }
    rewrite !orb_true_iff. intuition. }
  unfold version_number in H5. inversion H5 as [| |? ? c1 d5 e1 H6 _| | | | |]; subst.
  assert (Hfirst : exists t l, ahead d2 = t :: l /\ insensitive digit_class t = true).
  { inversion H6; subst; match goal with H : denotes (one_of _) _ _ |- _ => inversion H; subst end; eauto. }
  destruct Hfirst as (t & l & Hl & Ht).
  pose proof (denotes_moves _ _ _ H5) as (w' & Ha & Hs' & _).
  assert (w' = w) as ->. { rewrite Hs in Hs'. apply app_inv_tail in Hs'. apply (f_equal (@rev token)) in Hs'. by rewrite !rev_involutive in Hs'. }
  destruct w as [|t' w].
  - exfalso. apply denotes_passes in H5; [|done]. rewrite Ha in H5. simpl in H5. lia.
  - exists t', w. rewrite Ha in Hl. simplify_eq/=. done.
Qed.

Lemma digit_token t : insensitive digit_class t = true -> exists a, t = Rune [a] /\ is_digit a = true.
Proof.
  unfold insensitive. destruct t as [[|a [|b l]]|]; simpl; try done; [intros H; exists a; split; [done|]|].
  - unfold in_class, upper_ascii, lower_ascii, is_digit in *. simpl in H. rewrite !orb_false_r in H. revert H.
    destruct a as [[] [] [] [] [] [] [] []]; vm_compute; done.
  - destruct l as [|c l]; repeat case_decide; try done; destruct l; try done; intros H; vm_compute in H; done.
Qed.

Lemma TrimPrefix_digit a w : is_digit a = true -> TrimPrefix (text_of (Rune [a] :: w)) "v" = text_of (Rune [a] :: w).
Proof.
  intros Ha. assert (E : text_of (Rune [a] :: w) = String.String a (of_bytes (mjoin (token_bytes <$> w)))) by done.
  rewrite E. unfold TrimPrefix, HasPrefix. cbn [String.prefix]. destruct (Ascii.ascii_dec "v" a) as [<-|]; [|done].
  vm_compute in Ha. discriminate.
Qed.

(** What can be reported as a version. A text in which the version pattern is found gives the number found: it starts with a
    digit and consists of digits, letters and the characters [.-+_], so no line break or escape can get through. Any other text
    is reported only when its first 128 bytes contain no control character and none of the words password, token, secret and
    credential. *)
Theorem cleanVersion_reports raw :
  match FindStringSubmatch versionPattern (TrimSpace raw) with
  | Some version =>
    cleanVersion raw = version /\
    exists a w, version = text_of (Rune [a] :: w) /\ is_digit a = true /\ Forall (fun t => version_rune t = true) w
  | None =>
    cleanVersion raw = "" \/
    (cleanVersion raw = slice_to 128 (TrimSpace raw) /\ slen (cleanVersion raw) <= 128 /\
     existsb control_rune (tokens (to_bytes (cleanVersion raw))) = false /\
     Forall (fun word => Contains (ToLower (cleanVersion raw)) word = false) forbidden_words)
  end.
Proof.
  unfold cleanVersion. generalize (TrimSpace raw). intros value. destruct (value == "") eqn:E0.
  { apply String.eqb_eq in E0. subst. assert (FindStringSubmatch versionPattern "" = None) as -> by by vm_compute. by left. }
  destruct (FindStringSubmatch versionPattern value) as [version|] eqn:E.
  - unfold FindStringSubmatch in E. destruct (find _ _ _) as [d|] eqn:Ef; [|done]. simpl in E. simplify_eq.
    apply find_Some in Ef as (skipped & rest & _ & (t & w & Hc & (a & -> & Ha)%digit_token & Hw)%versionPattern_match); [|done].
    rewrite Hc. split; [|exists a, w; inversion Hw; done].
    by apply TrimPrefix_digit.
  - assert (Hs : (if 128 <? slen value then slice_to 128 value else value) = slice_to 128 value).
    { destruct (128 <? slen value) eqn:El; [done|]. apply Z.ltb_ge in El. unfold slice_to.
      rewrite take_ge, of_to_bytes; [done|]. rewrite length_to_bytes. unfold slen in El. lia. }
    rewrite Hs. destruct (existsb control_rune _) eqn:Ec; [by left|]. destruct (existsb (Contains _) _) eqn:Ew; [by left|]. right.
    split_and!; [done|by apply slen_slice_to|done|]. apply Forall_forall. intros word Hword.
    destruct (Contains (ToLower _) word) eqn:Ex; [|done].
    assert (existsb (Contains (ToLower (slice_to 128 value))) forbidden_words = true); [|congruence].
    apply existsb_elem. by exists word.
Qed.

(** The words are not looked for in a text with a version number, and a release suffix may hold one. *)
Theorem version_words_unfiltered :
  cleanVersion "1.0-secret" = "1.0-secret" /\ cleanVersion "token 2.1-hunter2" = "2.1-hunter2" /\
  cleanVersion "password=supersecret" = "".
Proof. by vm_compute. Qed.

Example cleanVersion_examples :
  cleanVersion "Server version: Apache/2.4.58 (Ubuntu)" = "2.4.58" /\ cleanVersion "ollama version is v0.11.10" = "0.11.10" /\
  cleanVersion "0.5.2-alpha" = "0.5.2-alpha" /\ cleanVersion " nightly " = "nightly" /\
  cleanVersion "psql (PostgreSQL) 16.3 (Ubuntu 16.3-0ubuntu0.24.04.1)" = "16.3".
Proof. by vm_compute. Qed.

(** ** Ownership markers and their directories *)

Lemma marker_in_path : Forall (fun d =>
  D_ManagedMarker d = "" \/ D_ManagedMarker d = "/etc/quantum-runtime" +:+ "/" +:+ ".managed.json" /\
                           "/etc/quantum-runtime" ∈ D_Paths d) defaultDefinitions.
Proof. apply (bool_decide_unpack _). vm_compute. exact I. Qed.

Section evidence_grows.
Context {O : Type} `{!Observer O}.

(** Walks through a step: each observation and each case of its answer. *)
Ltac walk := repeat (
  first [ apply yields_ret
        | eapply yields_bind; [apply (yields_look _ _ (fun _ _ => True)); by intros|simpl; intros ? ? _]
        | case_match ]).

Lemma found_files_grow e l f : e ∈ Fd_Evidence f -> e ∈ Fd_Evidence (fold_left (fun f path => found_file path f) l f).
Proof. revert f. induction l as [|path l IH]; intros f He; simpl; [done|]. apply IH. simpl. set_solver. Qed.

Lemma scan_path_grows e path f : e ∈ Fd_Evidence f -> yields (O := O) (scan_path path f) (fun _ g => e ∈ Fd_Evidence g).
Proof. intros He. unfold scan_path, PathExists. walk; simpl; set_solver. Qed.
Lemma scan_marker_grows e path f : e ∈ Fd_Evidence f -> yields (O := O) (scan_marker path f) (fun _ g => e ∈ Fd_Evidence g).
Proof. intros He. unfold scan_marker, PathExists. walk; simpl; set_solver. Qed.
Lemma scan_glob_grows e pattern f : e ∈ Fd_Evidence f -> yields (O := O) (scan_glob pattern f) (fun _ g => e ∈ Fd_Evidence g).
Proof. intros He. unfold scan_glob, Glob. walk; simpl; [by apply found_files_grow|done]. Qed.
Lemma scan_service_grows e unit f : e ∈ Fd_Evidence f -> yields (O := O) (scan_service unit f) (fun _ g => e ∈ Fd_Evidence g).
Proof. intros He. unfold scan_service, Service. walk; simpl; set_solver. Qed.
Lemma scan_version_file_grows e file f : e ∈ Fd_Evidence f ->
  yields (O := O) (scan_version_file file f) (fun _ g => e ∈ Fd_Evidence g).
Proof. intros He. unfold scan_version_file, PathExists, ReadFile. walk; simpl; set_solver. Qed.
Lemma scan_version_grows e p f : e ∈ Fd_Evidence f -> yields (O := O) (scan_version p f) (fun _ g => e ∈ Fd_Evidence g).
Proof. intros He. unfold scan_version, Command. walk; simpl; set_solver. Qed.
Lemma scan_service_glob_grows e pattern state : e ∈ Fd_Evidence state.1 ->
  yields (O := O) (scan_service_glob pattern state) (fun _ g => e ∈ Fd_Evidence g.1).
Proof. intros He. unfold scan_service_glob, Glob. walk; simpl; set_solver. Qed.

(** A file system whose answers do not change during the scan. *)
Variable present : string -> bool.
Hypothesis stable : forall path o, (obs_PathExists path o).1 = Ok (present path).

Lemma yields_present path : yields (O := O) (PathExists path) (fun _ r => r = Ok (present path)).
Proof.
  intros s. unfold PathExists, look. pose proof (stable path (sight_observer s)) as H.
  destruct (obs_PathExists path (sight_observer s)) as [r o]. simpl in *. by exists [ProbePath path r].
Qed.

Lemma scan_path_found path f : present path = true ->
  yields (O := O) (scan_path path f) (fun _ g => Seen "path" path "present" ∈ Fd_Evidence g).
Proof.
  intros Hp. unfold scan_path. eapply yields_bind; [apply yields_present|]. simpl. intros own r ->. rewrite Hp.
  apply yields_ret. simpl. set_solver.
Qed.

Lemma each_path_found path l f : path ∈ l -> present path = true ->
  yields (O := O) (each scan_path l f) (fun _ g => Seen "path" path "present" ∈ Fd_Evidence g).
Proof.
  revert f. induction l as [|a l IH]; intros f Hin Hp; [by apply not_elem_of_nil in Hin|]. simpl.
  destruct (decide (path = a)) as [<-|Hne].
  - eapply yields_bind; [by apply scan_path_found|]. simpl. intros own g Hg.
    apply (yields_each _ _ _ (fun _ g => Seen "path" path "present" ∈ Fd_Evidence g) []); [done|].
    intros. by apply scan_path_grows.
  - assert (Ha : yields (O := O) (scan_path a f) (fun _ _ => True)) by (unfold scan_path, PathExists; walk; exact I).
    eapply yields_bind; [exact Ha|]. simpl. intros own g _. apply IH; [set_solver|done].
Qed.

Lemma scan_marker_found marker f : marker <> "" -> present marker = true ->
  yields (O := O) (scan_marker marker f) (fun _ g => Seen "ownership-marker" marker "present" ∈ Fd_Evidence g).
Proof.
  intros Hm Hp. unfold scan_marker. apply String.eqb_neq in Hm. rewrite Hm.
  eapply yields_bind; [apply yields_present|]. simpl. intros own r ->. rewrite Hp. apply yields_ret. simpl. set_solver.
Qed.

Lemma each_grows {A} e (step : A -> findings -> scanning O findings) l f :
  (forall a f, e ∈ Fd_Evidence f -> yields (step a f) (fun _ g => e ∈ Fd_Evidence g)) ->
  e ∈ Fd_Evidence f -> yields (each step l f) (fun _ g => e ∈ Fd_Evidence g).
Proof. intros Hs He. apply (yields_each step l f (fun _ g => e ∈ Fd_Evidence g) []); auto. Qed.

(** Evidence survives the loops after the marker. *)
Lemma scan_after_marker (d : definition) e f : e ∈ Fd_Evidence f ->
  yields (O := O)
    (f ← each scan_glob (D_Globs d) f;
     '(f, serviceNames) ← each scan_service_glob (D_ServiceGlobs d) (f, D_Services d);
     f ← each scan_service serviceNames f;
     f ← each scan_version_file (D_VersionFiles d) f;
     each scan_version (D_Versions d) f)
    (fun _ g => e ∈ Fd_Evidence g).
Proof.
  intros He. eapply yields_bind; [by apply each_grows; [apply scan_glob_grows|]|]. simpl. intros _ f1 H1. eapply yields_bind.
  { apply (yields_each _ _ _ (fun _ state => e ∈ Fd_Evidence state.1) []); [exact H1|]. intros. by apply scan_service_glob_grows. }
  simpl. intros _ [f2 names] H2.
  eapply yields_bind; [by apply each_grows; [apply scan_service_grows|exact H2]|]. simpl. intros _ f3 H3.
  eapply yields_bind; [by apply each_grows; [apply scan_version_file_grows|exact H3]|]. simpl. intros _ f4 H4.
  by apply each_grows; [apply scan_version_grows|].
Qed.

Lemma scan_probes_marker d path : path ∈ D_Paths d -> present path = true -> D_ManagedMarker d <> "" ->
  present (D_ManagedMarker d) = true ->
  yields (O := O) (scan_probes d) (fun _ f =>
    Seen "path" path "present" ∈ Fd_Evidence f /\ Seen "ownership-marker" (D_ManagedMarker d) "present" ∈ Fd_Evidence f).
Proof.
  intros Hin Hp Hm Hpm. unfold scan_probes. eapply yields_bind; [by apply each_path_found|]. simpl. intros _ f1 H1.
  eapply yields_bind; [apply yields_and; [by apply scan_marker_grows; exact H1|by apply scan_marker_found]|].
  simpl. intros _ f2 [H2 H3]. apply yields_and; by apply scan_after_marker.
Qed.

(** A managed marker needs no runtime behind it. The compiled definition of the Quantum Runtime counts the directory of its
    marker as confirming evidence, so on a file system, where a file exists only in a directory that exists, the marker alone
    makes the component managed, whatever its unit does; the warning about a stale marker cannot occur. *)
Theorem marker_alone_is_managed d observed (s : sight O) c s' :
  d ∈ defaultDefinitions -> D_ManagedMarker d <> "" ->
  (forall directory name, present (directory +:+ "/" +:+ name) = true -> present directory = true) ->
  present (D_ManagedMarker d) = true ->
  scanDefinition d observed s = (Ok c, s') ->
  Cp_Ownership c = OwnershipManaged /\ "managed marker exists without confirming runtime evidence" ∉ Cp_Warnings c.
Proof.
  intros Hd Hm Hfs Hp E.
  assert (Hdir : exists path, path ∈ D_Paths d /\ present path = true).
  { pose proof marker_in_path as H. rewrite Forall_forall in H. destruct (H d Hd) as [?|[Hd' Hin]]; [done|].
    exists "/etc/quantum-runtime". split; [done|]. apply (Hfs _ ".managed.json"). by rewrite <- Hd'. }
  destruct Hdir as (path & Hin & Hpath).
  assert (Hscan : yields (O := O) (scanDefinition d observed) (fun own r => match r with
            | Ok c => exists f, facts own f /\ c = conclude d observed f /\ Seen "path" path "present" ∈ Fd_Evidence f /\
                                Seen "ownership-marker" (D_ManagedMarker d) "present" ∈ Fd_Evidence f
            | Err _ => True end)).
  { unfold scanDefinition, ctx_Err. eapply yields_bind; [by apply (yields_look _ _ (fun l r => l = []))|]. simpl.
    intros ? [e|] ->; [by apply yields_ret|].
    eapply yields_bind; [apply yields_and; [apply scan_probes_facts|by apply (scan_probes_marker d path)]|]. simpl.
    intros own f (Hf & H1 & H2). apply yields_ret. exists f. by rewrite app_nil_r. }
  destruct (Hscan s) as (own & _ & H). rewrite E in H. destruct H as (f & Hf & -> & H1 & H2).
  assert (Hmk : marked (conclude d observed f) = true) by (apply existsb_elem; eauto).
  assert (Hcf : confirmed (conclude d observed f) = true) by (apply existsb_elem; eauto).
  assert (Hw : Fd_NonMarker f =? 0 = false).
  { rewrite (fact_nonmarker _ _ Hf), (proj2 (count_existsb _ (Fd_Evidence f))). change (negb (confirmed (conclude d observed f)) = false).
    by rewrite Hcf. }
  split.
  - simpl. rewrite (ownership_spec d observed own f Hf). by rewrite Hmk, Hcf.
  - simpl. unfold warnings. rewrite Hw, andb_false_r. repeat case_match; set_solver.
Qed.
End evidence_grows.

(** ** The observer on the host and systemctl *)

(** What [systemctl show] prints for a unit. *)
Definition service_lines (state : ServiceState) : list string :=
  ["Id" +:+ "=" +:+ SS_Unit state; "LoadState" +:+ "=" +:+ SS_LoadState state;
   "ActiveState" +:+ "=" +:+ SS_ActiveState state; "SubState" +:+ "=" +:+ SS_SubState state].

(** Read back whatever the order of the lines. *)
Lemma service_line_comm state s x y : x ∈ service_lines state -> y ∈ service_lines state ->
  service_line (service_line s x) y = service_line (service_line s y) x.
Proof.
  intros Hx Hy. unfold service_lines in Hx, Hy.
  repeat (apply elem_of_cons in Hx as [->|Hx]); try by apply not_elem_of_nil in Hx.
  all: repeat (apply elem_of_cons in Hy as [->|Hy]); try by apply not_elem_of_nil in Hy.
  all: unfold service_line;
    repeat (first [rewrite (Cut_line "Id") by reflexivity|rewrite (Cut_line "LoadState") by reflexivity|
                   rewrite (Cut_line "ActiveState") by reflexivity|rewrite (Cut_line "SubState") by reflexivity]); reflexivity.
Qed.

Lemma parse_service_print unit state lines : lines ≡ₚ service_lines state -> forallb plain_line lines = true ->
  parse_service unit (print_lines lines) = Ok state.
Proof.
  intros Hp H. unfold parse_service. rewrite (scan_print _ H). f_equal.
  rewrite (fold_left_perm _ _ _ _ Hp) by (intros a x y; rewrite !Hp; apply service_line_comm).
  destruct state as [u l a b]. unfold service_lines. cbn [fold_left SS_Unit SS_LoadState SS_ActiveState SS_SubState].
  unfold service_line.
  rewrite (Cut_line "Id"), (Cut_line "LoadState"), (Cut_line "ActiveState"), (Cut_line "SubState") by reflexivity. reflexivity.
Qed.

(** ** The fixtures of the tests *)

Record fixture := {
  Fx_Paths : list string;
  Fx_Files : list (string * string);
  Fx_Commands : list (string * list string * string);
  Fx_Services : list ServiceState;
  Fx_Globs : list (string * list string);
  Fx_PathErrors : list string
}.
Definition assoc {A B} `{!EqDecision A} (l : list (A * B)) (a : A) : option B :=
  find_first (fun '(x, b) => if decide (x = a) then Some b else None) l.
Definition not_found (unit : string) : ServiceState :=
  {| SS_Unit := unit; SS_LoadState := "not-found"; SS_ActiveState := "inactive"; SS_SubState := "dead" |}.
Definition fixture_exists (f : fixture) (path : string) : bool :=
  bool_decide (path ∈ Fx_Paths f) || bool_decide (is_Some (assoc (Fx_Files f) path)).

#[export] Instance fixtureObserver : Observer fixture := {
  obs_PathExists path f :=
    (if bool_decide (path ∈ Fx_PathErrors f) then fail "denied" else Ok (fixture_exists f path), f);
  obs_ReadFile path _ f := (match assoc (Fx_Files f) path with Some data => Ok data | None => fail "file does not exist" end, f);
  obs_Command name arguments f :=
    (match assoc (Fx_Commands f) (name, arguments) with Some output => Ok output | None => fail "unavailable" end, f);
  obs_Service unit f := (Ok (default (not_found unit) (List.find (fun state => SS_Unit state == unit) (Fx_Services f))), f);
  obs_Glob pattern f := (Ok (default [] (assoc (Fx_Globs f) pattern)), f);
  obs_now f := (0, f);
  obs_Err f := (None, f)
}.

Definition running (unit : string) : ServiceState :=
  {| SS_Unit := unit; SS_LoadState := "loaded"; SS_ActiveState := "active"; SS_SubState := "running" |}.
(** [testdata/starlight.json]. *)
Definition starlight : fixture := {|
  Fx_Paths := ["/usr/local/bin/ollama"; "/usr/local/bin/quantum-runtime"; "/etc/quantum-runtime";
               "/etc/quantum-runtime/.managed.json"; "/opt/ember-coreui"];
  Fx_Files := [("/opt/ember-coreui/VERSION", "0.5.2-alpha")];
  Fx_Commands := [(("ollama", ["--version"]), "ollama version 0.11.10")];
  Fx_Services := [running "ollama.service"; running "quantum-runtime.service"];
  Fx_Globs := []; Fx_PathErrors := [] |}.
(** [testdata/clean.json], with a marker whose directory holds nothing else. *)
Definition stale : fixture := {|
  Fx_Paths := ["/etc/quantum-runtime/.managed.json"; "/etc/quantum-runtime"; "/etc"; ""];
  Fx_Files := []; Fx_Commands := []; Fx_Services := []; Fx_Globs := []; Fx_PathErrors := [] |}.
Definition no_definition : definition :=
  {| D_ID := ""; D_Name := ""; D_Category := ""; D_Paths := []; D_ManagedMarker := ""; D_VersionFiles := []; D_Versions := [];
     D_Services := []; D_ServiceGlobs := []; D_Globs := []; D_Capabilities := [] |}.
Definition runtime_definition : definition := List.nth 8 defaultDefinitions no_definition.

(** The two test cases on the fixture. *)
Example starlight_snapshot :
  match (take_Snapshot defaultDefinitions (Sight starlight [])).1 with
  | Ok snapshot =>
    (fun c => (Cp_ID c, Cp_Ownership c, Cp_Health c, Cp_Version c)) <$>
      List.filter (fun c => Cp_Ownership c != OwnershipDisabled) (Sn_Components snapshot) =
    [("ember-coreui", "external", "unknown", "0.5.2-alpha"); ("ollama", "external", "healthy", "0.11.10");
     ("quantum-runtime", "managed", "healthy", "")]
  | Err _ => False
  end.
Proof. by vm_compute. Qed.

Lemma ownership_evidence_witness :
  match scanDefinition runtime_definition 0 (Sight starlight []) with
  | (Ok c, _) => marked c = true /\ confirmed c = true /\ Cp_Ownership c = OwnershipManaged
  | (Err _, _) => False
  end.
Proof.
  pose proof (ownership_evidence runtime_definition 0 (Sight starlight [])) as H.
  destruct (scanDefinition runtime_definition 0 (Sight starlight [])) as [[c|e] s'] eqn:E.
  - destruct (H c s' eq_refl) as (own & _ & _ & Hm & _). apply (f_equal fst) in E.
    assert (Ho : Cp_Ownership c = OwnershipManaged).
    { apply (f_equal (fun r => match r with Ok c => Cp_Ownership c | Err _ => "" end)) in E. vm_compute in E. exact (eq_sym E). }
    destruct (proj1 Hm Ho) as [H1 H2]. exact (conj H1 (conj H2 Ho)).
  - apply (f_equal (fun r => is_ok r.1)) in E. vm_compute in E. discriminate E.
Defined.

(** A failed version command is passed over. On a host that answers everything, where nothing of Ollama is found and its
    version command fails, the component is disabled, not unknown. *)
Lemma failed_command_is_disabled :
  let d := List.nth 7 defaultDefinitions no_definition in
  let nothing_there := {| Fx_Paths := []; Fx_Files := []; Fx_Commands := []; Fx_Services := []; Fx_Globs := []; Fx_PathErrors := [] |} in
  match scanDefinition d 0 (Sight nothing_there []) with
  | (Ok c, s') => Cp_Ownership c = OwnershipDisabled /\ exists e, ProbeCommand "ollama" ["--version"] (Err e) ∈ sight_trace s'
  | (Err _, _) => False
  end.
Proof. vm_compute. split; [reflexivity|]. eexists. do 3 right. by left. Qed.

(** The directories of a path. *)
Fixpoint directories (path : string) : list string :=
  match path with
  | EmptyString => []
  | String.String a path => (if Ascii.eqb a "/" then [""] else []) ++ (String.String a <$> directories path)
  end.
Lemma directories_spec directory name : directory ∈ directories (directory +:+ "/" +:+ name).
Proof.
  induction directory as [|a directory IH]; [by left|]. change (String.String a directory ∈ directories (String.String a (directory +:+ "/" +:+ name))).
  simpl directories. apply elem_of_app. right. by apply list_elem_of_fmap_2.
Qed.
Lemma stale_closed directory name :
  fixture_exists stale (directory +:+ "/" +:+ name) = true -> fixture_exists stale directory = true.
Proof.
  intros H. pose proof (directories_spec directory name) as Hd. revert H Hd. generalize (directory +:+ "/" +:+ name). intros path H.
  unfold fixture_exists in H. apply orb_true_iff in H as [H|H]; [|by apply bool_decide_eq_true in H as [? ?]].
  apply bool_decide_eq_true in H. cbn [Fx_Paths stale] in H.
  repeat (apply elem_of_cons in H as [->|H]; [simpl; rewrite ?elem_of_cons, elem_of_nil; intros Hd; intuition (subst; by vm_compute)|]).
  by apply not_elem_of_nil in H.
Qed.

(** The host of the fixture, which cannot change. *)
Definition stale_observer : Observer unit := {|
  obs_PathExists path o := (Ok (fixture_exists stale path), o);
  obs_ReadFile path limit o := ((obs_ReadFile path limit stale).1, o);
  obs_Command name arguments o := ((obs_Command name arguments stale).1, o);
  obs_Service unit o := ((obs_Service unit stale).1, o);
  obs_Glob pattern o := ((obs_Glob pattern stale).1, o);
  obs_now o := (0, o);
  obs_Err o := (None, o)
|}.

Lemma marker_alone_is_managed_witness :
  match @scanDefinition unit stale_observer runtime_definition 0 (Sight tt []) with
  | (Ok c, _) => Cp_Ownership c = OwnershipManaged
  | (Err _, _) => False
  end.
Proof.
  pose proof (@marker_alone_is_managed unit stale_observer (fixture_exists stale) (fun path o => eq_refl)) as H.
  destruct (@scanDefinition unit stale_observer runtime_definition 0 (Sight tt [])) as [[c|e] s'] eqn:E.
  - destruct (H runtime_definition 0 (Sight tt []) c s') as [Ho _]; [| | | |exact E|exact Ho].
    + apply (list_elem_of_lookup_2 _ 8). reflexivity.
    + vm_compute. discriminate.
    + exact stale_closed.
    + vm_compute. reflexivity.
  - apply (f_equal (fun r => is_ok r.1)) in E. vm_compute in E. discriminate E.
Defined.

(** An identifier that is not in the contract, and the inventory of the starlight host. *)
Lemma inventory_probes_fixed_witness :
  find_Component defaultDefinitions "shell" (Sight starlight []) = (None, Sight starlight []).
Proof.
  destruct (inventory_probes_fixed (Sight starlight []) "shell") as (_ & _ & H). apply H.
  apply (bool_decide_unpack _). vm_compute. exact I.
Defined.

Lemma inventory_contract_witness :
  exists snapshot, (take_Snapshot defaultDefinitions (Sight starlight [])).1 = Ok snapshot.
Proof. destruct (inventory_contract (Sight starlight [])) as [H _]. apply H. exact (fun o => eq_refl). Defined.
