(* ===== verification/Protocol.v ===== *)
(** * The messages between the public API and the broker

    [internal/protocol/types.go], field by field, and the dynamically typed
    values ([any]) that operation results carry. *)

From Stdlib Require Import SpecFloat.
From S2P Require Import Prelude GoStrings GoTime.

(** A value stored in a [map[string]any]; [AMap None] is a nil map, or nothing at all. *)
Inductive any :=
| AString (s : string)
| ABool (b : bool)
| ANumber (n : Z)
| AFloat (f : spec_float)
| ATime (t : time)
| ASlice (l : list any)
| AMap (m : option (list (string * any))).

(** [map[string]any]; the empty and the nil map differ. *)
Notation dict := (gmap string any).

Definition any_of_dict (m : option dict) : any := AMap (map_to_list <$> m).

(** [type Risk string]. *)
Notation Risk := string.
Definition RiskReadOnly : Risk := "read-only".
Definition RiskLow : Risk := "low".
Definition RiskHigh : Risk := "high".
Definition RiskDestructive : Risk := "destructive".

Record ParameterDefinition := {
  PD_Name : string;
  PD_Description : string;
  PD_Required : bool;
  PD_Pattern : string;
  PD_AllowedValues : option (list string) (* [None] is the nil slice *)
}.

Record OperationDefinition := {
  OD_Action : string;
  OD_Summary : string;
  OD_Risk : Risk;
  OD_RequiresConfirmation : bool;
  OD_Implemented : bool;
  OD_Parameters : list ParameterDefinition
}.

(** The zero value, which a missing map entry yields. *)
Definition zero_OperationDefinition : OperationDefinition :=
  {| OD_Action := ""; OD_Summary := ""; OD_Risk := ""; OD_RequiresConfirmation := false;
     OD_Implemented := false; OD_Parameters := [] |}.

Record OperationRequest := {
  Req_RequestID : string;
  Req_Action : string;
  Req_Actor : string;
  Req_Parameters : gmap string string;
  Req_Confirmation : string
}.

Record Problem := { Problem_Code : string; Problem_Message : text }.

#[export] Instance Problem_eq_dec : EqDecision Problem.
Proof. solve_decision. Defined.

Definition problem (code message : string) : Problem :=
  {| Problem_Code := code; Problem_Message := Text message [] |}.
(** A problem whose message quotes a parameter name. *)
Definition problem1 (code format arg : string) : Problem :=
  {| Problem_Code := code; Problem_Message := Text format [arg] |}.

Record OperationResponse := {
  Resp_RequestID : string;
  Resp_Action : string;
  Resp_Status : string;
  Resp_Risk : Risk;
  Resp_StartedAt : time;
  Resp_FinishedAt : time;
  Resp_AuditID : string;
  Resp_Result : option dict;
  Resp_Error : option Problem
}.

(** [protocol.OperationPlan], the answer of the broker to a plan request. *)
Record BrokerPlan := {
  BP_Request : OperationRequest;
  BP_Definition : OperationDefinition;
  BP_Valid : bool;
  BP_RequiresConfirmation : bool;
  BP_Error : option Problem
}.
