(* ===== verification/JsonAny.v ===== *)
(** * Numbers and dynamically typed values as JSON

    [strconv.AppendFloat] with the shortest precision as [encoding/json] uses it (encode.go), and values of type [any] and
    [map[string]any]: marshalled with sorted keys, decoded with every number as a [float64]. *)

From Stdlib Require Import Ascii SpecFloat.
From S2P Require Import Prelude GoStrings GoTime GoConv GoQuote Protocol.
From S2P Require Import Json JsonParse TimeText JsonDecode.
#[local] Open Scope Z_scope.

#[export] Instance spec_float_eq_dec : EqDecision spec_float.
Proof. solve_decision. Defined.

(** ** Floating-point numbers *)

(** [m * 2^e * 10^s] as a fraction. *)
Definition scaled (m : positive) (e s : Z) : Z * Z :=
  let up base n := if 0 <=? n then base ^ n else 1 in
  (Zpos m * up 2 e * up 10 s, up 2 (- e) * up 10 (- s)).
Definition decimal_digits_of (c : Z) : bytes := to_bytes (decimal (Z.to_N c)).
(** [m * 2^e] is below [10^p], but not below [10^(p-1)]; no number is too small for the scale. *)
Definition decimal_point (m : positive) (e : Z) : Z :=
  let '(num, den) := scaled m e 350 in Z.of_nat (length (decimal_digits_of (num / den))) - 350.

(** The two integers around a fraction, the nearest first, a tie to the even one; one of them if it is the fraction. *)
Definition around (num den : Z) : list Z :=
  let q := num / den in
  let r := num mod den in
  if r =? 0 then [q] else if (2 * r <? den) || ((2 * r =? den) && Z.even q) then [q; q + 1] else [q + 1; q].

(** The formats f and e (with the exponent as encoding/json leaves it) of the digits [ds] with the point after [dp] of them. *)
Definition zeros (n : Z) : bytes := repeat (chr 48) (Z.to_nat n).
Definition fixed_text (ds : bytes) (dp : Z) : bytes :=
  (if 0 <? dp then take (Z.to_nat dp) ds ++ zeros (dp - Z.of_nat (length ds)) else [chr 48])
  ++ (if dp <? Z.of_nat (length ds) then chr 46 :: zeros (- dp) ++ drop (Z.to_nat dp) ds else []).
Definition exponent_text (ds : bytes) (dp : Z) : bytes :=
  take 1 ds ++ (if (1 <? length ds)%nat then chr 46 :: drop 1 ds else [])
  ++ [chr 101; if dp <? 1 then chr 45 else chr 43] ++ decimal_digits_of (Z.abs (dp - 1)).
(** Below 1e-6 and from 1e21 on the format is e. *)
Definition exponent_format (f : spec_float) : bool :=
  SFltb (SFabs f) (nearest false false 1 (-6)) || negb (SFltb (SFabs f) (nearest false false 1 21)).

(** The text with [n] digits that reads back as the number. *)
Definition text_with_digits (f : spec_float) (neg : bool) (m : positive) (e : Z) (n : Z) : option bytes :=
  let s := n - decimal_point m e in
  let '(num, den) := scaled m e s in
  find_first (fun c =>
    let ds := drop_zeros (decimal_digits_of c) in
    let dp := Z.of_nat (length (decimal_digits_of c)) - s in
    let text := (if neg then [chr 45] else []) ++ (if exponent_format f then exponent_text ds dp else fixed_text ds dp) in
    if (0 <? c) && bool_decide (ParseFloat (of_bytes text) = Some f) then Some text else None) (around num den).

(** [floatEncoder]: the smallest number of digits with which [ParseFloat] returns the number exactly, at most 17 being necessary.  What
    is not a number or not finite is an error. *)
Definition float_text (f : spec_float) : option bytes :=
  match f with
  | S754_zero neg => Some (if neg then [chr 45; chr 48] else [chr 48])
  | S754_finite neg m e => find_first (text_with_digits f neg m e) (Z.of_nat <$> seq 1 17)
  | _ => None
  end.

(** Texts that [encoding/json] writes as it reads them. *)
Example float_text_examples :
  forallb (fun s => bool_decide ((ParseFloat s ≫= float_text) = Some (to_bytes s)))
    ["350735.47"; "0.1"; "0.30000000000000004"; "1e-7"; "0.000001"; "1e+21"; "100000000000000000000"; "9007199254740992";
     "5e-324"; "-0"; "-12.5"; "123456789012345680"] = true.
Proof. by vm_compute. Qed.

(** ** Dynamically typed values *)

Definition integer_text (n : Z) : bytes := (if n <? 0 then [chr 45] else []) ++ decimal_digits_of (Z.abs n).

(** [json.Marshal] of a time fails outside the years the format can write. *)
Definition marshals (t : time) : bool := (0 <=? t) && (t <? max_time).

(** The entries of a map in the order of their keys, if all of them can be marshalled. *)
Definition sorted_entries (l : list (string * option json)) : option (list (string * json)) :=
  mapM (fun kv => v ← kv.2; Some (kv.1, v)) (sort_by fst l).

Fixpoint any_json (a : any) : option json :=
  match a with
  | AString s => Some (of_string s)
  | ABool b => Some (JBool b)
  | ANumber n => Some (JNumber (integer_text n))
  | AFloat f => JNumber <$> float_text f
  | ATime t => if marshals t then Some (of_instant t) else None
  | ASlice l => JArray <$> mapM (fun v => v) (any_json <$> l)
  | AMap None => Some JNull
  | AMap (Some l) => of_struct <$> sorted_entries ((fun kv => (kv.1, any_json kv.2)) <$> l)
  end.
Definition dict_json (m : dict) : option json := any_json (AMap (Some (map_to_list m))).

(** Decoding into an [any] that holds nothing yet. *)
Definition add_any (m : option dict) (kv : bytes * option any) : option dict :=
  m ← m; v ← kv.2; Some (<[unquote kv.1 := v]> m).
Fixpoint decode_any (v : json) : option any :=
  match v with
  | JNull => Some (AMap None)
  | JBool b => Some (ABool b)
  | JNumber text => AFloat <$> ParseFloat (of_bytes text)
  | JString raw => Some (AString (unquote raw))
  | JArray items => ASlice <$> mapM (fun v => v) (decode_any <$> items)
  | JObject members =>
    (fun m => AMap (Some (map_to_list m))) <$> fold_left add_any ((fun kv => (kv.1, decode_any kv.2)) <$> members) (Some ∅)
  end.
(** [map[string]any]; it is nil before the first object and after [null]. *)
Definition to_dict : decoder (option dict) := fun vs =>
  fold_left (fun m v =>
    m ← m;
    match v with
    | JNull => Some None
    | JObject members =>
      Some <$> fold_left add_any ((fun kv => (kv.1, decode_any kv.2)) <$> members) (Some (default ∅ m))
    | _ => None
    end) vs (Some None).

(** What arrives of a value. *)
Definition scrub_entries (l : list (string * any)) : dict := fold_left (fun m kv => <[scrub kv.1 := kv.2]> m) (sort_by fst l) ∅.
Fixpoint scrub_any (a : any) : any :=
  match a with
  | AString s => AString (scrub s)
  | ATime t => AString (format_rfc3339nano t)
  | ANumber n => match ParseFloat (of_bytes (integer_text n)) with Some f => AFloat f | None => a end
  | ASlice l => ASlice (scrub_any <$> l)
  | AMap (Some l) => AMap (Some (map_to_list (scrub_entries ((fun kv => (kv.1, scrub_any kv.2)) <$> l))))
  | _ => a
  end.
Definition scrub_dict (m : dict) : dict := scrub_entries ((fun kv => (kv.1, scrub_any kv.2)) <$> map_to_list m).

(** Integers that [float64] can hold, below few enough maps and slices. *)
Fixpoint any_fits (depth : Z) (a : any) : bool :=
  match a with
  | ANumber n => bool_decide (is_Some (ParseFloat (of_bytes (integer_text n))))
  | ASlice l => (depth <? maxNestingDepth) && forallb (any_fits (depth + 1)) l
  | AMap (Some l) => (depth <? maxNestingDepth) && forallb (fun kv => any_fits (depth + 1) kv.2) l
  | _ => true
  end.

Example any_example :
  let m := AMap (Some [("b", ANumber 8); ("a", AMap (Some [("x", AFloat (S754_finite false 4503599627370496 (-53)))])); ("c", AMap None)]) in
  print <$> any_json m = Some (with_quotes (to_bytes "{'a':{'x':0.5},'b':8,'c':null}")) /\
  (any_json m ≫= decode_any) = Some (scrub_any m).
Proof. by vm_compute. Qed.

(** ** Numbers are JSON numbers, and read back *)

Lemma some_digits_all l k :
  l <> [] -> forallb is_digit l = true -> match k with a :: _ => is_digit a = false | [] => True end -> some_digits (l ++ k) = Parsed l k.
Proof.
  intros Hne Hl Hk. destruct l as [|a l]; [done|]. unfold some_digits. cbn [app].
  cbn [forallb] in Hl. pose proof Hl as [-> _]%andb_true_iff. change (a :: l ++ k) with ((a :: l) ++ k).
  by rewrite span_all by done.
Qed.

(** The parts of a number, each optional but the integer. *)
Definition integer_digits (l : bytes) : Prop :=
  l = [chr 48] \/ exists a k, l = a :: k /\ forallb is_digit l = true /\ byte a <> 48.
Definition fraction_digits (l : bytes) : Prop := l = [] \/ exists k, l = chr 46 :: k /\ k <> [] /\ forallb is_digit k = true.
Definition exponent_digits (l : bytes) : Prop :=
  l = [] \/ exists sign k, l = chr 101 :: sign :: k /\ sign ∈ [chr 43; chr 45] /\ k <> [] /\ forallb is_digit k = true.

Lemma exponent_all ex : exponent_digits ex -> exponent_part ex = Parsed ex [] /\ match ex with a :: _ => byte a = 101 | [] => True end.
Proof.
  intros [->|(sign & k & -> & Hs & Hne & Hk)]; [done|]. split; [|done].
  assert (H : some_digits k = Parsed k []) by (rewrite <-(app_nil_r k) at 1; by apply some_digits_all).
  apply list_elem_of_In in Hs. destruct Hs as [<-|[<-|[]]]; unfold exponent_part; cbn; by rewrite H.
Qed.
Lemma fraction_all fr ex : fraction_digits fr -> match ex with a :: _ => byte a = 101 | [] => True end ->
  fraction_part (fr ++ ex) = Parsed fr ex.
Proof.
  intros [->|(k & -> & Hne & Hk)] Hex.
  - unfold fraction_part. cbn [app]. destruct ex as [|a ex]; [done|]. by rewrite Hex.
  - unfold fraction_part. cbn [app]. change (byte (chr 46) =? 46) with true. cbn beta iota.
    rewrite some_digits_all; [done|done|done|]. destruct ex as [|a ex]; [done|]. unfold is_digit. by rewrite Hex.
Qed.
Lemma integer_all i k : integer_digits i -> match k with a :: _ => is_digit a = false | [] => True end -> integer_part (i ++ k) = Parsed i k.
Proof.
  intros [->|(a & l & -> & Hd & Ha)] Hk; [done|]. unfold integer_part. cbn [app]. rewrite (proj2 (Z.eqb_neq _ _) Ha).
  change (a :: l ++ k) with ((a :: l) ++ k). by apply some_digits_all.
Qed.
Lemma number_parts (neg : bool) i fr ex : integer_digits i -> fraction_digits fr -> exponent_digits ex ->
  number_text ((if neg then [chr 45] else []) ++ i ++ fr ++ ex) = true.
Proof.
  intros Hi Hf He. destruct (exponent_all ex He) as [Hx Hh]. pose proof (fraction_all fr ex Hf Hh) as Hf'.
  assert (Hi' : integer_part (i ++ fr ++ ex) = Parsed i (fr ++ ex)).
  { apply integer_all; [done|]. destruct Hf as [->|(k & -> & _)]; [|done]. cbn [app].
    destruct ex as [|a ex]; [done|]. unfold is_digit. by rewrite Hh. }
  assert (Hi0 : exists a l, i = a :: l /\ (byte a =? 45) = false).
  { destruct Hi as [->|(a & l & -> & Hd & _)]; [by eexists _, _|]. exists a, l. split; [done|].
    cbn [forallb] in Hd. apply andb_true_iff in Hd as [Hd _]. by apply digit_not_sign in Hd as [-> _]. }
  destruct Hi0 as (a & l & Ei & Ha). unfold number_text, scan_number.
  assert (E : (match (if neg then [chr 45] else []) ++ i ++ fr ++ ex with
     | a0 :: rest => if byte a0 =? 45 then ([a0], rest) else ([], (if neg then [chr 45] else []) ++ i ++ fr ++ ex)
     | [] => ([], [])
     end) = (if neg then [chr 45] else [], i ++ fr ++ ex)).
  { destruct neg; [done|]. rewrite Ei. cbn [app]. by rewrite Ha. }
  rewrite E, Hi'. cbn [and_then]. rewrite Hf'. cbn [and_then]. rewrite Hx. cbn. by rewrite !bool_decide_eq_true_2.
Qed.

Lemma decimal_positive c : 0 < c -> exists a l, decimal_digits_of c = a :: l /\ forallb is_digit (a :: l) = true /\ byte a <> 48.
Proof.
  intros Hc. unfold decimal_digits_of. destruct (decimal_start (Z.to_N c)) as (a & l & E & Ha). exists a, l.
  split; [done|]. rewrite <-E. split; [apply decimal_digits|]. intros Hz.
  assert (a = chr 48) as -> by (rewrite <-Hz; apply byte_chr). pose proof (decimal_leading _ _ E) as ->.
  pose proof (read_digits_decimal (Z.to_N c)) as Hr. rewrite E in Hr. change (read_digits [chr 48] 0) with 0 in Hr. lia.
Qed.

Lemma drop_zeros_head a l : byte a <> 48 -> exists k, drop_zeros (a :: l) = a :: k.
Proof.
  intros Ha. cbn [drop_zeros]. destruct (drop_zeros l); [|by eexists]. destruct (Ascii.eqb_spec a (chr 48)) as [->|]; [done|by eexists].
Qed.
Lemma drop_zeros_all p l : forallb p l = true -> forallb p (drop_zeros l) = true.
Proof. destruct (drop_zeros_pad l) as [n E]. intros H. rewrite E, forallb_app in H. by apply andb_true_iff in H as [H _]. Qed.

Lemma zeros_digits n : forallb is_digit (zeros n) = true.
Proof. unfold zeros. by induction (Z.to_nat n). Qed.
Lemma forallb_take {A} (p : A -> bool) n l : forallb p l = true -> forallb p (take n l) = true /\ forallb p (drop n l) = true.
Proof. rewrite <-(take_drop n l) at 1. rewrite forallb_app. apply andb_true_iff. Qed.

Lemma layout_number (neg e10 : bool) (a : ascii) (ds : bytes) (dp : Z) :
  forallb is_digit (a :: ds) = true -> byte a <> 48 ->
  number_text ((if neg then [chr 45] else []) ++ (if e10 then exponent_text (a :: ds) dp else fixed_text (a :: ds) dp)) = true.
Proof.
  intros Hd Ha. destruct e10.
  - unfold exponent_text. cbn [take]. apply (number_parts neg [a] _ (chr 101 :: (if dp <? 1 then chr 45 else chr 43) :: _)).
    + right. exists a, []. cbn [forallb] in *. apply andb_true_iff in Hd as [-> _]. done.
    + destruct ds as [|b ds]; [by left|right]. exists (b :: ds). split; [done|]. split; [done|]. cbn [forallb] in Hd. by apply andb_true_iff in Hd as [_ Hd].
    + right. exists (if dp <? 1 then chr 45 else chr 43), (decimal_digits_of (Z.abs (dp - 1))). split; [done|].
      split; [destruct (dp <? 1); set_solver|]. split; [|apply decimal_digits].
      unfold decimal_digits_of. pose proof (decimal_not_nil (Z.to_N (Z.abs (dp - 1))) []) as H. by rewrite app_nil_r in H.
  - unfold fixed_text. rewrite <-(app_nil_r (if dp <? _ then _ else _)). apply number_parts; [| |by left].
    + destruct (Z.ltb_spec 0 dp) as [Hp|_]; [right|by left]. exists a, (take (pred (Z.to_nat dp)) ds ++ zeros (dp - Z.of_nat (length (a :: ds)))).
      destruct (Z.to_nat dp) as [|n] eqn:E; [lia|]. split; [done|]. split; [|done].
      rewrite forallb_app, zeros_digits, andb_true_r. by apply forallb_take.
    + destruct (Z.ltb_spec dp (Z.of_nat (length (a :: ds)))) as [Hp|_]; [right|by left]. eexists. split; [done|].
      split; [|rewrite forallb_app, zeros_digits; by apply forallb_take].
      intros [_ H]%app_eq_nil. apply (f_equal length) in H. rewrite length_drop in H. cbn in *. lia.
Qed.

Lemma float_text_spec f text : float_text f = Some text -> number_text text = true /\ ParseFloat (of_bytes text) = Some f.
Proof.
  unfold float_text. destruct f as [neg|neg| |neg m e]; [|done|done|].
  - intros [= <-]. by destruct neg.
  - intros (n & _ & H)%find_first_Some. unfold text_with_digits in H. destruct (scaled m e _) as [num den].
    apply find_first_Some in H as (c & _ & H). destruct (Z.ltb_spec 0 c) as [Hc|]; [|done]. cbn [andb] in H.
    case_bool_decide as Hp; [|done]. injection H as <-. split; [|done].
    destruct (decimal_positive c Hc) as (a & l & E & Hd & Ha). rewrite E.
    pose proof (drop_zeros_all _ _ Hd) as Hz. destruct (drop_zeros_head a l Ha) as [k Ek]. rewrite Ek in *. by apply layout_number.
Qed.

Lemma integer_text_number n : number_text (integer_text n) = true.
Proof.
  unfold integer_text, decimal_digits_of. rewrite <-(app_nil_r (to_bytes _)).
  change (to_bytes (decimal (Z.to_N (Z.abs n))) ++ []) with (to_bytes (decimal (Z.to_N (Z.abs n))) ++ [] ++ []).
  apply number_parts; [|by left|by left]. destruct (decide (n = 0)) as [->|Hn]; [by left|right].
  destruct (decimal_positive (Z.abs n)) as (a & l & E & Hd & Ha); [lia|]. unfold decimal_digits_of in E. rewrite E. by exists a, l.
Qed.

(** ** Decoding what was marshalled *)

Section induction.
Context (P : any -> Prop).
Hypothesis HString : forall s, P (AString s).
Hypothesis HBool : forall b, P (ABool b).
Hypothesis HNumber : forall n, P (ANumber n).
Hypothesis HFloat : forall f, P (AFloat f).
Hypothesis HTime : forall t, P (ATime t).
Hypothesis HSlice : forall l, Forall P l -> P (ASlice l).
Hypothesis HNil : P (AMap None).
Hypothesis HMap : forall l, Forall (fun kv => P kv.2) l -> P (AMap (Some l)).

Fixpoint any_nested_ind (a : any) : P a :=
  match a with
  | AString s => HString s
  | ABool b => HBool b
  | ANumber n => HNumber n
  | AFloat f => HFloat f
  | ATime t => HTime t
  | ASlice l =>
    HSlice l ((fix go l : Forall P l :=
      match l with [] => Forall_nil_2 P | x :: l => Forall_cons_2 P x l (any_nested_ind x) (go l) end) l)
  | AMap None => HNil
  | AMap (Some l) =>
    HMap l ((fix go (l : list (string * any)) : Forall (fun kv => P kv.2) l :=
      match l with
      | [] => Forall_nil_2 _
      | kv :: l => Forall_cons_2 (fun kv => P kv.2) kv l (any_nested_ind kv.2) (go l)
      end) l)
  end.
End induction.

Lemma marshals_ok t : marshals t = true -> time_ok t.
Proof. unfold marshals, time_ok. intros H. bool_prop. lia. Qed.

(** A value and what was marshalled of it. *)
Definition arrives (depth : Z) (a : any) (v : json) : Prop := decode_any v = Some (scrub_any a) /\ well_formed depth v.

Lemma arrives_slice depth l vs :
  Forall (fun a => forall v, any_json a = Some v -> arrives (depth + 1) a v) l -> depth < maxNestingDepth ->
  mapM (fun v => v) (any_json <$> l) = Some vs -> arrives depth (ASlice l) (JArray vs).
Proof.
  intros Hl Hd Hm. assert (H : Forall2 (fun a v => arrives (depth + 1) a v) l vs).
  { apply mapM_Some_1 in Hm. rewrite Forall2_fmap_l in Hm. revert Hl. induction Hm as [|a v l vs Hv Hm IH]; intros Hl; [constructor|].
    apply Forall_cons in Hl as [Ha Hl]. constructor; [by apply Ha|by apply IH]. }
  clear Hl Hm. split.
  - cbn [decode_any scrub_any].
    assert (E : mapM (fun v : option any => v) (decode_any <$> vs) = Some (scrub_any <$> l)); [|by rewrite E].
    apply mapM_Some. rewrite Forall2_fmap. apply Forall2_flip. eapply Forall2_impl; [exact H|]. by intros a v [E _].
  - split; [done|]. apply (fold_and_Forall (well_formed (depth + 1))). apply Forall_forall. intros v Hv.
    apply list_elem_of_lookup_1 in Hv as [i Hi]. destruct (Forall2_lookup_r _ _ _ _ _ H Hi) as (a & _ & _ & Ha). exact Ha.
Qed.

(** The entries of a map, sorted, marshalled and read back. *)
Lemma sorted_entries_arrive depth (l : list (string * any)) members :
  Forall (fun kv => forall v, any_json kv.2 = Some v -> arrives (depth + 1) kv.2 v) l ->
  sorted_entries ((fun kv => (kv.1, any_json kv.2)) <$> l) = Some members ->
  Forall2 (fun (kv : string * any) (member : string * json) => member.1 = kv.1 /\ arrives (depth + 1) kv.2 member.2) (sort_by fst l) members.
Proof.
  intros Hl Hm. unfold sorted_entries in Hm. rewrite <-(sort_by_fmap fst fst) in Hm by done.
  assert (Hs : Forall (fun kv => forall v, any_json kv.2 = Some v -> arrives (depth + 1) kv.2 v) (sort_by fst l)) by by rewrite sort_by_perm.
  apply mapM_Some_1 in Hm. rewrite Forall2_fmap_l in Hm. revert Hs. induction Hm as [|kv member k members Hv Hm IH]; intros Hs; [constructor|].
  apply Forall_cons in Hs as [Hkv Hs]. constructor; [|by apply IH]. cbn in Hv. destruct (any_json kv.2) as [v|] eqn:E; [|done].
  injection Hv as <-. split; [done|]. by apply Hkv.
Qed.

Lemma entries_decoded depth (sorted : list (string * any)) (members : list (string * json)) m :
  Forall2 (fun (kv : string * any) (member : string * json) => member.1 = kv.1 /\ arrives depth kv.2 member.2) sorted members ->
  fold_left add_any ((fun kv => (kv.1, decode_any kv.2)) <$> ((fun kv => (escape kv.1, kv.2)) <$> members)) (Some m) =
  Some (fold_left (fun m kv => <[scrub kv.1 := kv.2]> m) ((fun kv => (kv.1, scrub_any kv.2)) <$> sorted) m).
Proof.
  intros H. revert m. induction H as [|[k a] [k' v] sorted members [Hk [Ha _]] H IH]; intros m; [done|]. cbn in Hk, Ha. subst k'.
  rewrite !fmap_cons. cbn [fold_left fst snd]. rewrite Ha. unfold add_any at 2. cbn [mbind option_bind fst snd].
  rewrite unquote_escape. apply IH.
Qed.

Lemma scrub_entries_sorted l :
  scrub_entries ((fun kv => (kv.1, scrub_any kv.2)) <$> l) =
  fold_left (fun m kv => <[scrub kv.1 := kv.2]> m) ((fun kv => (kv.1, scrub_any kv.2)) <$> sort_by fst l) ∅.
Proof. unfold scrub_entries. by rewrite <-(sort_by_fmap fst fst). Qed.

Lemma any_json_arrives a depth v : any_fits depth a = true -> any_json a = Some v -> arrives depth a v.
Proof.
  revert depth v. induction a as [s|b|n|f|t|l IH| |l IH] using any_nested_ind; intros depth v Hf Hj.
  - injection Hj as <-. split; [cbn; by rewrite unquote_escape|apply of_string_wf].
  - by injection Hj as <-.
  - injection Hj as <-. cbn [any_fits] in Hf. apply bool_decide_eq_true in Hf as [f E]. split; [|apply integer_text_number].
    cbn [decode_any scrub_any]. by rewrite E.
  - cbn in Hj. destruct (float_text f) as [text|] eqn:E; [|done]. injection Hj as <-. apply float_text_spec in E as [E1 E2].
    split; [cbn; by rewrite E2|done].
  - cbn [any_json] in Hj. destruct (marshals t) eqn:Ht; [|done]. apply marshals_ok in Ht. injection Hj as <-. split; [|apply of_instant_wf].
    rewrite of_instant_string. unfold of_string. cbn [decode_any scrub_any]. rewrite unquote_escape.
    by rewrite scrub_valid by (apply is_ascii_valid, format_ascii; exact Ht).
  - cbn [any_json] in Hj. destruct (mapM _ _) as [vs|] eqn:E; [|done]. injection Hj as <-. cbn [any_fits] in Hf.
    apply andb_true_iff in Hf as [Hd Hf]. apply arrives_slice; [|lia|done]. rewrite forallb_elem in Hf.
    rewrite Forall_forall in *. intros a Ha v. apply IH; [done|]. by apply Hf.
  - by injection Hj as <-.
  - cbn [any_json] in Hj. destruct (sorted_entries _) as [members|] eqn:E; [|done]. injection Hj as <-. cbn [any_fits] in Hf.
    apply andb_true_iff in Hf as [Hd Hf].
    apply (sorted_entries_arrive depth) in E; [|rewrite forallb_elem in Hf; rewrite Forall_forall in *; intros kv Hkv v; apply IH; [done|]; by apply Hf].
    split.
    + unfold of_struct. cbn [decode_any scrub_any]. rewrite (entries_decoded (depth + 1) _ _ _ E). cbn. by rewrite scrub_entries_sorted.
    + apply of_struct_wf; [lia|]. apply Forall_forall. intros member Hm. apply list_elem_of_lookup_1 in Hm as [i Hi].
      destruct (Forall2_lookup_r _ _ _ _ _ E Hi) as (kv & _ & _ & _ & Hw). exact Hw.
Qed.

(** A map arrives as the map of what arrives of its values. *)
Lemma to_dict_of m depth v :
  any_fits depth (AMap (Some (map_to_list m))) = true -> dict_json m = Some v ->
  to_dict [v] = Some (Some (scrub_dict m)) /\ well_formed depth v.
Proof.
  intros Hf Hj. destruct (any_json_arrives _ _ _ Hf Hj) as [Hd Hw]. split; [|done].
  unfold dict_json in Hj. cbn [any_json] in Hj. destruct (sorted_entries _) as [members|] eqn:E; [|done]. injection Hj as <-.
  unfold to_dict, of_struct in *. cbn [fold_left mbind option_bind default decode_any scrub_any] in *.
  destruct (fold_left add_any _ _) as [m'|]; [|done]. cbn in Hd |- *. do 2 f_equal. injection Hd as Hd.
  rewrite <-(list_to_map_to_list m'), Hd. by rewrite list_to_map_to_list.
Qed.
