(* ===== verification/Actors.v ===== *)
(** * Actors, roles and bearer authentication

    [internal/security/types.go] (actors) and [internal/security/auth.go]. *)

From S2P Require Import Prelude GoStrings Sha256 Regexp.
#[local] Open Scope Z_scope.

(** [type ActorKind string], [type Permission string]. *)
Notation ActorKind := string.
Notation Permission := string.

Definition ActorHuman : ActorKind := "human".
Definition ActorService : ActorKind := "service".
Definition ActorTCI : ActorKind := "tci".

Definition PermissionControlRead : Permission := "control.read".
Definition PermissionInventoryRead : Permission := "inventory.read".
Definition PermissionOperationCatalog : Permission := "operations.catalog.read".
Definition PermissionOperationPlan : Permission := "operations.plan".
Definition PermissionOperationExecute : Permission := "operations.execute.readonly".
Definition PermissionOperationMutate : Permission := "operations.execute.mutate".
Definition PermissionAuditRead : Permission := "audit.read".
Definition PermissionConfirm : Permission := "operations.confirm".
Definition PermissionTCIPropose : Permission := "operations.propose".

Record Actor := {
  Actor_ID : string;
  Actor_Kind : ActorKind;
  Actor_DisplayName : string;
  Actor_Roles : list string;
  Actor_Permissions : list Permission
}.

#[export] Instance Actor_eq_dec : EqDecision Actor.
Proof. solve_decision. Defined.

(** [Actor{}]. *)
Definition zero_Actor : Actor :=
  {| Actor_ID := ""; Actor_Kind := ""; Actor_DisplayName := ""; Actor_Roles := [];
     Actor_Permissions := [] |}.

Record ActorCredential := { Cred_Actor : Actor; Cred_TokenSHA256 : string }.
Record ActorRegistry := { Registry_Schema : string; Registry_Actors : list ActorCredential }.

Definition ActorSchema : string := "quantum.control/actors/v1alpha1".

Definition actorIDPattern : string := "^[a-z][a-z0-9.-]{1,31}:[A-Za-z0-9][A-Za-z0-9_.@:-]{0,95}$".

Definition rolePermissions : gmap string (list Permission) := list_to_map [
  ("reader", [PermissionControlRead; PermissionInventoryRead; PermissionOperationCatalog]);
  ("operator", [PermissionControlRead; PermissionInventoryRead; PermissionOperationCatalog;
                PermissionOperationPlan; PermissionOperationExecute]);
  ("mutator", [PermissionControlRead; PermissionInventoryRead; PermissionOperationCatalog;
               PermissionOperationPlan; PermissionOperationExecute; PermissionOperationMutate]);
  ("auditor", [PermissionControlRead; PermissionAuditRead]);
  ("approver", [PermissionControlRead; PermissionInventoryRead; PermissionOperationCatalog;
                PermissionOperationPlan; PermissionOperationExecute; PermissionAuditRead;
                PermissionConfirm]);
  ("tci-proposer", [PermissionControlRead; PermissionInventoryRead; PermissionOperationCatalog;
                    PermissionOperationPlan; PermissionTCIPropose]);
  ("service", [PermissionControlRead; PermissionInventoryRead; PermissionOperationCatalog;
               PermissionOperationPlan; PermissionOperationExecute; PermissionAuditRead])
].

(** [for _, granted := range actor.Permissions { if granted == permission ... }]. *)
Fixpoint has_permission_in (granted : list Permission) (permission : Permission) : bool :=
  match granted with
  | [] => false
  | g :: granted => if g == permission then true else has_permission_in granted permission
  end.
Definition HasPermission (actor : Actor) (permission : Permission) : bool :=
  has_permission_in (Actor_Permissions actor) permission.

(** [uniqueStrings]: a value is kept when it differs from its predecessor.  The
    slice is compacted in place; the write position never passes the read
    position, so a cell is read before it changes. *)
Fixpoint dedup_from (previous : string) (values : list string) : list string :=
  match values with
  | [] => []
  | v :: values => if v != previous then v :: dedup_from v values else dedup_from v values
  end.
Definition uniqueStrings (values : list string) : list string :=
  match values with [] => [] | v :: values => v :: dedup_from v values end.

Definition sort_strings : list string -> list string := sort_by (fun s => s).
Definition uniquePermissions (values : list Permission) : list Permission :=
  uniqueStrings (sort_strings values).

(** The loop over the sorted roles, collecting permissions. *)
Fixpoint role_permissions (kind : ActorKind) (roles : list string) (acc : list Permission) :
    result (list Permission) :=
  match roles with
  | [] => Ok acc
  | role :: roles =>
    match rolePermissions !! role with
    | None => Err (errorf "unknown role %q" [role])
    | Some granted =>
      if (kind == ActorTCI) && (role != "tci-proposer") && (role != "reader") then
        Err (errorf "TCI actor may not hold elevated role %q" [role])
      else role_permissions kind roles (acc ++ granted)
    end
  end.

Definition normalizeActor (actor : Actor) : result Actor :=
  let id := TrimSpace (Actor_ID actor) in
  let display := TrimSpace (Actor_DisplayName actor) in
  let kind := Actor_Kind actor in
  if negb (matches actorIDPattern id) then fail "actor ID does not match policy"
  else if negb ((kind == ActorHuman) || (kind == ActorService) || (kind == ActorTCI)) then
    Err (errorf "unsupported actor kind %q" [kind])
  else if (display == "") || (160 <? slen display) then
    fail "actor display_name is required and must not exceed 160 characters"
  else if bool_decide (Actor_Roles actor = []) then fail "actor must have at least one role"
  else
    let roles := uniqueStrings (sort_strings (Actor_Roles actor)) in
    granted ← role_permissions kind roles [];
    let permissions := uniquePermissions granted in
    if (kind == ActorTCI) && has_permission_in permissions PermissionConfirm then
      fail "TCI actor may not receive confirmation permission"
    else if (kind == ActorTCI) && has_permission_in permissions PermissionOperationMutate then
      fail "TCI actor may not receive mutation permission"
    else Ok {| Actor_ID := id; Actor_Kind := kind; Actor_DisplayName := display;
               Actor_Roles := roles; Actor_Permissions := permissions |}.

(** ** Digests in configuration files *)

Definition decodeSHA256 (value : string) : result bytes :=
  let value := TrimSpace (ToLower value) in
  if negb (slen value =? 64) then fail "SHA-256 digest must contain 64 hexadecimal characters"
  else match hex_decode value with
       | Some digest => Ok digest
       | None => fail "encoding/hex: invalid byte"
       end.

Definition allZero (data : bytes) : bool := forallb (fun a => byte a =? 0) data.

(** ** Authenticators *)

(** [type Authenticator interface]. *)
Notation Authenticator := (string -> option Actor).

(** [RegistryAuthenticator.AuthenticateBearer]: the first credential whose digest
    is the digest of the token. *)
Fixpoint find_credential (credentials : list ActorCredential) (provided : bytes) : option Actor :=
  match credentials with
  | [] => None
  | c :: credentials =>
    match decodeSHA256 (Cred_TokenSHA256 c) with
    | Err _ => find_credential credentials provided
    | Ok expected =>
      if ConstantTimeCompare provided expected then Some (Cred_Actor c)
      else find_credential credentials provided
    end
  end.

Definition AuthenticateBearer (credentials : list ActorCredential) (token : string) : option Actor :=
  if TrimSpace token == "" then None else find_credential credentials (Sum256 token).

(** [MultiAuthenticator]: the first one that answers; a nil entry is skipped. *)
Definition MultiAuthenticateBearer (m : list (option (string -> option Actor))) (token : string) :
    option Actor :=
  find_first (fun authenticator =>
    match authenticator with None => None | Some auth => auth token end) m.

(** The body of the loop of [LoadActorRegistry]: every actor normalised, no
    identifier twice, every digest 64 hexadecimal digits and not all zero. *)
Fixpoint load_credentials (seen : gset string) (actors : list ActorCredential) (index : Z) :
    result (list ActorCredential) :=
  match actors with
  | [] => Ok []
  | c :: actors =>
    match normalizeActor (Cred_Actor c) with
    | Err e => Err (errorf "actor %d: %w" [decimal (Z.to_N index); text_format e])
    | Ok actor =>
      if bool_decide (Actor_ID actor ∈ seen) then
        Err (errorf "duplicate actor ID %q" [Actor_ID actor])
      else
        match decodeSHA256 (Cred_TokenSHA256 c) with
        | Err _ => Err (errorf "actor %q has an invalid token_sha256" [Actor_ID actor])
        | Ok digest =>
          if allZero digest then
            Err (errorf "actor %q has an invalid token_sha256" [Actor_ID actor])
          else
            rest ← load_credentials ({[Actor_ID actor]} ∪ seen) actors (index + 1);
            Ok ({| Cred_Actor := actor; Cred_TokenSHA256 := hex_encode digest |} :: rest)
        end
    end
  end.

(** What reading and decoding the registry file produced. *)
Inductive registry_file :=
| RegistryUnreadable
| RegistryOversized     (* more than 1 MiB *)
| RegistryUndecodable   (* not the JSON document, or unknown fields *)
| RegistryDocument (r : ActorRegistry).

Definition LoadActorRegistry (file : registry_file) : result (list ActorCredential) :=
  match file with
  | RegistryUnreadable => fail "read actor registry"
  | RegistryOversized => fail "actor registry exceeds 1 MiB"
  | RegistryUndecodable => fail "decode actor registry"
  | RegistryDocument registry =>
    if Registry_Schema registry != ActorSchema then
      Err (errorf "unsupported actor registry schema %q" [Registry_Schema registry])
    else if bool_decide (Registry_Actors registry = []) then
      fail "actor registry must contain at least one actor"
    else load_credentials ∅ (Registry_Actors registry) 0
  end.

Definition NewStaticAuthenticator (actor : Actor) (rawToken : string) :
    result (list ActorCredential) :=
  if TrimSpace rawToken == "" then fail "raw token is required"
  else
    actor ← normalizeActor actor;
    Ok [{| Cred_Actor := actor; Cred_TokenSHA256 := sha256_hex rawToken |}].

(** [normalizeActor] with its error ignored: a failed normalisation leaves the
    trimmed identifier and name. *)
Definition normalized_or_trimmed (actor : Actor) : Actor :=
  match normalizeActor actor with
  | Ok a => a
  | Err _ => {| Actor_ID := TrimSpace (Actor_ID actor); Actor_Kind := Actor_Kind actor;
                Actor_DisplayName := TrimSpace (Actor_DisplayName actor);
                Actor_Roles := Actor_Roles actor; Actor_Permissions := Actor_Permissions actor |}
  end.

Definition LocalReadOnlyActor : Actor := normalized_or_trimmed
  {| Actor_ID := "service:loopback-readonly"; Actor_Kind := ActorService;
     Actor_DisplayName := "Loopback read-only bootstrap"; Actor_Roles := ["operator"];
     Actor_Permissions := [] |}.

Definition LegacyServiceActor : Actor := normalized_or_trimmed
  {| Actor_ID := "service:legacy-api-token"; Actor_Kind := ActorService;
     Actor_DisplayName := "Legacy Quantum Control API token"; Actor_Roles := ["service"];
     Actor_Permissions := [] |}.

(** ** Lemmas *)

Lemma has_permission_in_elem granted p : has_permission_in granted p = true <-> p ∈ granted.
Proof.
  induction granted as [|g granted IH]; simpl; [set_solver|].
  destruct (String.eqb_spec g p) as [->|]; set_solver.
Qed.

Lemma HasPermission_elem actor p : HasPermission actor p = true <-> p ∈ Actor_Permissions actor.
Proof. apply has_permission_in_elem. Qed.
#[export] Hint Rewrite has_permission_in_elem HasPermission_elem : go_bool.

Lemma uniqueStrings_elem values v : v ∈ uniqueStrings values <-> v ∈ values.
Proof.
  destruct values as [|x values]; [done|]. simpl.
  assert (H : forall values previous, v ∈ previous :: dedup_from previous values <->
                                      v ∈ previous :: values); [|apply H].
  clear. induction values as [|w values IH]; intros previous; [done|].
  cbn [dedup_from]. destruct (String.eqb_spec w previous) as [->|]; cbn [negb].
  - rewrite IH. set_solver.
  - rewrite elem_of_cons, IH. set_solver.
Qed.

Lemma sort_strings_elem values v : v ∈ sort_strings values <-> v ∈ values.
Proof. unfold sort_strings. by rewrite sort_by_perm. Qed.

(** Sorting and removing neighbours gives the strictly increasing list of the
    elements, so doing it again changes nothing. *)
Lemma uniqueStrings_strict values :
  StronglySorted str_lt (uniqueStrings (sort_strings values)).
Proof.
  pose proof (sort_by_weak (fun s : string => s) values) as H.
  fold (sort_strings values) in H. revert H. generalize (sort_strings values). clear.
  intros [|x l] H; simpl; [constructor|]. revert x H.
  induction l as [|y l IH]; intros x H; cbn [dedup_from]; [repeat constructor|].
  inversion H as [|? ? H1 H2]; subst. inversion H2 as [|? ? Hxy Hxl]; subst.
  destruct (String.eqb_spec y x) as [->|Hne]; cbn [negb].
  - apply IH. inversion H1; subst. by constructor.
  - specialize (IH y H1). constructor; [done|].
    assert (str_lt x y) by (apply str_lt_total; [done|congruence]).
    inversion IH as [|? ? _ Hall]; subst. constructor; [done|].
    eapply Forall_impl; [exact Hall|]. intros z. by etrans.
Qed.

Lemma uniqueStrings_id values : StronglySorted str_lt values -> uniqueStrings values = values.
Proof.
  destruct values as [|x l]; [done|]. simpl. intros H. f_equal. revert x H.
  induction l as [|y l IH]; intros x H; cbn [dedup_from]; [done|].
  inversion H as [|? ? H1 H2]; subst. inversion H2 as [|? ? Hxy Hxl]; subst.
  destruct (String.eqb_spec y x) as [->|Hne]; cbn [negb]; [by destruct (str_lt_irrefl x)|].
  f_equal. by apply IH.
Qed.

Definition sorted_unique (values : list string) : list string := uniqueStrings (sort_strings values).

Lemma sorted_unique_idemp values : sorted_unique (sorted_unique values) = sorted_unique values.
Proof.
  unfold sorted_unique at 1. pose proof (uniqueStrings_strict values) as H.
  unfold sort_strings. rewrite sort_by_strict_id by done. by apply uniqueStrings_id.
Qed.

(** The same elements give the same list. *)
Lemma sorted_unique_ext values values' :
  (forall v, v ∈ values <-> v ∈ values') -> sorted_unique values = sorted_unique values'.
Proof.
  intros H. apply (StronglySorted_unique str_lt); [apply uniqueStrings_strict..|].
  assert (Hnd : forall l, StronglySorted str_lt l -> NoDup l).
  { intros l. induction 1 as [|x l _ IH Hx]; constructor; [|done].
    intros Hin. rewrite Forall_forall in Hx. by apply (str_lt_irrefl x), Hx. }
  apply NoDup_Permutation; [apply Hnd, uniqueStrings_strict..|].
  intros v. unfold sorted_unique. by rewrite !uniqueStrings_elem, !sort_strings_elem.
Qed.

(** The permissions collected from the roles, and what the loop refuses. *)
Definition role_grants (role : string) (p : Permission) : Prop :=
  exists granted, rolePermissions !! role = Some granted /\ p ∈ granted.

Definition role_allowed (kind : ActorKind) (role : string) : Prop :=
  is_Some (rolePermissions !! role) /\
  (kind = ActorTCI -> role = "tci-proposer" \/ role = "reader").

Lemma role_permissions_Ok kind roles acc granted :
  role_permissions kind roles acc = Ok granted ->
  Forall (role_allowed kind) roles /\
  forall p, p ∈ granted <-> p ∈ acc \/ exists role, role ∈ roles /\ role_grants role p.
Proof.
  revert acc. induction roles as [|role roles IH]; intros acc H; simpl in H.
  - simplify_eq. split; [constructor|]. set_solver.
  - destruct (rolePermissions !! role) as [g|] eqn:E; [|done].
    case_match eqn:Hk; [done|]. apply IH in H as [H1 H2]. split.
    + constructor; [|done]. split; [by eexists|]. intros ->. bool_prop. simpl in Hk. tauto.
    + intros p. rewrite H2, elem_of_app. unfold role_grants. split.
      * intros [[?|?]|(r & ? & ?)]; [by left|right..]; [exists role; set_solver|exists r; set_solver].
      * intros [?|(r & Hr & g' & Hg & Hp)]; [by left; left|]. apply elem_of_cons in Hr as [->|Hr].
        -- simplify_eq. left. by right.
        -- right. exists r. eauto.
Qed.

Lemma role_permissions_total kind roles acc :
  Forall (role_allowed kind) roles -> is_ok (role_permissions kind roles acc) = true.
Proof.
  intros H. revert acc. induction H as [|role roles [[g Hg] Hk] _ IH]; intros acc; simpl; [done|].
  rewrite Hg. destruct (String.eqb_spec kind ActorTCI) as [->|]; simpl; [|apply IH].
  destruct Hk as [-> | ->]; [done|..]; apply IH.
Qed.

(** The roles a TCI actor may hold grant neither confirmation nor mutation. *)
Definition tci_permissions : list Permission :=
  [PermissionControlRead; PermissionInventoryRead; PermissionOperationCatalog;
   PermissionOperationPlan; PermissionTCIPropose].

Lemma tci_role_grants role p :
  role = "tci-proposer" \/ role = "reader" -> role_grants role p -> p ∈ tci_permissions.
Proof.
  intros [-> | ->] (g & Hg & Hp); vm_compute in Hg; simplify_eq; unfold tci_permissions; set_solver.
Qed.

(** What [normalizeActor] accepts and what it makes of it. *)
Record normalized (actor actor' : Actor) : Prop := {
  norm_id : Actor_ID actor' = TrimSpace (Actor_ID actor);
  norm_display : Actor_DisplayName actor' = TrimSpace (Actor_DisplayName actor);
  norm_kind : Actor_Kind actor' = Actor_Kind actor;
  norm_pattern : matches actorIDPattern (Actor_ID actor') = true;
  norm_known_kind : Actor_Kind actor' ∈ [ActorHuman; ActorService; ActorTCI];
  norm_display_len : 0 < slen (Actor_DisplayName actor') <= 160;
  norm_roles_ne : Actor_Roles actor' <> [];
  norm_roles : forall r, r ∈ Actor_Roles actor' <-> r ∈ Actor_Roles actor;
  norm_allowed : Forall (role_allowed (Actor_Kind actor')) (Actor_Roles actor');
  norm_permissions : forall p,
    p ∈ Actor_Permissions actor' <-> exists role, role ∈ Actor_Roles actor' /\ role_grants role p
}.

Lemma slen_pos s : s <> "" -> 0 < slen s.
Proof. destruct s; [done|]. unfold slen. simpl. lia. Qed.

Lemma normalizeActor_normalized actor actor' :
  normalizeActor actor = Ok actor' -> normalized actor actor'.
Proof.
  unfold normalizeActor. set (id := TrimSpace _). set (display := TrimSpace (Actor_DisplayName _)).
  intros H. destruct (matches actorIDPattern id) eqn:Hid; [|done]. cbn [negb] in H.
  case_match eqn:Hkind; [done|]. apply negb_false_iff in Hkind.
  case_match eqn:Hdisp; [done|]. case_bool_decide as Hroles; [done|].
  destruct (role_permissions _ _ _) as [granted|] eqn:Hg; [|done]. cbn in H.
  apply role_permissions_Ok in Hg as [Hallowed Hgr].
  case_match; [done|]. case_match; [done|]. simplify_eq.
  bool_prop. destruct Hdisp as [Hd1 Hd2].
  split; simpl; try done.
  - set_solver.
  - split; [by apply slen_pos|done].
  - destruct (Actor_Roles actor) as [|r rs] eqn:E; [done|]. intros E'.
    assert (Hin : r ∈ uniqueStrings (sort_strings (r :: rs)))
      by by apply uniqueStrings_elem, sort_strings_elem; left.
    rewrite E' in Hin. set_solver.
  - intros r. by rewrite uniqueStrings_elem, sort_strings_elem.
  - intros p. unfold uniquePermissions. rewrite uniqueStrings_elem, sort_strings_elem, Hgr. set_solver.
Qed.

Lemma normalized_tci actor actor' p :
  normalized actor actor' -> Actor_Kind actor = ActorTCI ->
  p ∈ Actor_Permissions actor' -> p ∈ tci_permissions.
Proof.
  intros H Hk Hp. apply (norm_permissions _ _ H) in Hp as (role & Hr & Hg).
  pose proof (norm_allowed _ _ H) as Ha. rewrite Forall_forall in Ha.
  destruct (Ha role Hr) as [_ Hrole]. eapply tci_role_grants; [|done].
  apply Hrole. by rewrite (norm_kind _ _ H).
Qed.

(** A digest written back in lower case is read back. *)
Lemma decodeSHA256_hex digest : length digest = 32%nat -> decodeSHA256 (hex_encode digest) = Ok digest.
Proof.
  intros H. unfold decodeSHA256. pose proof (hex_encode_is_hex digest) as Hx.
  rewrite ToLower_hex, TrimSpace_hex, slen_hex_encode, H by done.
  by rewrite hex_decode_encode.
Qed.

Lemma hex_decode_length s digest : hex_decode s = Some digest -> slen s = 2 * Z.of_nat (length digest).
Proof.
  unfold hex_decode. intros H. unfold slen. rewrite <- length_to_bytes. revert digest H.
  generalize (to_bytes s). intros l. induction l as [l IH] using bytes_strong_ind. intros digest.
  destruct l as [|a [|b l]]; cbn [hex_decode_bytes]; intros H; simplify_eq; [done|].
  destruct (from_hex a), (from_hex b); try done.
  destruct (hex_decode_bytes l) as [r|] eqn:E; [|done]. simplify_eq.
  apply IH in E; [|simpl; lia]. simpl in *. lia.
Qed.

Lemma decodeSHA256_length value digest : decodeSHA256 value = Ok digest -> length digest = 32%nat.
Proof.
  unfold decodeSHA256. intros H. case_match eqn:E; [done|]. bool_prop. case_match eqn:E'; [|done].
  simplify_eq. apply hex_decode_length in E'. lia.
Qed.

(** Every credential of a loaded registry. *)
Definition loaded_credential (c : ActorCredential) : Prop :=
  (exists actor, normalized actor (Cred_Actor c)) /\
  exists digest, Cred_TokenSHA256 c = hex_encode digest /\ length digest = 32%nat /\
                 allZero digest = false.

Lemma load_credentials_Ok seen actors index loaded :
  load_credentials seen actors index = Ok loaded ->
  Forall loaded_credential loaded /\
  NoDup (Actor_ID ∘ Cred_Actor <$> loaded) /\
  (forall c, c ∈ loaded -> Actor_ID (Cred_Actor c) ∉ seen).
Proof.
  revert seen index loaded. induction actors as [|c actors IH]; intros seen index loaded H;
    cbn [load_credentials] in H.
  { simplify_eq. split_and!; [constructor|constructor|set_solver]. }
  destruct (normalizeActor (Cred_Actor c)) as [actor|] eqn:En; [|done].
  case_bool_decide as Hseen; [done|].
  destruct (decodeSHA256 _) as [digest|] eqn:Ed; [|done]. case_match eqn:Ez; [done|].
  destruct (load_credentials _ actors _) as [rest|] eqn:Er; [|done]. cbn in H. simplify_eq.
  apply IH in Er as (Hall & Hnd & Hfresh). split_and!.
  - constructor; [|done]. split; [eexists; by apply normalizeActor_normalized|].
    exists digest. simpl. eauto using decodeSHA256_length.
  - cbn. constructor; [|done]. intros Hin. apply list_elem_of_fmap in Hin as (d & Hd & Hin).
    apply Hfresh in Hin. simpl in Hd. rewrite <- Hd in Hin. set_solver.
  - intros d [->|Hd]%elem_of_cons; [done|]. apply Hfresh in Hd. set_solver.
Qed.

Lemma LoadActorRegistry_Ok file loaded :
  LoadActorRegistry file = Ok loaded ->
  Forall loaded_credential loaded /\ NoDup (Actor_ID ∘ Cred_Actor <$> loaded) /\
  exists registry, file = RegistryDocument registry /\ Registry_Schema registry = ActorSchema /\
                   length loaded = length (Registry_Actors registry) /\ loaded <> [].
Proof.
  unfold LoadActorRegistry. destruct file as [| | |registry]; try done. intros H.
  case_match eqn:Es; [done|]. case_bool_decide as Hne; [done|]. bool_prop.
  pose proof (load_credentials_Ok _ _ _ _ H) as (H1 & H2 & _). split_and!; [done..|].
  exists registry. split_and!; [done..| |].
  - clear -H. revert H. generalize (∅ : gset string) as seen, 0 as index.
    revert loaded. generalize (Registry_Actors registry) as actors.
    induction actors as [|c actors IH]; intros loaded seen index H; cbn [load_credentials] in H.
    + by simplify_eq.
    + repeat (case_match; try done). destruct (load_credentials _ actors _) eqn:Er; [|done].
      cbn in H. simplify_eq. simpl. f_equal. eauto.
  - intros ->. destruct (Registry_Actors registry) as [|c actors]; [done|]. cbn [load_credentials] in H.
    repeat (case_match; try done). by destruct (load_credentials _ actors _).
Qed.

(** Authentication against loaded credentials compares hexadecimal digests. *)
Lemma find_credential_loaded credentials token :
  Forall loaded_credential credentials ->
  find_credential credentials (Sum256 token) =
  find_first (fun c => if Cred_TokenSHA256 c == sha256_hex token then Some (Cred_Actor c) else None)
             credentials.
Proof.
  induction 1 as [|c credentials (_ & digest & Hd & Hlen & _) _ IH]; simpl; [done|].
  rewrite Hd, decodeSHA256_hex by done. unfold ConstantTimeCompare.
  case_bool_decide as E.
  - rewrite <- E. unfold sha256_hex. by rewrite String.eqb_refl.
  - destruct (String.eqb_spec (hex_encode digest) (sha256_hex token)) as [E'|_]; [|done].
    apply hex_encode_inj in E'. congruence.
Qed.

(** ** Properties *)

(** What an actor of the registry must look like to be accepted. *)
Definition acceptable (actor : Actor) : Prop :=
  matches actorIDPattern (TrimSpace (Actor_ID actor)) = true /\
  Actor_Kind actor ∈ [ActorHuman; ActorService; ActorTCI] /\
  0 < slen (TrimSpace (Actor_DisplayName actor)) <= 160 /\
  Actor_Roles actor <> [] /\
  Forall (role_allowed (Actor_Kind actor)) (Actor_Roles actor).

Lemma normalized_acceptable actor actor' : normalized actor actor' -> acceptable actor.
Proof.
  intros H. pose proof (norm_pattern _ _ H) as Hp. pose proof (norm_known_kind _ _ H) as Hk.
  pose proof (norm_display_len _ _ H) as Hl. pose proof (norm_roles_ne _ _ H) as Hne.
  pose proof (norm_allowed _ _ H) as Ha.
  rewrite (norm_id _ _ H) in Hp. rewrite (norm_kind _ _ H) in Hk, Ha.
  rewrite (norm_display _ _ H) in Hl. split_and!; try done.
  - lia.
  - lia.
  - intros E. destruct (Actor_Roles actor') as [|r l] eqn:Er; [done|].
    assert (Hin : r ∈ Actor_Roles actor) by (apply (norm_roles _ _ H); rewrite Er; by left).
    rewrite E in Hin. set_solver.
  - rewrite Forall_forall in *. intros r Hr. by apply Ha, (norm_roles _ _ H).
Qed.

Lemma role_permissions_kind kind roles acc granted p :
  role_permissions kind roles acc = Ok granted -> kind = ActorTCI -> p ∈ granted ->
  (forall q, q ∈ acc -> q ∈ tci_permissions) -> p ∈ tci_permissions.
Proof.
  intros [Ha Hg]%role_permissions_Ok Hk Hp Hacc. apply Hg in Hp as [?|(r & Hr & Hgr)]; [auto|].
  rewrite Forall_forall in Ha. destruct (Ha r Hr) as [_ Hrole]. eapply tci_role_grants; eauto.
Qed.

Lemma acceptable_normalizes actor : acceptable actor -> is_ok (normalizeActor actor) = true.
Proof.
  intros (Hp & Hk & Hl & Hne & Ha). unfold normalizeActor. rewrite Hp. cbn [negb].
  assert ((Actor_Kind actor == ActorHuman) || (Actor_Kind actor == ActorService)
          || (Actor_Kind actor == ActorTCI) = true) as -> by (bool_prop; set_solver).
  cbn [negb]. assert (TrimSpace (Actor_DisplayName actor) == "" = false) as ->.
  { apply String.eqb_neq. intros E. rewrite E in Hl. by destruct Hl. }
  assert (160 <? slen (TrimSpace (Actor_DisplayName actor)) = false) as -> by (bool_prop; lia).
  cbn [orb]. rewrite (bool_decide_false (Actor_Roles actor = [])) by done.
  destruct (role_permissions _ _ _) as [granted|] eqn:Eg; cbn.
  - assert (Hno : forall p, p ∉ tci_permissions ->
      (Actor_Kind actor == ActorTCI) && has_permission_in (uniquePermissions granted) p = false).
    { intros p Hp'. apply andb_false_iff. destruct (String.eqb_spec (Actor_Kind actor) ActorTCI); [|by left].
      right. apply not_true_iff_false. rewrite has_permission_in_elem. intros Hin.
      unfold uniquePermissions in Hin. rewrite uniqueStrings_elem, sort_strings_elem in Hin.
      apply Hp'. eapply role_permissions_kind; [done..|]. set_solver. }
    rewrite !Hno by (unfold tci_permissions; set_solver). done.
  - assert (Hall : Forall (role_allowed (Actor_Kind actor))
                       (uniqueStrings (sort_strings (Actor_Roles actor)))).
    { rewrite Forall_forall in *. intros r. rewrite uniqueStrings_elem, sort_strings_elem. auto. }
    apply (role_permissions_total _ _ []) in Hall. by rewrite Eg in Hall.
Qed.

Lemma normalizeActor_shape actor actor' :
  normalizeActor actor = Ok actor' ->
  Actor_Roles actor' = sorted_unique (Actor_Roles actor) /\
  exists granted, Actor_Permissions actor' = sorted_unique granted /\
    role_permissions (Actor_Kind actor) (Actor_Roles actor') [] = Ok granted.
Proof.
  intros H. unfold normalizeActor in H. repeat (case_match; try done).
  destruct (role_permissions _ _ _) as [g|] eqn:Eg; [|done]. cbn in H.
  repeat (case_match; try done). simplify_eq. split; [done|]. by exists g.
Qed.

Definition with_permissions (permissions : list Permission) (actor : Actor) : Actor :=
  {| Actor_ID := Actor_ID actor; Actor_Kind := Actor_Kind actor;
     Actor_DisplayName := Actor_DisplayName actor; Actor_Roles := Actor_Roles actor;
     Actor_Permissions := permissions |}.

(** Permissions are derived by the server: an actor definition is accepted
    exactly when its trimmed identifier matches the policy pattern, its kind is
    known, its trimmed display name has 1 to 160 bytes and it has roles, all
    known and, for a TCI actor, only reader and tci-proposer (so the two later
    TCI checks of the code never fire); the permissions listed in
    the file play no part; and the result carries exactly the permissions of
    its roles. *)
Theorem normalizeActor_spec actor :
  (is_ok (normalizeActor actor) = true <-> acceptable actor) /\
  (forall ps, normalizeActor (with_permissions ps actor) = normalizeActor actor) /\
  (forall actor', normalizeActor actor = Ok actor' -> normalized actor actor').
Proof.
  split_and!; [|done|apply normalizeActor_normalized]. split; [|apply acceptable_normalizes].
  destruct (normalizeActor actor) as [actor'|] eqn:E; [|done]. intros _.
  by eapply normalized_acceptable, normalizeActor_normalized.
Qed.

(** Normalisation is a normal form: applied to its own result it changes
    nothing (identifier and name are trimmed, roles and permissions strictly
    sorted). *)
Theorem normalizeActor_idempotent actor actor' :
  normalizeActor actor = Ok actor' -> normalizeActor actor' = Ok actor'.
Proof.
  intros H. pose proof (normalizeActor_normalized _ _ H) as HN.
  assert (Hacc : is_ok (normalizeActor actor') = true).
  { apply acceptable_normalizes. pose proof (normalized_acceptable _ _ HN) as (Hp & Hk & Hl & Hne & _).
    split_and!.
    - by rewrite (norm_id _ _ HN), TrimSpace_idemp.
    - by rewrite (norm_kind _ _ HN).
    - by rewrite (norm_display _ _ HN), TrimSpace_idemp; destruct Hl.
    - by rewrite (norm_display _ _ HN), TrimSpace_idemp; destruct Hl.
    - apply (norm_roles_ne _ _ HN).
    - apply (norm_allowed _ _ HN). }
  destruct (normalizeActor actor') as [actor2|] eqn:E; [|done]. f_equal.
  pose proof (normalizeActor_normalized _ _ E) as HN2.
  destruct (normalizeActor_shape _ _ H) as (HR1 & g1 & HP1 & HG1), (normalizeActor_shape _ _ E) as (HR2 & g2 & HP2 & HG2).
  assert (HR : Actor_Roles actor2 = Actor_Roles actor')
    by by rewrite HR2, HR1, sorted_unique_idemp.
  rewrite HR, (norm_kind _ _ HN), HG1 in HG2. simplify_eq.
  pose proof (norm_id _ _ HN2) as Hi. rewrite (norm_id _ _ HN), TrimSpace_idemp, <- (norm_id _ _ HN) in Hi.
  pose proof (norm_display _ _ HN2) as Hd.
  rewrite (norm_display _ _ HN), TrimSpace_idemp, <- (norm_display _ _ HN) in Hd.
  pose proof (norm_kind _ _ HN2) as Hk. destruct actor', actor2; simpl in *. congruence.
Qed.

(** C27 Bearer authentication against a loaded registry.  Identifiers are unique;
    a blank token never authenticates; a token authenticates as the actor of the first
    credential that stores its SHA-256 digest and fails when there is none; the
    actor carries exactly the permissions of its roles; and no TCI actor ever obtains a
    permission outside [tci_permissions]: neither confirmation, mutation, read-only
    execution nor audit access. *)
Theorem registry_authentication file credentials token :
  LoadActorRegistry file = Ok credentials ->
  NoDup (Actor_ID ∘ Cred_Actor <$> credentials) /\
  (TrimSpace token = "" -> AuthenticateBearer credentials token = None) /\
  (TrimSpace token <> "" ->
   AuthenticateBearer credentials token =
   find_first (fun c => if Cred_TokenSHA256 c == sha256_hex token
                        then Some (Cred_Actor c) else None) credentials) /\
  (forall actor, AuthenticateBearer credentials token = Some actor ->
   (exists configured, normalized configured actor) /\
   (Actor_Kind actor = ActorTCI -> forall p, HasPermission actor p = true ->
    p ∈ tci_permissions /\ p ∉ [PermissionConfirm; PermissionOperationMutate;
                                 PermissionOperationExecute; PermissionAuditRead])).
Proof.
  intros H. destruct (LoadActorRegistry_Ok _ _ H) as (Hall & Hnd & _).
  split; [done|]. split; [by unfold AuthenticateBearer; intros ->|]. split.
  { intros Hne. unfold AuthenticateBearer. apply String.eqb_neq in Hne as ->.
    by apply find_credential_loaded. }
  intros actor Ha. unfold AuthenticateBearer in Ha. case_match; [done|].
  rewrite find_credential_loaded in Ha by done.
  apply find_first_Some in Ha as (c & Hc & Hd). case_match; [|done]. simplify_eq.
  rewrite Forall_forall in Hall. destruct (Hall c Hc) as [[configured HN] _].
  split; [by exists configured|]. intros Hk p Hp. apply HasPermission_elem in Hp.
  assert (Htci : p ∈ tci_permissions).
  { eapply normalized_tci; [done| |done]. by rewrite <- (norm_kind _ _ HN). }
  split; [done|]. unfold tci_permissions in Htci.
  repeat (apply elem_of_cons in Htci as [-> | Htci]; [set_solver|]). set_solver.
Qed.

(** A registry with a TCI proposer whose token is [abc]. *)
Definition example_tci : Actor :=
  {| Actor_ID := "tci:coreui "; Actor_Kind := ActorTCI; Actor_DisplayName := "Quantum TCI";
     Actor_Roles := ["tci-proposer"; "reader"; "reader"]; Actor_Permissions := [PermissionConfirm] |}.
Definition example_registry : registry_file := RegistryDocument
  {| Registry_Schema := ActorSchema;
     Registry_Actors := [{| Cred_Actor := example_tci;
       Cred_TokenSHA256 := "BA7816bf8f01cfea414140de5dae2223b00361a396177a9cb410ff61f20015ad" |}] |}.
Definition example_loaded : list ActorCredential :=
  [{| Cred_Actor := {| Actor_ID := "tci:coreui"; Actor_Kind := ActorTCI;
        Actor_DisplayName := "Quantum TCI"; Actor_Roles := ["reader"; "tci-proposer"];
        Actor_Permissions := [PermissionControlRead; PermissionInventoryRead;
          PermissionOperationCatalog; PermissionOperationPlan; PermissionTCIPropose] |};
      Cred_TokenSHA256 := "ba7816bf8f01cfea414140de5dae2223b00361a396177a9cb410ff61f20015ad" |}].

Lemma registry_authentication_witness :
  LoadActorRegistry example_registry = Ok example_loaded /\
  NoDup (Actor_ID ∘ Cred_Actor <$> example_loaded).
Proof.
  assert (H : LoadActorRegistry example_registry = Ok example_loaded) by (vm_compute; reflexivity).
  split; [exact H|]. exact (proj1 (registry_authentication _ _ "abc" H)).
Defined.

Lemma normalizeActor_idempotent_witness :
  exists a, normalizeActor example_tci = Ok a /\ normalizeActor a = Ok a.
Proof.
  destruct (normalizeActor example_tci) as [a|] eqn:E; [|by vm_compute in E].
  exists a. split; [done|]. exact (normalizeActor_idempotent _ _ E).
Defined.
