(* ===== verification/Plans.v ===== *)
(** * Immutable operation plans

    [internal/security/plan.go] and the plan types of
    [internal/security/types.go].  The cloning helpers of the code copy slices so
    that callers cannot alias them; lists are values here, so they are identities. *)

From S2P Require Import Prelude GoStrings Sha256 GoTime Json Protocol Actors.
#[local] Open Scope Z_scope.

Record Parameter' := { Param_Name : string; Param_Value : string }.

#[export] Instance Parameter'_eq_dec : EqDecision Parameter'.
Proof. solve_decision. Defined.

Definition PlanSchema : string := "quantum.control/operation-plan/v1alpha1".

Record OperationPlan := {
  Plan_Schema : string;
  Plan_ID : string;
  Plan_Digest : string;
  Plan_RequestID : string;
  Plan_SessionID : string;
  Plan_Actor : Actor;
  Plan_Action : string;
  Plan_Parameters : list Parameter';
  Plan_Risk : string;
  Plan_RequiresConfirmation : bool;
  Plan_Valid : bool;
  Plan_CreatedAt : time;
  Plan_ExpiresAt : time;
  Plan_ErrorCode : string
}.

#[export] Instance OperationPlan_eq_dec : EqDecision OperationPlan.
Proof. solve_decision. Defined.

(** ** Random identifiers *)

(** What [rand.Read] delivered ([None]: it failed) and the clock reading of the
    fallback. *)
Record entropy := { Ent_Bytes : option bytes; Ent_UnixNano : N }.

Definition newSecurityID (e : entropy) (prefix : string) : string :=
  match Ent_Bytes e with
  | Some value => prefix +:+ "-" +:+ hex_encode value
  | None => prefix +:+ "-" +:+ decimal (Ent_UnixNano e)
  end.

(** ** The canonical text and its digest *)

Definition json_param (p : Parameter') : string :=
  "{" +:+ json_kv "name" (json_string (Param_Name p)) +:+ "," +:+
  json_kv "value" (json_string (Param_Value p)) +:+ "}".

(** [sort.Slice] by name.  This sort is stable, [sort.Slice] is not: the order of parameters with one name may differ, which
    validation refuses ([exactPlanParameters]). *)
Definition sort_parameters : list Parameter' -> list Parameter' := sort_by Param_Name.

(** [json.Marshal] of the canonical structure, whose last field is omitted when
    empty.  Marshalling strings and booleans cannot fail, so the error branches
    of [PlanDigest] are never taken. *)
Definition canonical_plan (plan : OperationPlan) : string :=
  "{" +:+ json_kv "schema" (json_string (Plan_Schema plan)) +:+ "," +:+
  json_kv "id" (json_string (Plan_ID plan)) +:+ "," +:+
  json_kv "request_id" (json_string (Plan_RequestID plan)) +:+ "," +:+
  json_kv "session_id" (json_string (Plan_SessionID plan)) +:+ "," +:+
  json_kv "actor_id" (json_string (Actor_ID (Plan_Actor plan))) +:+ "," +:+
  json_kv "actor_kind" (json_string (Actor_Kind (Plan_Actor plan))) +:+ "," +:+
  json_kv "action" (json_string (Plan_Action plan)) +:+ "," +:+
  json_kv "parameters" (json_array json_param (sort_parameters (Plan_Parameters plan))) +:+ "," +:+
  json_kv "risk" (json_string (Plan_Risk plan)) +:+ "," +:+
  json_kv "requires_confirmation" (json_bool (Plan_RequiresConfirmation plan)) +:+ "," +:+
  json_kv "valid" (json_bool (Plan_Valid plan)) +:+ "," +:+
  json_kv "created_at" (json_string (format_rfc3339nano (Plan_CreatedAt plan))) +:+ "," +:+
  json_kv "expires_at" (json_string (format_rfc3339nano (Plan_ExpiresAt plan))) +:+
  (if Plan_ErrorCode plan == "" then "}"
   else "," +:+ json_kv "error_code" (json_string (Plan_ErrorCode plan)) +:+ "}").

Definition PlanDigest (plan : OperationPlan) : string := sha256_hex (canonical_plan plan).

Definition VerifyPlanDigest (plan : OperationPlan) : bool :=
  let expected := PlanDigest plan in
  if negb (slen expected =? slen (Plan_Digest plan)) then false
  else EqualFold expected (Plan_Digest plan).

(** ** Building a plan *)

(** [PlanBuilder]; the clock reading is an argument of [Build]. *)
Record PlanBuilder := { PB_TTL : duration }.

Definition with_digest (digest : string) (plan : OperationPlan) : OperationPlan :=
  {| Plan_Schema := Plan_Schema plan; Plan_ID := Plan_ID plan; Plan_Digest := digest;
     Plan_RequestID := Plan_RequestID plan; Plan_SessionID := Plan_SessionID plan;
     Plan_Actor := Plan_Actor plan; Plan_Action := Plan_Action plan;
     Plan_Parameters := Plan_Parameters plan; Plan_Risk := Plan_Risk plan;
     Plan_RequiresConfirmation := Plan_RequiresConfirmation plan; Plan_Valid := Plan_Valid plan;
     Plan_CreatedAt := Plan_CreatedAt plan; Plan_ExpiresAt := Plan_ExpiresAt plan;
     Plan_ErrorCode := Plan_ErrorCode plan |}.

Definition parameter_of (nv : string * string) : Parameter' :=
  {| Param_Name := nv.1; Param_Value := nv.2 |}.

(** The parameters of a request in the order the map iteration yields them. *)
Definition plan_parameters (iteration : list (string * string)) : list Parameter' :=
  sort_parameters (parameter_of <$> iteration).

Definition Build (b : PlanBuilder) (now : time) (e : entropy) (actor : Actor) (sessionID : string)
    (brokerPlan : BrokerPlan) : result OperationPlan :=
  let ttl := if PB_TTL b <=? 0 then 5 * Minute else PB_TTL b in
  if TrimSpace (Actor_ID actor) == "" then fail "plan actor is required"
  else
    let plan := {|
      Plan_Schema := PlanSchema;
      Plan_ID := newSecurityID e "plan";
      Plan_Digest := "";
      Plan_RequestID := Req_RequestID (BP_Request brokerPlan);
      Plan_SessionID := TrimSpace sessionID;
      Plan_Actor := actor;
      Plan_Action := TrimSpace (Req_Action (BP_Request brokerPlan));
      Plan_Parameters := plan_parameters (map_to_list (Req_Parameters (BP_Request brokerPlan)));
      Plan_Risk := OD_Risk (BP_Definition brokerPlan);
      Plan_RequiresConfirmation := BP_RequiresConfirmation brokerPlan;
      Plan_Valid := BP_Valid brokerPlan;
      Plan_CreatedAt := now;
      Plan_ExpiresAt := Add now ttl;
      Plan_ErrorCode := match BP_Error brokerPlan with Some p => Problem_Code p | None => "" end
    |} in
    Ok (with_digest (PlanDigest plan) plan).

(** Later parameters of the same name win. *)
Definition PlanParametersMap (plan : OperationPlan) : gmap string string :=
  fold_left (fun m p => <[Param_Name p := Param_Value p]> m) (Plan_Parameters plan) ∅.

(** ** The cache of plans, by identifier *)

Notation PlanCache := (gmap string OperationPlan).

Definition NewPlanCache : PlanCache := ∅.

(** The iteration deletes every plan that does not expire after [now]. *)
Definition purgeExpired (now : time) (c : PlanCache) : PlanCache :=
  filter (fun kv : string * OperationPlan => After (Plan_ExpiresAt kv.2) now = true) c.

Definition Put (now : time) (plan : OperationPlan) (c : PlanCache) : PlanCache :=
  <[Plan_ID plan := plan]> (purgeExpired now c).

Definition Get (now : time) (id : string) (c : PlanCache) : option OperationPlan * PlanCache :=
  let c := purgeExpired now c in (c !! id, c).

(** ** The canonical text determines the plan *)

Definition same_param (p q : Parameter') : Prop :=
  same_json (Param_Name p) (Param_Name q) /\ same_json (Param_Value p) (Param_Value q).

(** Read two equal JSON texts in parallel, field by field. *)
Ltac read_json H :=
  repeat first
    [ apply append_inj_l in H
    | let E := fresh "E" in apply json_string_readable in H as [E H]
    | let E := fresh "E" in apply json_bool_readable in H as [E H] ].

Lemma json_param_readable : readable json_param same_param.
Proof.
  intros p q s t H. unfold json_param, json_kv in H. rewrite !append_assoc in H.
  read_json H. done.
Qed.

Lemma json_param_start p : exists a r, json_param p = String.String a r /\ a <> chr 93.
Proof. eexists _, _. split; [reflexivity|done]. Qed.

Lemma json_params_readable : readable (json_array json_param) (Forall2 same_param).
Proof. apply json_array_readable; [apply json_param_readable|apply json_param_start]. Qed.

(** Everything the digest covers. *)
Record same_binding (p q : OperationPlan) : Prop := {
  sb_schema : same_json (Plan_Schema p) (Plan_Schema q);
  sb_id : same_json (Plan_ID p) (Plan_ID q);
  sb_request : same_json (Plan_RequestID p) (Plan_RequestID q);
  sb_session : same_json (Plan_SessionID p) (Plan_SessionID q);
  sb_actor : same_json (Actor_ID (Plan_Actor p)) (Actor_ID (Plan_Actor q));
  sb_kind : same_json (Actor_Kind (Plan_Actor p)) (Actor_Kind (Plan_Actor q));
  sb_action : same_json (Plan_Action p) (Plan_Action q);
  sb_parameters : Forall2 same_param (sort_parameters (Plan_Parameters p))
                                     (sort_parameters (Plan_Parameters q));
  sb_risk : same_json (Plan_Risk p) (Plan_Risk q);
  sb_confirmation : Plan_RequiresConfirmation p = Plan_RequiresConfirmation q;
  sb_valid : Plan_Valid p = Plan_Valid q;
  sb_created : same_json (format_rfc3339nano (Plan_CreatedAt p)) (format_rfc3339nano (Plan_CreatedAt q));
  sb_expires : same_json (format_rfc3339nano (Plan_ExpiresAt p)) (format_rfc3339nano (Plan_ExpiresAt q));
  sb_error : same_json (Plan_ErrorCode p) (Plan_ErrorCode q)
}.

Lemma canonical_plan_inj p q : canonical_plan p = canonical_plan q -> same_binding p q.
Proof.
  intros H. unfold canonical_plan, json_kv in H. rewrite !append_assoc in H.
  do 2 (read_json H; try (apply json_params_readable in H as [Hparams H])).
  assert (Herr : same_json (Plan_ErrorCode p) (Plan_ErrorCode q)).
  { destruct (String.eqb_spec (Plan_ErrorCode p) "") as [->|_],
      (String.eqb_spec (Plan_ErrorCode q) "") as [->|_]; try done.
    rewrite ?append_assoc in H. read_json H. done. }
  split; assumption.
Qed.

(** A plan as it comes out of a JSON decoder or out of [Build]: strings are
    valid UTF-8 and instants have four-digit years. *)
Record wire_plan (p : OperationPlan) : Prop := {
  wp_strings : Forall (fun s => valid_utf8 s = true)
    [Plan_Schema p; Plan_ID p; Plan_RequestID p; Plan_SessionID p; Actor_ID (Plan_Actor p);
     Actor_Kind (Plan_Actor p); Plan_Action p; Plan_Risk p; Plan_ErrorCode p];
  wp_parameters : Forall (fun q => valid_utf8 (Param_Name q) = true /\ valid_utf8 (Param_Value q) = true)
                         (Plan_Parameters p);
  wp_created : time_ok (Plan_CreatedAt p);
  wp_expires : time_ok (Plan_ExpiresAt p)
}.

(** The bound part of a plan, as a value. *)
Definition binding (p : OperationPlan) :=
  ([Plan_Schema p; Plan_ID p; Plan_RequestID p; Plan_SessionID p; Actor_ID (Plan_Actor p);
    Actor_Kind (Plan_Actor p); Plan_Action p; Plan_Risk p; Plan_ErrorCode p],
   sort_parameters (Plan_Parameters p),
   (Plan_RequiresConfirmation p, Plan_Valid p), (Plan_CreatedAt p, Plan_ExpiresAt p)).

Lemma same_json_time t u : time_ok t -> time_ok u ->
  same_json (format_rfc3339nano t) (format_rfc3339nano u) -> t = u.
Proof.
  intros Ht Hu H. apply format_rfc3339nano_inj; [done..|].
  apply same_json_valid; [by apply is_ascii_valid, format_ascii..|done].
Qed.

Lemma same_params_eq l k :
  Forall (fun q => valid_utf8 (Param_Name q) = true /\ valid_utf8 (Param_Value q) = true) l ->
  Forall (fun q => valid_utf8 (Param_Name q) = true /\ valid_utf8 (Param_Value q) = true) k ->
  Forall2 same_param l k -> l = k.
Proof.
  intros Hl Hk H. induction H as [|[n v] [n' v'] l k [H1 H2] _ IH]; [done|].
  inversion Hl as [|? ? [? ?]]; inversion Hk as [|? ? [? ?]]; simplify_eq/=.
  f_equal; [f_equal; by apply same_json_valid|auto].
Qed.

Lemma same_binding_eq p q : wire_plan p -> wire_plan q -> same_binding p q -> binding p = binding q.
Proof.
  intros Hp Hq H. destruct H. unfold binding.
  pose proof (wp_strings _ Hp) as Sp. pose proof (wp_strings _ Hq) as Sq.
  repeat match goal with S : Forall _ (_ :: _) |- _ => apply Forall_cons in S as [? S] end.
  f_equal; [f_equal; [f_equal|]|].
  - repeat match goal with |- _ :: _ = _ :: _ =>
      apply (f_equal2 cons); [by apply same_json_valid|] end. done.
  - apply same_params_eq; [| |done]; unfold sort_parameters; rewrite sort_by_perm;
      [apply Hp|apply Hq].
  - by f_equal.
  - f_equal; (apply same_json_time; [apply Hp|apply Hq|assumption]).
Qed.

Lemma VerifyPlanDigest_folded d : VerifyPlanDigest d = true -> folded (PlanDigest d) = folded (Plan_Digest d).
Proof. unfold VerifyPlanDigest. case_match; [done|]. apply EqualFold_spec. Qed.

Lemma verified_binding p q :
  wire_plan p -> wire_plan q -> VerifyPlanDigest p = true -> VerifyPlanDigest q = true ->
  folded (Plan_Digest p) = folded (Plan_Digest q) ->
  binding p = binding q \/ collision (canonical_plan p) (canonical_plan q).
Proof.
  intros Hp Hq Vp%VerifyPlanDigest_folded Vq%VerifyPlanDigest_folded E.
  assert (PlanDigest p = PlanDigest q) as [H|H]%sha256_hex_inj; [|left|by right].
  - apply folded_hex_inj; [apply sha256_hex_is_hex..|]. congruence.
  - by apply same_binding_eq, canonical_plan_inj.
Qed.

(** C7 The digest binds the plan.  Two plans that both verify and carry digests
    equal up to letter case agree on schema, identifier, request, session, actor,
    kind, action, sorted parameters, risk, confirmation requirement, validity, both
    time bounds and error code; otherwise their two canonical texts are a
    collision of SHA-256.  So a changed parameter, action, actor or session
    invalidates a digest that was checked. *)
Theorem plan_digest_binds p q :
  wire_plan p -> wire_plan q ->
  VerifyPlanDigest p = true -> VerifyPlanDigest q = true ->
  EqualFold (Plan_Digest p) (Plan_Digest q) = true ->
  binding p = binding q \/ collision (canonical_plan p) (canonical_plan q).
Proof.
  intros Hp Hq Vp Vq E%EqualFold_spec. by apply verified_binding.
Qed.

(** ** [Build] and the cache *)

Lemma PlanDigest_with_digest d p : PlanDigest (with_digest d p) = PlanDigest p.
Proof. done. Qed.

Lemma VerifyPlanDigest_own p : VerifyPlanDigest (with_digest (PlanDigest p) p) = true.
Proof.
  unfold VerifyPlanDigest. rewrite PlanDigest_with_digest. simpl.
  by rewrite Z.eqb_refl, EqualFold_refl.
Qed.

Lemma map_to_list_names (m : gmap string string) l :
  l ≡ₚ map_to_list m -> NoDup (Param_Name <$> (parameter_of <$> l)).
Proof.
  intros H. rewrite <- list_fmap_compose. 
  change (NoDup (fst <$> l)). rewrite H. apply NoDup_fst_map_to_list.
Qed.

(** Reading parameters with distinct names into a map. *)
Lemma parameters_fold (l : list Parameter') (m : gmap string string) k :
  NoDup (Param_Name <$> l) ->
  (forall p, p ∈ l -> Param_Name p = k ->
   fold_left (fun m p => <[Param_Name p := Param_Value p]> m) l m !! k = Some (Param_Value p)) /\
  (k ∉ Param_Name <$> l -> fold_left (fun m p => <[Param_Name p := Param_Value p]> m) l m !! k = m !! k).
Proof.
  revert m. induction l as [|q l IH]; intros m Hnd; simpl; [set_solver|].
  apply NoDup_cons in Hnd as [Hq Hnd]. destruct (IH (<[Param_Name q:=Param_Value q]> m) Hnd) as [H1 H2].
  split.
  - intros p [->|Hp]%elem_of_cons Hk; [|by apply H1]. subst. by rewrite H2, lookup_insert_eq.
  - intros Hk. rewrite H2 by set_solver. apply lookup_insert_ne. set_solver.
Qed.

Lemma parameters_map_sorted (m : gmap string string) :
  fold_left (fun m p => <[Param_Name p := Param_Value p]> m) (plan_parameters (map_to_list m)) ∅ = m.
Proof.
  unfold plan_parameters, sort_parameters. set (l := sort_by _ _).
  assert (Hl : l ≡ₚ parameter_of <$> map_to_list m) by apply sort_by_perm.
  apply map_eq. intros k. destruct (parameters_fold l ∅ k) as [H1 H2].
  { rewrite Hl. by apply (map_to_list_names m). }
  destruct (m !! k) as [v|] eqn:E.
  - apply (H1 (parameter_of (k, v))); [|done]. rewrite Hl. apply list_elem_of_fmap_2.
    by apply elem_of_map_to_list.
  - rewrite H2; [done|]. rewrite Hl, <- list_fmap_compose.
    intros ([k' v] & -> & Hin%elem_of_map_to_list)%list_elem_of_fmap. simpl in E. congruence.
Qed.

(** [Build] succeeds exactly for an actor with a non-blank identifier.  The
    plan it returns verifies, copies request, risk, validity and confirmation
    requirement of the broker's plan, has trimmed action and session, lives for the
    configured time (five minutes when none is configured), lists the parameters strictly
    sorted by name whatever the iteration order of the request map was, and reading
    them back gives the request's map. *)
Theorem Build_spec b now e actor sessionID bp :
  let req := BP_Request bp in
  (is_ok (Build b now e actor sessionID bp) = negb (TrimSpace (Actor_ID actor) == "")) /\
  (forall iteration, iteration ≡ₚ map_to_list (Req_Parameters req) ->
   plan_parameters iteration = plan_parameters (map_to_list (Req_Parameters req))) /\
  (forall plan, Build b now e actor sessionID bp = Ok plan ->
   VerifyPlanDigest plan = true /\
   Plan_Schema plan = PlanSchema /\ Plan_Actor plan = actor /\
   Plan_RequestID plan = Req_RequestID req /\
   Plan_Action plan = TrimSpace (Req_Action req) /\ TrimSpace (Plan_Action plan) = Plan_Action plan /\
   TrimSpace (Plan_SessionID plan) = Plan_SessionID plan /\
   Plan_Risk plan = OD_Risk (BP_Definition bp) /\ Plan_Valid plan = BP_Valid bp /\
   Plan_RequiresConfirmation plan = BP_RequiresConfirmation bp /\
   Plan_CreatedAt plan = now /\ now < Plan_ExpiresAt plan /\
   StronglySorted (key_lt Param_Name) (Plan_Parameters plan) /\
   PlanParametersMap plan = Req_Parameters req).
Proof.
  cbv zeta. split_and!.
  - unfold Build. by case_match.
  - intros it Hit. apply sort_by_unique; [by eapply map_to_list_names|]. by rewrite Hit.
  - intros plan H. unfold Build in H. case_match; [done|]. simplify_eq. 
    split; [apply VerifyPlanDigest_own|]. cbn -[TrimSpace plan_parameters].
    split_and!; try done; try apply TrimSpace_idemp.
    + unfold Add. change (5 * Minute) with 300000000000. destruct (Z.leb_spec (PB_TTL b) 0); lia.
    + apply sort_by_sorted, (map_to_list_names (Req_Parameters (BP_Request bp))). done.
    + apply parameters_map_sorted.
Qed.

(** Every cached plan sits under its own identifier. *)
Definition cache_keyed (c : PlanCache) : Prop :=
  map_Forall (fun id plan => Plan_ID plan = id) c.

Definition unexpired (now : time) (plan : OperationPlan) : Prop := now < Plan_ExpiresAt plan.
#[export] Instance unexpired_dec now plan : Decision (unexpired now plan).
Proof. unfold unexpired. apply _. Defined.

Lemma purgeExpired_lookup now c id :
  purgeExpired now c !! id =
  (plan ← c !! id; if decide (unexpired now plan) then Some plan else None).
Proof.
  unfold purgeExpired, unexpired, After. rewrite map_lookup_filter.
  destruct (c !! id) as [plan|]; [|done]. simpl.
  repeat case_guard; repeat case_decide; simpl in *; bool_prop; try done; lia.
Qed.

(** The plan cache.  [Get] answers the plan stored under the identifier if it
    still expires in the future and nothing otherwise; after [Put] it answers
    the new plan under its identifier and leaves the other identifiers as they were,
    expired plans apart; both operations keep every plan under its own
    identifier and drop every expired plan. *)
Theorem plan_cache_spec now plan c :
  (forall id, fst (Get now id c) = (p ← c !! id; if decide (unexpired now p) then Some p else None)) /\
  Put now plan c !! Plan_ID plan = Some plan /\
  (forall id, id <> Plan_ID plan -> Put now plan c !! id = fst (Get now id c)) /\
  (cache_keyed c -> cache_keyed (Put now plan c) /\ forall id, cache_keyed (snd (Get now id c))) /\
  (forall id p, snd (Get now id c) !! id = Some p -> unexpired now p).
Proof.
  split_and!.
  - intros id. apply purgeExpired_lookup.
  - apply lookup_insert_eq.
  - intros id Hne. unfold Put. by rewrite lookup_insert_ne by done.
  - intros Hk.
    assert (Hp : cache_keyed (purgeExpired now c)).
    { intros id p Hp. rewrite purgeExpired_lookup in Hp.
      destruct (c !! id) as [p'|] eqn:E; [|done]. simpl in Hp. case_decide; [|done].
      simplify_eq. by apply Hk. }
    split; [|done]. intros id p. unfold Put. rewrite lookup_insert.
    case_decide; [by intros; simplify_eq|]. apply Hp.
  - intros id p Hp. unfold Get in Hp. simpl in Hp. rewrite purgeExpired_lookup in Hp.
    destruct (c !! id) as [p'|]; [|done]. simpl in Hp. case_decide; [|done]. by simplify_eq.
Qed.

(** ** A concrete plan *)

Definition example_actor : Actor :=
  {| Actor_ID := "human:alice"; Actor_Kind := ActorHuman; Actor_DisplayName := "Alice";
     Actor_Roles := ["operator"]; Actor_Permissions := [PermissionOperationPlan] |}.
Definition example_broker_plan : BrokerPlan :=
  {| BP_Request := {| Req_RequestID := "req-1"; Req_Action := " service.restart"; Req_Actor := "human:alice";
       Req_Parameters := {["unit" := "quantum-runtime.service"]}; Req_Confirmation := "" |};
     BP_Definition := {| OD_Action := "service.restart"; OD_Summary := "Restart an allowlisted managed service";
       OD_Risk := RiskLow; OD_RequiresConfirmation := true; OD_Implemented := true; OD_Parameters := [] |};
     BP_Valid := true; BP_RequiresConfirmation := true; BP_Error := None |}.
Definition example_now : time := unix 1700000000.
Definition example_plan : OperationPlan := Eval vm_compute in
  match Build {| PB_TTL := 0 |} example_now {| Ent_Bytes := Some [chr 1; chr 2]; Ent_UnixNano := 0 |}
              example_actor "session-1" example_broker_plan with
  | Ok plan => plan
  | Err _ => {| Plan_Schema := ""; Plan_ID := ""; Plan_Digest := ""; Plan_RequestID := "";
      Plan_SessionID := ""; Plan_Actor := zero_Actor; Plan_Action := ""; Plan_Parameters := [];
      Plan_Risk := ""; Plan_RequiresConfirmation := false; Plan_Valid := false;
      Plan_CreatedAt := 0; Plan_ExpiresAt := 0; Plan_ErrorCode := "" |}
  end.
(** Its canonical text, with apostrophes for quotation marks. *)
Example example_canonical :
  replace_byte (chr 34) (chr 39) (canonical_plan example_plan) =
  "{'schema':'quantum.control/operation-plan/v1alpha1','id':'plan-0102','request_id':'req-1','session_id':'session-1','actor_id':'human:alice','actor_kind':'human','action':'service.restart','parameters':[{'name':'unit','value':'quantum-runtime.service'}],'risk':'low','requires_confirmation':true,'valid':true,'created_at':'2023-11-14T22:13:20Z','expires_at':'2023-11-14T22:18:20Z'}".
Proof. vm_compute. reflexivity. Qed.

(** The same plan with the fields of the actor that the digest does not cover changed. *)
Definition example_plan' : OperationPlan :=
  {| Plan_Schema := Plan_Schema example_plan; Plan_ID := Plan_ID example_plan;
     Plan_Digest := Plan_Digest example_plan; Plan_RequestID := Plan_RequestID example_plan;
     Plan_SessionID := Plan_SessionID example_plan;
     Plan_Actor := {| Actor_ID := "human:alice"; Actor_Kind := ActorHuman; Actor_DisplayName := "Mallory";
                      Actor_Roles := []; Actor_Permissions := [] |};
     Plan_Action := Plan_Action example_plan; Plan_Parameters := Plan_Parameters example_plan;
     Plan_Risk := Plan_Risk example_plan;
     Plan_RequiresConfirmation := true; Plan_Valid := true;
     Plan_CreatedAt := example_now; Plan_ExpiresAt := Plan_ExpiresAt example_plan; Plan_ErrorCode := "" |}.

Ltac wire_plan_by_computation :=
  split; [repeat (constructor; [vm_compute; reflexivity|]); constructor
         |repeat (constructor; [split; vm_compute; reflexivity|]); constructor
         |split; [by vm_compute|vm_compute; reflexivity]..].

Lemma example_plan_wire : wire_plan example_plan.
Proof. wire_plan_by_computation. Qed.
Lemma example_plan'_wire : wire_plan example_plan'.
Proof. wire_plan_by_computation. Qed.
Lemma example_plan_verifies : VerifyPlanDigest example_plan = true.
Proof. vm_compute. reflexivity. Qed.
Lemma example_plan'_verifies : VerifyPlanDigest example_plan' = true.
Proof. vm_compute. reflexivity. Qed.

Lemma plan_digest_binds_witness :
  example_plan <> example_plan' /\
  (binding example_plan = binding example_plan' \/
   collision (canonical_plan example_plan) (canonical_plan example_plan')).
Proof.
  split; [by vm_compute|].
  apply (plan_digest_binds example_plan example_plan' example_plan_wire example_plan'_wire
           example_plan_verifies example_plan'_verifies). vm_compute. reflexivity.
Defined.
