(* ===== verification/Grants.v ===== *)
(** * The confirmation-grant store of the broker

    [internal/security/grants.go].  The store keeps its grants in memory and
    rewrites one JSON file after each change.  The file is modelled next to the
    store by what a JSON decoder reads from it ([grant_file]); every system call of
    [persistLocked] may fail. *)

From S2P Require Import Prelude GoStrings Sha256 GoTime Json Protocol Actors Plans.
#[local] Open Scope Z_scope.

Definition GrantSchema : string := "quantum.control/confirmation-grant/v1alpha1".
Definition grantStoreSchema : string := "quantum.control/confirmation-store/v1alpha1".

Record ConfirmationGrant := {
  Grant_Schema : string;
  Grant_ID : string;
  Grant_PlanID : string;
  Grant_PlanDigest : string;
  Grant_SubjectActorID : string;
  Grant_SessionID : string;
  Grant_Approver : Actor;
  Grant_Action : string;
  Grant_IssuedAt : time;
  Grant_ExpiresAt : time;
  Grant_UsedAt : time
}.

#[export] Instance ConfirmationGrant_eq_dec : EqDecision ConfirmationGrant.
Proof. solve_decision. Defined.

Record GrantResponse := { GR_Grant : ConfirmationGrant; GR_Token : string }.

Record storedGrant := { SG_Grant : ConfirmationGrant; SG_TokenSHA256 : string }.
Record grantState := { GS_Schema : string; GS_Grants : list storedGrant }.

#[export] Instance storedGrant_eq_dec : EqDecision storedGrant.
Proof. solve_decision. Defined.
#[export] Instance grantState_eq_dec : EqDecision grantState.
Proof. solve_decision. Defined.

Record GrantStore := { Store_Path : string; Store_TTL : duration; Store_Data : grantState }.

Definition with_used (t : time) (g : ConfirmationGrant) : ConfirmationGrant :=
  {| Grant_Schema := Grant_Schema g; Grant_ID := Grant_ID g; Grant_PlanID := Grant_PlanID g;
     Grant_PlanDigest := Grant_PlanDigest g; Grant_SubjectActorID := Grant_SubjectActorID g;
     Grant_SessionID := Grant_SessionID g; Grant_Approver := Grant_Approver g;
     Grant_Action := Grant_Action g; Grant_IssuedAt := Grant_IssuedAt g;
     Grant_ExpiresAt := Grant_ExpiresAt g; Grant_UsedAt := t |}.

Definition set_used (t : time) (s : storedGrant) : storedGrant :=
  {| SG_Grant := with_used t (SG_Grant s); SG_TokenSHA256 := SG_TokenSHA256 s |}.

Definition with_grants (grants : list storedGrant) (s : GrantStore) : GrantStore :=
  {| Store_Path := Store_Path s; Store_TTL := Store_TTL s;
     Store_Data := {| GS_Schema := GS_Schema (Store_Data s); GS_Grants := grants |} |}.

Definition store_grants (s : GrantStore) : list storedGrant := GS_Grants (Store_Data s).

(** ** The file *)

(** What reading and decoding the file gives. *)
Inductive grant_file :=
| FileMissing
| FileUnreadable
| FileUndecodable (size : Z)
| FileState (size : Z) (s : grantState).

Definition maxGrantStoreBytes : Z := Z.shiftl 8 20.

(** A JSON round trip replaces invalid UTF-8 in every string. *)
Definition scrub_actor (a : Actor) : Actor :=
  {| Actor_ID := scrub (Actor_ID a); Actor_Kind := scrub (Actor_Kind a);
     Actor_DisplayName := scrub (Actor_DisplayName a); Actor_Roles := scrub <$> Actor_Roles a;
     Actor_Permissions := scrub <$> Actor_Permissions a |}.
Definition scrub_grant (g : ConfirmationGrant) : ConfirmationGrant :=
  {| Grant_Schema := scrub (Grant_Schema g); Grant_ID := scrub (Grant_ID g);
     Grant_PlanID := scrub (Grant_PlanID g); Grant_PlanDigest := scrub (Grant_PlanDigest g);
     Grant_SubjectActorID := scrub (Grant_SubjectActorID g);
     Grant_SessionID := scrub (Grant_SessionID g); Grant_Approver := scrub_actor (Grant_Approver g);
     Grant_Action := scrub (Grant_Action g); Grant_IssuedAt := Grant_IssuedAt g;
     Grant_ExpiresAt := Grant_ExpiresAt g; Grant_UsedAt := Grant_UsedAt g |}.
Definition scrub_stored (s : storedGrant) : storedGrant :=
  {| SG_Grant := scrub_grant (SG_Grant s); SG_TokenSHA256 := scrub (SG_TokenSHA256 s) |}.
Definition scrub_state (s : grantState) : grantState :=
  {| GS_Schema := scrub (GS_Schema s); GS_Grants := scrub_stored <$> GS_Grants s |}.

(** The steps of [persistLocked]; an [io] says which of them succeed and how long the text
    of [MarshalIndent] is. *)
Inductive persist_step := MkdirAll | MarshalIndent | CreateTemp | Chmod | Write | Sync | Close | Rename.
Record persist_io := { PIO_Step :> persist_step -> bool; PIO_Size : Z }.

(** The file is replaced atomically by the final rename; before it, only a
    temporary file is touched. *)
Definition persistLocked (io : persist_io) (data : grantState) (file : grant_file) :
    result unit * grant_file :=
  if negb (io MkdirAll) then (fail "create confirmation store directory", file)
  else if negb (io MarshalIndent) then (fail "encode confirmation store", file)
  else if negb (io CreateTemp) then (fail "create confirmation store temp file", file)
  else if negb (io Chmod) then (fail "chmod", file)
  else if negb (io Write) then (fail "write", file)
  else if negb (io Sync) then (fail "sync", file)
  else if negb (io Close) then (fail "close", file)
  else if negb (io Rename) then (fail "replace confirmation store", file)
  else (Ok tt, FileState (PIO_Size io) (scrub_state data)).

(** The validation loop of [load]. *)
Fixpoint load_check (seen : gset string) (grants : list storedGrant) : result unit :=
  match grants with
  | [] => Ok tt
  | s :: grants =>
    let g := SG_Grant s in
    if (Grant_Schema g != GrantSchema) || (Grant_ID g == "") || (Grant_PlanID g == "")
       || (Grant_PlanDigest g == "") || (Grant_SubjectActorID g == "")
       || (Grant_SessionID g == "") || (Grant_Action g == "") then
      fail "confirmation store contains an invalid grant"
    else if bool_decide (Grant_ID g ∈ seen) then
      fail "confirmation store contains a duplicate grant ID"
    else
      match decodeSHA256 (SG_TokenSHA256 s) with
      | Err _ => fail "confirmation store contains an invalid token digest"
      | Ok _ => load_check ({[Grant_ID g]} ∪ seen) grants
      end
  end.

(** [load] returns the state the store takes over; a missing file leaves the
    initial one. *)
Definition load (file : grant_file) (initial : grantState) : result grantState :=
  match file with
  | FileMissing => Ok initial
  | FileUnreadable => fail "read confirmation store"
  | FileUndecodable size =>
    if maxGrantStoreBytes <? size then fail "confirmation store exceeds 8 MiB"
    else fail "decode confirmation store"
  | FileState size state =>
    if maxGrantStoreBytes <? size then fail "confirmation store exceeds 8 MiB"
    else if GS_Schema state != grantStoreSchema then
      Err (errorf "unsupported confirmation store schema %q" [GS_Schema state])
    else _ ← load_check ∅ (GS_Grants state); Ok state
  end.

Definition OpenGrantStore (path : string) (ttl : duration) (file : grant_file) : result GrantStore :=
  if TrimSpace path == "" then fail "grant store path is required"
  else if (ttl <=? 0) || (15 * Minute <? ttl) then
    fail "confirmation grant TTL must be greater than zero and at most 15 minutes"
  else
    data ← load file {| GS_Schema := grantStoreSchema; GS_Grants := [] |};
    Ok {| Store_Path := path; Store_TTL := ttl; Store_Data := data |}.

(** ** Issuing *)

(** The 32 random bytes of the token and the identifier of the grant. *)
Record issue_entropy := { IE_Token : option bytes; IE_ID : entropy }.

Definition grant_exists (plan : OperationPlan) (grants : list storedGrant) : bool :=
  existsb (fun s => (Grant_PlanID (SG_Grant s) == Plan_ID plan)
                    && EqualFold (Grant_PlanDigest (SG_Grant s)) (Plan_Digest plan)) grants.

Definition confirmation_executable (plan : OperationPlan) : bool :=
  negb ((Plan_Schema plan != PlanSchema) || negb (Plan_Valid plan)
        || negb (Plan_RequiresConfirmation plan)).

Definition new_grant (ttl : duration) (now : time) (id : entropy) (plan : OperationPlan)
    (approver : Actor) : ConfirmationGrant :=
  let expires := Add now ttl in
  {| Grant_Schema := GrantSchema;
     Grant_ID := newSecurityID id "grant";
     Grant_PlanID := Plan_ID plan;
     Grant_PlanDigest := Plan_Digest plan;
     Grant_SubjectActorID := Actor_ID (Plan_Actor plan);
     Grant_SessionID := Plan_SessionID plan;
     Grant_Approver := approver;
     Grant_Action := Plan_Action plan;
     Grant_IssuedAt := now;
     Grant_ExpiresAt := if Before (Plan_ExpiresAt plan) expires then Plan_ExpiresAt plan else expires;
     Grant_UsedAt := 0 |}.

Definition Issue (io : persist_io) (e : issue_entropy) (now : time) (plan : OperationPlan)
    (approver : Actor) (s : GrantStore) (file : grant_file) :
    result GrantResponse * GrantStore * grant_file :=
  if negb (confirmation_executable plan) then (fail "plan does not require confirmation", s, file)
  else if negb (VerifyPlanDigest plan) then (fail "plan digest verification failed", s, file)
  else if negb (After (Plan_ExpiresAt plan) now) then (fail "plan has expired", s, file)
  else if TrimSpace (Plan_SessionID plan) == "" then
    (fail "plan session is required for confirmation", s, file)
  else if (Actor_Kind approver != ActorHuman) || negb (HasPermission approver PermissionConfirm) then
    (fail "only an authenticated human approver may issue confirmation grants", s, file)
  else if Actor_ID (Plan_Actor plan) == Actor_ID approver then
    (fail "v1alpha1 requires a distinct human approver", s, file)
  else if grant_exists plan (store_grants s) then
    (fail "a confirmation grant already exists for this plan", s, file)
  else
    match IE_Token e with
    | None => (fail "generate confirmation token", s, file)
    | Some raw =>
      let token := hex_encode raw in
      let grant := new_grant (Store_TTL s) now (IE_ID e) plan approver in
      let grants := store_grants s ++ [{| SG_Grant := grant; SG_TokenSHA256 := sha256_hex token |}] in
      match persistLocked io (Store_Data (with_grants grants s)) file with
      | (Err err, file') => (Err err, with_grants (take (length grants - 1) grants) s, file')
      | (Ok _, file') => (Ok {| GR_Grant := grant; GR_Token := token |}, with_grants grants s, file')
      end
    end.

(** ** Consuming *)

(** The first grant whose stored digest is the digest of the token. *)
Fixpoint find_grant (provided : bytes) (grants : list storedGrant) (index : nat) :
    option (nat * storedGrant) :=
  match grants with
  | [] => None
  | s :: grants =>
    match decodeSHA256 (SG_TokenSHA256 s) with
    | Err _ => find_grant provided grants (S index)
    | Ok expected =>
      if ConstantTimeCompare provided expected then Some (index, s)
      else find_grant provided grants (S index)
    end
  end.

Definition bound_to (g : ConfirmationGrant) (plan : OperationPlan) (subject action : string) : bool :=
  negb ((Grant_PlanID g != Plan_ID plan)
        || negb (EqualFold (Grant_PlanDigest g) (Plan_Digest plan))
        || (Grant_SubjectActorID g != subject)
        || (Grant_SessionID g != Plan_SessionID plan)
        || (Grant_Action g != action)).

Definition Consume (io : persist_io) (now : time) (token : string) (plan : OperationPlan)
    (subject action : string) (s : GrantStore) (file : grant_file) :
    result ConfirmationGrant * GrantStore * grant_file :=
  if TrimSpace token == "" then (fail "confirmation token is required", s, file)
  else if negb (confirmation_executable plan) then
    (fail "operation plan is not confirmation-executable", s, file)
  else if negb (VerifyPlanDigest plan) then (fail "plan digest verification failed", s, file)
  else if negb (After (Plan_ExpiresAt plan) now) then (fail "operation plan has expired", s, file)
  else
    match find_grant (Sum256 token) (store_grants s) 0 with
    | None => (fail "confirmation grant not found", s, file)
    | Some (index, stored) =>
      let grant := SG_Grant stored in
      if negb (IsZero (Grant_UsedAt grant)) then
        (fail "confirmation grant has already been consumed", s, file)
      else if negb (After (Grant_ExpiresAt grant) now) then
        (fail "confirmation grant has expired", s, file)
      else if negb (bound_to grant plan subject action) then
        (fail "confirmation grant is not bound to this operation", s, file)
      else
        let s' := with_grants (<[index := set_used now stored]> (store_grants s)) s in
        match persistLocked io (Store_Data s') file with
        | (Err err, file') =>
          (Err err, with_grants (<[index := set_used 0 stored]> (store_grants s')) s', file')
        | (Ok _, file') => (Ok (with_used now grant), s', file')
        end
    end.

(** ** Lemmas *)

Definition token_matches (provided : bytes) (s : storedGrant) : Prop :=
  decodeSHA256 (SG_TokenSHA256 s) = Ok provided.
#[export] Instance token_matches_dec provided s : Decision (token_matches provided s).
Proof.
  unfold token_matches. destruct (decodeSHA256 _) as [d|]; [|by right].
  destruct (decide (d = provided)) as [->|]; [by left|right; congruence].
Defined.

Lemma find_grant_list_find provided grants index :
  find_grant provided grants index =
  prod_map (Nat.add index) id <$> list_find (token_matches provided) grants.
Proof.
  revert index. induction grants as [|s grants IH]; intros index; [done|]. cbn [find_grant].
  rewrite IH.
  change (list_find (token_matches provided) (s :: grants)) with
    (if decide (token_matches provided s) then Some (0%nat, s)
     else prod_map S id <$> list_find (token_matches provided) grants).
  assert (Hshift : prod_map (Nat.add (S index)) id <$> list_find (token_matches provided) grants =
    prod_map (Nat.add index) id <$> (prod_map S id <$> list_find (token_matches provided) grants)).
  { destruct (list_find _ _) as [[i x]|]; [|done]. simpl. do 2 f_equal. lia. }
  destruct (decodeSHA256 (SG_TokenSHA256 s)) as [d|e] eqn:Ed.
  - unfold ConstantTimeCompare. case_bool_decide; case_decide as E; unfold token_matches in E;
      rewrite ?Ed in E; try congruence. simpl. by rewrite Nat.add_0_r.
  - case_decide as E; [|done]. unfold token_matches in E. congruence.
Qed.

Lemma find_grant_0 provided grants :
  find_grant provided grants 0 = list_find (token_matches provided) grants.
Proof.
  rewrite find_grant_list_find. by destruct (list_find _ _) as [[]|].
Qed.

Lemma with_grants_id s : with_grants (store_grants s) s = s.
Proof. by destruct s as [? ? []]. Qed.

Lemma store_grants_with l s : store_grants (with_grants l s) = l.
Proof. done. Qed.

Lemma set_used_set_used t u s : set_used t (set_used u s) = set_used t s.
Proof. done. Qed.

Lemma set_used_id s : set_used (Grant_UsedAt (SG_Grant s)) s = s.
Proof. by destruct s as [[] ?]. Qed.

Lemma persistLocked_cases io data file :
  (exists e, persistLocked io data file = (Err e, file) /\ exists step, io step = false) \/
  (persistLocked io data file = (Ok tt, FileState (PIO_Size io) (scrub_state data)) /\ forall step, io step = true).
Proof.
  unfold persistLocked, fail.
  repeat match goal with |- context [if negb (PIO_Step io ?st) then _ else _] =>
    destruct (PIO_Step io st) eqn:?; cbn [negb]; [|left; eexists; split; [done|by exists st]] end.
  right. split; [done|]. by intros [].
Qed.

(** The conditions under which a grant is issued. *)
Record issuable (now : time) (plan : OperationPlan) (approver : Actor) (s : GrantStore) : Prop := {
  is_executable : confirmation_executable plan = true;
  is_verified : VerifyPlanDigest plan = true;
  is_fresh : now < Plan_ExpiresAt plan;
  is_session : TrimSpace (Plan_SessionID plan) <> "";
  is_human : Actor_Kind approver = ActorHuman;
  is_approver : PermissionConfirm ∈ Actor_Permissions approver;
  is_distinct : Actor_ID (Plan_Actor plan) <> Actor_ID approver;
  is_first : grant_exists plan (store_grants s) = false
}.

Definition issued (e : entropy) (token : string) (now : time) (plan : OperationPlan)
    (approver : Actor) (s : GrantStore) : storedGrant :=
  {| SG_Grant := new_grant (Store_TTL s) now e plan approver; SG_TokenSHA256 := sha256_hex token |}.

Definition io_ok (io : persist_io) : Prop := forall step, io step = true.

Inductive issue_outcome io e now plan approver s file :
  result GrantResponse * GrantStore * grant_file -> Prop :=
| issue_ok raw (s' := with_grants (store_grants s ++ [issued (IE_ID e) (hex_encode raw) now plan approver s]) s) :
  issuable now plan approver s -> IE_Token e = Some raw -> io_ok io ->
  issue_outcome io e now plan approver s file
    (Ok {| GR_Grant := new_grant (Store_TTL s) now (IE_ID e) plan approver; GR_Token := hex_encode raw |},
     s', FileState (PIO_Size io) (scrub_state (Store_Data s')))
| issue_err err :
  (~ issuable now plan approver s \/ IE_Token e = None \/ exists step, io step = false) ->
  issue_outcome io e now plan approver s file (Err err, s, file).

Ltac refuse H := apply H; left; intros []; bool_prop; try congruence; try lia.

Lemma Issue_cases io e now plan approver s file :
  issue_outcome io e now plan approver s file (Issue io e now plan approver s file).
Proof.
  unfold Issue, fail.
  destruct (confirmation_executable plan) eqn:E1; cbn [negb]; [|refuse issue_err].
  destruct (VerifyPlanDigest plan) eqn:E2; cbn [negb]; [|refuse issue_err].
  destruct (After (Plan_ExpiresAt plan) now) eqn:E3; cbn [negb]; unfold After in E3; [|refuse issue_err].
  destruct (TrimSpace (Plan_SessionID plan) == "") eqn:E4; [refuse issue_err|].
  destruct (Actor_Kind approver != ActorHuman) eqn:E5; cbn [orb]; [refuse issue_err|].
  destruct (HasPermission approver PermissionConfirm) eqn:E6; cbn [negb];
    [|apply issue_err; left; intros []; apply not_true_iff_false in E6; by rewrite HasPermission_elem in E6].
  destruct (Actor_ID (Plan_Actor plan) == Actor_ID approver) eqn:E7; [refuse issue_err|].
  destruct (grant_exists plan (store_grants s)) eqn:E8; [refuse issue_err|].
  destruct (IE_Token e) as [raw|] eqn:E9; [|apply issue_err; auto].
  set (grants := store_grants s ++ _).
  destruct (persistLocked_cases io (Store_Data (with_grants grants s)) file)
    as [(err & -> & step)|[-> Hio]].
  - unfold grants at 1 2. rewrite length_app. cbn [length]. rewrite Nat.add_sub, take_app_length.
    rewrite with_grants_id. apply issue_err. eauto.
  - apply issue_ok; [|done|done]. bool_prop. by split.
Qed.

(** The conditions under which a token is consumed. *)
Record consumable (now : time) (token : string) (plan : OperationPlan) (subject action : string)
    (s : GrantStore) (index : nat) (stored : storedGrant) : Prop := {
  co_token : TrimSpace token <> "";
  co_executable : confirmation_executable plan = true;
  co_verified : VerifyPlanDigest plan = true;
  co_fresh : now < Plan_ExpiresAt plan;
  co_found : list_find (token_matches (Sum256 token)) (store_grants s) = Some (index, stored);
  co_unused : Grant_UsedAt (SG_Grant stored) = 0;
  co_unexpired : now < Grant_ExpiresAt (SG_Grant stored);
  co_plan_id : Grant_PlanID (SG_Grant stored) = Plan_ID plan;
  co_digest : EqualFold (Grant_PlanDigest (SG_Grant stored)) (Plan_Digest plan) = true;
  co_subject : Grant_SubjectActorID (SG_Grant stored) = subject;
  co_session : Grant_SessionID (SG_Grant stored) = Plan_SessionID plan;
  co_action : Grant_Action (SG_Grant stored) = action
}.

Inductive consume_outcome io now token plan subject action s file :
  result ConfirmationGrant * GrantStore * grant_file -> Prop :=
| consume_ok index stored
    (s' := with_grants (<[index := set_used now stored]> (store_grants s)) s) :
  consumable now token plan subject action s index stored -> io_ok io ->
  consume_outcome io now token plan subject action s file
    (Ok (with_used now (SG_Grant stored)), s', FileState (PIO_Size io) (scrub_state (Store_Data s')))
| consume_err err :
  (~ (exists index stored, consumable now token plan subject action s index stored) \/
   exists step, io step = false) ->
  consume_outcome io now token plan subject action s file (Err err, s, file).

Lemma bound_to_true g plan subject action :
  bound_to g plan subject action = true <->
  Grant_PlanID g = Plan_ID plan /\ EqualFold (Grant_PlanDigest g) (Plan_Digest plan) = true /\
  Grant_SubjectActorID g = subject /\ Grant_SessionID g = Plan_SessionID plan /\
  Grant_Action g = action.
Proof. unfold bound_to. bool_prop. tauto. Qed.

Ltac refuse_consume :=
  apply consume_err; left; intros (? & ? & []); bool_prop; try congruence; try lia.

Lemma Consume_cases io now token plan subject action s file :
  consume_outcome io now token plan subject action s file
    (Consume io now token plan subject action s file).
Proof.
  unfold Consume, fail.
  destruct (TrimSpace token == "") eqn:E1; [refuse_consume|].
  destruct (confirmation_executable plan) eqn:E2; cbn [negb]; [|refuse_consume].
  destruct (VerifyPlanDigest plan) eqn:E3; cbn [negb]; [|refuse_consume].
  destruct (After (Plan_ExpiresAt plan) now) eqn:E4; cbn [negb]; unfold After in E4; [|refuse_consume].
  rewrite find_grant_0.
  destruct (list_find _ (store_grants s)) as [[index stored]|] eqn:E5; [|refuse_consume].
  destruct (IsZero _) eqn:E6; cbn [negb]; unfold IsZero in E6; [|refuse_consume; simplify_eq; lia].
  destruct (After (Grant_ExpiresAt (SG_Grant stored)) now) eqn:E7; cbn [negb]; unfold After in E7;
    [|refuse_consume; simplify_eq; lia].
  destruct (bound_to _ _ _ _) eqn:E8; cbn [negb];
    [|apply consume_err; left; intros (? & ? & []); simplify_eq; apply not_true_iff_false in E8;
      by apply E8, bound_to_true].
  set (s' := with_grants _ s).
  destruct (persistLocked_cases io (Store_Data s') file) as [(err & -> & step)|[-> Hio]].
  - unfold s' at 1. rewrite store_grants_with, list_insert_insert_eq.
    apply Z.eqb_eq in E6. rewrite <- E6, set_used_id.
    apply list_find_Some in E5 as (E5 & _). rewrite list_insert_id by done.
    unfold s'. change (with_grants (store_grants s) (with_grants ?l s)) with (with_grants (store_grants s) s).
    rewrite with_grants_id. apply consume_err. eauto.
  - apply consume_ok; [|done]. apply bound_to_true in E8 as (? & ? & ? & ? & ?). bool_prop. by split.
Qed.

(** ** The life of a store: operations, failures and restarts *)

Inductive grant_op :=
| OpIssue (io : persist_io) (e : issue_entropy) (now : time) (plan : OperationPlan) (approver : Actor)
| OpConsume (io : persist_io) (now : time) (token : string) (plan : OperationPlan) (subject action : string)
| OpRestart (read_ok : bool). (* [false]: reading the file fails *)

Inductive grant_result :=
| ResIssued (r : GrantResponse) (plan : OperationPlan) (approver : Actor)
| ResConsumed (token : string) (g : ConfirmationGrant) (now : time) (plan : OperationPlan)
| ResNone.

(** A process with its store, or one that could not open it, and the file. *)
Record grant_process := {
  GP_Path : string; GP_TTL : duration;
  GP_Store : option GrantStore; GP_File : grant_file
}.

Definition grant_start (path : string) (ttl : duration) (file : grant_file) : grant_process :=
  {| GP_Path := path; GP_TTL := ttl;
     GP_Store := match OpenGrantStore path ttl file with Ok s => Some s | Err _ => None end;
     GP_File := file |}.

Definition grant_step (p : grant_process) (op : grant_op) : grant_result * grant_process :=
  let running s file := {| GP_Path := GP_Path p; GP_TTL := GP_TTL p; GP_Store := Some s; GP_File := file |} in
  match op, GP_Store p with
  | OpIssue io e now plan approver, Some s =>
    let '(r, s', file') := Issue io e now plan approver s (GP_File p) in
    (match r with Ok g => ResIssued g plan approver | Err _ => ResNone end, running s' file')
  | OpConsume io now token plan subject action, Some s =>
    let '(r, s', file') := Consume io now token plan subject action s (GP_File p) in
    (match r with Ok g => ResConsumed token g now plan | Err _ => ResNone end, running s' file')
  | OpRestart true, _ => (ResNone, grant_start (GP_Path p) (GP_TTL p) (GP_File p))
  | OpRestart false, _ =>
    (ResNone, {| GP_Path := GP_Path p; GP_TTL := GP_TTL p; GP_Store := None; GP_File := GP_File p |})
  | _, None => (ResNone, p)
  end.

Fixpoint grant_run (p : grant_process) (ops : list grant_op) : list grant_result * grant_process :=
  match ops with
  | [] => ([], p)
  | op :: ops =>
    let '(r, p) := grant_step p op in
    let '(rs, p) := grant_run p ops in
    (r :: rs, p)
  end.

(** *** What one step does to the list of grants *)

Definition persisted (p : grant_process) : list storedGrant :=
  match GP_File p with FileState _ d => GS_Grants d | _ => [] end.

(** The grants in force: those of memory, or of the file while no store is open. *)
Definition current (p : grant_process) : list storedGrant :=
  match GP_Store p with Some s => store_grants s | None => persisted p end.

Definition lawful_ttl (ttl : duration) : Prop := 0 < ttl <= 15 * Minute.

(** Memory and file agree up to a JSON round trip. *)
Definition synced (p : grant_process) : Prop :=
  match GP_Store p with
  | None => True
  | Some s => lawful_ttl (Store_TTL s) /\
    match GP_File p with
    | FileState _ d => d = Store_Data s \/ d = scrub_state (Store_Data s)
    | _ => store_grants s = []
    end
  end.

Inductive grants_move : grant_result -> list storedGrant -> list storedGrant -> Prop :=
| move_issue s e raw now plan approver :
  lawful_ttl (Store_TTL s) -> issuable now plan approver s ->
  grants_move (ResIssued {| GR_Grant := new_grant (Store_TTL s) now e plan approver;
                            GR_Token := hex_encode raw |} plan approver)
    (store_grants s) (store_grants s ++ [issued e (hex_encode raw) now plan approver s])
| move_consume s now token plan subject action index stored :
  consumable now token plan subject action s index stored ->
  grants_move (ResConsumed token (with_used now (SG_Grant stored)) now plan)
    (store_grants s) (<[index := set_used now stored]> (store_grants s))
| move_keep l : grants_move ResNone l l
| move_reload l : grants_move ResNone l (scrub_stored <$> l).

Lemma OpenGrantStore_Ok path ttl file s :
  OpenGrantStore path ttl file = Ok s ->
  lawful_ttl ttl /\ Store_Path s = path /\ Store_TTL s = ttl /\
  (file = FileMissing /\ store_grants s = [] \/ exists size, size <= maxGrantStoreBytes /\ file = FileState size (Store_Data s)).
Proof.
  unfold OpenGrantStore, lawful_ttl. destruct (TrimSpace path == ""); [done|].
  destruct ((ttl <=? 0) || _) eqn:Ettl; [done|]. intros E. bool_prop.
  split; [lia|].
  destruct file as [| |size|size d]; simplify_eq/=; [by repeat split; left|by case_match|].
  destruct (maxGrantStoreBytes <? size) eqn:Esize; [done|]. destruct (GS_Schema d != _); [done|].
  destruct (load_check _ _); simplify_eq/=. repeat split. right. exists size. split; [bool_prop; lia|done].
Qed.

Lemma grant_start_synced path ttl file : synced (grant_start path ttl file).
Proof.
  unfold synced, grant_start. simpl. destruct (OpenGrantStore path ttl file) as [s|] eqn:E; [|done].
  apply OpenGrantStore_Ok in E as (Httl & _ & <- & [[-> E]|(? & _ & ->)]); split; auto.
Qed.

Lemma grant_step_move p op :
  synced p ->
  synced (grant_step p op).2 /\
  grants_move (grant_step p op).1 (current p) (current (grant_step p op).2).
Proof.
  intros H. unfold synced, current in *. destruct op as [io e now plan approver|io now token plan subject action|[]]; simpl.
  - destruct (GP_Store p) as [s|] eqn:Es; [|cbn [fst snd]; rewrite Es; split; [done|constructor]].
    destruct H as [Httl H]. destruct (Issue_cases io e now plan approver s (GP_File p)); simpl.
    + split; [split; [exact Httl|by right]|]. by constructor.
    + split; [split; assumption|]. constructor.
  - destruct (GP_Store p) as [s|] eqn:Es; [|cbn [fst snd]; rewrite Es; split; [done|constructor]].
    destruct H as [Httl H].
    destruct (Consume_cases io now token plan subject action s (GP_File p)); simpl.
    + split; [split; [exact Httl|by right]|]. econstructor. eassumption.
    + split; [split; assumption|]. constructor.
  - split; [apply grant_start_synced|]. unfold persisted; simpl.
    set (l := match GP_Store p with Some s => _ | None => _ end).
    set (l' := match _ with Some s => store_grants s | None => _ end).
    assert (l' = match GP_File p with FileState _ d => GS_Grants d | _ => [] end) as ->.
    { unfold l'. destruct (OpenGrantStore _ _ _) as [s|] eqn:E; [|done].
      apply OpenGrantStore_Ok in E as (_ & _ & _ & [[-> E]|(? & _ & ->)]); done. }
    unfold l. destruct (GP_Store p) as [s|]; [|constructor]. destruct H as [_ H].
    destruct (GP_File p) as [| |size|size d]; try (rewrite H; constructor).
    destruct H as [-> | ->]; constructor.
  - split; [done|]. unfold persisted; simpl.
    destruct (GP_Store p) as [s|]; [|constructor]. destruct H as [_ H].
    destruct (GP_File p) as [| |size|size d]; try (rewrite H; constructor).
    destruct H as [-> | ->]; constructor.
Qed.

(** A sequence of moves, with the result of each. *)
Inductive moves : list storedGrant -> list grant_result -> list storedGrant -> Prop :=
| moves_nil l : moves l [] l
| moves_cons l r l' rs l'' : grants_move r l l' -> moves l' rs l'' -> moves l (r :: rs) l''.

(** An invariant between the results so far and the grants in force holds after
    every sequence of moves when each move preserves it. *)
Lemma moves_invariant (I : list grant_result -> list storedGrant -> Prop) past l rs l' :
  (forall past r l l', I past l -> grants_move r l l' -> r ∈ rs -> I (past ++ [r]) l') ->
  moves l rs l' -> I past l -> I (past ++ rs) l'.
Proof.
  intros Hpres H. revert past. induction H as [l|l r l' rs l'' Hm _ IH]; intros past HI.
  - by rewrite app_nil_r.
  - replace (past ++ r :: rs) with ((past ++ [r]) ++ rs) by by rewrite <- app_assoc.
    apply IH.
    + intros past' r' k k' HI' Hm' Hr. eapply Hpres; [exact HI'|exact Hm'|by right].
    + eapply Hpres; [exact HI|exact Hm|by left].
Qed.

Lemma grant_run_moves p ops :
  synced p ->
  synced (grant_run p ops).2 /\ moves (current p) (grant_run p ops).1 (current (grant_run p ops).2).
Proof.
  revert p. induction ops as [|op ops IH]; intros p Hs; simpl; [split; [exact Hs|constructor]|].
  destruct (grant_step_move p op Hs) as [Hs' Hm]. destruct (grant_step p op) as [r p'] eqn:E.
  simpl in Hs', Hm. destruct (IH p' Hs') as [Hs'' Hms]. destruct (grant_run p' ops) as [rs p''] eqn:E'.
  simpl in *. split; [exact Hs''|]. by econstructor.
Qed.

(** ** One token, one consumption *)

Lemma decodeSHA256_scrub v : decodeSHA256 (scrub v) = decodeSHA256 v.
Proof. unfold decodeSHA256. by rewrite ToLower_scrub. Qed.

Lemma token_matches_scrub provided s : token_matches provided (scrub_stored s) <-> token_matches provided s.
Proof. unfold token_matches. simpl. by rewrite decodeSHA256_scrub. Qed.

#[local] Opaque decodeSHA256 scrub hex_encode.

(** The grant that answers to the digest of a token has been used. *)
Definition spent (digest : bytes) (grants : list storedGrant) : Prop :=
  exists index stored, list_find (token_matches digest) grants = Some (index, stored) /\
                       Grant_UsedAt (SG_Grant stored) <> 0.

Lemma spent_app digest grants more : spent digest grants -> spent digest (grants ++ more).
Proof.
  intros (i & s & H & Hu). exists i, s. split; [apply list_find_app_l; exact H|exact Hu].
Qed.

Lemma spent_scrub digest grants : spent digest grants -> spent digest (scrub_stored <$> grants).
Proof.
  intros (i & s & H & Hu). exists i, (scrub_stored s). split; [|exact Hu].
  apply list_find_Some in H as (H1 & H2 & H3). apply list_find_Some. split_and!.
  - rewrite list_lookup_fmap, H1. reflexivity.
  - apply token_matches_scrub. exact H2.
  - intros j y Hj Hlt Hy. rewrite list_lookup_fmap in Hj.
    destruct (grants !! j) as [z|] eqn:E; [|discriminate]. injection Hj as <-.
    refine (H3 j z E Hlt _). refine (proj1 (token_matches_scrub _ _) _). exact Hy.
Qed.

(** Marking a grant as used spends its digest and keeps the others spent. *)
Lemma list_find_set_used provided grants index stored now i s :
  grants !! index = Some stored ->
  list_find (token_matches provided) grants = Some (i, s) ->
  list_find (token_matches provided) (<[index := set_used now stored]> grants)
  = Some (i, if decide (i = index) then set_used now stored else s).
Proof.
  intros Hs (H1 & H2 & H3)%list_find_Some.
  assert (Hlen : (index < length grants)%nat) by by apply lookup_lt_Some in Hs.
  apply list_find_Some. split_and!.
  - case_decide as E; [subst i; apply list_lookup_insert_eq, Hlen|].
    rewrite list_lookup_insert_ne by congruence. exact H1.
  - case_decide as E; [|exact H2]. subst i. rewrite Hs in H1. injection H1 as ->. exact H2.
  - intros j y Hj Hlt Hy. destruct (decide (j = index)) as [->|Hne].
    + rewrite list_lookup_insert_eq in Hj by exact Hlen. injection Hj as <-.
      exact (H3 index stored Hs Hlt Hy).
    + rewrite list_lookup_insert_ne in Hj by congruence. exact (H3 j y Hj Hlt Hy).
Qed.

Lemma spent_set_used digest grants index stored now :
  grants !! index = Some stored -> now <> 0 -> spent digest grants ->
  spent digest (<[index := set_used now stored]> grants).
Proof.
  intros Hs Hnow (i & s & H & Hu). eexists i, _. split; [apply list_find_set_used; eassumption|].
  case_decide; assumption.
Qed.

Lemma spent_now digest grants index stored now :
  list_find (token_matches digest) grants = Some (index, stored) -> now <> 0 ->
  spent digest (<[index := set_used now stored]> grants).
Proof.
  intros H Hnow. pose proof H as (Hs & _)%list_find_Some. eexists index, _.
  split; [apply list_find_set_used; eassumption|]. rewrite decide_True by reflexivity. exact Hnow.
Qed.

Definition consumed_digest (r : grant_result) : option bytes :=
  match r with ResConsumed token _ _ _ => Some (Sum256 token) | _ => None end.

(** No consumption happens at the zero instant (1 January of year 1). *)
Definition clock_set (op : grant_op) : Prop :=
  match op with OpConsume _ now _ _ _ _ => now <> 0 | _ => True end.

Lemma run_results p ops r :
  r ∈ (grant_run p ops).1 -> exists q op, op ∈ ops /\ r = (grant_step q op).1.
Proof.
  revert p. induction ops as [|op ops IH]; intros p; simpl; [by intros ?%not_elem_of_nil|].
  destruct (grant_step p op) as [r' q] eqn:E. specialize (IH q).
  destruct (grant_run q ops) as [rs q']. simpl in *. intros [->|H]%elem_of_cons.
  - exists p, op. rewrite E. split; [by left|done].
  - destruct (IH H) as (q1 & op1 & ? & ?). exists q1, op1. split; [by right|done].
Qed.

Lemma run_consumed p ops token g now plan :
  ResConsumed token g now plan ∈ (grant_run p ops).1 ->
  exists io subject action, OpConsume io now token plan subject action ∈ ops.
Proof.
  intros (q & op & Hop & E)%run_results. unfold grant_step in E.
  destruct op as [io e now' plan' approver|io now' token' plan' subject action|[]];
    destruct (GP_Store q); try discriminate.
  - destruct (Issue _ _ _ _ _ _ _) as [[[]]]; discriminate.
  - destruct (Consume _ _ _ _ _ _ _ _) as [[[]]]; simplify_eq/=. eauto.
Qed.

Lemma moves_single_use l rs l' :
  moves l rs l' ->
  (forall token g now plan, ResConsumed token g now plan ∈ rs -> now <> 0) ->
  NoDup (omap consumed_digest rs).
Proof.
  intros Hms Hclock.
  pose (I := fun (past : list grant_result) l => NoDup (omap consumed_digest past) /\
             forall d, d ∈ omap consumed_digest past -> spent d l).
  assert (H : I ([] ++ rs) l').
  { apply (moves_invariant I [] l rs l'); [|exact Hms|split; [constructor|by intros ? ?%not_elem_of_nil]].
    intros past r k k' [Hnd Hsp] Hm Hr. unfold I. rewrite omap_app.
    destruct Hm as [s e raw now plan approver Httl Hi|s now token plan subject action i stored Hc|k|k];
      cbn [omap consumed_digest list_omap]; rewrite ?app_nil_r.
    - split; [exact Hnd|]. intros d Hd. apply spent_app, Hsp, Hd.
    - apply Hclock in Hr. pose proof (co_found _ _ _ _ _ _ _ _ Hc) as Hf. split.
      + apply NoDup_app. split; [exact Hnd|]. split; [|apply NoDup_singleton].
        intros d Hd Hd'%list_elem_of_singleton. subst d. destruct (Hsp _ Hd) as (j & s' & Hj & Hu).
        rewrite Hf in Hj. injection Hj as <- <-. apply Hu, (co_unused _ _ _ _ _ _ _ _ Hc).
      + intros d [Hd| ->%list_elem_of_singleton]%elem_of_app; [|by apply spent_now].
        apply spent_set_used; [|exact Hr|apply Hsp, Hd]. by apply list_find_Some in Hf as [? _].
    - split; assumption.
    - split; [exact Hnd|]. intros d Hd. apply spent_scrub, Hsp, Hd. }
  exact (proj1 H).
Qed.

(** No duplicates among the digests means no two positions with one digest. *)
Lemma single_use_lookup rs i j token1 g1 t1 plan1 token2 g2 t2 plan2 :
  NoDup (omap consumed_digest rs) ->
  rs !! i = Some (ResConsumed token1 g1 t1 plan1) -> rs !! j = Some (ResConsumed token2 g2 t2 plan2) ->
  Sum256 token1 = Sum256 token2 -> i = j.
Proof.
  revert i j. induction rs as [|r rs IH]; intros i j Hnd Hi Hj Hsum; [done|].
  assert (Htail : forall k token g t plan, rs !! k = Some (ResConsumed token g t plan) ->
                  Sum256 token ∈ omap consumed_digest rs).
  { intros k token g t plan Hk. apply list_elem_of_omap. eexists. split; [by eapply list_elem_of_lookup_2|done]. }
  destruct i as [|i], j as [|j]; [done|..]; simpl in Hi, Hj.
  - injection Hi as ->. apply NoDup_cons in Hnd as [Hn _]. destruct Hn. rewrite Hsum. by eapply Htail.
  - injection Hj as ->. apply NoDup_cons in Hnd as [Hn _]. destruct Hn. rewrite <- Hsum. by eapply Htail.
  - f_equal. apply IH; try assumption. cbn [omap list_omap] in Hnd.
    destruct (consumed_digest r); [by apply NoDup_cons in Hnd as [_ ?]|exact Hnd].
Qed.

(** Single use.  Start the store on any file and run any interleaving of
    issuing, consuming and restarting, with any failures of the random source and of
    the file system: no token, and no two tokens with the same SHA-256, is
    ever accepted twice. *)
Theorem grant_single_use path ttl file ops :
  Forall clock_set ops ->
  NoDup (omap consumed_digest (grant_run (grant_start path ttl file) ops).1).
Proof.
  intros Hclock. destruct (grant_run_moves (grant_start path ttl file) ops) as [_ Hms];
    [apply grant_start_synced|]. eapply moves_single_use; [exact Hms|].
  intros token g now plan Hr. apply run_consumed in Hr as (io & subj & act & Hop).
  rewrite Forall_forall in Hclock. apply Hclock in Hop. exact Hop.
Qed.

(** ** Where a consumed grant comes from *)

Definition wire_actor (a : Actor) : Prop :=
  Forall (fun s => valid_utf8 s = true)
    (Actor_ID a :: Actor_Kind a :: Actor_DisplayName a :: Actor_Roles a ++ Actor_Permissions a).

(** Plans and approvers as a JSON decoder delivers them. *)
Definition wire_op (op : grant_op) : Prop :=
  match op with
  | OpIssue _ _ _ plan approver =>
    wire_plan plan /\ valid_utf8 (Plan_Digest plan) = true /\ wire_actor approver
  | OpConsume _ _ _ plan _ _ => wire_plan plan
  | OpRestart _ => True
  end.

Lemma scrub_list_valid l : Forall (fun s => valid_utf8 s = true) l -> scrub <$> l = l.
Proof.
  induction 1 as [|s l H _ IH]; [done|]. rewrite fmap_cons, IH. f_equal. by apply scrub_valid.
Qed.

Lemma scrub_actor_wire a : wire_actor a -> scrub_actor a = a.
Proof.
  unfold wire_actor. intros H. do 3 (apply Forall_cons in H as [? H]).
  apply Forall_app in H as [? ?]. destruct a. unfold scrub_actor. simpl in *.
  rewrite !scrub_list_valid by assumption. by rewrite !scrub_valid by assumption.
Qed.

Lemma newSecurityID_graphic e prefix :
  forallb graphic (to_bytes prefix) = true -> forallb graphic (to_bytes (newSecurityID e prefix)) = true.
Proof.
  unfold newSecurityID. intros H.
  destruct (Ent_Bytes e) as [raw|]; rewrite !to_bytes_app, !forallb_app, H; cbn [andb].
  - pose proof (hex_encode_is_hex raw) as Hx. unfold is_hex in Hx. rewrite forallb_elem in Hx.
    apply forallb_elem. intros a Ha%Hx. by apply lower_hex_graphic.
  - pose proof (decimal_digits (Ent_UnixNano e)) as Hd. rewrite forallb_elem in Hd.
    apply forallb_elem. intros a Ha%Hd. unfold is_digit, graphic, between in *. bool_prop. lia.
Qed.

Lemma graphic_ascii s : forallb graphic (to_bytes s) = true -> is_ascii s = true.
Proof.
  unfold is_ascii. rewrite !forallb_elem. intros H a Ha%H. unfold graphic, ascii7, between in *. bool_prop. lia.
Qed.

Lemma newSecurityID_ascii e prefix :
  forallb graphic (to_bytes prefix) = true -> is_ascii (newSecurityID e prefix) = true.
Proof. intros H. by apply graphic_ascii, newSecurityID_graphic. Qed.

Lemma issued_wire e token now plan approver s :
  wire_plan plan -> valid_utf8 (Plan_Digest plan) = true -> wire_actor approver ->
  scrub_stored (issued e token now plan approver s) = issued e token now plan approver s.
Proof.
  intros Hp Hd Ha. pose proof (wp_strings _ Hp) as S.
  repeat match goal with S : Forall _ (_ :: _) |- _ => apply Forall_cons in S as [? S] end.
  unfold scrub_stored, scrub_grant, issued, new_grant. simpl.
  rewrite scrub_actor_wire by assumption.
  rewrite (scrub_valid (newSecurityID e "grant")) by by apply is_ascii_valid, newSecurityID_ascii.
  rewrite (scrub_valid (sha256_hex token)) by apply is_ascii_valid, is_hex_ascii, sha256_hex_is_hex.
  rewrite (scrub_valid GrantSchema) by (vm_compute; reflexivity).
  by rewrite !scrub_valid by assumption.
Qed.

Lemma decodeSHA256_sha256 token : decodeSHA256 (sha256_hex token) = Ok (Sum256 token).
Proof. apply decodeSHA256_hex, length_Sum256. Qed.

(** The result of an issue, with what was checked and what was granted. *)
Record issuance (r : GrantResponse) (plan : OperationPlan) (approver : Actor) : Prop := {
  iss_human : Actor_Kind approver = ActorHuman;
  iss_permitted : PermissionConfirm ∈ Actor_Permissions approver;
  iss_distinct : Actor_ID approver <> Actor_ID (Plan_Actor plan);
  iss_approver : Grant_Approver (GR_Grant r) = approver;
  iss_verified : VerifyPlanDigest plan = true;
  iss_digest : Grant_PlanDigest (GR_Grant r) = Plan_Digest plan;
  iss_subject : Grant_SubjectActorID (GR_Grant r) = Actor_ID (Plan_Actor plan);
  iss_expiry : Grant_ExpiresAt (GR_Grant r) <= Plan_ExpiresAt plan;
  iss_lifetime : Grant_ExpiresAt (GR_Grant r) <= Grant_IssuedAt (GR_Grant r) + 15 * Minute
}.

Lemma new_grant_issuance s e now plan approver token :
  lawful_ttl (Store_TTL s) -> issuable now plan approver s ->
  issuance {| GR_Grant := new_grant (Store_TTL s) now e plan approver; GR_Token := token |} plan approver.
Proof.
  intros [_ Httl] []. split; try (assumption || reflexivity).
  - by intros [=].
  - simpl. unfold Before, Add. case_match; bool_prop; lia.
  - simpl. unfold Before, Add. case_match; bool_prop; lia.
Qed.

(** A stored grant descends from an issue among the past results. *)
Definition descends (past : list grant_result) (stored : storedGrant) (i : nat) : Prop :=
  exists r plan approver, past !! i = Some (ResIssued r plan approver) /\
    issuance r plan approver /\ wire_plan plan /\
    SG_TokenSHA256 stored = sha256_hex (GR_Token r) /\
    SG_Grant stored = with_used (Grant_UsedAt (SG_Grant stored)) (GR_Grant r).

Definition ancestry (past : list grant_result) (l : list storedGrant) : Prop :=
  Forall (fun stored => scrub_stored stored = stored /\ exists i, descends past stored i) l.

Lemma descends_app past more stored i : descends past stored i -> descends (past ++ more) stored i.
Proof.
  intros (r & plan & approver & H & Hrest). exists r, plan, approver.
  split; [by apply lookup_app_l_Some|exact Hrest].
Qed.

Lemma ancestry_app past more l : ancestry past l -> ancestry (past ++ more) l.
Proof.
  intros Hl. eapply Forall_impl; [exact Hl|]. intros stored [H [i Hi]]. split; [exact H|]. exists i. by apply descends_app.
Qed.

(** Every consumption follows the issue of its token. *)
Definition justified (past : list grant_result) (token : string) (g : ConfirmationGrant) (now : time)
    (plan : OperationPlan) (i : nat) : Prop :=
  exists r plan0 approver, past !! i = Some (ResIssued r plan0 approver) /\
    issuance r plan0 approver /\ Sum256 token = Sum256 (GR_Token r) /\
    g = with_used now (GR_Grant r) /\ now < Grant_ExpiresAt (GR_Grant r) /\
    VerifyPlanDigest plan = true /\
    (binding plan = binding plan0 \/ collision (canonical_plan plan) (canonical_plan plan0)).

Lemma run_issued p ops r plan approver :
  ResIssued r plan approver ∈ (grant_run p ops).1 ->
  exists io e now, OpIssue io e now plan approver ∈ ops.
Proof.
  intros (q & op & Hop & E)%run_results. unfold grant_step in E.
  destruct op as [io e now' plan' approver'|io now' token' plan' subject action|[]];
    destruct (GP_Store q); try discriminate.
  - destruct (Issue _ _ _ _ _ _ _) as [[[]]]; simplify_eq/=. eauto.
  - destruct (Consume _ _ _ _ _ _ _ _) as [[[]]]; discriminate.
Qed.

Lemma consume_justified past s now token plan subject action index stored :
  ancestry past (store_grants s) -> wire_plan plan ->
  consumable now token plan subject action s index stored ->
  exists i, justified past token (with_used now (SG_Grant stored)) now plan i.
Proof.
  intros Ha Hw Hc. pose proof (co_found _ _ _ _ _ _ _ _ Hc) as (Hl & Hm & _)%list_find_Some.
  unfold ancestry in Ha. rewrite Forall_lookup in Ha. destruct (Ha _ _ Hl) as [_ [i Hi]].
  destruct Hi as (r & plan0 & approver & Hp & Hiss & Hw0 & Htok & Hg).
  exists i, r, plan0, approver. unfold token_matches in Hm. rewrite Htok, decodeSHA256_sha256 in Hm.
  injection Hm as Hm. split_and!; try assumption.
  - by symmetry.
  - by rewrite Hg.
  - pose proof (co_unexpired _ _ _ _ _ _ _ _ Hc) as H. by rewrite Hg in H.
  - apply Hc.
  - apply verified_binding; try assumption; [apply Hc|apply Hiss|].
    pose proof (co_digest _ _ _ _ _ _ _ _ Hc) as H%EqualFold_spec. rewrite Hg in H. simpl in H.
    rewrite (iss_digest _ _ _ Hiss) in H. by symmetry.
Qed.

Lemma justified_app past more token g now plan i :
  justified past token g now plan i -> justified (past ++ more) token g now plan i.
Proof.
  intros (r & plan0 & approver & H & Hrest). exists r, plan0, approver.
  split; [by apply lookup_app_l_Some|exact Hrest].
Qed.

Definition provenance (past : list grant_result) (l : list storedGrant) : Prop :=
  ancestry past l /\
  forall k token g now plan, past !! k = Some (ResConsumed token g now plan) ->
  exists i, (i < k)%nat /\ justified past token g now plan i.

Lemma issued_descends past s e raw now plan approver (r := {| GR_Grant := new_grant (Store_TTL s) now e plan approver; GR_Token := hex_encode raw |}) :
  lawful_ttl (Store_TTL s) -> issuable now plan approver s -> wire_plan plan ->
  descends (past ++ [ResIssued r plan approver]) (issued e (hex_encode raw) now plan approver s) (length past).
Proof.
  intros Httl Hi Hw. exists r, plan, approver.
  split; [by rewrite lookup_app_r, Nat.sub_diag by lia|].
  split_and!; [by apply new_grant_issuance|exact Hw|reflexivity..].
Qed.

(** A result that is not a consumption keeps the second half of the invariant. *)
Lemma consumptions_app past r :
  (forall token g now plan, r = ResConsumed token g now plan -> exists i, justified past token g now plan i) ->
  (forall k token g now plan, past !! k = Some (ResConsumed token g now plan) ->
   exists i, (i < k)%nat /\ justified past token g now plan i) ->
  forall k token g now plan, (past ++ [r]) !! k = Some (ResConsumed token g now plan) ->
  exists i, (i < k)%nat /\ justified (past ++ [r]) token g now plan i.
Proof.
  intros Hr Hpast k token g now plan [H|[Hk H]]%lookup_app_Some.
  - destruct (Hpast _ _ _ _ _ H) as (i & Hlt & Hj). exists i. split; [exact Hlt|by apply justified_app].
  - apply list_lookup_singleton_Some in H as [Hk' ->].
    destruct (Hr _ _ _ _ eq_refl) as [i Hj]. exists i. split; [|by apply justified_app].
    destruct Hj as (? & ? & ? & Hi & _). apply lookup_lt_Some in Hi. lia.
Qed.

Lemma provenance_move past r l l' :
  provenance past l -> grants_move r l l' ->
  match r with
  | ResIssued _ plan approver => wire_plan plan /\ valid_utf8 (Plan_Digest plan) = true /\ wire_actor approver
  | ResConsumed _ _ _ plan => wire_plan plan
  | ResNone => True
  end ->
  provenance (past ++ [r]) l'.
Proof.
  intros [Ha Hc] Hm Hw.
  destruct Hm as [s e raw now plan approver Httl Hi|s now token plan subject action i stored Hcons|l|l].
  - destruct Hw as (Hw & Hd & Hap). split; [|by apply consumptions_app].
    apply Forall_app. split; [by apply ancestry_app|]. apply Forall_singleton.
    split; [by apply issued_wire|]. exists (length past). by apply issued_descends.
  - split; [|apply consumptions_app; [|exact Hc]; intros ? ? ? ? [= <- <- <- <-]; by eapply consume_justified].
    pose proof (co_found _ _ _ _ _ _ _ _ Hcons) as (Hl & _)%list_find_Some.
    apply (ancestry_app _ [ResConsumed token (with_used now (SG_Grant stored)) now plan]) in Ha.
    apply Forall_insert; [exact Ha|]. unfold ancestry in Ha. rewrite Forall_lookup in Ha.
    destruct (Ha _ _ Hl) as [Hs [j (r & plan0 & approver & Hp & Hiss & Hw0 & Htok & Hg)]].
    split; [by rewrite <- Hs at 2|]. exists j, r, plan0, approver. split_and!; try assumption.
    simpl. by rewrite Hg.
  - split; [by apply ancestry_app|]. by apply consumptions_app.
  - split; [|by apply consumptions_app]. apply (ancestry_app _ [ResNone]) in Ha.
    unfold ancestry in *. rewrite Forall_fmap. eapply Forall_impl; [exact Ha|].
    intros stored [Hs Hd]. unfold compose. rewrite Hs. split; assumption.
Qed.

(** Plans and approvers of the results as a JSON decoder delivers them. *)
Definition wire_result (r : grant_result) : Prop :=
  match r with
  | ResIssued _ plan approver => wire_plan plan /\ valid_utf8 (Plan_Digest plan) = true /\ wire_actor approver
  | ResConsumed _ _ _ plan => wire_plan plan
  | ResNone => True
  end.

Lemma moves_provenance rs l' :
  moves [] rs l' -> Forall wire_result rs ->
  forall k token g now plan, rs !! k = Some (ResConsumed token g now plan) ->
  exists i, (i < k)%nat /\ justified rs token g now plan i.
Proof.
  intros Hms Hw. assert (H : provenance ([] ++ rs) l'); [|apply H].
  apply (moves_invariant provenance [] [] rs l'); [|exact Hms|split; [constructor|by intros ? ? ? ? ? [=]]].
  intros past r k k' HI Hm Hr. apply (provenance_move past r k k' HI Hm).
  rewrite Forall_forall in Hw. exact (Hw r Hr).
Qed.

Lemma grant_start_missing path ttl : current (grant_start path ttl FileMissing) = [].
Proof.
  unfold current, grant_start, persisted. simpl.
  destruct (OpenGrantStore path ttl FileMissing) as [s|] eqn:E; [|done].
  by apply OpenGrantStore_Ok in E as (_ & _ & _ & [[_ E]|(? & _ & [=])]).
Qed.

(** C4 Provenance.  Start the store on a missing file and run operations whose
    plans and approvers came out of a JSON decoder: each consumed token was issued
    earlier in the run, to a human with the confirmation permission other than the actor
    of the plan.  The grant consumed is the grant issued; it lived at most 15 minutes and not
    longer than its plan; and the plan executed agrees with the plan confirmed on
    everything the digest covers, or their canonical texts are a SHA-256 collision. *)
Theorem grant_provenance path ttl ops k token g now plan :
  Forall wire_op ops ->
  let results := (grant_run (grant_start path ttl FileMissing) ops).1 in
  results !! k = Some (ResConsumed token g now plan) ->
  exists i, (i < k)%nat /\ justified results token g now plan i.
Proof.
  intros Hwire results. unfold results. set (p := grant_start path ttl FileMissing).
  destruct (grant_run_moves p ops) as [_ Hms]; [apply grant_start_synced|].
  unfold p at 1 in Hms. rewrite grant_start_missing in Hms. eapply moves_provenance; [exact Hms|].
  rewrite Forall_forall in Hwire. apply Forall_forall. intros [r plan0 approver|token0 g0 now0 plan0|] Hr; [| |exact I].
  - apply run_issued in Hr as (io & e & now0 & Hop). exact (Hwire _ Hop).
  - apply run_consumed in Hr as (io & subject & action & Hop). exact (Hwire _ Hop).
Qed.

(** ** The contract of each operation *)

(** [Issue] succeeds exactly when the plan is executable, verifies, has not expired and
    has a session, the approver is a human with the permission and not the actor of
    the plan, no grant exists for the plan, and randomness and the file system
    cooperate.  Then one grant bound to the plan is appended, expiring at the
    earlier of plan expiry and the configured lifetime, and stored with the digest of the
    token only; on every error store and file are as before. *)
Theorem Issue_spec io e now plan approver s file :
  let '(r, s', file') := Issue io e now plan approver s file in
  (is_ok r = true <-> issuable now plan approver s /\ IE_Token e <> None /\ io_ok io) /\
  (is_ok r = false -> s' = s /\ file' = file) /\
  forall response, r = Ok response ->
  let grant := GR_Grant response in
  store_grants s' = store_grants s ++ [{| SG_Grant := grant; SG_TokenSHA256 := sha256_hex (GR_Token response) |}] /\
  file' = FileState (PIO_Size io) (scrub_state (Store_Data s')) /\
  GR_Token response = hex_encode (default [] (IE_Token e)) /\
  Grant_PlanID grant = Plan_ID plan /\ Grant_PlanDigest grant = Plan_Digest plan /\
  Grant_SubjectActorID grant = Actor_ID (Plan_Actor plan) /\ Grant_SessionID grant = Plan_SessionID plan /\
  Grant_Action grant = Plan_Action plan /\ Grant_Approver grant = approver /\ Grant_UsedAt grant = 0 /\
  Grant_ExpiresAt grant = Z.min (Plan_ExpiresAt plan) (now + Store_TTL s).
Proof.
  destruct (Issue_cases io e now plan approver s file) as [raw s' Hi Hraw Hio|err Herr].
  - split; [split; [intros _|done]; split_and!; [exact Hi|by rewrite Hraw|exact Hio]|].
    split; [done|]. intros response [= <-]. simpl. rewrite Hraw. split_and!; try reflexivity.
    unfold Before, Add. case_match; bool_prop; lia.
  - split; [split; [done|]|done]. intros (Hi & Ht & Hio).
    destruct Herr as [Hn|[Hn|[step Hs]]]; [by destruct Hn|by destruct Ht|]. by rewrite Hio in Hs.
Qed.

(** [Consume] succeeds exactly when the first stored grant with the digest of the token
    is unused, unexpired and bound to plan, subject, session and action, the plan
    itself is executable, verified and unexpired, and the file system cooperates.  Then that grant
    and no other is marked as used, in memory and in the file; on every error store
    and file are as before, so a failed write can be retried. *)
Theorem Consume_spec io now token plan subject action s file :
  let '(r, s', file') := Consume io now token plan subject action s file in
  (is_ok r = true <->
   (exists index stored, consumable now token plan subject action s index stored) /\ io_ok io) /\
  (is_ok r = false -> s' = s /\ file' = file) /\
  forall grant, r = Ok grant ->
  exists index stored, consumable now token plan subject action s index stored /\
    grant = with_used now (SG_Grant stored) /\
    store_grants s' = <[index := set_used now stored]> (store_grants s) /\
    file' = FileState (PIO_Size io) (scrub_state (Store_Data s')).
Proof.
  destruct (Consume_cases io now token plan subject action s file) as [index stored s' Hc Hio|err Herr].
  - split; [split; [intros _; eauto|done]|]. split; [done|]. intros grant [= <-].
    exists index, stored. split_and!; [exact Hc|reflexivity..].
  - split; [split; [done|]|done]. intros [Hc Hio].
    destruct Herr as [Hn|[step Hs]]; [by destruct Hn|]. by rewrite Hio in Hs.
Qed.

(** *** Opening the file that was written *)

Record loadable (stored : storedGrant) : Prop := {
  ld_schema : Grant_Schema (SG_Grant stored) = GrantSchema;
  ld_id : Grant_ID (SG_Grant stored) <> "";
  ld_plan : Grant_PlanID (SG_Grant stored) <> "";
  ld_digest : Grant_PlanDigest (SG_Grant stored) <> "";
  ld_subject : Grant_SubjectActorID (SG_Grant stored) <> "";
  ld_session : Grant_SessionID (SG_Grant stored) <> "";
  ld_action : Grant_Action (SG_Grant stored) <> "";
  ld_token : is_ok (decodeSHA256 (SG_TokenSHA256 stored)) = true
}.

Definition grant_ids (l : list storedGrant) : list string := Grant_ID ∘ SG_Grant <$> l.

Lemma load_check_ok seen l :
  is_ok (load_check seen l) = true <->
  Forall loadable l /\ NoDup (grant_ids l) /\ forall id, id ∈ grant_ids l -> id ∉ seen.
Proof.
  revert seen. induction l as [|s l IH]; intros seen; simpl.
  - split; [|done]. intros _. split_and!; [constructor..|by intros ? ?%not_elem_of_nil].
  - rewrite Forall_cons, NoDup_cons. unfold compose.
    destruct (_ || _) eqn:E; [split; [done|intros [[[] _] _]; bool_prop; intuition congruence]|].
    bool_prop. case_bool_decide as Hin.
    { split; [done|]. intros (_ & _ & Hs). destruct (Hs (Grant_ID (SG_Grant s))); [by left|exact Hin]. }
    destruct (decodeSHA256 (SG_TokenSHA256 s)) eqn:Ed;
      [|split; [done|intros [[[] _] _]; rewrite Ed in *; discriminate]].
    rewrite IH. split.
    + intros (Hl & Hnd & Hs). split_and!; try assumption.
      * split; try (intuition congruence). by rewrite Ed.
      * intros H%Hs. set_solver.
      * intros id [->|H%Hs]%elem_of_cons; set_solver.
    + intros ([_ Hl] & [Hn Hnd] & Hs). split_and!; try assumption. intros id Hid.
      apply not_elem_of_union. split; [|apply Hs; by right].
      intros ->%elem_of_singleton. by apply Hn.
Qed.

(** The states a store can take over from its file, or starts with. *)
Definition well_formed (s : GrantStore) : Prop :=
  TrimSpace (Store_Path s) <> "" /\ lawful_ttl (Store_TTL s) /\
  GS_Schema (Store_Data s) = grantStoreSchema /\ scrub_state (Store_Data s) = Store_Data s /\
  Forall loadable (store_grants s) /\ NoDup (grant_ids (store_grants s)).

Definition reopened (s : GrantStore) (file : grant_file) : Prop :=
  OpenGrantStore (Store_Path s) (Store_TTL s) file = Ok s.

Lemma well_formed_reopens size s :
  well_formed s -> reopened s (FileState size (Store_Data s)) <-> size <= maxGrantStoreBytes.
Proof.
  intros (Hp & [H1 H2] & Hschema & _ & Hl & Hnd). unfold reopened, OpenGrantStore.
  apply String.eqb_neq in Hp. rewrite Hp.
  replace ((Store_TTL s <=? 0) || (15 * Minute <? Store_TTL s)) with false
    by (symmetry; bool_prop; lia).
  unfold load. destruct (maxGrantStoreBytes <? size) eqn:E; bool_prop; [split; [done|lia]|].
  rewrite Hschema. simpl.
  assert (H : is_ok (load_check ∅ (GS_Grants (Store_Data s))) = true)
    by (apply load_check_ok; split_and!; [exact Hl|exact Hnd|intros ? _; apply not_elem_of_empty]).
  destruct (load_check _ _); [|done]. by destruct s.
Qed.

Lemma scrub_state_with s l :
  scrub_state (Store_Data s) = Store_Data s -> scrub_stored <$> l = l ->
  scrub_state (Store_Data (with_grants l s)) = Store_Data (with_grants l s).
Proof.
  intros Hs Hl. apply (f_equal GS_Schema) in Hs. unfold scrub_state in *. simpl in *. by rewrite Hs, Hl.
Qed.

Lemma well_formed_scrubbed s : well_formed s -> scrub_stored <$> store_grants s = store_grants s.
Proof.
  intros (_ & _ & _ & Hs & _). apply (f_equal GS_Grants) in Hs. exact Hs.
Qed.

Lemma issued_loadable e token now plan approver s :
  issuable now plan approver s -> Plan_ID plan <> "" -> Actor_ID (Plan_Actor plan) <> "" ->
  Plan_Action plan <> "" -> loadable (issued e token now plan approver s).
Proof.
  intros [] Hid Hactor Haction. split; simpl; try assumption.
  - reflexivity.
  - unfold newSecurityID. by destruct (Ent_Bytes e).
  - intros Hd. assert (H := is_verified0). unfold VerifyPlanDigest in H. rewrite Hd in H.
    unfold PlanDigest in H. rewrite slen_sha256_hex in H. discriminate.
  - intros Hs. by rewrite Hs in is_session0.
  - by rewrite decodeSHA256_sha256.
Qed.

Lemma issue_well_formed e token now plan approver s :
  well_formed s -> issuable now plan approver s -> wire_plan plan ->
  valid_utf8 (Plan_Digest plan) = true -> wire_actor approver ->
  Plan_ID plan <> "" -> Actor_ID (Plan_Actor plan) <> "" -> Plan_Action plan <> "" ->
  newSecurityID e "grant" ∉ grant_ids (store_grants s) ->
  well_formed (with_grants (store_grants s ++ [issued e token now plan approver s]) s).
Proof.
  intros Hwf Hi Hw Hd Ha H1 H2 H3 Hfresh.
  pose proof Hwf as (Hp & Httl & Hschema & Hs & Hl & Hnd). pose proof (well_formed_scrubbed s Hwf) as Hss.
  split_and!; try assumption; [by destruct Httl..| | |].
  - apply scrub_state_with; [exact Hs|]. rewrite fmap_app, Hss. f_equal.
    change (scrub_stored <$> [?x]) with [scrub_stored x]. f_equal. by apply issued_wire.
  - apply Forall_app. split; [exact Hl|]. apply Forall_singleton. by apply issued_loadable.
  - rewrite store_grants_with. unfold grant_ids. rewrite fmap_app. apply NoDup_app.
    split; [exact Hnd|]. split; [|apply NoDup_singleton].
    intros id Hid ->%list_elem_of_singleton. by apply Hfresh.
Qed.

Lemma grant_ids_set_used l index stored now :
  l !! index = Some stored -> grant_ids (<[index := set_used now stored]> l) = grant_ids l.
Proof.
  intros H. unfold grant_ids. rewrite list_fmap_insert. apply list_insert_id.
  rewrite list_lookup_fmap, H. reflexivity.
Qed.

Lemma consume_well_formed s index stored now :
  well_formed s -> store_grants s !! index = Some stored ->
  well_formed (with_grants (<[index := set_used now stored]> (store_grants s)) s).
Proof.
  intros Hwf H. pose proof Hwf as (Hp & Httl & Hschema & Hs & Hl & Hnd).
  pose proof (well_formed_scrubbed s Hwf) as Hss.
  split_and!; try assumption; [by destruct Httl..| | |].
  - apply scrub_state_with; [exact Hs|]. rewrite list_fmap_insert, Hss. f_equal.
    assert (Hm : (scrub_stored <$> store_grants s) !! index = Some stored) by by rewrite Hss.
    rewrite list_lookup_fmap, H in Hm. injection Hm as Hm. by rewrite <- Hm at 2.
  - rewrite store_grants_with. apply Forall_insert; [exact Hl|].
    rewrite Forall_lookup in Hl. destruct (Hl _ _ H). by split.
  - by rewrite store_grants_with, grant_ids_set_used.
Qed.

Lemma well_formed_rewritten size s :
  well_formed s -> reopened s (FileState size (scrub_state (Store_Data s))) <-> size <= maxGrantStoreBytes.
Proof. intros W. pose proof W as (_ & _ & _ & -> & _). by apply well_formed_reopens. Qed.

(** C30 Restart after success.  A well-formed store reopens from the file it wrote
    with exactly the state it had, after a successful [Issue] (of a decoded plan with
    identifier, actor and action, under a fresh grant identifier) and after every
    successful [Consume], exactly when the text it wrote is at most 8 MiB long (nothing bounds it
    when it is written); the new state is well formed again. *)
Theorem grant_store_reopens s :
  well_formed s ->
  (forall size, reopened s (FileState size (Store_Data s)) <-> size <= maxGrantStoreBytes) /\
  (forall io e now plan approver file r s' file',
   wire_plan plan -> valid_utf8 (Plan_Digest plan) = true -> wire_actor approver ->
   Plan_ID plan <> "" -> Actor_ID (Plan_Actor plan) <> "" -> Plan_Action plan <> "" ->
   newSecurityID (IE_ID e) "grant" ∉ grant_ids (store_grants s) ->
   Issue io e now plan approver s file = (Ok r, s', file') ->
   well_formed s' /\ (reopened s' file' <-> PIO_Size io <= maxGrantStoreBytes)) /\
  (forall io now token plan subject action file g s' file',
   Consume io now token plan subject action s file = (Ok g, s', file') ->
   well_formed s' /\ (reopened s' file' <-> PIO_Size io <= maxGrantStoreBytes)).
Proof.
  intros Hwf. split; [|split].
  - intros size. by apply well_formed_reopens.
  - intros io e now plan approver file r s' file' Hw Hd Ha H1 H2 H3 Hfresh E.
    pose proof (Issue_cases io e now plan approver s file) as O. rewrite E in O. inversion O; subst.
    match goal with |- well_formed ?t /\ _ => assert (W : well_formed t) by by apply issue_well_formed end.
    split; [exact W|exact (well_formed_rewritten _ _ W)].
  - intros io now token plan subject action file g s' file' E.
    pose proof (Consume_cases io now token plan subject action s file) as O. rewrite E in O.
    inversion O; subst. match goal with H : consumable _ _ _ _ _ _ _ _ |- _ =>
      pose proof (co_found _ _ _ _ _ _ _ _ H) as (Hl & _)%list_find_Some end.
    match goal with |- well_formed ?t /\ _ => assert (W : well_formed t) by by apply consume_well_formed end.
    split; [exact W|exact (well_formed_rewritten _ _ W)].
Qed.

(** ** A concrete run *)

Definition example_approver : Actor :=
  {| Actor_ID := "human:bob"; Actor_Kind := ActorHuman; Actor_DisplayName := "Bob";
     Actor_Roles := ["approver"]; Actor_Permissions := [PermissionConfirm] |}.
Definition io_works : persist_io := {| PIO_Step := fun _ => true; PIO_Size := 900 |}.
Definition io_disk_full : persist_io :=
  {| PIO_Step := fun step => match step with Write => false | _ => true end; PIO_Size := 900 |}.
Definition example_entropy : issue_entropy :=
  {| IE_Token := Some [chr 7; chr 8; chr 9];
     IE_ID := {| Ent_Bytes := Some [chr 1]; Ent_UnixNano := 0 |} |}.
Definition example_token : string := "070809".
Definition later : time := example_now + Second.
Definition example_consume (io : persist_io) (now : time) : grant_op :=
  OpConsume io now example_token example_plan "human:alice" "service.restart".

(** Issue, a consumption that fails on a full disk, its retry, a replay, a restart and another replay. *)
Definition example_ops : list grant_op :=
  [OpIssue io_works example_entropy example_now example_plan example_approver;
   example_consume io_disk_full later; example_consume io_works later;
   example_consume io_works later; OpRestart true; example_consume io_works later].
Definition example_start : grant_process := grant_start "/var/lib/grants.json" (5 * Minute) FileMissing.
Definition example_grant : ConfirmationGrant :=
  new_grant (5 * Minute) example_now (IE_ID example_entropy) example_plan example_approver.
Definition example_results : list grant_result :=
  [ResIssued {| GR_Grant := example_grant; GR_Token := example_token |} example_plan example_approver;
   ResNone; ResConsumed example_token (with_used later example_grant) later example_plan;
   ResNone; ResNone; ResNone].

Lemma example_run : (grant_run example_start example_ops).1 = example_results.
Proof. vm_compute. reflexivity. Qed.

Lemma example_clock : Forall clock_set example_ops.
Proof. repeat (constructor; [first [exact I|by vm_compute]|]). constructor. Qed.

Lemma example_approver_wire : wire_actor example_approver.
Proof. repeat (constructor; [vm_compute; reflexivity|]). constructor. Qed.

Lemma example_ops_wire : Forall wire_op example_ops.
Proof.
  repeat (constructor; [first [exact I|exact example_plan_wire|
    split; [exact example_plan_wire|split; [vm_compute; reflexivity|exact example_approver_wire]]]|]).
  constructor.
Qed.

Lemma grant_single_use_witness :
  Forall clock_set example_ops /\ NoDup (omap consumed_digest (grant_run example_start example_ops).1).
Proof.
  split; [exact example_clock|].
  apply (grant_single_use "/var/lib/grants.json" (5 * Minute) FileMissing example_ops example_clock).
Defined.

Lemma grant_provenance_witness :
  exists i, (i < 2)%nat /\ justified (grant_run example_start example_ops).1 example_token
    (with_used later example_grant) later example_plan i.
Proof.
  assert (H : (grant_run example_start example_ops).1 !! 2%nat =
              Some (ResConsumed example_token (with_used later example_grant) later example_plan))
    by (rewrite example_run; reflexivity).
  exact (grant_provenance "/var/lib/grants.json" (5 * Minute) example_ops 2 example_token
           (with_used later example_grant) later example_plan example_ops_wire H).
Defined.

Definition example_store : GrantStore :=
  {| Store_Path := "/var/lib/grants.json"; Store_TTL := 5 * Minute;
     Store_Data := {| GS_Schema := grantStoreSchema; GS_Grants := [] |} |}.

Lemma example_store_well_formed : well_formed example_store.
Proof.
  split_and!; [vm_compute; discriminate|split; vm_compute; [reflexivity|discriminate]|
    reflexivity|vm_compute; reflexivity|constructor..].
Qed.

Lemma grant_store_reopens_witness : exists r s' file',
  Issue io_works example_entropy example_now example_plan example_approver example_store FileMissing
  = (Ok r, s', file') /\ well_formed s' /\ reopened s' file'.
Proof.
  destruct (Issue io_works example_entropy example_now example_plan example_approver example_store FileMissing)
    as [[[r|e] s'] file'] eqn:E.
  - exists r, s', file'. split; [reflexivity|].
    destruct (grant_store_reopens example_store example_store_well_formed) as (_ & H & _).
    destruct (H io_works example_entropy example_now example_plan example_approver FileMissing r s' file'
      example_plan_wire) as [W R];
      [vm_compute; reflexivity|exact example_approver_wire|discriminate..|apply not_elem_of_nil|exact E|].
    split; [exact W|apply R; discriminate].
  - exfalso. vm_compute in E. discriminate E.
Defined.
