(* ===== verification/AuditLog.v ===== *)
(** * The audit store

    [internal/security/audit.go]: records chained by SHA-256, appended to a file
    one line at a time and verified when the store opens.  The file is modelled by what
    the scanner and the JSON decoder read from each line ([audit_line]); the
    system calls of [Append] may fail, a failed write may leave an unfinished line. *)

From S2P Require Import Prelude GoStrings Sha256 GoTime Json Protocol Actors Plans Grants.
From Stdlib Require Import Ascii.
#[local] Open Scope Z_scope.

Definition AuditSchema : string := "quantum.control/audit-record/v1alpha1".
Definition maxAuditLineBytes : Z := Z.shiftl 1 20.

Record AuditRecord := {
  AR_Schema : string;
  AR_Sequence : Z;    (* uint64 *)
  AR_ID : string;
  AR_Timestamp : time;
  AR_Event : string;
  AR_Actor : Actor;
  AR_RequestID : string;
  AR_SessionID : string;
  AR_PlanID : string;
  AR_PlanDigest : string;
  AR_Action : string;
  AR_Risk : string;
  AR_Status : string;
  AR_RollbackStatus : string;
  AR_Parameters : gmap string string;
  AR_ErrorCode : string;
  AR_PreviousHash : string;
  AR_EntryHash : string
}.

#[export] Instance AuditRecord_eq_dec : EqDecision AuditRecord.
Proof. solve_decision. Defined.

Record AuditEvent := {
  Ev_Event : string;
  Ev_Actor : Actor;
  Ev_RequestID : string;
  Ev_SessionID : string;
  Ev_PlanID : string;
  Ev_PlanDigest : string;
  Ev_Action : string;
  Ev_Risk : string;
  Ev_Status : string;
  Ev_RollbackStatus : string;
  Ev_Parameters : gmap string string;
  Ev_ErrorCode : string
}.

Record AuditStore := {
  AS_Path : string;
  AS_Records : list AuditRecord;
  AS_LastHash : string;
  AS_Sequence : Z     (* uint64 *)
}.

Definition w64 (x : Z) : Z := x mod 2 ^ 64.

(** ** Sanitising *)

(** A rune below 0x20 or equal to 0x7f: such runes are single bytes. *)
Definition control_byte (a : ascii) : bool := (byte a <? 0x20) || (byte a =? 0x7f).

Definition sanitizeLabel (value : string) (limit : Z) : string :=
  let value := TrimSpace value in
  let value := if limit <? slen value then slice_to limit value else value in
  if existsb control_byte (to_bytes value) then "" else value.

Definition sanitizeDigest (value : string) : string :=
  let value := ToLower (TrimSpace value) in
  if negb (slen value =? 64) then ""
  else match hex_decode value with None => "" | Some _ => value end.

Definition secretMarkers : list string :=
  ["password"; "passwd"; "passphrase"; "token"; "secret"; "credential"; "api_key"; "apikey"; "private_key"].

Definition secretKey (key : string) : bool :=
  let value := ToLower (replace_byte "." "_" (replace_byte "-" "_" (TrimSpace key))) in
  existsb (Contains value) secretMarkers.

Definition redact (key value : string) : string :=
  if secretKey key then "[REDACTED]"
  else if 512 <? slen value then slice_to 512 value +:+ "[TRUNCATED]"
  else value.

(** Keys are kept, so the loop over the map is a map over its values. *)
Definition RedactParameters (parameters : gmap string string) : gmap string string :=
  map_imap (fun key value => Some (redact key value)) parameters.

(** ** The digest of a record *)

Definition json_opt_parameters (ps : list Parameter') : string :=
  match ps with
  | [] => ""
  | _ => "," +:+ json_kv "parameters" (json_array json_param ps)
  end.

Definition record_parameters (r : AuditRecord) : list Parameter' :=
  plan_parameters (map_to_list (AR_Parameters r)).

(** [json.Marshal] of the canonical structure of [auditHash]. *)
Definition canonical_audit (r : AuditRecord) : string :=
  "{" +:+ json_kv "schema" (json_string (AR_Schema r)) +:+ "," +:+
  json_kv "sequence" (decimal (Z.to_N (AR_Sequence r))) +:+ "," +:+
  json_kv "id" (json_string (AR_ID r)) +:+ "," +:+
  json_kv "timestamp" (json_string (format_rfc3339nano (AR_Timestamp r))) +:+ "," +:+
  json_kv "event" (json_string (AR_Event r)) +:+ "," +:+
  json_kv "actor_id" (json_string (Actor_ID (AR_Actor r))) +:+ "," +:+
  json_kv "actor_kind" (json_string (Actor_Kind (AR_Actor r))) +:+ "," +:+
  json_kv "roles" (json_array json_string (sort_strings (Actor_Roles (AR_Actor r)))) +:+ "," +:+
  json_kv "permissions" (json_array json_string (sort_strings (Actor_Permissions (AR_Actor r)))) +:+
  json_opt "request_id" (AR_RequestID r) +:+
  json_opt "session_id" (AR_SessionID r) +:+
  json_opt "plan_id" (AR_PlanID r) +:+
  json_opt "plan_digest" (AR_PlanDigest r) +:+
  json_opt "action" (AR_Action r) +:+
  json_opt "risk" (AR_Risk r) +:+ "," +:+
  json_kv "status" (json_string (AR_Status r)) +:+
  json_opt "rollback_status" (AR_RollbackStatus r) +:+
  json_opt_parameters (record_parameters r) +:+
  json_opt "error_code" (AR_ErrorCode r) +:+ "," +:+
  json_kv "previous_hash" (json_string (AR_PreviousHash r)) +:+ "}".

Definition auditHash (r : AuditRecord) : string := sha256_hex (canonical_audit r).

(** ** The line of a record *)

Definition json_actor (a : Actor) : string :=
  "{" +:+ json_kv "id" (json_string (Actor_ID a)) +:+ "," +:+
  json_kv "kind" (json_string (Actor_Kind a)) +:+ "," +:+
  json_kv "display_name" (json_string (Actor_DisplayName a)) +:+ "," +:+
  json_kv "roles" (json_array json_string (Actor_Roles a)) +:+ "," +:+
  json_kv "permissions" (json_array json_string (Actor_Permissions a)) +:+ "}".

(** A [map[string]string], keys sorted. *)
Definition json_map (m : gmap string string) : string :=
  match sort_by fst (map_to_list m) with
  | [] => "{}"
  | kv :: kvs =>
    "{" +:+ json_kv kv.1 (json_string kv.2) +:+
    fold_right (fun kv s => "," +:+ json_kv kv.1 (json_string kv.2) +:+ s) "}" kvs
  end.

(** [json.Marshal] of the record. *)
Definition marshal_record (r : AuditRecord) : string :=
  "{" +:+ json_kv "schema" (json_string (AR_Schema r)) +:+ "," +:+
  json_kv "sequence" (decimal (Z.to_N (AR_Sequence r))) +:+ "," +:+
  json_kv "id" (json_string (AR_ID r)) +:+ "," +:+
  json_kv "timestamp" (json_string (format_rfc3339nano (AR_Timestamp r))) +:+ "," +:+
  json_kv "event" (json_string (AR_Event r)) +:+ "," +:+
  json_kv "actor" (json_actor (AR_Actor r)) +:+
  json_opt "request_id" (AR_RequestID r) +:+
  json_opt "session_id" (AR_SessionID r) +:+
  json_opt "plan_id" (AR_PlanID r) +:+
  json_opt "plan_digest" (AR_PlanDigest r) +:+
  json_opt "action" (AR_Action r) +:+
  json_opt "risk" (AR_Risk r) +:+ "," +:+
  json_kv "status" (json_string (AR_Status r)) +:+
  json_opt "rollback_status" (AR_RollbackStatus r) +:+
  (if decide (AR_Parameters r = ∅) then "" else "," +:+ json_kv "parameters" (json_map (AR_Parameters r))) +:+
  json_opt "error_code" (AR_ErrorCode r) +:+ "," +:+
  json_kv "previous_hash" (json_string (AR_PreviousHash r)) +:+ "," +:+
  json_kv "entry_hash" (json_string (AR_EntryHash r)) +:+ "}".

(** What decoding that line gives: every string loses its invalid bytes.  The
    members of the map arrive in the order of their keys, later ones win. *)
Definition scrub_map (m : gmap string string) : gmap string string :=
  fold_left (fun m kv => <[scrub kv.1 := scrub kv.2]> m) (sort_by fst (map_to_list m)) ∅.

Definition scrub_record (r : AuditRecord) : AuditRecord :=
  {| AR_Schema := scrub (AR_Schema r); AR_Sequence := AR_Sequence r; AR_ID := scrub (AR_ID r);
     AR_Timestamp := AR_Timestamp r; AR_Event := scrub (AR_Event r);
     AR_Actor := scrub_actor (AR_Actor r); AR_RequestID := scrub (AR_RequestID r);
     AR_SessionID := scrub (AR_SessionID r); AR_PlanID := scrub (AR_PlanID r);
     AR_PlanDigest := scrub (AR_PlanDigest r); AR_Action := scrub (AR_Action r);
     AR_Risk := scrub (AR_Risk r); AR_Status := scrub (AR_Status r);
     AR_RollbackStatus := scrub (AR_RollbackStatus r); AR_Parameters := scrub_map (AR_Parameters r);
     AR_ErrorCode := scrub (AR_ErrorCode r); AR_PreviousHash := scrub (AR_PreviousHash r);
     AR_EntryHash := scrub (AR_EntryHash r) |}.

(** ** The file *)

(** What the decoder makes of a line: it reads the first JSON value only. *)
Inductive line_content := LineBlank | LineUndecodable | LineRecord (r : AuditRecord).
Record audit_line := { line_length : Z; line_content_of : line_content }.

(** The lines of a file; [AF_Torn] is an unfinished last line. *)
Record audit_lines := { AF_Lines : list audit_line; AF_Torn : option audit_line }.

(** Reading may fail at once or after the last line. *)
Inductive read_fault := NoFault | OpenFails | ReadFails.
Inductive audit_file :=
| AuditMissing
| AuditFile (content : audit_lines) (fault : read_fault).

(** ** Loading *)

(** The lines the scanner yields. *)
Definition scanned (f : audit_lines) : list audit_line :=
  AF_Lines f ++ match AF_Torn f with Some l => [l] | None => [] end.

Definition integrity_failure {A} (what : string) (line : N) : result A :=
  Err (errorf "audit integrity failure at line %d: %s" [decimal line; what]).

(** The scan loop of [loadAndVerify].  A line fits the buffer of the scanner only
    together with its newline, so its length stays below the limit. *)
Fixpoint load_lines (lines : list audit_line) (number : N) (previous : string) (sequence : Z)
    (acc : list AuditRecord) : result (list AuditRecord * string * Z) :=
  match lines with
  | [] => Ok (acc, previous, sequence)
  | line :: lines =>
    let number := N.succ number in
    if maxAuditLineBytes <=? line_length line then fail "read audit store"
    else
      match line_content_of line with
      | LineBlank => integrity_failure "empty record" number
      | LineUndecodable => integrity_failure "invalid JSON" number
      | LineRecord record =>
        if (AR_Schema record != AuditSchema) || negb (AR_Sequence record =? w64 (sequence + 1))
           || (AR_PreviousHash record != previous) then
          integrity_failure "chain metadata mismatch" number
        else if negb (EqualFold (auditHash record) (AR_EntryHash record)) then
          integrity_failure "entry hash mismatch" number
        else if (Actor_ID (AR_Actor record) == "") || (AR_Event record == "")
                || (AR_Status record == "") then
          integrity_failure "required field missing" number
        else load_lines lines number (AR_EntryHash record) (AR_Sequence record) (acc ++ [record])
      end
  end.

Definition loadAndVerify (file : audit_file) (s : AuditStore) : result AuditStore :=
  match file with
  | AuditMissing => Ok s
  | AuditFile _ OpenFails => fail "open audit store"
  | AuditFile content fault =>
    '(records, previous, sequence) ← load_lines (scanned content) 0 "" 0 (AS_Records s);
    match fault with
    | ReadFails => fail "read audit store"
    | _ => Ok {| AS_Path := AS_Path s; AS_Records := records; AS_LastHash := previous; AS_Sequence := sequence |}
    end
  end.

Definition OpenAuditStore (path : string) (file : audit_file) : result AuditStore :=
  if TrimSpace path == "" then fail "audit store path is required"
  else loadAndVerify file {| AS_Path := path; AS_Records := []; AS_LastHash := ""; AS_Sequence := 0 |}.

(** ** Appending *)

Definition new_record (e : entropy) (now : time) (event : AuditEvent) (s : AuditStore) : AuditRecord :=
  {| AR_Schema := AuditSchema;
     AR_Sequence := w64 (AS_Sequence s + 1);
     AR_ID := newSecurityID e "audit";
     AR_Timestamp := now;
     AR_Event := sanitizeLabel (Ev_Event event) 96;
     AR_Actor := Ev_Actor event;
     AR_RequestID := sanitizeLabel (Ev_RequestID event) 160;
     AR_SessionID := sanitizeLabel (Ev_SessionID event) 160;
     AR_PlanID := sanitizeLabel (Ev_PlanID event) 160;
     AR_PlanDigest := sanitizeDigest (Ev_PlanDigest event);
     AR_Action := sanitizeLabel (Ev_Action event) 160;
     AR_Risk := sanitizeLabel (Ev_Risk event) 64;
     AR_Status := sanitizeLabel (Ev_Status event) 64;
     AR_RollbackStatus := sanitizeLabel (Ev_RollbackStatus event) 64;
     AR_Parameters := RedactParameters (Ev_Parameters event);
     AR_ErrorCode := sanitizeLabel (Ev_ErrorCode event) 96;
     AR_PreviousHash := AS_LastHash s;
     AR_EntryHash := "" |}.

Definition with_entry_hash (hash : string) (r : AuditRecord) : AuditRecord :=
  {| AR_Schema := AR_Schema r; AR_Sequence := AR_Sequence r; AR_ID := AR_ID r;
     AR_Timestamp := AR_Timestamp r; AR_Event := AR_Event r; AR_Actor := AR_Actor r;
     AR_RequestID := AR_RequestID r; AR_SessionID := AR_SessionID r; AR_PlanID := AR_PlanID r;
     AR_PlanDigest := AR_PlanDigest r; AR_Action := AR_Action r; AR_Risk := AR_Risk r;
     AR_Status := AR_Status r; AR_RollbackStatus := AR_RollbackStatus r;
     AR_Parameters := AR_Parameters r; AR_ErrorCode := AR_ErrorCode r;
     AR_PreviousHash := AR_PreviousHash r; AR_EntryHash := hash |}.

(** How the system calls of one [Append] go.  A failed write leaves some bytes of
    the line ([Some] of what a reader makes of the unfinished line), or none; [AIO_Joined] is what a
    reader makes of the new line when it is written behind an unfinished one. *)
Inductive write_outcome := WriteOk | WriteFails (remains : option audit_line).
Record append_io := {
  AIO_Marshal : bool; (* [false]: a year outside 0..9999 *)
  AIO_MkdirAll : bool;
  AIO_OpenFile : bool;
  AIO_Write : write_outcome;
  AIO_Joined : audit_line;
  AIO_Sync : bool;
  AIO_Close : bool
}.

(** [O_CREATE|O_APPEND]. *)
Definition file_content (file : audit_file) : audit_lines :=
  match file with AuditFile content _ => content | _ => {| AF_Lines := []; AF_Torn := None |} end.
Definition file_fault (file : audit_file) : read_fault :=
  match file with AuditFile _ fault => fault | _ => NoFault end.

Definition written_line (r : AuditRecord) : audit_line :=
  {| line_length := slen (marshal_record r); line_content_of := LineRecord (scrub_record r) |}.

Definition append_line (io : append_io) (r : AuditRecord) (file : audit_file) : audit_file :=
  let f := file_content file in
  AuditFile
    match AF_Torn f with
    | None => {| AF_Lines := AF_Lines f ++ [written_line r]; AF_Torn := None |}
    | Some _ => {| AF_Lines := AF_Lines f ++ [AIO_Joined io]; AF_Torn := None |}
    end (file_fault file).

Definition tear_line (remains : option audit_line) (file : audit_file) : audit_file :=
  let f := file_content file in
  AuditFile {| AF_Lines := AF_Lines f;
               AF_Torn := match remains with Some l => Some l | None => AF_Torn f end |} (file_fault file).

Definition Append (io : append_io) (e : entropy) (now : time) (event : AuditEvent)
    (s : AuditStore) (file : audit_file) : result AuditRecord * AuditStore * audit_file :=
  let record := new_record e now event s in
  if (AR_Event record == "") || (Actor_ID (AR_Actor record) == "") || (AR_Status record == "") then
    (fail "audit event, actor and status are required", s, file)
  else
    let record := with_entry_hash (auditHash record) record in
    if negb (AIO_Marshal io) then (fail "encode audit record", s, file)
    else if maxAuditLineBytes <? slen (marshal_record record) then
      (fail "audit record exceeds line limit", s, file)
    else if negb (AIO_MkdirAll io) then (fail "create audit directory", s, file)
    else if negb (AIO_OpenFile io) then (fail "open audit store", s, file)
    else
      match AIO_Write io with
      | WriteFails remains => (fail "append audit record", s, tear_line remains file)
      | WriteOk =>
        let file := append_line io record file in
        if negb (AIO_Sync io) then (fail "sync audit record", s, file)
        else if negb (AIO_Close io) then (fail "close audit store", s, file)
        else
          (Ok record,
           {| AS_Path := AS_Path s; AS_Records := AS_Records s ++ [record];
              AS_LastHash := AR_EntryHash record; AS_Sequence := AR_Sequence record |}, file)
      end.

(** ** Reading *)

Definition query_limit (limit : Z) : nat :=
  Z.to_nat (if (limit <=? 0) || (500 <? limit) then 100 else limit).

Definition query_skips (actorID action : string) (record : AuditRecord) : bool :=
  (negb (actorID == "") && (Actor_ID (AR_Actor record) != actorID))
  || (negb (action == "") && (AR_Action record != action)).

(** The loop runs over the records from the newest to the oldest. *)
Fixpoint query_loop (limit : nat) (actorID action : string) (newest_first : list AuditRecord)
    (found : list AuditRecord) : list AuditRecord :=
  match newest_first with
  | [] => found
  | record :: older =>
    if (length found <? limit)%nat then
      if query_skips actorID action record then query_loop limit actorID action older found
      else query_loop limit actorID action older (found ++ [record])
    else found
  end.

Definition Query (limit : Z) (actorID action : string) (s : AuditStore) : list AuditRecord :=
  reverse (query_loop (query_limit limit) (TrimSpace actorID) (TrimSpace action) (reverse (AS_Records s)) []).

Definition Integrity (s : AuditStore) : dict :=
  <["schema" := AString AuditSchema]> (<["records" := ANumber (AS_Sequence s)]>
    (<["head_hash" := AString (AS_LastHash s)]> {["verified" := ABool true]})).

(** ** Queries *)

Lemma query_loop_spec limit actorID action l found :
  (length found <= limit)%nat ->
  query_loop limit actorID action l found =
  found ++ take (limit - length found) (filter (fun r => query_skips actorID action r = false) l).
Proof.
  revert found. induction l as [|r l IH]; intros found Hle; cbn [query_loop].
  { by rewrite filter_nil, take_nil, app_nil_r. }
  destruct (Nat.ltb_spec (length found) limit) as [Hlt|Hge].
  - rewrite filter_cons. destruct (query_skips actorID action r) eqn:E; case_decide; try done.
    + by apply IH.
    + rewrite IH by (rewrite length_app; simpl; lia). rewrite length_app, <- app_assoc. simpl.
      replace (limit - length found)%nat with (S (limit - (length found + 1)))%nat by lia. done.
  - by replace (limit - length found)%nat with 0%nat by lia; rewrite take_0, app_nil_r.
Qed.

(** The last [n] elements. *)
Definition last_n {A} (n : nat) (l : list A) : list A := drop (length l - n) l.

Definition query_matches (actorID action : string) (r : AuditRecord) : Prop :=
  (TrimSpace actorID = "" \/ Actor_ID (AR_Actor r) = TrimSpace actorID) /\
  (TrimSpace action = "" \/ AR_Action r = TrimSpace action).
#[export] Instance query_matches_dec actorID action r : Decision (query_matches actorID action r).
Proof. unfold query_matches. apply _. Defined.

(** [Query] answers the newest matching records, at most the limit, in the order in
    which they were appended; an absent, negative or excessive limit means 100, so no
    query answers more than 500 records; blank filters match everything. *)
Theorem Query_spec limit actorID action s :
  Query limit actorID action s =
  last_n (query_limit limit) (filter (query_matches actorID action) (AS_Records s)) /\
  (1 <= query_limit limit <= 500)%nat /\
  (1 <= limit <= 500 -> query_limit limit = Z.to_nat limit).
Proof.
  split_and!.
  - unfold Query. rewrite query_loop_spec by (simpl; lia). simpl. rewrite Nat.sub_0_r, filter_reverse.
    rewrite take_reverse, reverse_involutive. unfold last_n.
    rewrite (list_filter_iff _ (query_matches actorID action)); [done|].
    intros r. unfold query_skips, query_matches. bool_prop. naive_solver.
  - unfold query_limit. destruct (limit <=? 0) eqn:E1, (500 <? limit) eqn:E2; simpl; bool_prop; lia.
  - unfold query_limit. destruct (limit <=? 0) eqn:E1, (500 <? limit) eqn:E2; simpl; bool_prop; lia.
  - intros H. unfold query_limit. destruct (limit <=? 0) eqn:E1, (500 <? limit) eqn:E2; bool_prop; simpl; lia.
Qed.

(** ** What sanitising guarantees *)

Lemma to_bytes_slice_to limit v : to_bytes (slice_to limit v) = take (Z.to_nat limit) (to_bytes v).
Proof. unfold slice_to. by rewrite to_of_bytes. Qed.

Lemma slen_append s t : slen (s +:+ t) = slen s + slen t.
Proof. rewrite <- (of_to_bytes s), <- (of_to_bytes t), <- of_bytes_app, !slen_of_bytes, length_app. lia. Qed.

Lemma redact_length key v : slen (redact key v) <= 523.
Proof.
  unfold redact. destruct (secretKey key); [by vm_compute|].
  destruct (Z.ltb_spec 512 (slen v)); [|lia]. rewrite slen_append.
  pose proof (slen_slice_to 512 v). change (slen "[TRUNCATED]") with 11. lia.
Qed.

(** Redaction and sanitising.  The redacted map has the keys of the original; the value of
    every key that names a secret is the fixed marker, other values of up to 512
    bytes are kept and longer ones cut, so no value exceeds 523 bytes.  A sanitised label is
    at most as long as its limit and has no control character; a sanitised digest is empty or
    64 bytes of hexadecimal. *)
Theorem redaction_spec parameters value limit :
  (forall key, RedactParameters parameters !! key = redact key <$> parameters !! key) /\
  (forall key v, RedactParameters parameters !! key = Some v ->
   slen v <= 523 /\ (secretKey key = true -> v = "[REDACTED]")) /\
  (forall key v, secretKey key = false -> slen v <= 512 -> redact key v = v) /\
  (0 <= limit -> slen (sanitizeLabel value limit) <= limit /\
   forallb (fun a => negb (control_byte a)) (to_bytes (sanitizeLabel value limit)) = true) /\
  (sanitizeDigest value = "" \/
   slen (sanitizeDigest value) = 64 /\ is_Some (hex_decode (sanitizeDigest value))).
Proof.
  assert (Hlook : forall key, RedactParameters parameters !! key = redact key <$> parameters !! key).
  { intros key. unfold RedactParameters. rewrite map_lookup_imap. by destruct (parameters !! key). }
  split_and!; [exact Hlook| | | |].
  - intros key v. rewrite Hlook. destruct (parameters !! key) as [w|]; [|done]. simpl. intros [= <-].
    split; [apply redact_length|]. unfold redact. by intros ->.
  - intros key v Hk Hv. unfold redact. rewrite Hk. by replace (512 <? slen v) with false by (symmetry; bool_prop; lia).
  - intros Hl. unfold sanitizeLabel. set (w := if limit <? slen (TrimSpace value) then _ else _).
    assert (Hw : slen w <= limit).
    { unfold w. destruct (Z.ltb_spec limit (slen (TrimSpace value))); [by apply slen_slice_to|lia]. }
    destruct (existsb control_byte (to_bytes w)) eqn:E; [by split|]. split; [exact Hw|].
    apply forallb_elem. intros a Ha. apply negb_true_iff, not_true_iff_false. intros Hc.
    apply not_true_iff_false in E. apply E, existsb_elem. eauto.
  - unfold sanitizeDigest. destruct (slen _ =? 64) eqn:E; simpl; [|by left].
    destruct (hex_decode _) eqn:E'; [right|by left]. bool_prop.
    split; [exact E|by rewrite E'].
Qed.

(** ** Loading accepts exactly the chains *)

(** A record that may follow a record with this hash and sequence number. *)
Record linked (previous : string) (sequence : Z) (r : AuditRecord) : Prop := {
  lk_schema : AR_Schema r = AuditSchema;
  lk_sequence : AR_Sequence r = w64 (sequence + 1);
  lk_previous : AR_PreviousHash r = previous;
  lk_hash : EqualFold (auditHash r) (AR_EntryHash r) = true;
  lk_actor : Actor_ID (AR_Actor r) <> "";
  lk_event : AR_Event r <> "";
  lk_status : AR_Status r <> ""
}.

Fixpoint chained (previous : string) (sequence : Z) (rs : list AuditRecord) : Prop :=
  match rs with
  | [] => True
  | r :: rs => linked previous sequence r /\ chained (AR_EntryHash r) (AR_Sequence r) rs
  end.

(** Hash and sequence number of the last record. *)
Definition head_hash (previous : string) (rs : list AuditRecord) : string :=
  from_option AR_EntryHash previous (last rs).
Definition head_sequence (sequence : Z) (rs : list AuditRecord) : Z :=
  from_option AR_Sequence sequence (last rs).

Definition reads_as (l : audit_line) (r : AuditRecord) : Prop :=
  line_content_of l = LineRecord r /\ line_length l < maxAuditLineBytes.

Lemma head_hash_cons previous r rs : head_hash previous (r :: rs) = head_hash (AR_EntryHash r) rs.
Proof. unfold head_hash. rewrite last_cons. by destruct (last rs). Qed.
Lemma head_sequence_cons sequence r rs : head_sequence sequence (r :: rs) = head_sequence (AR_Sequence r) rs.
Proof. unfold head_sequence. rewrite last_cons. by destruct (last rs). Qed.
Lemma head_hash_snoc previous rs r : head_hash previous (rs ++ [r]) = AR_EntryHash r.
Proof. unfold head_hash. by rewrite last_snoc. Qed.
Lemma head_sequence_snoc sequence rs r : head_sequence sequence (rs ++ [r]) = AR_Sequence r.
Proof. unfold head_sequence. by rewrite last_snoc. Qed.

Lemma chained_app previous sequence rs rs' :
  chained previous sequence (rs ++ rs') <->
  chained previous sequence rs /\ chained (head_hash previous rs) (head_sequence sequence rs) rs'.
Proof.
  revert previous sequence. induction rs as [|r rs IH]; intros previous sequence; simpl.
  - unfold head_hash, head_sequence. simpl. tauto.
  - rewrite IH, head_hash_cons, head_sequence_cons. tauto.
Qed.

Lemma load_lines_Ok lines n previous sequence acc :
  match load_lines lines n previous sequence acc with
  | Ok (acc', previous', sequence') =>
    exists rs, Forall2 reads_as lines rs /\ chained previous sequence rs /\ acc' = acc ++ rs /\
               previous' = head_hash previous rs /\ sequence' = head_sequence sequence rs
  | Err _ => ~ exists rs, Forall2 reads_as lines rs /\ chained previous sequence rs
  end.
Proof.
  revert n previous sequence acc. induction lines as [|l lines IH]; intros n previous sequence acc.
  { exists []. rewrite app_nil_r. split_and!; constructor || reflexivity. }
  cbn [load_lines]. unfold fail, integrity_failure.
  destruct (Z.leb_spec maxAuditLineBytes (line_length l)) as [Hlen|Hlen].
  { intros (rs & H & _). inversion H as [|? r' ? rs' [_ Hlt]]; subst. lia. }
  destruct (line_content_of l) as [| |r] eqn:Ec;
    try (intros (rs & H & _); inversion H as [|? r' ? rs' [Hr _]]; subst; congruence).
  assert (Hbad : ~ linked previous sequence r ->
                 ~ exists rs, Forall2 reads_as (l :: lines) rs /\ chained previous sequence rs).
  { intros Hn (rs & H & Hc). inversion H as [|? r' ? rs' [Hr _]]; subst. destruct Hc as [Hc _].
    rewrite Ec in Hr. injection Hr as <-. by apply Hn. }
  destruct ((AR_Schema r != AuditSchema) || _ || _) eqn:E1.
  { apply Hbad. intros []. bool_prop. intuition congruence. }
  destruct (EqualFold (auditHash r) (AR_EntryHash r)) eqn:E2; cbn [negb];
    [|apply Hbad; intros []; congruence].
  destruct ((Actor_ID (AR_Actor r) == "") || _ || _) eqn:E3.
  { apply Hbad. intros []. bool_prop. intuition congruence. }
  assert (Hlink : linked previous sequence r) by (bool_prop; split; tauto).
  specialize (IH (N.succ n) (AR_EntryHash r) (AR_Sequence r) (acc ++ [r])).
  destruct (load_lines lines _ _ _ _) as [[[acc' previous'] sequence']|e].
  - destruct IH as (rs & H1 & H2 & -> & -> & ->). exists (r :: rs).
    rewrite head_hash_cons, head_sequence_cons, <- app_assoc.
    split_and!; [by constructor|by split|reflexivity..].
  - intros (rs & H & Hc). inversion H as [|? r' ? rs' [Hr _] Hrest]; subst. destruct Hc as [_ Hc].
    rewrite Ec in Hr. injection Hr as <-. apply IH. eauto.
Qed.

Definition reads_file (content : audit_lines) (rs : list AuditRecord) : Prop :=
  Forall2 reads_as (scanned content) rs.

Definition empty_store (path : string) : AuditStore :=
  {| AS_Path := path; AS_Records := []; AS_LastHash := ""; AS_Sequence := 0 |}.

Lemma reads_as_inj l r r' : reads_as l r -> reads_as l r' -> r = r'.
Proof. intros [H _] [H' _]. congruence. Qed.

Lemma reads_file_inj content rs rs' : reads_file content rs -> reads_file content rs' -> rs = rs'.
Proof.
  unfold reads_file. intros H. revert rs'. induction H as [|l r lines rs Hl _ IH]; intros rs' H'.
  - by inversion H'.
  - inversion H' as [|? r' ? rs'' Hr' Hrest]; subst. f_equal; [by eapply reads_as_inj|by apply IH].
Qed.

Definition store_of (path : string) (rs : list AuditRecord) : AuditStore :=
  {| AS_Path := path; AS_Records := rs; AS_LastHash := head_hash "" rs; AS_Sequence := head_sequence 0 rs |}.

Lemma open_chain path content rs :
  TrimSpace path <> "" -> reads_file content rs -> chained "" 0 rs ->
  OpenAuditStore path (AuditFile content NoFault) = Ok (store_of path rs).
Proof.
  intros Hp Hr Hc. unfold OpenAuditStore. apply String.eqb_neq in Hp. rewrite Hp. simpl.
  pose proof (load_lines_Ok (scanned content) 0 "" 0 []) as H.
  destruct (load_lines (scanned content) 0 "" 0 []) as [[[acc p] q]|e]; [|destruct H; by exists rs].
  destruct H as (rs' & Hr' & _ & -> & -> & ->). by rewrite (reads_file_inj _ _ _ Hr Hr').
Qed.

Lemma open_inv path file s :
  OpenAuditStore path file = Ok s ->
  TrimSpace path <> "" /\
  ((file = AuditMissing /\ s = empty_store path) \/
   exists content rs, file = AuditFile content NoFault /\ reads_file content rs /\ chained "" 0 rs /\
     s = store_of path rs).
Proof.
  unfold OpenAuditStore. destruct (TrimSpace path == "") eqn:Ep; bool_prop; [done|]. intros E.
  split; [done|]. destruct file as [|content fault]; simpl in E; [left; by simplify_eq|right].
  pose proof (load_lines_Ok (scanned content) 0 "" 0 []) as H.
  destruct (load_lines (scanned content) 0 "" 0 []) as [[[acc p] q]|e]; [|by destruct fault].
  destruct fault; simpl in E; try done. destruct H as (rs & Hr & Hc & -> & -> & ->).
  exists content, rs. by simplify_eq.
Qed.

(** C31 Opening refines the specification of a hash chain: on a present file it succeeds
    exactly when every line, the unfinished last one included, is a record shorter than the limit and the
    records form a chain from the empty hash and sequence number zero.  The store then holds exactly those
    records with the hash and number of the last one; a missing file gives the empty
    store, and every other file is refused.  So a record out of place, or with another hash than that of its covered fields,
    is refused; a log that lost its last records, or all of them, is not: what is left is a chain
    ([audit_truncation_unnoticed]). *)
Theorem OpenAuditStore_spec path file s :
  OpenAuditStore path file = Ok s <->
  TrimSpace path <> "" /\
  ((file = AuditMissing /\ s = empty_store path) \/
   exists content rs, file = AuditFile content NoFault /\ reads_file content rs /\
     chained "" 0 rs /\ s = store_of path rs).
Proof.
  split; [apply open_inv|]. intros (Hp & [[-> ->]|(content & rs & -> & Hr & Hc & ->)]).
  - unfold OpenAuditStore. apply String.eqb_neq in Hp. by rewrite Hp.
  - by apply open_chain.
Qed.

(** A truncated log opens.  When a log opens, it also opens after being cut behind any of its lines, emptied or deleted:
    the store then holds the records that are left, and nothing reports the loss. *)
Lemma audit_truncation_unnoticed path lines torn s n :
  OpenAuditStore path (AuditFile {| AF_Lines := lines; AF_Torn := torn |} NoFault) = Ok s ->
  OpenAuditStore path (AuditFile {| AF_Lines := take n lines; AF_Torn := None |} NoFault) =
    Ok (store_of path (take (length (take n lines)) (AS_Records s))) /\
  OpenAuditStore path AuditMissing = Ok (store_of path []).
Proof.
  intros Ho. apply open_inv in Ho as (Hp & [[? _]|(content & rs & [= <-] & Hr & Hc & ->)]); [done|]. split.
  - apply open_chain; [exact Hp|..]; cbn [AS_Records store_of].
    + unfold reads_file, scanned in *. cbn [AF_Lines AF_Torn] in *. rewrite app_nil_r.
      apply (Forall2_take _ _ _ (length (take n lines))) in Hr. rewrite take_app_le in Hr by (rewrite length_take; lia).
      assert (Ht : take (length (take n lines)) lines = take n lines)
        by (rewrite length_take; destruct (Nat.min_spec n (length lines)) as [[? ->]|[? ->]];
            [done|by rewrite firstn_all, take_ge]).
      rewrite Ht in Hr. exact Hr.
    + rewrite <- (take_drop (length (take n lines)) rs) in Hc. by apply chained_app in Hc as [Hc _].
  - unfold OpenAuditStore. apply String.eqb_neq in Hp. by rewrite Hp.
Qed.

(** ** Appending and reopening *)

Definition final_record (e : entropy) (now : time) (event : AuditEvent) (s : AuditStore) : AuditRecord :=
  with_entry_hash (auditHash (new_record e now event s)) (new_record e now event s).

Definition complete_event (event : AuditEvent) : Prop :=
  sanitizeLabel (Ev_Event event) 96 <> "" /\ Actor_ID (Ev_Actor event) <> "" /\
  sanitizeLabel (Ev_Status event) 64 <> "".

Definition append_io_ok (io : append_io) : Prop :=
  AIO_Marshal io = true /\ AIO_MkdirAll io = true /\ AIO_OpenFile io = true /\
  AIO_Write io = WriteOk /\ AIO_Sync io = true /\ AIO_Close io = true.

Definition store_with (r : AuditRecord) (s : AuditStore) : AuditStore :=
  {| AS_Path := AS_Path s; AS_Records := AS_Records s ++ [r]; AS_LastHash := AR_EntryHash r;
     AS_Sequence := AR_Sequence r |}.

(** The three ways an append ends: done, failed before the file changed, failed after. *)
Inductive append_outcome io e now event s file : result AuditRecord * AuditStore * audit_file -> Prop :=
| append_done (r := final_record e now event s) :
  complete_event event -> append_io_ok io -> slen (marshal_record r) <= maxAuditLineBytes ->
  append_outcome io e now event s file (Ok r, store_with r s, append_line io r file)
| append_refused err :
  ~ (complete_event event /\ append_io_ok io /\
     slen (marshal_record (final_record e now event s)) <= maxAuditLineBytes) ->
  append_outcome io e now event s file (Err err, s, file)
| append_torn err remains :
  AIO_Write io = WriteFails remains -> append_outcome io e now event s file (Err err, s, tear_line remains file)
| append_unsynced err :
  AIO_Write io = WriteOk -> AIO_Sync io = false \/ AIO_Close io = false ->
  append_outcome io e now event s file (Err err, s, append_line io (final_record e now event s) file).

Lemma Append_cases io e now event s file :
  append_outcome io e now event s file (Append io e now event s file).
Proof.
  unfold Append, fail. fold (final_record e now event s).
  destruct ((AR_Event (new_record e now event s) == "") || _ || _) eqn:E1.
  { apply append_refused. intros ((H1 & H2 & H3) & _). bool_prop.
    destruct E1 as [[E1|E1]|E1]; [by apply H1|by apply H2|by apply H3]. }
  destruct (AIO_Marshal io) eqn:E2; cbn [negb]; [|apply append_refused; intros (_ & [] & _); congruence].
  destruct (Z.ltb_spec maxAuditLineBytes (slen (marshal_record (final_record e now event s)))) as [E3|E3];
    [apply append_refused; intros (_ & _ & Hl); lia|].
  destruct (AIO_MkdirAll io) eqn:E4; cbn [negb];
    [|apply append_refused; intros (_ & (_ & ? & _) & _); congruence].
  destruct (AIO_OpenFile io) eqn:E5; cbn [negb];
    [|apply append_refused; intros (_ & (_ & _ & ? & _) & _); congruence].
  destruct (AIO_Write io) as [|remains] eqn:E6; [|by apply append_torn].
  destruct (AIO_Sync io) eqn:E7; cbn [negb]; [|apply append_unsynced; [done|by left]].
  destruct (AIO_Close io) eqn:E8; cbn [negb]; [|apply append_unsynced; [done|by right]].
  bool_prop. destruct E1 as [[H1 H2] H3]. apply append_done; [|by split_and!|exact E3].
  split_and!; assumption.
Qed.

(** [Append].  It succeeds exactly when event, actor and status survive sanitising, the
    line is at most one MiB and every system call works.  It then extends memory by the sealed
    record, whose previous hash is the head of the store and whose number is the next one; on every
    error memory keeps its records, head and number.  (A failed write, sync or close may
    have changed the file all the same.) *)
Theorem Append_spec io e now event s file :
  let '(res, s', file') := Append io e now event s file in
  let r := final_record e now event s in
  (is_ok res = true <->
   complete_event event /\ append_io_ok io /\ slen (marshal_record r) <= maxAuditLineBytes) /\
  (is_ok res = false -> s' = s) /\
  (is_ok res = false -> AIO_Write io <> WriteOk \/ AIO_Sync io = false \/ AIO_Close io = false \/ file' = file) /\
  (is_ok res = true -> res = Ok r /\ s' = store_with r s /\ file' = append_line io r file /\
   linked (AS_LastHash s) (AS_Sequence s) r).
Proof.
  destruct (Append_cases io e now event s file) as [r H1 H2 H3|err Hn|err remains Hw|err Hw Hs];
    cbn [is_ok]; (split; [split; [try discriminate; try (intros _; by split_and!)|]|split; [|split]]);
    try (reflexivity || discriminate || tauto).
  - intros _. split; [reflexivity|]. split; [reflexivity|]. split; [reflexivity|].
    destruct H1 as (? & ? & ?). split; try (reflexivity || assumption). apply EqualFold_refl.
  - intros (_ & (_ & _ & _ & Hok & _) & _). congruence.
  - intros _. left. congruence.
  - intros (_ & (_ & _ & _ & _ & ? & ?) & _). destruct Hs; congruence.
Qed.

(** *** Records a JSON round trip keeps *)

Definition record_strings (r : AuditRecord) : list string :=
  [AR_Schema r; AR_ID r; AR_Event r; AR_RequestID r; AR_SessionID r; AR_PlanID r; AR_PlanDigest r;
   AR_Action r; AR_Risk r; AR_Status r; AR_RollbackStatus r; AR_ErrorCode r; AR_PreviousHash r;
   AR_EntryHash r].

(** Every string is valid UTF-8. *)
Record wire_record (r : AuditRecord) : Prop := {
  wr_strings : Forall (fun s => valid_utf8 s = true) (record_strings r);
  wr_actor : wire_actor (AR_Actor r);
  wr_parameters : map_Forall (fun k v => valid_utf8 k = true /\ valid_utf8 v = true) (AR_Parameters r)
}.

Lemma scrub_map_valid (m : gmap string string) :
  map_Forall (fun k v => valid_utf8 k = true /\ valid_utf8 v = true) m -> scrub_map m = m.
Proof.
  intros H. unfold scrub_map. rewrite <- (fold_insert_perm m (sort_by fst (map_to_list m))) at 2
    by apply sort_by_perm.
  assert (Hl : forall kv, kv ∈ sort_by fst (map_to_list m) -> valid_utf8 kv.1 = true /\ valid_utf8 kv.2 = true).
  { intros [k v]. rewrite sort_by_perm, elem_of_map_to_list. apply H. }
  generalize (∅ : gmap string string) as acc. revert Hl.
  induction (sort_by fst (map_to_list m)) as [|kv l IH]; intros Hl acc; [done|]. simpl.
  destruct (Hl kv) as [Hk Hv]; [by left|]. rewrite !scrub_valid by assumption.
  apply IH. intros kv' Hkv'. apply Hl. by right.
Qed.

Lemma scrub_record_wire r : wire_record r -> scrub_record r = r.
Proof.
  intros [S Ha Hp]. unfold record_strings in S.
  repeat match goal with S : Forall _ (_ :: _) |- _ => apply Forall_cons in S as [? S] end.
  unfold scrub_record. rewrite scrub_actor_wire, scrub_map_valid by assumption.
  rewrite !scrub_valid by assumption. by destruct r.
Qed.

(** An event in plain ASCII, by an actor that came out of a JSON decoder. *)
Record ascii_event (event : AuditEvent) : Prop := {
  ae_labels : Forall (fun s => is_ascii s = true)
    [Ev_Event event; Ev_RequestID event; Ev_SessionID event; Ev_PlanID event; Ev_PlanDigest event;
     Ev_Action event; Ev_Risk event; Ev_Status event; Ev_RollbackStatus event; Ev_ErrorCode event];
  ae_actor : wire_actor (Ev_Actor event);
  ae_parameters : map_Forall (fun k v => is_ascii k = true /\ is_ascii v = true) (Ev_Parameters event)
}.

Lemma is_ascii_sanitizeLabel v limit : is_ascii v = true -> is_ascii (sanitizeLabel v limit) = true.
Proof.
  intros H%is_ascii_TrimSpace. unfold sanitizeLabel.
  destruct (limit <? slen (TrimSpace v)); destruct (existsb _ _); try done. by apply is_ascii_slice_to.
Qed.

Lemma is_ascii_sanitizeDigest v : is_ascii (sanitizeDigest v) = true.
Proof.
  unfold sanitizeDigest. destruct (negb _); [done|]. destruct (hex_decode _) eqn:E; [|done].
  by eapply is_ascii_hex_decode.
Qed.

Lemma is_ascii_redact k v : is_ascii v = true -> is_ascii (redact k v) = true.
Proof.
  intros H. unfold redact. destruct (secretKey k); [done|]. destruct (512 <? slen v); [|done].
  rewrite is_ascii_app, is_ascii_slice_to by assumption. done.
Qed.

Lemma is_ascii_auditHash r : is_ascii (auditHash r) = true.
Proof. apply is_hex_ascii, sha256_hex_is_hex. Qed.

Lemma final_record_wire e now event s :
  ascii_event event -> is_ascii (AS_LastHash s) = true -> wire_record (final_record e now event s).
Proof.
  intros [S Ha Hp] Hh.
  repeat match goal with S : Forall _ (_ :: _) |- _ => apply Forall_cons in S as [? S] end.
  split; [|exact Ha|].
  - unfold record_strings. simpl.
    repeat (apply Forall_cons; split; [apply is_ascii_valid|]); [..|constructor];
      first [ reflexivity | assumption | apply is_ascii_auditHash | apply is_ascii_sanitizeDigest
            | apply is_ascii_sanitizeLabel; assumption | by apply newSecurityID_ascii ].
  - intros k v. simpl. unfold RedactParameters. rewrite map_lookup_imap.
    destruct (Ev_Parameters event !! k) as [w|] eqn:E; [|done]. simpl. intros [= <-].
    destruct (Hp k w E) as [Hk Hw]. split; apply is_ascii_valid; [exact Hk|by apply is_ascii_redact].
Qed.

(** Memory and file agree: reopening the file gives the store. *)
Record audit_synced (s : AuditStore) (file : audit_file) : Prop := {
  sy_open : OpenAuditStore (AS_Path s) file = Ok s;
  sy_whole : AF_Torn (file_content file) = None;
  sy_head : is_ascii (AS_LastHash s) = true
}.

(** System calls that fail, if at all, before a byte is written. *)
Definition clean_io (io : append_io) : Prop :=
  AIO_Write io = WriteFails None \/ (AIO_Write io = WriteOk /\ AIO_Sync io = true /\ AIO_Close io = true).

Lemma store_of_snoc path rs r : store_with r (store_of path rs) = store_of path (rs ++ [r]).
Proof. unfold store_of. by rewrite head_hash_snoc, head_sequence_snoc. Qed.

Lemma empty_store_of path : empty_store path = store_of path [].
Proof. done. Qed.

(** A synchronised pair is a chain in a file without unfinished line. *)
Lemma synced_chain s file :
  audit_synced s file ->
  exists rs, TrimSpace (AS_Path s) <> "" /\ s = store_of (AS_Path s) rs /\ chained "" 0 rs /\
    Forall2 reads_as (AF_Lines (file_content file)) rs /\ file_fault file = NoFault /\
    (file = AuditMissing \/ file = AuditFile {| AF_Lines := AF_Lines (file_content file); AF_Torn := None |} NoFault).
Proof.
  intros [Ho Hw _]. apply open_inv in Ho as (Hp & [[-> Hs]|(content & rs & -> & Hr & Hc & Hs)]).
  - exists []. repeat split; first [done|by left].
  - exists rs. simpl in *. unfold reads_file, scanned in Hr. destruct content as [lines torn]. simpl in *.
    subst torn. rewrite app_nil_r in Hr. repeat split; first [done|by right].
Qed.

Lemma chain_synced path lines rs :
  TrimSpace path <> "" -> chained "" 0 rs -> Forall2 reads_as lines rs ->
  is_ascii (head_hash "" rs) = true ->
  audit_synced (store_of path rs) (AuditFile {| AF_Lines := lines; AF_Torn := None |} NoFault).
Proof.
  intros Hp Hc Hr Hh. split; [|done|exact Hh]. apply open_chain; [exact Hp| |exact Hc].
  unfold reads_file, scanned. simpl. by rewrite app_nil_r.
Qed.

Lemma final_record_linked e now event s :
  complete_event event -> linked (AS_LastHash s) (AS_Sequence s) (final_record e now event s).
Proof. intros (? & ? & ?). split; try (reflexivity || assumption). apply EqualFold_refl. Qed.

(** C26 Restart.  When memory and file of the audit store agree, they agree after any [Append] of
    an ASCII event whose line stays below the limit of the reader and whose system calls fail, if at all,
    before writing: reopening the file yields exactly the records, head and number of
    memory, so the trail survives restarts. *)
Theorem audit_append_reload io e now event s file :
  audit_synced s file -> ascii_event event -> clean_io io ->
  slen (marshal_record (final_record e now event s)) <> maxAuditLineBytes ->
  let '(_, s', file') := Append io e now event s file in audit_synced s' file'.
Proof.
  intros Hs He Hio Hlen. destruct (synced_chain s file Hs) as (rs & Hp & Es & Hc & Hr & Hf & Hfile).
  pose proof (final_record_wire e now event s He (sy_head _ _ Hs)) as Hw.
  destruct (Append_cases io e now event s file) as [r H1 H2 H3|err Hn|err remains Hwr|err Hok Hsy].
  - replace (append_line io r file) with
      (AuditFile {| AF_Lines := AF_Lines (file_content file) ++ [written_line r]; AF_Torn := None |} NoFault)
      by (unfold append_line; by rewrite (sy_whole _ _ Hs), Hf).
    rewrite Es at 1. rewrite store_of_snoc. pose proof (final_record_linked e now event s H1) as Hlk.
    fold r in Hlk, Hw. apply chain_synced; [exact Hp| |apply Forall2_app; [exact Hr|]|].
    + apply chained_app. split; [exact Hc|]. split; [|exact I]. by rewrite Es in Hlk.
    + constructor; [|constructor]. split; [simpl; by rewrite scrub_record_wire|].
      simpl. unfold r in *. lia.
    + rewrite head_hash_snoc. apply is_ascii_auditHash.
  - exact Hs.
  - destruct Hio as [Hio|[Hio _]]; rewrite Hio in Hwr; [|discriminate]. injection Hwr as <-.
    unfold tear_line. rewrite Hf, (sy_whole _ _ Hs). rewrite Es. simpl.
    apply chain_synced; try assumption. pose proof (sy_head _ _ Hs) as Hh. by rewrite Es in Hh.
  - destruct Hio as [Hio|(_ & Hsync & Hclose)]; [congruence|destruct Hsy; congruence].
Qed.

(** ** Tamper evidence *)

Lemma prefix_opt_parameters p ps s :
  (forall r, String.prefix p (field_start "parameters" +:+ r) = false) ->
  String.prefix p s = false -> String.prefix p (json_opt_parameters ps +:+ s) = false.
Proof.
  intros Hk Hs. unfold json_opt_parameters, json_kv. destruct ps as [|q ps]; [exact Hs|].
  rewrite !append_assoc, <- append_assoc. apply Hk.
Qed.

Lemma json_opt_parameters_readable ps qs s t :
  String.prefix (field_start "parameters") s = false ->
  String.prefix (field_start "parameters") t = false ->
  json_opt_parameters ps +:+ s = json_opt_parameters qs +:+ t -> Forall2 same_param ps qs /\ s = t.
Proof.
  intros Hs Ht. unfold json_opt_parameters, json_kv. destruct ps as [|p ps], qs as [|q qs]; intros H.
  - by simplify_eq/=.
  - change ("" +:+ s) with s in H. subst s. rewrite !append_assoc, <- append_assoc in Hs.
    fold (field_start "parameters") in Hs. by rewrite prefix_append in Hs.
  - change ("" +:+ t) with t in H. subst t. rewrite !append_assoc, <- append_assoc in Ht.
    fold (field_start "parameters") in Ht. by rewrite prefix_append in Ht.
  - rewrite !append_assoc in H. do 3 apply append_inj_l in H. by apply json_params_readable.
Qed.

Lemma json_string_start s : exists a r, json_string s = String.String a r /\ a <> chr 93.
Proof. eexists _, _. split; [reflexivity|done]. Qed.

Lemma json_strings_readable : readable (json_array json_string) (Forall2 same_json).
Proof. apply json_array_readable; [apply json_string_readable|apply json_string_start]. Qed.

(** Everything the entry hash covers. *)
Record same_audit (p q : AuditRecord) : Prop := {
  sa_schema : same_json (AR_Schema p) (AR_Schema q);
  sa_sequence : Z.to_N (AR_Sequence p) = Z.to_N (AR_Sequence q);
  sa_id : same_json (AR_ID p) (AR_ID q);
  sa_timestamp : same_json (format_rfc3339nano (AR_Timestamp p)) (format_rfc3339nano (AR_Timestamp q));
  sa_event : same_json (AR_Event p) (AR_Event q);
  sa_actor : same_json (Actor_ID (AR_Actor p)) (Actor_ID (AR_Actor q));
  sa_kind : same_json (Actor_Kind (AR_Actor p)) (Actor_Kind (AR_Actor q));
  sa_roles : Forall2 same_json (sort_strings (Actor_Roles (AR_Actor p))) (sort_strings (Actor_Roles (AR_Actor q)));
  sa_permissions : Forall2 same_json (sort_strings (Actor_Permissions (AR_Actor p)))
                                     (sort_strings (Actor_Permissions (AR_Actor q)));
  sa_request : same_json (AR_RequestID p) (AR_RequestID q);
  sa_session : same_json (AR_SessionID p) (AR_SessionID q);
  sa_plan : same_json (AR_PlanID p) (AR_PlanID q);
  sa_digest : same_json (AR_PlanDigest p) (AR_PlanDigest q);
  sa_action : same_json (AR_Action p) (AR_Action q);
  sa_risk : same_json (AR_Risk p) (AR_Risk q);
  sa_status : same_json (AR_Status p) (AR_Status q);
  sa_rollback : same_json (AR_RollbackStatus p) (AR_RollbackStatus q);
  sa_parameters : Forall2 same_param (record_parameters p) (record_parameters q);
  sa_error : same_json (AR_ErrorCode p) (AR_ErrorCode q);
  sa_previous : same_json (AR_PreviousHash p) (AR_PreviousHash q)
}.

(** No later field starts like this one. *)
Ltac other_fields :=
  repeat first [apply prefix_opt; [intros; reflexivity|] | apply prefix_opt_parameters; [intros; reflexivity|]];
  reflexivity.

(** Read two equal audit texts in parallel, field by field. *)
Ltac read_audit H :=
  repeat first
    [ apply append_inj_l in H
    | let E := fresh "E" in apply json_string_readable in H as [E H]
    | let E := fresh "E" in apply decimal_readable in H as [E H]
    | let E := fresh "E" in apply json_strings_readable in H as [E H]
    | let E := fresh "E" in apply json_opt_readable in H as [E H]; [|other_fields..]
    | let E := fresh "E" in apply json_opt_parameters_readable in H as [E H]; [|other_fields..] ].

Lemma canonical_audit_inj p q : canonical_audit p = canonical_audit q -> same_audit p q.
Proof.
  intros H. unfold canonical_audit, json_kv in H. rewrite !append_assoc in H.
  read_audit H. split; assumption.
Qed.

(** The covered part of a record, as a value. *)
Definition audit_binding (r : AuditRecord) :=
  ((AR_Schema r, AR_Sequence r, AR_ID r, AR_Timestamp r, AR_Event r),
   (Actor_ID (AR_Actor r), Actor_Kind (AR_Actor r), sort_strings (Actor_Roles (AR_Actor r)),
    sort_strings (Actor_Permissions (AR_Actor r))),
   (AR_RequestID r, AR_SessionID r, AR_PlanID r, AR_PlanDigest r, AR_Action r, AR_Risk r, AR_Status r,
    AR_RollbackStatus r, AR_ErrorCode r, AR_PreviousHash r), AR_Parameters r).

Lemma same_strings_eq l k :
  Forall (fun s => valid_utf8 s = true) l -> Forall (fun s => valid_utf8 s = true) k ->
  Forall2 same_json l k -> l = k.
Proof.
  intros Hl Hk H. induction H as [|x y l k Hxy _ IH]; [done|].
  apply Forall_cons in Hl as [? ?]. apply Forall_cons in Hk as [? ?].
  f_equal; [by apply same_json_valid|by apply IH].
Qed.

Lemma sorted_strings_valid l :
  Forall (fun s => valid_utf8 s = true) l -> Forall (fun s => valid_utf8 s = true) (sort_strings l).
Proof. unfold sort_strings. by rewrite sort_by_perm. Qed.

Lemma record_parameters_valid r :
  wire_record r ->
  Forall (fun q => valid_utf8 (Param_Name q) = true /\ valid_utf8 (Param_Value q) = true) (record_parameters r).
Proof.
  intros [_ _ Hp]. unfold record_parameters, plan_parameters, sort_parameters. rewrite sort_by_perm, Forall_fmap.
  apply Forall_forall. intros [k v] Hin%elem_of_map_to_list. exact (Hp k v Hin).
Qed.

Lemma record_parameters_inj p q : record_parameters p = record_parameters q -> AR_Parameters p = AR_Parameters q.
Proof.
  intros H. rewrite <- (parameters_map_sorted (AR_Parameters p)), <- (parameters_map_sorted (AR_Parameters q)).
  unfold record_parameters in H. by rewrite H.
Qed.

(** Decoded records: valid strings, a sequence number, an instant of a four-digit year. *)
Definition decoded_record (r : AuditRecord) : Prop :=
  wire_record r /\ 0 <= AR_Sequence r /\ time_ok (AR_Timestamp r).

Lemma same_audit_eq p q :
  decoded_record p -> decoded_record q -> same_audit p q -> audit_binding p = audit_binding q.
Proof.
  intros (Wp & Np & Tp) (Wq & Nq & Tq) [].
  pose proof (wr_strings _ Wp) as Sp. pose proof (wr_strings _ Wq) as Sq. unfold record_strings in Sp, Sq.
  pose proof (wr_actor _ Wp) as Ap. pose proof (wr_actor _ Wq) as Aq. unfold wire_actor in Ap, Aq.
  repeat match goal with S : Forall _ (_ :: _) |- _ => apply Forall_cons in S as [? S] end.
  apply Forall_app in Ap as [? ?]. apply Forall_app in Aq as [? ?].
  unfold audit_binding.
  replace (AR_Parameters q) with (AR_Parameters p) by
    (apply record_parameters_inj, same_params_eq; [by apply record_parameters_valid..|assumption]).
  replace (AR_Sequence q) with (AR_Sequence p) by lia.
  replace (AR_Timestamp q) with (AR_Timestamp p) by by apply same_json_time.
  replace (sort_strings (Actor_Roles (AR_Actor q))) with (sort_strings (Actor_Roles (AR_Actor p)))
    by (apply same_strings_eq; [by apply sorted_strings_valid..|assumption]).
  replace (sort_strings (Actor_Permissions (AR_Actor q))) with (sort_strings (Actor_Permissions (AR_Actor p)))
    by (apply same_strings_eq; [by apply sorted_strings_valid..|assumption]).
  repeat match goal with H : same_json ?x ?y |- _ => apply same_json_valid in H; [|assumption..]; rewrite H; clear H end.
  done.
Qed.

Definition some_collision (rs qs : list AuditRecord) : Prop :=
  exists r q, r ∈ rs /\ q ∈ qs /\ collision (canonical_audit r) (canonical_audit q).

Lemma some_collision_app rs qs r q : some_collision rs qs -> some_collision (rs ++ [r]) (qs ++ [q]).
Proof. intros (x & y & ? & ? & ?). exists x, y. set_solver. Qed.

Lemma EqualFold_hash_empty r : EqualFold (auditHash r) "" = false.
Proof.
  apply not_true_iff_false. intros H%EqualFold_spec%(f_equal length)%(f_equal Z.of_nat).
  rewrite slen_folded_ascii in H by apply is_ascii_auditHash.
  unfold auditHash in H. rewrite slen_sha256_hex in H. done.
Qed.

Lemma chain_determined rs qs :
  chained "" 0 rs -> chained "" 0 qs -> Forall decoded_record rs -> Forall decoded_record qs ->
  folded (head_hash "" rs) = folded (head_hash "" qs) ->
  audit_binding <$> rs = audit_binding <$> qs \/ some_collision rs qs.
Proof.
  revert qs. induction rs as [|r rs IH] using rev_ind; intros qs; destruct qs as [|q qs _] using rev_ind;
    rewrite ?head_hash_snoc; intros Cr Cq Dr Dq H; [by left| | |].
  - apply chained_app in Cq as [_ [L _]]. pose proof (lk_hash _ _ _ L) as E. apply EqualFold_spec in E.
    pose proof (EqualFold_hash_empty q) as N. apply not_true_iff_false in N. destruct N.
    apply EqualFold_spec. rewrite E. by rewrite <- H.
  - apply chained_app in Cr as [_ [L _]]. pose proof (lk_hash _ _ _ L) as E. apply EqualFold_spec in E.
    pose proof (EqualFold_hash_empty r) as N. apply not_true_iff_false in N. destruct N.
    apply EqualFold_spec. rewrite E. by rewrite H.
  - apply chained_app in Cr as [Cr [Lr _]]. apply chained_app in Cq as [Cq [Lq _]].
    apply Forall_app in Dr as [Dr [Dr1 _]%Forall_cons]. apply Forall_app in Dq as [Dq [Dq1 _]%Forall_cons].
    pose proof (lk_hash _ _ _ Lr) as Er%EqualFold_spec. pose proof (lk_hash _ _ _ Lq) as Eq%EqualFold_spec.
    assert (auditHash r = auditHash q) as [Hc|Hc]%sha256_hex_inj.
    { apply folded_hex_inj; [apply sha256_hex_is_hex..|]. congruence. }
    + apply canonical_audit_inj in Hc. pose proof (same_audit_eq r q Dr1 Dq1 Hc) as B.
      assert (Hprev : AR_PreviousHash r = AR_PreviousHash q) by (unfold audit_binding in B; by simplify_eq).
      rewrite (lk_previous _ _ _ Lr), (lk_previous _ _ _ Lq) in Hprev.
      destruct (IH qs) as [E|E]; try assumption; [by rewrite Hprev| |].
      * left. rewrite !fmap_app, E. simpl. by rewrite B.
      * right. by apply some_collision_app.
    + right. exists r, q. set_solver.
Qed.

(** C25 Tamper evidence.  Two audit files that both open and end in the same head hash (up to letter
    case) hold, record by record, the same sequence number, instant, event, actor identifier and
    kind, roles, permissions, correlation, status, parameters and previous hash, or they
    exhibit a SHA-256 collision: who remembers one head hash can detect every later change of the
    covered history.  (The display name of the actor is not covered.) *)
Theorem audit_tamper_evident path1 file1 s1 path2 file2 s2 :
  OpenAuditStore path1 file1 = Ok s1 -> OpenAuditStore path2 file2 = Ok s2 ->
  Forall decoded_record (AS_Records s1) -> Forall decoded_record (AS_Records s2) ->
  EqualFold (AS_LastHash s1) (AS_LastHash s2) = true ->
  audit_binding <$> AS_Records s1 = audit_binding <$> AS_Records s2 \/
  some_collision (AS_Records s1) (AS_Records s2).
Proof.
  assert (H : forall path file s, OpenAuditStore path file = Ok s ->
              chained "" 0 (AS_Records s) /\ AS_LastHash s = head_hash "" (AS_Records s)).
  { intros path file s (_ & [[_ ->]|(content & rs & _ & _ & Hc & ->)])%open_inv; [done|by split]. }
  intros [C1 L1]%H [C2 L2]%H D1 D2 E%EqualFold_spec. apply chain_determined; try assumption.
  by rewrite <- L1, <- L2.
Qed.

(** ** Concrete stores *)

Definition audit_io_works : append_io :=
  {| AIO_Marshal := true; AIO_MkdirAll := true; AIO_OpenFile := true; AIO_Write := WriteOk;
     AIO_Joined := {| line_length := 0; line_content_of := LineBlank |}; AIO_Sync := true; AIO_Close := true |}.

Definition example_event (parameters : gmap string string) : AuditEvent :=
  {| Ev_Event := "plan.created"; Ev_Actor := example_actor; Ev_RequestID := "req-1"; Ev_SessionID := "session-1";
     Ev_PlanID := "plan-0102"; Ev_PlanDigest := ""; Ev_Action := "service.restart"; Ev_Risk := "low";
     Ev_Status := "planned"; Ev_RollbackStatus := ""; Ev_Parameters := parameters; Ev_ErrorCode := "" |}.
Definition example_id : entropy := {| Ent_Bytes := Some [chr 3]; Ent_UnixNano := 0 |}.
Definition example_path : string := "/var/lib/audit.jsonl".

(** 511 letters and a two-byte rune: the cut at 512 bytes splits the rune. *)
Definition split_value : string := of_bytes (repeat (chr 97) 511 ++ [chr 0xC3; chr 0xA9]).

(** A defect of the truncation.  An event whose strings are all valid UTF-8 is appended without
    error, and the store no longer opens: [RedactParameters] cuts the value in the middle of a
    rune, the hash is taken over the escape of the broken rune, the decoder returns the
    replacement character, and its hash differs. *)
Theorem audit_truncation_blocks_restart :
  let event := example_event {["unit" := split_value]} in
  valid_utf8 split_value = true /\
  exists r s' file',
    Append audit_io_works example_id example_now event (empty_store example_path) AuditMissing = (Ok r, s', file') /\
    AS_Records s' = [r] /\ is_ok (OpenAuditStore example_path file') = false.
Proof.
  cbv zeta. split; [vm_compute; reflexivity|].
  pose (event := example_event {["unit" := split_value]}).
  exists (final_record example_id example_now event (empty_store example_path)).
  eexists _, _. split_and!; [vm_compute; reflexivity|vm_compute; reflexivity|vm_compute; reflexivity].
Qed.

Definition example_plain : AuditEvent :=
  example_event {["unit" := "quantum-runtime.service"; "api-token" := "hunter2"]}.
Definition example_final : AuditRecord :=
  final_record example_id example_now example_plain (empty_store example_path).

Example example_redacted :
  map_to_list (AR_Parameters example_final) = [("unit", "quantum-runtime.service"); ("api-token", "[REDACTED]")]
  \/ map_to_list (AR_Parameters example_final) = [("api-token", "[REDACTED]"); ("unit", "quantum-runtime.service")].
Proof. vm_compute. auto. Qed.

Ltac each_by tac := repeat (constructor; [tac|]); constructor.

Lemma example_actor_wire : wire_actor example_actor.
Proof. each_by ltac:(vm_compute; reflexivity). Qed.

Lemma example_plain_ascii : ascii_event example_plain.
Proof.
  split; [each_by ltac:(vm_compute; reflexivity)|exact example_actor_wire|].
  intros k v. unfold example_plain, example_event. simpl.
  intros [[<- <-]|[_ [<- <-]%lookup_singleton_Some]]%lookup_insert_Some; split; vm_compute; reflexivity.
Qed.

Lemma empty_store_synced : audit_synced (empty_store example_path) AuditMissing.
Proof. split; [vm_compute; reflexivity..]. Qed.

Lemma audit_append_reload_witness :
  audit_synced (store_with example_final (empty_store example_path))
    (append_line audit_io_works example_final AuditMissing).
Proof.
  assert (Hlen : slen (marshal_record example_final) <> maxAuditLineBytes) by (vm_compute; discriminate).
  assert (Hio : clean_io audit_io_works) by (right; repeat split).
  pose proof (audit_append_reload audit_io_works example_id example_now example_plain
    (empty_store example_path) AuditMissing empty_store_synced example_plain_ascii Hio Hlen) as H.
  assert (E : Append audit_io_works example_id example_now example_plain (empty_store example_path) AuditMissing
    = (Ok example_final, store_with example_final (empty_store example_path),
       append_line audit_io_works example_final AuditMissing)) by (vm_compute; reflexivity).
  rewrite E in H. exact H.
Defined.

(** The same record with another display name: the hash does not cover it. *)
Definition example_renamed : AuditRecord :=
  with_entry_hash (AR_EntryHash example_final)
    (new_record example_id example_now
      {| Ev_Event := "plan.created"; Ev_Actor := Plan_Actor example_plan'; Ev_RequestID := "req-1";
         Ev_SessionID := "session-1"; Ev_PlanID := "plan-0102"; Ev_PlanDigest := ""; Ev_Action := "service.restart";
         Ev_Risk := "low"; Ev_Status := "planned"; Ev_RollbackStatus := "";
         Ev_Parameters := Ev_Parameters example_plain; Ev_ErrorCode := "" |} (empty_store example_path)).
Definition with_roles (roles permissions : list string) (r : AuditRecord) : AuditRecord :=
  {| AR_Schema := AR_Schema r; AR_Sequence := AR_Sequence r; AR_ID := AR_ID r; AR_Timestamp := AR_Timestamp r;
     AR_Event := AR_Event r;
     AR_Actor := {| Actor_ID := Actor_ID (AR_Actor r); Actor_Kind := Actor_Kind (AR_Actor r);
       Actor_DisplayName := Actor_DisplayName (AR_Actor r); Actor_Roles := roles; Actor_Permissions := permissions |};
     AR_RequestID := AR_RequestID r; AR_SessionID := AR_SessionID r; AR_PlanID := AR_PlanID r;
     AR_PlanDigest := AR_PlanDigest r; AR_Action := AR_Action r; AR_Risk := AR_Risk r; AR_Status := AR_Status r;
     AR_RollbackStatus := AR_RollbackStatus r; AR_Parameters := AR_Parameters r; AR_ErrorCode := AR_ErrorCode r;
     AR_PreviousHash := AR_PreviousHash r; AR_EntryHash := AR_EntryHash r |}.
Definition example_forged : AuditRecord :=
  with_roles (Actor_Roles example_actor) (Actor_Permissions example_actor) example_renamed.
Definition file_with (r : AuditRecord) : audit_file := append_line audit_io_works r AuditMissing.

Lemma example_final_decoded : decoded_record example_final.
Proof.
  split; [apply final_record_wire; [exact example_plain_ascii|vm_compute; reflexivity]|].
  split; [by vm_compute|split; [by vm_compute|vm_compute; reflexivity]].
Qed.

Lemma example_forged_decoded : decoded_record example_forged.
Proof.
  destruct example_final_decoded as ([_ _ Hp] & _ & _). split; [split|].
  - each_by ltac:(vm_compute; reflexivity).
  - each_by ltac:(vm_compute; reflexivity).
  - replace (AR_Parameters example_forged) with (AR_Parameters example_final)
      by (vm_compute; reflexivity). exact Hp.
  - split; [by vm_compute|split; [by vm_compute|vm_compute; reflexivity]].
Qed.

Lemma audit_tamper_evident_witness :
  example_final <> example_forged /\
  (audit_binding <$> [example_final] = audit_binding <$> [example_forged] \/
   some_collision [example_final] [example_forged]).
Proof.
  split; [by vm_compute|].
  assert (O1 : OpenAuditStore example_path (file_with example_final) =
               Ok (store_with example_final (empty_store example_path))) by (vm_compute; reflexivity).
  assert (O2 : OpenAuditStore example_path (file_with example_forged) =
               Ok (store_with example_forged (empty_store example_path))) by (vm_compute; reflexivity).
  apply (audit_tamper_evident _ _ _ _ _ _ O1 O2).
  - constructor; [exact example_final_decoded|constructor].
  - constructor; [exact example_forged_decoded|constructor].
  - vm_compute. reflexivity.
Defined.
