(* ===== verification/ServiceControl.v ===== *)
(** * Service policy, the systemctl adapter and the health probe

    [internal/servicecontrol/{policy,controller,health}.go]. *)

From S2P Require Import Prelude GoStrings Regexp.
From Stdlib Require Import Ascii.
#[local] Open Scope Z_scope.

(** ** Policy *)

Definition PolicySchema : string := "quantum.control/service-mutation-policy/v1alpha1".

Record ServiceSpec := { Spec_Unit : string; Spec_HealthURL : string }.

#[export] Instance ServiceSpec_eq_dec : EqDecision ServiceSpec.
Proof. solve_decision. Defined.

Definition compiledServices : gmap string ServiceSpec :=
  {["quantum-runtime.service" := {| Spec_Unit := "quantum-runtime.service";
                                    Spec_HealthURL := "http://127.0.0.1:11450/healthz" |}]}.

Record policyFile := { PF_Schema : string; PF_AllowedUnits : list string }.

(** [Policy.allowed]. *)
Notation Policy := (gmap string ServiceSpec).

Definition DefaultPolicy : Policy := compiledServices.

(** What reading and decoding the policy file gives. *)
Inductive policy_document :=
| PolicyUnreadable
| PolicyOversized     (* more than 1 MiB *)
| PolicyUndecodable
| PolicyDocument (document : policyFile).

(** The loop of [LoadPolicy]. *)
Fixpoint narrow (raws : list string) (allowed : Policy) : result Policy :=
  match raws with
  | [] => Ok allowed
  | raw :: raws =>
    let unit := TrimSpace raw in
    if unit == "" then fail "service mutation policy contains an empty unit"
    else
      match compiledServices !! unit with
      | None => Err (errorf "service mutation policy may not broaden compiled allowlist with %q" [unit])
      | Some spec => narrow raws (<[unit := spec]> allowed)
      end
  end.

Definition LoadPolicy (path : string) (file : policy_document) : result Policy :=
  if TrimSpace path == "" then Ok DefaultPolicy
  else
    match file with
    | PolicyUnreadable => fail "read service mutation policy"
    | PolicyOversized => fail "service mutation policy exceeds 1 MiB"
    | PolicyUndecodable => fail "decode service mutation policy"
    | PolicyDocument document =>
      if PF_Schema document != PolicySchema then
        Err (errorf "unsupported service mutation policy schema %q" [PF_Schema document])
      else narrow (PF_AllowedUnits document) ∅
    end.

Definition Allows (p : Policy) (unit : string) : bool := bool_decide (is_Some (p !! unit)).
Definition Spec (p : Policy) (unit : string) : option ServiceSpec := p !! unit.
Definition AllowedUnits (p : Policy) : list string := sort_by (fun s => s) (map_to_list p).*1.

(** ** The adapter *)

Definition unitPattern : string := "^[A-Za-z0-9][A-Za-z0-9_.@:-]{0,127}$".

Definition validateUnit (unit : string) : result () :=
  if negb (matches unitPattern unit) then fail "systemd unit does not match policy" else Ok tt.

(** A [Runner] is called with the path of a program and its arguments. *)
Definition Runner : Type := string -> list string -> result unit.

(** [execRunner]; [CombinedOutput] is the host: its output and whether it failed. *)
Definition execRunner (CombinedOutput : string -> list string -> string * bool) : Runner := fun binary args =>
  let '(output, failed) := CombinedOutput binary args in
  if failed then
    let message := TrimSpace output in
    let message := if 256 <? slen message then slice_to 256 message else message in
    if message == "" then fail "systemctl action failed"
    else Err (errorf "systemctl action failed: %s" [message])
  else Ok tt.

Record Native := { Native_Binary : string; Native_Runner : option Runner }.

(** The host: [exec.LookPath("systemctl")] and the processes it runs. *)
Record host := { LookPath_systemctl : option string; CombinedOutput : string -> list string -> string * bool }.

(** The invocation of a program that [Native.run] makes, if any, and its error. *)
Definition run (h : host) (n : Native) (verb unit : string) : result () * option (string * list string) :=
  match validateUnit unit with
  | Err e => (Err e, None)
  | Ok _ =>
    if negb ((verb == "start") || (verb == "stop") || (verb == "restart")) then
      (fail "unsupported service action", None)
    else
      let binary := TrimSpace (Native_Binary n) in
      match (if binary == "" then LookPath_systemctl h else Some binary) with
      | None => (fail "systemctl is not available", None)
      | Some binary =>
        let runner := default (execRunner (CombinedOutput h)) (Native_Runner n) in
        let args := [verb; "--"; unit] in
        (runner binary args, Some (binary, args))
      end
  end.

Definition Start (h : host) (n : Native) (unit : string) := run h n "start" unit.
Definition Stop (h : host) (n : Native) (unit : string) := run h n "stop" unit.
Definition Restart (h : host) (n : Native) (unit : string) := run h n "restart" unit.

(** ** The health probe *)

(** What [url.Parse] and [net.ParseIP] say about a URL. *)
Record parsed_url := {
  URL_Scheme : string;
  URL_Host : string;
  URL_IsLoopbackIP : bool (* the host name is an IP address and loopback *)
}.

Inductive http_result :=
| HTTPNoRequest
| HTTPUnavailable
| HTTPStatus (code : Z).

Definition Check (parsed : option parsed_url) (Do : http_result) : result () :=
  match parsed with
  | None => fail "invalid service health URL"
  | Some u =>
    if (URL_Scheme u != "http") || (URL_Host u == "") then fail "invalid service health URL"
    else if negb (URL_IsLoopbackIP u) then fail "service health URL must use a loopback address"
    else
      match Do with
      | HTTPNoRequest => fail "create service health request"
      | HTTPUnavailable => fail "service health endpoint is unavailable"
      | HTTPStatus code =>
        if negb (code =? 200) then Err (errorf "service health endpoint returned HTTP %d" [decimal (Z.to_N code)])
        else Ok tt
      end
  end.

(** ** A policy only narrows *)

Lemma narrow_Ok raws allowed p :
  narrow raws allowed = Ok p <->
  (forall raw, raw ∈ raws -> TrimSpace raw <> "" /\ is_Some (compiledServices !! TrimSpace raw)) /\
  p = fold_left (fun m raw => <[TrimSpace raw := default {| Spec_Unit := ""; Spec_HealthURL := "" |}
                                                   (compiledServices !! TrimSpace raw)]> m) raws allowed.
Proof.
  revert allowed. induction raws as [|raw raws IH]; intros allowed; simpl.
  - split; [intros [= <-]; split; [by intros ? ?%not_elem_of_nil|done]|by intros [_ ->]].
  - destruct (TrimSpace raw == "") eqn:E; bool_prop.
    { split; [done|]. intros [H _]. by destruct (H raw (list_elem_of_here _ _)). }
    destruct (compiledServices !! TrimSpace raw) as [spec|] eqn:Es.
    + rewrite IH. split; intros [H ->]; (split; [|done]).
      * intros raw' [->|Hin]%elem_of_cons; [by rewrite Es; eauto|by apply H].
      * intros raw' Hin. apply H. by right.
    + split; [done|]. intros [H _]. destruct (H raw (list_elem_of_here _ _)) as [_ [? ?]]. congruence.
Qed.

Lemma narrowed_lookup raws (allowed : Policy) unit :
  fold_left (fun m raw => <[TrimSpace raw := default {| Spec_Unit := ""; Spec_HealthURL := "" |}
                                               (compiledServices !! TrimSpace raw)]> m) raws allowed !! unit =
  if decide (unit ∈ TrimSpace <$> raws)
  then Some (default {| Spec_Unit := ""; Spec_HealthURL := "" |} (compiledServices !! unit))
  else allowed !! unit.
Proof.
  revert allowed. induction raws as [|raw raws IH]; intros allowed; [done|].
  cbn [fold_left]. rewrite IH. rewrite fmap_cons.
  destruct (decide (unit ∈ TrimSpace <$> raws)) as [H|H].
  - rewrite decide_True by (by right). done.
  - destruct (decide (unit = TrimSpace raw)) as [->|Hne].
    + rewrite decide_True by (by left). by rewrite lookup_insert_eq.
    + rewrite decide_False by (by intros [?|?]%elem_of_cons). by rewrite lookup_insert_ne.
Qed.

Lemma LoadPolicy_subset path file p : LoadPolicy path file = Ok p -> p ⊆ compiledServices.
Proof.
  unfold LoadPolicy. destruct (TrimSpace path == ""); [by intros [= <-]|].
  destruct file as [| | |document]; try done. destruct (PF_Schema document != PolicySchema); [done|].
  intros [H ->]%narrow_Ok. apply map_subseteq_spec. intros unit spec. rewrite narrowed_lookup.
  case_decide as Hin; [|by rewrite lookup_empty]. apply list_elem_of_fmap in Hin as (raw & -> & Hraw).
  destruct (H raw Hraw) as [_ [spec' E]]. rewrite E. by intros [= <-].
Qed.

Lemma AllowedUnits_elem (p : Policy) unit : unit ∈ AllowedUnits p <-> is_Some (p !! unit).
Proof.
  unfold AllowedUnits. rewrite sort_by_perm, list_elem_of_fmap. split.
  - intros ([u spec] & -> & H%elem_of_map_to_list). by exists spec.
  - intros [spec H]. exists (unit, spec). by rewrite elem_of_map_to_list.
Qed.

(** C29 A policy can only narrow.  [LoadPolicy] never yields a unit or a health URL that is not
    compiled in; without a path it yields the compiled set.  A document is accepted exactly when its schema is
    the known one and every unit, trimmed, is compiled in, and then allows exactly the units it
    lists; the listing of allowed units is strictly sorted and complete. *)
Theorem LoadPolicy_narrows path file :
  (forall p, LoadPolicy path file = Ok p ->
   p ⊆ compiledServices /\
   StronglySorted str_lt (AllowedUnits p) /\
   (forall unit, unit ∈ AllowedUnits p <-> Allows p unit = true) /\
   (forall unit, Allows p unit = true -> Spec p unit = compiledServices !! unit)) /\
  (TrimSpace path = "" -> LoadPolicy path file = Ok compiledServices) /\
  (TrimSpace path <> "" ->
   is_ok (LoadPolicy path file) = true <->
   exists document, file = PolicyDocument document /\ PF_Schema document = PolicySchema /\
     forall raw, raw ∈ PF_AllowedUnits document ->
     TrimSpace raw <> "" /\ is_Some (compiledServices !! TrimSpace raw)) /\
  (forall document p unit, file = PolicyDocument document -> TrimSpace path <> "" ->
   LoadPolicy path file = Ok p -> Allows p unit = true <-> unit ∈ TrimSpace <$> PF_AllowedUnits document).
Proof.
  assert (Helem : forall (p : Policy) unit, unit ∈ AllowedUnits p <-> Allows p unit = true)
    by (intros p unit; unfold Allows; by rewrite AllowedUnits_elem, bool_decide_eq_true).
  split; [|split; [|split]].
  - intros p Hp%LoadPolicy_subset. split; [exact Hp|]. split; [|split; [apply Helem|]].
    + apply sort_by_sorted. rewrite list_fmap_id. apply NoDup_fst_map_to_list.
    + intros unit. unfold Allows, Spec. rewrite bool_decide_eq_true. intros [spec E]. rewrite E. symmetry.
      by eapply lookup_weaken.
  - intros E. unfold LoadPolicy. by rewrite E.
  - intros Hp%String.eqb_neq. unfold LoadPolicy. rewrite Hp. split.
    + destruct file as [| | |document]; try done. destruct (PF_Schema document != PolicySchema) eqn:E; [done|].
      bool_prop. destruct (narrow (PF_AllowedUnits document) ∅) as [p|] eqn:En; [|done].
      apply narrow_Ok in En as [H _]. eauto.
    + intros (document & -> & -> & H). rewrite String.eqb_refl. simpl.
      rewrite (proj2 (narrow_Ok _ _ _) (conj H eq_refl)). done.
  - intros document p unit -> Hp%String.eqb_neq. unfold LoadPolicy. rewrite Hp.
    destruct (PF_Schema document != PolicySchema); [done|]. intros [H ->]%narrow_Ok.
    unfold Allows. rewrite bool_decide_eq_true, narrowed_lookup. case_decide; [by eauto|].
    rewrite lookup_empty. split; [by intros [? ?]|done].
Qed.

(** ** The only argument vectors *)

Definition letter_or_digit (a : ascii) : bool :=
  between 65 (byte a) 90 || between 97 (byte a) 122 || between 48 (byte a) 57.
Definition unit_byte (a : ascii) : bool :=
  letter_or_digit a || existsb (Ascii.eqb a) ["_"; "."; "@"; ":"; "-"]%char.

(** 1 to 128 letters, digits and [_.@:-], a letter or digit first. *)
Definition safe_unit (unit : string) : Prop :=
  exists a l, to_bytes unit = a :: l /\ letter_or_digit a = true /\ forallb unit_byte l = true /\
              (length l <= 127)%nat.

Lemma forallb_ext' {A} (p q : A -> bool) l : (forall x, p x = q x) -> forallb p l = forallb q l.
Proof. intros H. induction l as [|x l IH]; simpl; [done|]. by rewrite H, IH. Qed.

(** A statement on one byte, by trying all of them. *)
Lemma all_bytes (p : ascii -> bool) : forallb (fun n => p (ascii_of_nat n)) (seq 0 256) = true -> forall a, p a = true.
Proof.
  intros H a. rewrite forallb_forall in H. rewrite <- (ascii_nat_embedding a). apply H.
  apply in_seq. pose proof (nat_ascii_bounded a). lia.
Qed.

Definition unit_classes : char_class * char_class := Eval vm_compute in
  match Compile unitPattern with
  | Some [Item c1 1 1; Item c2 0 127] => (c1, c2)
  | _ => ([], [])
  end.

Lemma unit_pattern_compiled :
  Compile unitPattern = Some [Item unit_classes.1 1 1; Item unit_classes.2 0 127].
Proof. vm_compute. reflexivity. Qed.

Lemma unit_class_first a : in_class unit_classes.1 a = letter_or_digit a.
Proof.
  apply eqb_true_iff.
  apply (all_bytes (fun a => Bool.eqb (in_class unit_classes.1 a) (letter_or_digit a))). vm_compute. reflexivity.
Qed.

Lemma unit_class_rest a : in_class unit_classes.2 a = unit_byte a.
Proof.
  apply eqb_true_iff.
  apply (all_bytes (fun a => Bool.eqb (in_class unit_classes.2 a) (unit_byte a))). vm_compute. reflexivity.
Qed.

Lemma matches_unit unit : matches unitPattern unit = true <-> safe_unit unit.
Proof.
  unfold matches, MatchString. rewrite unit_pattern_compiled, match_items_one. unfold safe_unit.
  split; intros (a & l & -> & Ha & Hl); exists a, l.
  - apply match_items_last in Hl as [Hl ?]; [|lia].
    rewrite unit_class_first in Ha. rewrite (forallb_ext' _ _ _ unit_class_rest) in Hl. split_and!; lia || done.
  - destruct Hl as [Hl Hlen]. rewrite unit_class_first. split_and!; try done. apply match_items_last; [lia|].
    rewrite (forallb_ext' _ _ _ unit_class_rest). split; [done|lia].
Qed.

Lemma safe_unit_bytes unit :
  safe_unit unit -> HasPrefix unit "-" = false /\ forallb unit_byte (to_bytes unit) = true.
Proof.
  intros (a & l & E & Ha & Hl & _). split.
  - rewrite <- (of_to_bytes unit), E. unfold HasPrefix. change (of_bytes (a :: l)) with (String.String a (of_bytes l)).
    cbn [String.prefix]. destruct (ascii_dec "-" a) as [<-|_]; [discriminate Ha|reflexivity].
  - rewrite E. cbn [forallb]. unfold unit_byte at 1. by rewrite Ha, Hl.
Qed.

Definition systemctl_path (h : host) (n : Native) : option string :=
  if TrimSpace (Native_Binary n) == "" then LookPath_systemctl h else Some (TrimSpace (Native_Binary n)).

Definition lifecycle_verbs : list string := ["start"; "stop"; "restart"].

(** The two ways a call ends. *)
Inductive run_outcome h n verb unit : result () * option (string * list string) -> Prop :=
| run_refused err :
  ~ (verb ∈ lifecycle_verbs /\ safe_unit unit /\ is_Some (systemctl_path h n)) ->
  run_outcome h n verb unit (Err err, None)
| run_invoked binary (args := [verb; "--"; unit]) :
  verb ∈ lifecycle_verbs -> safe_unit unit -> systemctl_path h n = Some binary ->
  run_outcome h n verb unit
    (default (execRunner (CombinedOutput h)) (Native_Runner n) binary args, Some (binary, args)).

Lemma run_cases h n verb unit : run_outcome h n verb unit (run h n verb unit).
Proof.
  assert (Hverb : (verb == "start") || (verb == "stop") || (verb == "restart") = true <-> verb ∈ lifecycle_verbs)
    by (unfold lifecycle_verbs; bool_prop; rewrite !elem_of_cons, elem_of_nil; tauto).
  unfold run, validateUnit, fail. pose proof (matches_unit unit) as Hm.
  destruct (matches unitPattern unit); cbn [negb];
    [|apply run_refused; intros (_ & H & _); by apply Hm in H].
  destruct ((verb == "start") || (verb == "stop") || (verb == "restart")); cbn [negb];
    [|apply run_refused; intros (H & _); by apply Hverb in H].
  fold (systemctl_path h n). destruct (systemctl_path h n) as [binary|] eqn:E.
  - apply run_invoked; [by apply Hverb|by apply Hm|exact E].
  - apply run_refused. intros (_ & _ & H). rewrite E in H. by destruct H.
Qed.

(** The adapter runs a program only with the fixed vector of a known verb, the separator and one
    validated unit: the unit has 1 to 128 bytes, starts with a letter or digit (so it is never an option)
    and has only letters, digits and five punctuation bytes.  It does so exactly for the three verbs and valid
    units when a binary is configured or found, and then answers what the runner answers. *)
Theorem run_argument_vector h n verb unit :
  (forall binary args, (run h n verb unit).2 = Some (binary, args) ->
   args = [verb; "--"; unit] /\ verb ∈ lifecycle_verbs /\ safe_unit unit /\
   systemctl_path h n = Some binary /\
   (run h n verb unit).1 = default (execRunner (CombinedOutput h)) (Native_Runner n) binary args) /\
  (is_Some (run h n verb unit).2 <->
   verb ∈ lifecycle_verbs /\ safe_unit unit /\ is_Some (systemctl_path h n)) /\
  ((run h n verb unit).2 = None -> is_ok (run h n verb unit).1 = false) /\
  (safe_unit unit -> HasPrefix unit "-" = false /\ forallb unit_byte (to_bytes unit) = true).
Proof.
  split; [|split; [|split; [|apply safe_unit_bytes]]];
    destruct (run_cases h n verb unit) as [err Hn|binary args Hv Hu Hp]; cbn [fst snd].
  - discriminate.
  - intros ? ? [= <- <-]. by split_and!.
  - split; [by intros [? [=]]|intros H; by destruct Hn].
  - split; [|by eexists]. intros _. split; [exact Hv|]. split; [exact Hu|by eexists].
  - reflexivity.
  - discriminate.
Qed.

(** A health check succeeds exactly when the URL is a plain HTTP URL whose host is a loopback address
    and the request, without redirects, answers status 200. *)
Theorem Check_spec parsed Do :
  is_ok (Check parsed Do) = true <->
  exists u, parsed = Some u /\ URL_Scheme u = "http" /\ URL_Host u <> "" /\ URL_IsLoopbackIP u = true /\
            Do = HTTPStatus 200.
Proof.
  unfold Check, fail. destruct parsed as [u|]; [|split; [done|by intros (? & [=] & _)]].
  destruct ((URL_Scheme u != "http") || (URL_Host u == "")) eqn:E1; bool_prop.
  { split; [done|]. intros (? & [= <-] & ? & ? & _). tauto. }
  destruct (URL_IsLoopbackIP u) eqn:E2; cbn [negb]; [|split; [done|intros (? & [= <-] & _ & _ & ? & _); congruence]].
  destruct Do as [| |code]; try (split; [done|by intros (? & [= <-] & _ & _ & _ & [=])]).
  destruct (Z.eqb_spec code 200) as [->|Hne]; cbn [negb].
  - split; [|done]. intros _. exists u. by destruct E1.
  - split; [done|]. by intros (? & [= <-] & _ & _ & _ & [=]).
Qed.

(** Every compiled health URL satisfies the pattern of the probe, and every compiled unit that of the adapter. *)
Lemma compiled_units_safe unit spec : compiledServices !! unit = Some spec -> safe_unit unit /\ Spec_Unit spec = unit.
Proof.
  unfold compiledServices. intros [<- <-]%lookup_singleton_Some. split; [|done].
  apply matches_unit. vm_compute. reflexivity.
Qed.
