(* ===== verification/System.v ===== *)
(** * Effects of the broker

    What a broker operation does besides computing: it reads the clock and the random source, observes
    services, runs lifecycle actions, checks health endpoints and waits on its context.  The interface
    [System] is what [systemprobe.Probe], [serviceMutator], [healthChecker], [context.Context] and
    [time.Ticker] promise; its state type is abstract, so the theorems hold for every behaviour of
    the machine and every timing. *)

From S2P Require Import Prelude GoStrings GoTime Protocol Plans.

(** The three typed lifecycle actions of [serviceMutator]. *)
Inductive verb := VStart | VStop | VRestart.
#[export] Instance verb_eq_dec : EqDecision verb.
Proof. solve_decision. Defined.

(** A map and an error, as the probe returns them. *)
Notation observation := (option dict * option text)%type.

Class System (S : Type) := {
  sys_now : S -> time * S;
  sys_entropy : S -> entropy * S;
  sys_snapshot : S -> observation * S;
  sys_status : string -> S -> observation * S;
  sys_action : verb -> string -> S -> option text * S;
  sys_health : string -> S -> option text * S;
  (** [context.WithTimeout] and its cancellation: a stack of contexts. *)
  sys_with_timeout : duration -> S -> S;
  sys_cancel : S -> S;
  (** [ctx.Err() != nil] of the innermost context. *)
  sys_done : S -> bool;
  (** [select { case <-ctx.Done(): case <-ticker.C: }]; [true] is the first case. *)
  sys_wait : S -> bool * S;
  (** How many more ticks the waiting loops can receive before the select takes the first case. *)
  sys_polls_left : S -> nat
}.

(** What the operations rely on: a context with a deadline ends the wait at some point, and once done it stays done
    until it is left. *)
Class SystemLaws (S : Type) {system : System S} := {
  wait_tick s s' : sys_wait s = (false, s') -> (sys_polls_left s' < sys_polls_left s)%nat;
  wait_done s s' : sys_wait s = (true, s') -> sys_done s' = true;
  status_polls unit s : (sys_polls_left (sys_status unit s).2 <= sys_polls_left s)%nat;
  health_polls url s : (sys_polls_left (sys_health url s).2 <= sys_polls_left s)%nat
}.

(** What an operation did to the machine, in order. *)
Inductive event :=
| EvSnapshot
| EvStatus (unit : string)
| EvHealth (url : string)
| EvAction (v : verb) (unit : string) (failed : bool).
#[export] Instance event_eq_dec : EqDecision event.
Proof. solve_decision. Defined.

Record world (S : Type) := World { w_sys : S; w_log : list event }.
Arguments World {_} _ _.
Arguments w_sys {_} _.
Arguments w_log {_} _.

(** How an operation ends.  A panic unwinds to the HTTP server, which drops the connection;
    [Diverged] is a loop that does not end. *)
Inductive exec (S A : Type) :=
| Done (a : A) (w : world S)
| Panicked (w : world S)
| Diverged.
Arguments Done {_ _} _ _.
Arguments Panicked {_ _} _.
Arguments Diverged {_ _}.

Definition M (S A : Type) : Type := world S -> exec S A.

#[export] Instance M_ret S : MRet (M S) := fun A a w => Done a w.
#[export] Instance M_bind S : MBind (M S) := fun A B k m w =>
  match m w with
  | Done a w => k a w
  | Panicked w => Panicked w
  | Diverged => Diverged
  end.

Definition panic {S A} : M S A := fun w => Panicked w.
Definition diverge {S A} : M S A := fun _ => Diverged.

Section operations.
Context {S : Type} `{!System S}.

(** A step of the system with an entry in the log. *)
Definition step {A} (f : S -> A * S) (entry : A -> list event) : M S A := fun w =>
  let '(a, s) := f (w_sys w) in Done a (World s (w_log w ++ entry a)).

Definition now : M S time := step sys_now (fun _ => []).
Definition fresh_entropy : M S entropy := step sys_entropy (fun _ => []).
Definition probe_snapshot : M S observation := step sys_snapshot (fun _ => [EvSnapshot]).
Definition probe_status (unit : string) : M S observation :=
  step (sys_status unit) (fun _ => [EvStatus unit]).
Definition health_check (url : string) : M S (option text) :=
  step (sys_health url) (fun _ => [EvHealth url]).
Definition service_action (v : verb) (unit : string) : M S (option text) :=
  step (sys_action v unit) (fun e => [EvAction v unit (bool_decide (is_Some e))]).
Definition with_timeout (d : duration) : M S () :=
  step (fun s => ((), sys_with_timeout d s)) (fun _ => []).
Definition cancel : M S () := step (fun s => ((), sys_cancel s)) (fun _ => []).
Definition context_done : M S bool := step (fun s => (sys_done s, s)) (fun _ => []).
Definition wait : M S bool := step sys_wait (fun _ => []).
End operations.

(** The actions a log contains. *)
Definition action_of (e : event) : option (verb * string) :=
  match e with EvAction v unit _ => Some (v, unit) | _ => None end.
Definition actions (log : list event) : list (verb * string) := omap action_of log.

(** ** Reasoning about operations: pre- and postconditions on the log

    [runs m w Q]: the operation does not diverge, and if it returns, [Q] holds of its result, the entries it
    added to the log, and the machine it left. *)
Section runs.
Context {S : Type} `{!System S}.

Definition runs {A} (m : M S A) (w : world S) (Q : A -> list event -> S -> Prop) : Prop :=
  exists a added s, m w = Done a (World s (w_log w ++ added)) /\ Q a added s.

Lemma runs_ret {A} (a : A) w (Q : A -> list event -> S -> Prop) : Q a [] (w_sys w) -> runs (mret a) w Q.
Proof. intros H. exists a, [], (w_sys w). split; [|exact H]. rewrite app_nil_r. by destruct w. Qed.

Lemma runs_step {A} (f : S -> A * S) entry w (Q : A -> list event -> S -> Prop) :
  Q (f (w_sys w)).1 (entry (f (w_sys w)).1) (f (w_sys w)).2 -> runs (step f entry) w Q.
Proof.
  intros H. unfold step. destruct (f (w_sys w)) as [a s] eqn:E. exists a, (entry a), s.
  split; [|exact H]. unfold step. by rewrite E.
Qed.

Lemma runs_bind {A B} (m : M S A) (k : A -> M S B) w (Q : B -> list event -> S -> Prop) :
  runs m w (fun a added s => forall log, runs (k a) (World s log) (fun b more s' => Q b (added ++ more) s')) ->
  runs (m ≫= k) w Q.
Proof.
  intros (a & added & s & E & H). destruct (H (w_log w ++ added)) as (b & more & s' & E' & H').
  exists b, (added ++ more), s'. split; [|exact H'].
  unfold mbind, M_bind. rewrite E, E'. by rewrite app_assoc.
Qed.

Lemma runs_mono {A} (m : M S A) w (Q Q' : A -> list event -> S -> Prop) :
  runs m w Q -> (forall a added s, Q a added s -> Q' a added s) -> runs m w Q'.
Proof. intros (a & added & s & E & H) HQ. exists a, added, s. auto. Qed.

(** Whatever is asked of the whole computation, ask it after the first part. *)
Lemma runs_then {A B} (m : M S A) (k : A -> M S B) w (Q : A -> list event -> S -> Prop) (Z : exec S B -> Prop) :
  runs m w Q -> (forall a added s, Q a added s -> Z (k a (World s (w_log w ++ added)))) -> Z ((m ≫= k) w).
Proof. intros (a & added & s & E & H) HZ. unfold mbind, M_bind. rewrite E. by apply HZ. Qed.

(** Every result of a computation satisfies [P]. *)
Definition answers {A} (m : M S A) (P : A -> Prop) : Prop := forall w a w', m w = Done a w' -> P a.

Lemma answers_ret {A} (a : A) (P : A -> Prop) : P a -> answers (mret a) P.
Proof. by intros H w b w' [= <- <-]. Qed.
Lemma answers_bind {A B} (m : M S A) (k : A -> M S B) (P : B -> Prop) : (forall a, answers (k a) P) -> answers (m ≫= k) P.
Proof.
  intros H w b w' E. unfold mbind, M_bind in E. destruct (m w) as [a w1|w1|]; [|discriminate E..]. by eapply H.
Qed.
End runs.

(** ** A machine

    A concrete system: one service with an active state, actions that work, fail or have no effect, and a context that
    allows a few polls. *)
Inductive actions_mode := ActionsWork | ActionsFail | ActionsStall.

Record machine := {
  m_active : string;
  m_mode : actions_mode;
  m_polls : nat;
  m_done : bool;
  m_clock : time
}.

Definition m_with_active (active : string) (m : machine) : machine :=
  {| m_active := active; m_mode := m_mode m; m_polls := m_polls m; m_done := m_done m; m_clock := m_clock m |}.

Definition m_act (v : verb) (m : machine) : option text * machine :=
  match m_mode m with
  | ActionsWork => (None, m_with_active (match v with VStop => "inactive" | _ => "active" end) m)
  | ActionsFail => (Some (Text "systemctl action failed" []), m)
  | ActionsStall => (None, m)
  end.

Definition m_wait (m : machine) : bool * machine :=
  match m_polls m with
  | O => (true, {| m_active := m_active m; m_mode := m_mode m; m_polls := 0; m_done := true; m_clock := m_clock m |})
  | S n => (false, {| m_active := m_active m; m_mode := m_mode m; m_polls := n; m_done := m_done m; m_clock := m_clock m |})
  end.

#[export] Instance machine_system : System machine := {
  sys_now m := (m_clock m, m);
  sys_entropy m := ({| Ent_Bytes := Some [chr 9]; Ent_UnixNano := 0 |}, m);
  sys_snapshot m := ((Some {["hostname" := AString "quantum"]}, None), m);
  sys_status unit m := ((Some {["active_state" := AString (m_active m)]}, None), m);
  sys_action v unit m := m_act v m;
  sys_health url m := (None, m);
  sys_with_timeout d m := m;
  sys_cancel m := m;
  sys_done m := m_done m;
  sys_wait := m_wait;
  sys_polls_left := m_polls
}.

#[export] Instance machine_laws : SystemLaws machine.
Proof.
  split; simpl.
  - intros s s'. unfold m_wait. destruct (m_polls s); intros H; simplify_eq/=; lia.
  - intros s s'. unfold m_wait. destruct (m_polls s); intros H; by simplify_eq/=.
  - done.
  - done.
Qed.

Definition idle_machine (active : string) (mode : actions_mode) (t : time) : world machine :=
  World {| m_active := active; m_mode := mode; m_polls := 2; m_done := false; m_clock := t |} [].
