(* ===== verification/Registry.v ===== *)
(** * The operation registry of the broker

    [internal/broker/registry.go] without [Execute], which runs handlers (Mutations.v): the registered operations,
    the validation of requests, the catalogue and the plan answer.  A handler is a closure in the code; it is
    represented by what it closes over ([handler]). *)

From S2P Require Import Prelude GoStrings GoTime Regexp Protocol Plans.
#[local] Open Scope Z_scope.

Definition serviceUnitPattern : string := "^[A-Za-z0-9][A-Za-z0-9_.@:-]{0,127}$".

(** The closures registered by [NewRegistry] and [EnableServiceMutations]. *)
Inductive handler :=
| HSnapshot
| HServiceStatus
| HTransaction (action : string).
#[export] Instance handler_eq_dec : EqDecision handler.
Proof. solve_decision. Defined.

(** A missing map entry has a nil handler. *)
Record registeredOperation := { RO_Definition : OperationDefinition; RO_Handler : option handler }.
Definition zero_registeredOperation : registeredOperation :=
  {| RO_Definition := zero_OperationDefinition; RO_Handler := None |}.

Record serviceTarget := { ST_HealthURL : string }.

(** The probe, the mutator and the health checker are the [System] of Mutations.v. *)
Record Registry := {
  R_Operations : gmap string registeredOperation;
  R_ServiceTargets : gmap string serviceTarget;
  R_TransactionTimeout : duration;
  R_PollInterval : duration
}.

Definition register (definition : OperationDefinition) (h : handler) (r : Registry) : Registry :=
  {| R_Operations := <[OD_Action definition := {| RO_Definition := definition; RO_Handler := Some h |}]> (R_Operations r);
     R_ServiceTargets := R_ServiceTargets r; R_TransactionTimeout := R_TransactionTimeout r;
     R_PollInterval := R_PollInterval r |}.

Definition snapshot_definition : OperationDefinition :=
  {| OD_Action := "system.snapshot"; OD_Summary := "Read a bounded local system summary";
     OD_Risk := RiskReadOnly; OD_RequiresConfirmation := false; OD_Implemented := true; OD_Parameters := [] |}.
Definition status_definition : OperationDefinition :=
  {| OD_Action := "service.status"; OD_Summary := "Read systemd unit state";
     OD_Risk := RiskReadOnly; OD_RequiresConfirmation := false; OD_Implemented := true;
     OD_Parameters := [{| PD_Name := "unit"; PD_Description := "Exact systemd unit name"; PD_Required := true;
                          PD_Pattern := serviceUnitPattern; PD_AllowedValues := None |}] |}.

Definition NewRegistry : Registry :=
  register status_definition HServiceStatus
    (register snapshot_definition HSnapshot
      {| R_Operations := ∅; R_ServiceTargets := ∅; R_TransactionTimeout := 0; R_PollInterval := 0 |}).

(** ** The catalogue *)

Definition clone_parameter (p : ParameterDefinition) : ParameterDefinition :=
  {| PD_Name := PD_Name p; PD_Description := PD_Description p; PD_Required := PD_Required p;
     PD_Pattern := PD_Pattern p; PD_AllowedValues := Some (default [] (PD_AllowedValues p)) |}.
Definition clone_definition (d : OperationDefinition) : OperationDefinition :=
  {| OD_Action := OD_Action d; OD_Summary := OD_Summary d; OD_Risk := OD_Risk d;
     OD_RequiresConfirmation := OD_RequiresConfirmation d; OD_Implemented := OD_Implemented d;
     OD_Parameters := clone_parameter <$> OD_Parameters d |}.

(** The definitions in the order the map iteration yields them. *)
Definition catalog_of (iteration : list (string * registeredOperation)) : list OperationDefinition :=
  sort_by OD_Action ((fun kv => clone_definition (RO_Definition kv.2)) <$> iteration).
Definition Catalog (r : Registry) : list OperationDefinition := catalog_of (map_to_list (R_Operations r)).

(** ** Validation *)

Definition validateParameter (definition : ParameterDefinition) (value : string) : option Problem :=
  let allowed_values :=
    match PD_AllowedValues definition with
    | None => None
    | Some values =>
      if existsb (fun allowed => value == allowed) values then None
      else Some (problem1 "invalid_parameters" "parameter %q is not an allowed value" (PD_Name definition))
    end in
  if negb (PD_Pattern definition == "") then
    match Compile (PD_Pattern definition) with
    | None => Some (problem "policy_error" "operation parameter policy is invalid")
    | Some pattern =>
      if negb (MatchString pattern value) then
        Some (problem1 "invalid_parameters" "parameter %q does not match policy" (PD_Name definition))
      else allowed_values
    end
  else allowed_values.

Definition check_parameter (parameters : gmap string string) (p : ParameterDefinition) : option Problem :=
  let value := parameters !! PD_Name p in
  if PD_Required p && (bool_decide (value = None) || (TrimSpace (default "" value) == "")) then
    Some (problem1 "invalid_parameters" "parameter %q is required" (PD_Name p))
  else
    match value with
    | Some value => validateParameter p value
    | None => None
    end.

(** The first undeclared parameter the map iteration yields. *)
Definition check_undeclared (definitions : list ParameterDefinition) (iteration : list (string * string)) :
    option Problem :=
  find_first (fun nv : string * string =>
    if bool_decide (nv.1 ∈ PD_Name <$> definitions) then None
    else Some (problem1 "invalid_parameters" "parameter %q is not accepted" nv.1)) iteration.

Definition validate (r : Registry) (request : OperationRequest) (execution : bool) :
    Problem + registeredOperation :=
  let action := TrimSpace (Req_Action request) in
  if action == "" then inl (problem "invalid_action" "action is required")
  else
    match R_Operations r !! action with
    | None => inl (problem "unknown_action" "action is not allowlisted")
    | Some operation =>
      let definition := RO_Definition operation in
      if negb (OD_Implemented definition) then inl (problem "not_implemented" "action is not implemented")
      else if execution && OD_RequiresConfirmation definition then
        inl (problem "confirmation_verifier_required"
               "confirmation-required operation execution requires the approved execution endpoint")
      else
        match find_first (check_parameter (Req_Parameters request)) (OD_Parameters definition) with
        | Some p => inl p
        | None =>
          match check_undeclared (OD_Parameters definition) (map_to_list (Req_Parameters request)) with
          | Some p => inl p
          | None => inr operation
          end
        end
    end.

(** [Registry.Plan]. *)
Definition Plan (r : Registry) (request : OperationRequest) : BrokerPlan :=
  match validate r request false with
  | inl p => {| BP_Request := request; BP_Definition := zero_OperationDefinition; BP_Valid := false;
                BP_RequiresConfirmation := false; BP_Error := Some p |}
  | inr operation =>
    {| BP_Request := request; BP_Definition := RO_Definition operation; BP_Valid := true;
       BP_RequiresConfirmation := OD_RequiresConfirmation (RO_Definition operation); BP_Error := None |}
  end.

(** ** What validation accepts *)

Definition valid_value (d : ParameterDefinition) (value : string) : Prop :=
  (PD_Pattern d <> "" -> matches (PD_Pattern d) value = true) /\
  (forall values, PD_AllowedValues d = Some values -> value ∈ values).

Record valid_parameters (definitions : list ParameterDefinition) (parameters : gmap string string) : Prop := {
  vp_declared : forall name value, parameters !! name = Some value ->
                name ∈ PD_Name <$> definitions;
  vp_values : forall d value, d ∈ definitions -> parameters !! PD_Name d = Some value -> valid_value d value;
  vp_required : forall d, d ∈ definitions -> PD_Required d = true ->
                exists value, parameters !! PD_Name d = Some value /\ TrimSpace value <> ""
}.

Lemma validateParameter_None d value : validateParameter d value = None <-> valid_value d value.
Proof.
  unfold validateParameter, valid_value, matches. cbv zeta.
  assert (Ha : match PD_AllowedValues d with
    | None => None
    | Some values => if existsb (fun allowed => value == allowed) values then None
        else Some (problem1 "invalid_parameters" "parameter %q is not an allowed value" (PD_Name d)) end = None <->
    forall values, PD_AllowedValues d = Some values -> value ∈ values).
  { destruct (PD_AllowedValues d) as [values|]; [|by split].
    destruct (existsb _ values) eqn:E; (split; [try done; intros _ ? [= <-]|]).
    - apply existsb_elem in E as (x & Hx & E). bool_prop. by subst.
    - done.
    - intros H. specialize (H values eq_refl). exfalso. apply not_true_iff_false in E. apply E, existsb_elem.
      exists value. split; [done|apply String.eqb_refl]. }
  destruct (PD_Pattern d == "") eqn:E; cbn [negb]; bool_prop; [tauto|].
  destruct (Compile (PD_Pattern d)) as [p|]; [|split; [done|intros [H _]; by specialize (H E)]].
  destruct (MatchString p value); cbn [negb]; [tauto|]. split; [done|]. intros [H _]. by specialize (H E).
Qed.

Lemma validate_parameters_None definitions parameters :
  find_first (check_parameter parameters) definitions = None /\
  check_undeclared definitions (map_to_list parameters) = None <->
  valid_parameters definitions parameters.
Proof.
  unfold check_undeclared. rewrite !find_first_None. split.
  - intros [H1 H2]. split.
    + intros name value E. specialize (H2 (name, value)). rewrite elem_of_map_to_list in H2.
      specialize (H2 E). simpl in H2. by case_bool_decide.
    + intros d value Hd E. specialize (H1 d Hd). unfold check_parameter in H1. rewrite E in H1.
      destruct (PD_Required d && _); [done|]. by apply validateParameter_None.
    + intros d Hd Hr. specialize (H1 d Hd). unfold check_parameter in H1. rewrite Hr in H1.
      destruct (parameters !! PD_Name d) as [value|]; [|done]. exists value. split; [done|].
      simpl in H1. destruct (TrimSpace value == "") eqn:E; [done|]. by bool_prop.
  - intros [H1 H2 H3]. split.
    + intros d Hd. unfold check_parameter. destruct (parameters !! PD_Name d) as [value|] eqn:E.
      * assert (PD_Required d && (bool_decide (Some value = None) || (TrimSpace (default "" (Some value)) == "")) = false) as ->.
        { destruct (PD_Required d) eqn:Er; [|done]. destruct (H3 d Hd Er) as (v & Ev & Hv).
          rewrite bool_decide_eq_false_2 by done. simpl. apply String.eqb_neq. congruence. }
        apply validateParameter_None. by apply H2.
      * destruct (PD_Required d) eqn:Er; [|done]. destruct (H3 d Hd Er) as (v & Ev & _). congruence.
    + intros [name value] E%elem_of_map_to_list. simpl. by rewrite bool_decide_eq_true_2 by eauto.
Qed.

(** What [validate] accepts. *)
Definition accepts (r : Registry) (request : OperationRequest) (execution : bool) (operation : registeredOperation) : Prop :=
  TrimSpace (Req_Action request) <> "" /\ R_Operations r !! TrimSpace (Req_Action request) = Some operation /\
  OD_Implemented (RO_Definition operation) = true /\
  (execution = true -> OD_RequiresConfirmation (RO_Definition operation) = false) /\
  valid_parameters (OD_Parameters (RO_Definition operation)) (Req_Parameters request).

Lemma validate_inr r request execution operation :
  validate r request execution = inr operation <-> accepts r request execution operation.
Proof.
  unfold validate, accepts. destruct (TrimSpace (Req_Action request) == "") eqn:Ea; bool_prop; [split; [done|tauto]|].
  destruct (R_Operations r !! _) as [op|]; [|split; [done|by intros (_ & [=] & _)]].
  destruct (OD_Implemented (RO_Definition op)) eqn:Ei; cbn [negb];
    [|split; [done|intros (_ & [= ->] & ? & _); congruence]].
  destruct (execution && OD_RequiresConfirmation (RO_Definition op)) eqn:Ec.
  { split; [done|]. intros (_ & [= ->] & _ & H & _). apply andb_true_iff in Ec as [-> Ec].
    rewrite H in Ec; done. }
  pose proof (validate_parameters_None (OD_Parameters (RO_Definition op)) (Req_Parameters request)) as Hp.
  destruct (find_first _ _) eqn:E1; [|destruct (check_undeclared _ _) eqn:E2].
  - split; [done|]. intros (_ & [= ->] & _ & _ & H). apply Hp in H as [? _]. congruence.
  - split; [done|]. intros (_ & [= ->] & _ & _ & H). apply Hp in H as [_ ?]. congruence.
  - split.
    + intros [= <-]. split_and!; try done; [|by apply Hp].
      intros ->. by destruct (OD_RequiresConfirmation (RO_Definition op)).
    + intros (_ & [= ->] & _). done.
Qed.

(** ** Plan answers and the catalogue *)

Definition rejection_codes : list string :=
  ["invalid_action"; "unknown_action"; "not_implemented"; "confirmation_verifier_required";
   "invalid_parameters"; "policy_error"].

Lemma validateParameter_code d value p : validateParameter d value = Some p -> Problem_Code p ∈ rejection_codes.
Proof.
  unfold validateParameter, rejection_codes. intros H.
  repeat case_match; simplify_eq/=; set_solver.
Qed.

Lemma validate_code r request execution p : validate r request execution = inl p -> Problem_Code p ∈ rejection_codes.
Proof.
  unfold validate. destruct (TrimSpace (Req_Action request) == ""); [intros [= <-]; cbn; set_solver|].
  destruct (R_Operations r !! _) as [op|]; [|intros [= <-]; cbn; set_solver].
  destruct (negb _); [intros [= <-]; cbn; set_solver|].
  destruct (execution && _); [intros [= <-]; cbn; set_solver|].
  destruct (find_first _ _) as [p'|] eqn:E1; [|destruct (check_undeclared _ _) as [p'|] eqn:E2; [|done]]; intros [= <-].
  - apply find_first_Some in E1 as (d & _ & H). unfold check_parameter in H.
    destruct (PD_Required d && _); [simplify_eq; cbn; set_solver|].
    destruct (_ !! _); [|done]. by apply validateParameter_code in H.
  - apply find_first_Some in E2 as (d & _ & H). case_bool_decide; simplify_eq. cbn. set_solver.
Qed.

(** The plan answer.  A request is valid exactly when its trimmed action is registered and implemented and its
    parameters are exactly declared ones, with every required one present and not blank and every value matching
    pattern and allowed values; the answer then carries the definition and its confirmation requirement.
    Otherwise it carries no definition and a problem with one of six fixed codes. *)
Theorem Plan_spec r request :
  BP_Request (Plan r request) = request /\
  (BP_Valid (Plan r request) = true <-> exists operation, accepts r request false operation) /\
  (forall operation, accepts r request false operation ->
   BP_Definition (Plan r request) = RO_Definition operation /\
   BP_RequiresConfirmation (Plan r request) = OD_RequiresConfirmation (RO_Definition operation) /\
   BP_Error (Plan r request) = None) /\
  (BP_Valid (Plan r request) = false ->
   BP_Definition (Plan r request) = zero_OperationDefinition /\ BP_RequiresConfirmation (Plan r request) = false /\
   exists p, BP_Error (Plan r request) = Some p /\ Problem_Code p ∈ rejection_codes).
Proof.
  unfold Plan. destruct (validate r request false) as [p|op] eqn:E; simpl.
  - assert (Hn : forall op, ~ accepts r request false op) by (intros op H%validate_inr; congruence).
    split; [done|]. split; [split; [done|by intros [op H%Hn]]|]. split; [by intros op H%Hn|].
    intros _. split; [done|]. split; [done|]. exists p. split; [done|]. by eapply validate_code.
  - apply validate_inr in E. split; [done|]. split; [split; [by exists op|done]|]. split; [|done].
    intros op' H. apply validate_inr in E. apply validate_inr in H. assert (op' = op) as -> by congruence. done.
Qed.

(** Every operation is registered under its own action. *)
Definition registry_keyed (r : Registry) : Prop :=
  map_Forall (fun action operation => OD_Action (RO_Definition operation) = action) (R_Operations r).

Lemma register_keyed d h r : registry_keyed r -> registry_keyed (register d h r).
Proof.
  intros H action op. unfold register. simpl. rewrite lookup_insert_Some. intros [[<- <-]|[_ E]]; [done|by apply H].
Qed.

Lemma NewRegistry_keyed : registry_keyed NewRegistry.
Proof. do 2 apply register_keyed. apply map_Forall_empty. Qed.

Lemma keyed_actions r iteration :
  registry_keyed r -> iteration ≡ₚ map_to_list (R_Operations r) ->
  OD_Action <$> ((fun kv : string * registeredOperation => clone_definition (RO_Definition kv.2)) <$> iteration)
  = iteration.*1.
Proof.
  intros Hk Hit. rewrite <- list_fmap_compose. apply list_fmap_ext. intros i [k op] E. simpl.
  apply Hk. apply elem_of_map_to_list. rewrite <- Hit. by eapply list_elem_of_lookup_2.
Qed.

(** The catalogue lists each registered operation once, strictly sorted by action, whatever the iteration order of
    the map was, with the registered definitions (an absent list of allowed values becoming an empty one). *)
Theorem Catalog_spec r iteration :
  registry_keyed r -> iteration ≡ₚ map_to_list (R_Operations r) ->
  catalog_of iteration = Catalog r /\
  StronglySorted (key_lt OD_Action) (Catalog r) /\
  length (Catalog r) = size (R_Operations r) /\
  (forall d, d ∈ Catalog r <->
   exists action operation, R_Operations r !! action = Some operation /\
     d = clone_definition (RO_Definition operation)).
Proof.
  intros Hk Hit. assert (Hnd : NoDup (OD_Action <$> ((fun kv : string * registeredOperation =>
    clone_definition (RO_Definition kv.2)) <$> iteration))).
  { rewrite (keyed_actions r) by done. rewrite Hit. apply NoDup_fst_map_to_list. }
  split; [|split; [|split]].
  - apply sort_by_unique; [exact Hnd|]. by rewrite Hit.
  - apply sort_by_sorted. by rewrite <- Hit.
  - unfold Catalog, catalog_of. rewrite sort_by_perm, length_fmap. apply length_map_to_list.
  - intros d. unfold Catalog, catalog_of. rewrite sort_by_perm, list_elem_of_fmap. split.
    + intros ([k op] & -> & H%elem_of_map_to_list). eauto.
    + intros (k & op & H & ->). exists (k, op). by rewrite elem_of_map_to_list.
Qed.

Lemma Catalog_spec_witness :
  catalog_of (reverse (map_to_list (R_Operations NewRegistry))) = Catalog NewRegistry /\
  OD_Action <$> Catalog NewRegistry = ["service.status"; "system.snapshot"].
Proof.
  split; [|vm_compute; reflexivity].
  apply (Catalog_spec NewRegistry (reverse (map_to_list (R_Operations NewRegistry))) NewRegistry_keyed).
  apply reverse_Permutation.
Defined.
