(* ===== verification/Mutations.v ===== *)
(** * Running operations: service transactions and approved plans

    [internal/broker/mutations.go], with the handlers of [registry.go] and its [Execute]. *)

From S2P Require Import Prelude GoStrings Sha256 GoTime Protocol Actors Plans ServiceControl System Registry.
#[local] Open Scope Z_scope.

(** ** Errors of handlers *)

Inductive go_error :=
| OperationError (code message : string)
| PlainError (message : text).
#[export] Instance go_error_eq_dec : EqDecision go_error.
Proof. solve_decision. Defined.

Definition problemFromOperationError (err : go_error) : Problem :=
  match err with
  | OperationError code message => problem code message
  | PlainError message => {| Problem_Code := "operation_failed"; Problem_Message := message |}
  end.

(** ** State values *)

(** A type assertion on an entry of a possibly nil map. *)
Definition stateValue (state : option dict) (key : string) : string :=
  match state ≫= lookup key with
  | Some (AString value) => ToLower (TrimSpace value)
  | _ => ToLower (TrimSpace "")
  end.

Definition expectedActiveState (action : string) : string :=
  if action == "service.stop" then "inactive" else "active".

(** A result map and an error. *)
Notation handler_result := (option dict * option go_error)%type.

Section transactions.
Context {S : Type} `{!System S}.

Definition applyServiceAction (action unit : string) : M S (option text) :=
  if action == "service.start" then service_action VStart unit
  else if action == "service.stop" then service_action VStop unit
  else if action == "service.restart" then service_action VRestart unit
  else mret (Some (Text "unsupported service mutation" [])).

Definition context_error : text := Text "context done" [].

(** The loop of [waitForServicePostcondition]; out of [fuel] it has not ended. *)
Fixpoint wait_loop (fuel : nat) (unit healthURL expected : string) (last : option dict) : M S observation :=
  match fuel with
  | O => diverge
  | Datatypes.S fuel =>
    let next last : M S observation :=
      ended ← wait;
      if ended : bool then mret (last, Some context_error) else wait_loop fuel unit healthURL expected last in
    '(state, err) ← probe_status unit;
    match err with
    | Some _ => next last
    | None =>
      if stateValue state "active_state" == expected then
        if (expected != "active") || (healthURL == "") then mret (state, None)
        else
          failure ← health_check healthURL;
          match failure with
          | None => mret (state, None)
          | Some _ => next state
          end
      else next state
    end
  end.

(** Every tick uses up one of the polls the context still allows. *)
Definition waitForServicePostcondition (unit healthURL expected : string) : M S observation := fun w =>
  wait_loop (Datatypes.S (sys_polls_left (w_sys w))) unit healthURL expected None w.

Definition recoverPrecondition (unit preActive : string) : M S string :=
  ended ← context_done;
  if ended : bool then mret "failed"
  else
    let recover action : M S string :=
      failure ← applyServiceAction action unit;
      match failure with
      | Some _ => mret "failed"
      | None =>
        '(_, err) ← waitForServicePostcondition unit "" (expectedActiveState action);
        mret (match err with Some _ => "failed" | None => "succeeded" end)
      end in
    if preActive == "active" then recover "service.start"
    else if (preActive == "inactive") || (preActive == "failed") then recover "service.stop"
    else mret "not_defined".

(** [runServiceTransaction] below the creation of the transaction context. *)
Definition transaction_body (healthURL action unit : string) : M S handler_result :=
  '(precondition, err) ← probe_status unit;
  match err with
  | Some _ => mret (None, Some (OperationError "service_precondition_failed" "service precondition could not be observed"))
  | None =>
    let preActive := stateValue precondition "active_state" in
    let result : dict := <["action" := AString action]> (<["unit" := AString unit]>
      (<["precondition" := any_of_dict precondition]> {["recovery_status" := AString "not_required"]})) in
    result ← (if negb (healthURL == "") && (preActive == "active") then
                failure ← health_check healthURL;
                mret (<["pre_health" := AString (match failure with None => "healthy" | Some _ => "unhealthy" end)]> result)
              else mret result);
    failure ← applyServiceAction action unit;
    match failure with
    | Some _ =>
      '(postcondition, _) ← probe_status unit;
      recovery ← recoverPrecondition unit preActive;
      mret (Some (<["recovery_status" := AString recovery]> (<["postcondition" := any_of_dict postcondition]> result) : dict),
            Some (OperationError "service_action_failed" "service action failed before the expected postcondition was reached"))
    | None =>
      let expected := expectedActiveState action in
      '(postcondition, err) ← waitForServicePostcondition unit healthURL expected;
      let result := <["postcondition" := any_of_dict postcondition]> result in
      match err with
      | Some _ =>
        recovery ← recoverPrecondition unit preActive;
        mret (Some (<["recovery_status" := AString recovery]> result : dict),
              Some (OperationError "service_postcondition_failed" "service did not reach the required postcondition before timeout"))
      | None =>
        let result := <["postcondition_verified" := ABool true]> result in
        let result := if (expected == "active") && negb (healthURL == "")
                      then <["health_verified" := ABool true]> result else result in
        mret (Some result : option dict, None)
      end
    end
  end.

Definition runServiceTransaction (r : Registry) (action unit : string) : M S handler_result :=
  match R_ServiceTargets r !! unit with
  | None => mret (None, Some (OperationError "service_not_allowlisted" "service is not in the mutation allowlist"))
  | Some target =>
    _ ← with_timeout (R_TransactionTimeout r);
    result ← transaction_body (ST_HealthURL target) action unit;
    _ ← cancel;
    mret result
  end.

(** ** Handlers *)

(** A missing parameter reads as the empty string. *)
Definition parameter (request : OperationRequest) (name : string) : string :=
  default "" (Req_Parameters request !! name).

Definition plain_error (o : observation) : handler_result := (o.1, PlainError <$> o.2).

(** Calling the function value of a registered operation; a nil one panics. *)
Definition run_handler (r : Registry) (h : option handler) (request : OperationRequest) : M S handler_result :=
  match h with
  | None => panic
  | Some HSnapshot => o ← probe_snapshot; mret (plain_error o)
  | Some HServiceStatus =>
    _ ← with_timeout (10 * Second);
    o ← probe_status (parameter request "unit");
    _ ← cancel;
    mret (plain_error o)
  | Some (HTransaction action) => runServiceTransaction r action (parameter request "unit")
  end.

(** [newID]. *)
Definition newID (prefix : string) : M S string :=
  e ← fresh_entropy; mret (newSecurityID e prefix).

Definition new_response (started : time) (request_id action status audit_id : string) (risk : Risk) (finished : time)
    (result : option dict) (err : option Problem) : OperationResponse :=
  {| Resp_RequestID := request_id; Resp_Action := action; Resp_Status := status; Resp_Risk := risk;
     Resp_StartedAt := started; Resp_FinishedAt := finished; Resp_AuditID := audit_id;
     Resp_Result := result; Resp_Error := err |}.

(** [Registry.Execute]. *)
Definition Execute (r : Registry) (request : OperationRequest) : M S OperationResponse :=
  started ← now;
  audit_id ← newID "audit";
  request_id ← (if Req_RequestID request == "" then newID "request" else mret (Req_RequestID request));
  match validate r request true with
  | inl p =>
    finished ← now;
    mret (new_response started request_id (Req_Action request) "rejected" audit_id "" finished None (Some p))
  | inr operation =>
    '(result, err) ← run_handler r (RO_Handler operation) request;
    finished ← now;
    let risk := OD_Risk (RO_Definition operation) in
    mret (match err with
          | Some err => new_response started request_id (Req_Action request) "failed" audit_id risk finished result
                          (Some (problemFromOperationError err))
          | None => new_response started request_id (Req_Action request) "completed" audit_id risk finished result None
          end)
  end.
End transactions.

(** ** What a transaction does *)

Definition verb_of (action : string) : option verb :=
  if action == "service.start" then Some VStart
  else if action == "service.stop" then Some VStop
  else if action == "service.restart" then Some VRestart
  else None.

(** The state a unit must reach after an action. *)
Definition required_state (v : verb) : string := match v with VStop => "inactive" | _ => "active" end.

(** The only recovery the code knows. *)
Definition recovery_verb (preActive : string) : option verb :=
  if preActive == "active" then Some VStart
  else if (preActive == "inactive") || (preActive == "failed") then Some VStop
  else None.

Definition observed_state (state : option dict) : string := stateValue state "active_state".

(** A finished wait: the expected state was read, and the health endpoint answered right after it when that is
    required; or the context has ended.  Waiting never acts. *)
Inductive wait_outcome (unit healthURL expected : string) (over : bool) : observation -> list event -> Prop :=
| wait_reached state log :
  observed_state state = expected -> actions log = [] ->
  (exists before, log = before ++ EvStatus unit ::
    (if (expected == "active") && negb (healthURL == "") then [EvHealth healthURL] else [])) ->
  wait_outcome unit healthURL expected over (state, None) log
| wait_ended state err log :
  over = true -> actions log = [] ->
  wait_outcome unit healthURL expected over (state, Some err) log.

Inductive recovery_outcome (unit preActive : string) : string -> list event -> Prop :=
| recovery_expired : recovery_outcome unit preActive "failed" []
| recovery_undefined : recovery_verb preActive = None -> recovery_outcome unit preActive "not_defined" []
| recovery_refused v :
  recovery_verb preActive = Some v -> recovery_outcome unit preActive "failed" [EvAction v unit true]
| recovery_unreached v log :
  recovery_verb preActive = Some v -> actions log = [] ->
  recovery_outcome unit preActive "failed" (EvAction v unit false :: log)
| recovery_reached v log :
  recovery_verb preActive = Some v -> actions log = [] ->
  recovery_outcome unit preActive "succeeded" (EvAction v unit false :: log).

Section transaction_proofs.
Context {S : Type} `{!System S} `{!SystemLaws S}.

Lemma actions_app l k : actions (l ++ k) = actions l ++ actions k.
Proof. apply omap_app. Qed.

(** One more round of a wait in front of its outcome. *)
Lemma wait_outcome_cons unit url expected over o log before :
  actions before = [] -> wait_outcome unit url expected over o log ->
  wait_outcome unit url expected over o (before ++ log).
Proof.
  intros Hb H. destruct H as [state log Hs Ha (pre & ->)|state err log Ho Ha].
  - apply wait_reached; [exact Hs|by rewrite actions_app, Hb, Ha|]. exists (before ++ pre). by rewrite <- app_assoc.
  - apply wait_ended; [exact Ho|by rewrite actions_app, Hb, Ha].
Qed.

Lemma wait_loop_runs fuel unit url expected last (w : world S) :
  (sys_polls_left (w_sys w) < fuel)%nat ->
  runs (wait_loop fuel unit url expected last) w
    (fun o added s => wait_outcome unit url expected (sys_done s) o added).
Proof.
  revert last w. induction fuel as [|fuel IH]; intros last w Hfuel; [lia|].
  assert (Hnext : forall state (s : S) before log, (sys_polls_left s <= sys_polls_left (w_sys w))%nat -> actions before = [] ->
    runs (ended ← wait; if ended : bool then mret (state, Some context_error) else wait_loop fuel unit url expected state)
      (World s log) (fun o added s' => wait_outcome unit url expected (sys_done s') o (before ++ added))).
  { intros state s before log Hle Hb. apply runs_bind, runs_step. intros log'. simpl.
    destruct (sys_wait s) as [[] s'] eqn:E; simpl.
    - apply runs_ret. simpl. rewrite app_nil_r. apply wait_ended; [by eapply wait_done|exact Hb].
    - eapply runs_mono; [apply IH; simpl; apply wait_tick in E; lia|].
      intros o added s'' Ho. by apply wait_outcome_cons. }
  cbn [wait_loop]. apply runs_bind, runs_step. intros log. simpl.
  pose proof (status_polls unit (w_sys w)) as Hp.
  destruct (sys_status unit (w_sys w)) as [[state err] s]. simpl in *.
  assert (Hn := fun st l => Hnext st s [EvStatus unit] l Hp eq_refl).
  destruct err as [e|]; [apply Hn|].
  destruct (stateValue state "active_state" == expected) eqn:Es; [|apply Hn]. apply String.eqb_eq in Es.
  destruct ((expected != "active") || (url == "")) eqn:Eh.
  { apply runs_ret. simpl. apply wait_reached; [exact Es|done|]. exists [].
    replace ((expected == "active") && negb (url == "")) with false; [done|].
    by destruct (expected == "active"), (url == ""). }
  apply runs_bind, runs_step. intros log'. simpl. pose proof (health_polls url s) as Hp'.
  destruct (sys_health url s) as [[e|] s']; simpl in *.
  - eapply runs_mono; [apply (Hnext state s' [EvStatus unit; EvHealth url] log'); [lia|done]|]. done.
  - apply runs_ret. simpl. apply wait_reached; [exact Es|done|]. exists [].
    replace ((expected == "active") && negb (url == "")) with true; [done|].
    by destruct (expected == "active"), (url == "").
Qed.

Lemma wait_runs unit url expected (w : world S) :
  runs (waitForServicePostcondition unit url expected) w
    (fun o added s => wait_outcome unit url expected (sys_done s) o added).
Proof. unfold waitForServicePostcondition. apply wait_loop_runs. lia. Qed.

Lemma apply_runs action unit v (w : world S) (Q : option text -> list event -> S -> Prop) :
  verb_of action = Some v ->
  (forall failure s, Q failure [EvAction v unit (bool_decide (is_Some failure))] s) ->
  runs (applyServiceAction action unit) w Q.
Proof.
  unfold verb_of, applyServiceAction. intros Hv HQ.
  destruct (action == "service.start"); [injection Hv as <-; apply runs_step, HQ|].
  destruct (action == "service.stop"); [injection Hv as <-; apply runs_step, HQ|].
  destruct (action == "service.restart"); [injection Hv as <-; apply runs_step, HQ|done].
Qed.

(** One recovery action and the wait after it. *)
Lemma recover_with_runs unit preActive action v (w : world S) :
  verb_of action = Some v -> recovery_verb preActive = Some v ->
  runs (failure ← applyServiceAction action unit;
        match failure with
        | Some _ => mret "failed"
        | None =>
          '(_, err) ← waitForServicePostcondition unit "" (expectedActiveState action);
          mret (match err with Some _ => "failed" | None => "succeeded" end)
        end) w
    (fun status added _ => recovery_outcome unit preActive status added).
Proof.
  intros Hv Hr. apply runs_bind, (apply_runs action unit v); [exact Hv|]. intros [e|] s log.
  - apply runs_ret. rewrite app_nil_r. by apply recovery_refused.
  - apply runs_bind. eapply runs_mono; [apply wait_runs|]. intros [state err] added s' Ho log'.
    apply runs_ret. rewrite app_nil_r. simpl.
    inversion Ho; subst; [by apply recovery_reached|by apply recovery_unreached].
Qed.

Lemma recover_runs unit preActive (w : world S) :
  runs (recoverPrecondition unit preActive) w
    (fun status added _ => recovery_outcome unit preActive status added /\
       (sys_done (w_sys w) = true -> status = "failed" /\ added = [])).
Proof.
  unfold recoverPrecondition. apply runs_bind, runs_step. intros log. simpl.
  destruct (sys_done (w_sys w)) eqn:Ed; [apply runs_ret; split; [apply recovery_expired|done]|].
  destruct (preActive == "active") eqn:E1.
  { eapply runs_mono; [apply (recover_with_runs unit preActive "service.start" VStart)|by split]; [done|].
    unfold recovery_verb. by rewrite E1. }
  destruct ((preActive == "inactive") || (preActive == "failed")) eqn:E2.
  { eapply runs_mono; [apply (recover_with_runs unit preActive "service.stop" VStop)|by split]; [done|].
    unfold recovery_verb. by rewrite E1, E2. }
  apply runs_ret. split; [|done]. apply recovery_undefined. unfold recovery_verb. by rewrite E1, E2.
Qed.
End transaction_proofs.

(** ** The outcomes of a transaction *)

Definition entry (result : dict) (key : string) (value : any) : Prop := result !! key = Some value.

(** The health check before the action, made for active services only. *)
Definition pre_health_log (healthURL : string) (pre : option dict) : list event :=
  if negb (healthURL == "") && (observed_state pre == "active") then [EvHealth healthURL] else [].

(** What a transaction on a known target returns and does, given what the first observation delivered. *)
Inductive transaction_outcome (healthURL action unit : string) (v : verb) :
  observation -> handler_result -> list event -> Prop :=
| tx_unobserved pre err :
  transaction_outcome healthURL action unit v (pre, Some err)
    (None, Some (OperationError "service_precondition_failed" "service precondition could not be observed"))
    [EvStatus unit]
| tx_completed pre post result log over :
  wait_outcome unit healthURL (required_state v) over (post, None) log ->
  entry result "recovery_status" (AString "not_required") -> entry result "postcondition" (any_of_dict post) ->
  entry result "precondition" (any_of_dict pre) -> entry result "action" (AString action) ->
  entry result "postcondition_verified" (ABool true) ->
  transaction_outcome healthURL action unit v (pre, None) (Some result, None)
    (EvStatus unit :: pre_health_log healthURL pre ++ EvAction v unit false :: log)
| tx_action_failed pre post result status log :
  recovery_outcome unit (observed_state pre) status log ->
  entry result "recovery_status" (AString status) -> entry result "postcondition" (any_of_dict post) ->
  entry result "precondition" (any_of_dict pre) -> entry result "action" (AString action) ->
  transaction_outcome healthURL action unit v (pre, None)
    (Some result, Some (OperationError "service_action_failed"
       "service action failed before the expected postcondition was reached"))
    (EvStatus unit :: pre_health_log healthURL pre ++ EvAction v unit true :: EvStatus unit :: log)
| tx_unreached pre post err result log :
  wait_outcome unit healthURL (required_state v) true (post, Some err) log ->
  entry result "recovery_status" (AString "failed") -> entry result "postcondition" (any_of_dict post) ->
  entry result "precondition" (any_of_dict pre) -> entry result "action" (AString action) ->
  transaction_outcome healthURL action unit v (pre, None)
    (Some result, Some (OperationError "service_postcondition_failed"
       "service did not reach the required postcondition before timeout"))
    (EvStatus unit :: pre_health_log healthURL pre ++ EvAction v unit false :: log).

Section outcome_proofs.
Context {S : Type} `{!System S} `{!SystemLaws S}.

Ltac entries := unfold entry in *; repeat (rewrite lookup_insert_ne by done); first [assumption|by rewrite lookup_insert_eq].

Lemma expectedActiveState_verb action v : verb_of action = Some v -> expectedActiveState action = required_state v.
Proof.
  unfold verb_of, expectedActiveState. intros Hv.
  repeat (destruct (action == _) eqn:?; simplify_eq/=; bool_prop; subst; try reflexivity).
Qed.

(** What follows the action. *)
Lemma transaction_tail_runs url action unit v pre (result : dict) (w : world S) :
  verb_of action = Some v -> entry result "recovery_status" (AString "not_required") ->
  entry result "precondition" (any_of_dict pre) -> entry result "action" (AString action) ->
  runs (failure ← applyServiceAction action unit;
        match failure with
        | Some _ =>
          '(postcondition, _) ← probe_status unit;
          recovery ← recoverPrecondition unit (observed_state pre);
          mret (Some (<["recovery_status" := AString recovery]> (<["postcondition" := any_of_dict postcondition]> result) : dict),
                Some (OperationError "service_action_failed" "service action failed before the expected postcondition was reached"))
        | None =>
          let expected := expectedActiveState action in
          '(postcondition, err) ← waitForServicePostcondition unit url expected;
          let result := <["postcondition" := any_of_dict postcondition]> result in
          match err with
          | Some _ =>
            recovery ← recoverPrecondition unit (observed_state pre);
            mret (Some (<["recovery_status" := AString recovery]> result : dict),
                  Some (OperationError "service_postcondition_failed" "service did not reach the required postcondition before timeout"))
          | None =>
            let result := <["postcondition_verified" := ABool true]> result in
            let result := if (expected == "active") && negb (url == "")
                          then <["health_verified" := ABool true]> result else result in
            mret (Some result : option dict, None)
          end
        end) w
    (fun res added _ => transaction_outcome url action unit v (pre, None) res
       (EvStatus unit :: pre_health_log url pre ++ added)).
Proof.
  intros Hv Hrec Hpre Hact. apply runs_bind, (apply_runs action unit v); [exact Hv|]. intros [e|] s log.
  - apply runs_bind, runs_step. intros log'. destruct (sys_status unit s) as [[post err] s'] eqn:Es.
    cbn [w_sys fst snd]. rewrite Es. cbn [fst snd].
    apply runs_bind. eapply runs_mono; [apply recover_runs|]. intros status added s'' [Hr _] log''.
    apply runs_ret. rewrite app_nil_r. simpl.
    apply (tx_action_failed _ _ _ _ pre post _ status added); [exact Hr|entries..].
  - rewrite (expectedActiveState_verb action v Hv).
    apply runs_bind. eapply runs_mono; [apply wait_runs|]. intros [post err] added s' Ho log'. cbn zeta.
    inversion Ho as [state l Hst Ha Hb|state e l Hover Ha]; subst.
    + set (result' := if _ && _ then _ else _). apply runs_ret. rewrite app_nil_r. simpl.
      apply (tx_completed _ _ _ _ pre post _ added (sys_done s')); [exact Ho|..];
        unfold result'; destruct ((required_state v == "active") && negb (url == "")); entries.
    + apply runs_bind. eapply runs_mono; [apply recover_runs|]. intros status more s'' [_ Hdone] log''.
      destruct (Hdone Hover) as [-> ->]. apply runs_ret. rewrite !app_nil_r. simpl.
      apply (tx_unreached _ _ _ _ pre post e _ added); [by rewrite <- Hover|entries..].
Qed.

Lemma transaction_body_runs url action unit v (w : world S) :
  verb_of action = Some v ->
  runs (transaction_body url action unit) w
    (fun res added _ => transaction_outcome url action unit v (sys_status unit (w_sys w)).1 res added).
Proof.
  intros Hv. unfold transaction_body. apply runs_bind, runs_step. intros log.
  destruct (sys_status unit (w_sys w)) as [[pre [err|]] s]; cbn [fst snd].
  { apply runs_ret. simpl. apply tx_unobserved. }
  set (result := <["action" := _]> _). fold (observed_state pre).
  assert (Hrec : entry result "recovery_status" (AString "not_required"))
    by (unfold entry, result; rewrite !lookup_insert_ne by done; by rewrite lookup_singleton_eq).
  assert (Hpre : entry result "precondition" (any_of_dict pre))
    by (unfold result; entries).
  assert (Hact : entry result "action" (AString action)) by (unfold result; entries).
  clearbody result. apply runs_bind. destruct (negb (url == "") && (observed_state pre == "active")) eqn:Eh.
  - apply runs_bind, runs_step. intros log'. cbn [fst snd]. apply runs_ret. rewrite app_nil_r. intros log''.
    eapply runs_mono; [eapply (transaction_tail_runs url action unit v pre); [exact Hv|entries..]|].
    intros res added s'. unfold pre_health_log. rewrite Eh. simpl. done.
  - apply runs_ret. intros log'.
    eapply runs_mono; [eapply (transaction_tail_runs url action unit v pre); [exact Hv|exact Hrec|exact Hpre|exact Hact]|].
    intros res added s'. unfold pre_health_log. rewrite Eh. simpl. done.
Qed.

Lemma transaction_runs r action unit target v (w : world S) :
  R_ServiceTargets r !! unit = Some target -> verb_of action = Some v ->
  runs (runServiceTransaction r action unit) w
    (fun res added _ => transaction_outcome (ST_HealthURL target) action unit v
       (sys_status unit (sys_with_timeout (R_TransactionTimeout r) (w_sys w))).1 res added).
Proof.
  intros Ht Hv. unfold runServiceTransaction. rewrite Ht. apply runs_bind, runs_step. intros log. cbn [fst snd].
  apply runs_bind. eapply runs_mono; [by apply transaction_body_runs|]. intros res added s H log'.
  apply runs_bind, runs_step. intros log''. apply runs_ret. by rewrite !app_nil_r.
Qed.

(** C19 Service transactions.  For every machine and every timing a transaction on an allowed unit ends, in one of four ways:
    the state could not be observed and nothing was done; the action worked and the required state (and health) was read
    afterwards; the action failed and recovery ran; or the required state was not read in time.  The
    relation [transaction_outcome] gives the result, the recovery status and the exact order of observations, checks and
    actions of each.  A unit that is not allowed is refused without touching the machine. *)
Theorem transaction_spec r action unit v (w : world S) :
  verb_of action = Some v ->
  match R_ServiceTargets r !! unit with
  | Some target =>
    runs (runServiceTransaction r action unit) w
      (fun res added _ => transaction_outcome (ST_HealthURL target) action unit v
         (sys_status unit (sys_with_timeout (R_TransactionTimeout r) (w_sys w))).1 res added)
  | None =>
    runServiceTransaction r action unit w =
    Done (None, Some (OperationError "service_not_allowlisted" "service is not in the mutation allowlist")) w
  end.
Proof.
  intros Hv. destruct (R_ServiceTargets r !! unit) as [target|] eqn:Et; [by apply transaction_runs|].
  unfold runServiceTransaction. by rewrite Et.
Qed.

(** The actions of an outcome: none, the requested one, or the requested one and one recovery. *)
Lemma transaction_outcome_actions url action unit v pre res log :
  transaction_outcome url action unit v pre res log ->
  actions log = [] \/ actions log = [(v, unit)] \/
  exists v', recovery_verb (observed_state pre.1) = Some v' /\ actions log = [(v, unit); (v', unit)] /\
    exists message, res.2 = Some (OperationError "service_action_failed" message).
Proof.
  assert (Hpre : forall pre tail, actions (EvStatus unit :: pre_health_log url pre ++ tail) = actions tail).
  { intros pre' tail. unfold pre_health_log. by destruct (negb _ && _). }
  intros H. destruct H as [pre err|pre post result log over Hw _ _ _ _|pre post result status log Hr _ _ _|
                           pre post err result log Hw _ _ _]; rewrite ?Hpre; [by left| | |].
  - right; left. inversion Hw; subst. cbn. by f_equal.
  - right. inversion Hr as [|Hv|v' Hv|v' l Hv Ha|v' l Hv Ha]; subst; [by left..| | |];
      right; exists v'; (split; [exact Hv|]); (split; [|by eexists]); cbn; do 2 f_equal; exact Ha.
  - right; left. inversion Hw; subst. cbn. by f_equal.
Qed.

(** Once the state before has been observed, the requested action is run, and first. *)
Lemma transaction_outcome_acts url action unit v pre res log :
  transaction_outcome url action unit v pre res log -> pre.2 = None -> exists rest, actions log = (v, unit) :: rest.
Proof.
  intros H. destruct H; simpl; intros ?; [done|..]; unfold pre_health_log; destruct (negb _ && _); cbn; by eexists.
Qed.

(** At most two actions.  A transaction runs no action, or the requested action once, or the requested action once
    and then one recovery action, which is a start when the unit was active before and a stop when it was inactive or
    failed; all actions are on the requested unit, and a second one happens only after the first one failed. *)
Lemma transaction_actions r action unit v (w : world S) :
  verb_of action = Some v ->
  exists res added s,
    runServiceTransaction r action unit w = Done res (World s (w_log w ++ added)) /\
    (actions added = [] \/ actions added = [(v, unit)] \/
     exists v', recovery_verb (observed_state (sys_status unit (sys_with_timeout (R_TransactionTimeout r) (w_sys w))).1.1)
                = Some v' /\ actions added = [(v, unit); (v', unit)] /\
       exists message, res.2 = Some (OperationError "service_action_failed" message)) /\
    (R_ServiceTargets r !! unit = None -> added = []).
Proof.
  intros Hv. destruct (R_ServiceTargets r !! unit) as [target|] eqn:Et.
  - destruct (transaction_runs r action unit target v w Et Hv) as (res & added & s & E & H).
    exists res, added, s. split; [exact E|]. split; [|done]. by apply transaction_outcome_actions in H.
  - unfold runServiceTransaction. rewrite Et. eexists _, [], (w_sys w). rewrite app_nil_r.
    split; [by destruct w|]. split; [by left|done].
Qed.

(** A timeout is never repaired.  When a transaction fails because the required state was not read in time, its
    context has ended, so the recovery step sees an ended context: the recovery status is always [failed] and no recovery
    action runs, whatever the state before was. *)
Theorem timeout_never_recovers r action unit target v (w : world S) :
  R_ServiceTargets r !! unit = Some target -> verb_of action = Some v ->
  runs (runServiceTransaction r action unit) w (fun res added _ =>
    forall message, res.2 = Some (OperationError "service_postcondition_failed" message) ->
    actions added = [(v, unit)] /\
    exists result, res.1 = Some result /\ entry result "recovery_status" (AString "failed")).
Proof.
  intros Ht Hv. eapply runs_mono; [by apply transaction_runs|]. intros res added s H message Hm.
  destruct H as [| | |pre post err result log Hw Hrec _ _]; simpl in Hm; simplify_eq.
  split; [|by exists result]. inversion Hw; subst. unfold pre_health_log. destruct (negb _ && _); cbn; by f_equal.
Qed.
End outcome_proofs.

(** ** Enabling the mutations *)

Definition mutation_definition (action summary : string) (risk : Risk) (units : list string) : OperationDefinition :=
  {| OD_Action := action; OD_Summary := summary; OD_Risk := risk; OD_RequiresConfirmation := true;
     OD_Implemented := true;
     OD_Parameters := [{| PD_Name := "unit"; PD_Description := "Exact service unit from the compiled mutation allowlist";
                          PD_Required := true; PD_Pattern := ""; PD_AllowedValues := Some units |}] |}.

Definition register_mutation (action summary : string) (risk : Risk) (units : list string) (r : Registry) : Registry :=
  register (mutation_definition action summary risk units) (HTransaction action) r.

(** The targets, in the order of the allowed units. *)
Fixpoint service_targets (policy : Policy) (units : list string) (targets : gmap string serviceTarget) :
    result (gmap string serviceTarget) :=
  match units with
  | [] => Ok targets
  | unit :: units =>
    match Spec policy unit with
    | None => Err (errorf "service policy lost target %q" [unit])
    | Some spec => service_targets policy units (<[unit := {| ST_HealthURL := Spec_HealthURL spec |}]> targets)
    end
  end.

(** [mutator] and [health] say whether the two adapters are present. *)
Definition EnableServiceMutations (mutator health : bool) (policy : Policy) (transactionTimeout pollInterval : duration)
    (r : Registry) : result Registry :=
  if negb mutator then fail "service mutator is required"
  else if negb health then fail "service health checker is required"
  else if (transactionTimeout <? Second) || (2 * Minute <? transactionTimeout) then
    fail "service transaction timeout must be between 1 second and 2 minutes"
  else if (pollInterval <? 10 * Millisecond) || (5 * Second <? pollInterval) then
    fail "service poll interval must be between 10 milliseconds and 5 seconds"
  else
    let units := AllowedUnits policy in
    targets ← service_targets policy units ∅;
    Ok (register_mutation "service.restart" "Restart an allowlisted managed service" RiskLow units
         (register_mutation "service.stop" "Stop an allowlisted managed service" RiskHigh units
           (register_mutation "service.start" "Start an allowlisted managed service" RiskLow units
             {| R_Operations := R_Operations r; R_ServiceTargets := targets;
                R_TransactionTimeout := transactionTimeout; R_PollInterval := pollInterval |}))).

(** ** Approved plans *)

Definition invalid_plan (message : string) : Problem := problem "invalid_plan" message.

Fixpoint exact_parameters (ps : list Parameter') (acc : gmap string string) : Problem + gmap string string :=
  match ps with
  | [] => inr acc
  | p :: ps =>
    let name := TrimSpace (Param_Name p) in
    if name == "" then inl (invalid_plan "operation plan contains an empty parameter name")
    else if bool_decide (is_Some (acc !! name)) then inl (invalid_plan "operation plan contains duplicate parameters")
    else exact_parameters ps (<[name := Param_Value p]> acc)
  end.

Definition exactPlanParameters (plan : OperationPlan) : Problem + gmap string string :=
  exact_parameters (Plan_Parameters plan) ∅.

Definition plan_request (plan : OperationPlan) (parameters : gmap string string) : OperationRequest :=
  {| Req_RequestID := Plan_RequestID plan; Req_Action := Plan_Action plan; Req_Actor := Actor_ID (Plan_Actor plan);
     Req_Parameters := parameters; Req_Confirmation := "" |}.

Definition ValidateApprovedPlan (r : Registry) (now : time) (plan : OperationPlan) : option Problem :=
  if (Plan_Schema plan != PlanSchema) || negb (Plan_Valid plan) || negb (Plan_RequiresConfirmation plan) then
    Some (invalid_plan "operation plan is not executable")
  else if negb (VerifyPlanDigest plan) then
    Some (problem "invalid_plan_digest" "operation plan digest verification failed")
  else if (TrimSpace (Plan_ID plan) == "") || (TrimSpace (Actor_ID (Plan_Actor plan)) == "")
          || (TrimSpace (Plan_SessionID plan) == "") then
    Some (invalid_plan "operation plan identity or correlation data is missing")
  else if IsZero (Plan_CreatedAt plan) || IsZero (Plan_ExpiresAt plan)
          || negb (After (Plan_ExpiresAt plan) (Plan_CreatedAt plan)) then
    Some (problem "invalid_plan_time" "operation plan time bounds are invalid")
  else if After (Plan_CreatedAt plan) (Add now (30 * Second)) || negb (After (Plan_ExpiresAt plan) now) then
    Some (problem "expired_plan" "operation plan is stale or expired")
  else if 15 * Minute <? Sub (Plan_ExpiresAt plan) (Plan_CreatedAt plan) then
    Some (problem "invalid_plan_time" "operation plan lifetime exceeds policy")
  else
    match exactPlanParameters plan with
    | inl p => Some p
    | inr parameters =>
      match validate r (plan_request plan parameters) false with
      | inl p => Some p
      | inr operation =>
        if negb (OD_RequiresConfirmation (RO_Definition operation))
           || (OD_Risk (RO_Definition operation) != Plan_Risk plan) then
          Some (problem "stale_plan_policy" "operation policy changed after the plan was created")
        else None
      end
    end.

(** Who may execute. *)
Definition may_mutate (executor : Actor) : bool :=
  negb ((Actor_Kind executor == ActorTCI) || negb (HasPermission executor PermissionOperationMutate)).

Definition mutation_forbidden : Problem :=
  problem "mutation_forbidden" "executor is not authorized for service mutations".

(** The entries every executed plan adds to the result. *)
Definition execution_entries (executor : Actor) (plan : OperationPlan) (result : option dict) : dict :=
  <["plan_digest" := AString (Plan_Digest plan)]> (<["plan_id" := AString (Plan_ID plan)]>
    (<["plan_actor_id" := AString (Actor_ID (Plan_Actor plan))]>
      (<["executor_actor_id" := AString (Actor_ID executor)]> (default ∅ result)))).

Section approved.
Context {S : Type} `{!System S}.

Definition ExecuteApproved (r : Registry) (plan : OperationPlan) (executor : Actor) : M S OperationResponse :=
  started ← now;
  audit_id ← newID "audit";
  request_id ← (if Plan_RequestID plan == "" then newID "request" else mret (Plan_RequestID plan));
  let rejected p :=
    finished ← now;
    mret (new_response started request_id (Plan_Action plan) "rejected" audit_id "" finished None (Some p)) in
  if negb (may_mutate executor) then rejected mutation_forbidden
  else
    t ← now;
    match ValidateApprovedPlan r t plan with
    | Some p => rejected p
    | None =>
      let parameters := match exactPlanParameters plan with inr m => m | inl _ => ∅ end in
      let operation := default zero_registeredOperation (R_Operations r !! Plan_Action plan) in
      '(result, err) ← run_handler r (RO_Handler operation) (plan_request plan parameters);
      finished ← now;
      let result := Some (execution_entries executor plan result) in
      let risk := OD_Risk (RO_Definition operation) in
      mret (match err with
            | Some err => new_response started request_id (Plan_Action plan) "failed" audit_id risk finished result
                            (Some (problemFromOperationError err))
            | None => new_response started request_id (Plan_Action plan) "completed" audit_id risk finished result None
            end)
    end.
End approved.

(** ** What the registry confines *)

Definition unit_parameter (units : list string) : ParameterDefinition :=
  {| PD_Name := "unit"; PD_Description := "Exact service unit from the compiled mutation allowlist";
     PD_Required := true; PD_Pattern := ""; PD_AllowedValues := Some units |}.

Definition transaction_operation (r : Registry) (action : string) (operation : registeredOperation) : Prop :=
  RO_Handler operation = Some (HTransaction action) /\ is_Some (verb_of action) /\
  OD_RequiresConfirmation (RO_Definition operation) = true /\
  exists units, OD_Parameters (RO_Definition operation) = [unit_parameter units] /\
    forall unit, unit ∈ units <-> is_Some (R_ServiceTargets r !! unit).

Definition read_only_operation (operation : registeredOperation) : Prop :=
  (RO_Handler operation = Some HSnapshot \/ RO_Handler operation = Some HServiceStatus) /\
  OD_RequiresConfirmation (RO_Definition operation) = false.

(** Every operation is a read, or a confirmed lifecycle action on the targets; every target is compiled in. *)
Record confined (r : Registry) : Prop := {
  cf_keyed : registry_keyed r;
  cf_trimmed : forall action, is_Some (R_Operations r !! action) -> TrimSpace action = action;
  cf_operations : forall action operation, R_Operations r !! action = Some operation ->
    read_only_operation operation \/ transaction_operation r action operation;
  cf_targets : forall unit target, R_ServiceTargets r !! unit = Some target ->
    exists spec, compiledServices !! unit = Some spec /\ ST_HealthURL target = Spec_HealthURL spec
}.

Lemma NewRegistry_confined : confined NewRegistry.
Proof.
  split; [apply NewRegistry_keyed| | |intros ? ? H; simpl in H; by rewrite lookup_empty in H].
  { intros action. unfold NewRegistry, register. simpl. rewrite !lookup_insert_is_Some.
    intros [<-|[_ [<-|[_ [x H]]]]]; [vm_compute; reflexivity..|by rewrite lookup_empty in H]. }
  intros action operation. unfold NewRegistry, register. simpl.
  intros [[<- <-]|[_ [[<- <-]|[_ ?%lookup_empty_Some]]%lookup_insert_Some]]%lookup_insert_Some; [..|done];
    left; split; auto.
Qed.

Lemma service_targets_lookup policy units targets :
  (forall unit, unit ∈ units -> is_Some (policy !! unit)) ->
  exists m, service_targets policy units targets = Ok m /\
    forall unit, m !! unit = if decide (unit ∈ units)
      then (fun spec => {| ST_HealthURL := Spec_HealthURL spec |}) <$> policy !! unit else targets !! unit.
Proof.
  revert targets. induction units as [|u units IH]; intros targets Hu; simpl; [by eexists|].
  unfold Spec. destruct (Hu u (list_elem_of_here _ _)) as [spec E]. rewrite E.
  destruct (IH (<[u := {| ST_HealthURL := Spec_HealthURL spec |}]> targets)) as (m & Em & Hm);
    [intros x Hx; apply Hu; by right|].
  exists m. split; [exact Em|]. intros x. rewrite Hm.
  destruct (decide (x ∈ units)) as [Hx|Hx]; [by rewrite decide_True by (by right)|].
  destruct (decide (x = u)) as [->|Hne].
  - rewrite lookup_insert_eq, decide_True by (by left). by rewrite E.
  - rewrite lookup_insert_ne by done. rewrite decide_False; [done|]. by intros [?|?]%elem_of_cons.
Qed.

(** The registry [EnableServiceMutations] builds. *)
Definition enabled (policy : Policy) (transactionTimeout pollInterval : duration) (r : Registry) : Registry :=
  let units := AllowedUnits policy in
  register_mutation "service.restart" "Restart an allowlisted managed service" RiskLow units
    (register_mutation "service.stop" "Stop an allowlisted managed service" RiskHigh units
      (register_mutation "service.start" "Start an allowlisted managed service" RiskLow units
        {| R_Operations := R_Operations r;
           R_ServiceTargets := (fun spec => {| ST_HealthURL := Spec_HealthURL spec |}) <$> policy;
           R_TransactionTimeout := transactionTimeout; R_PollInterval := pollInterval |})).

Lemma EnableServiceMutations_Ok mutator health policy timeout poll r :
  let accepted := mutator = true /\ health = true /\ Second <= timeout <= 2 * Minute /\
                  10 * Millisecond <= poll <= 5 * Second in
  (accepted -> EnableServiceMutations mutator health policy timeout poll r = Ok (enabled policy timeout poll r)) /\
  (is_ok (EnableServiceMutations mutator health policy timeout poll r) = true -> accepted).
Proof.
  cbv zeta. unfold EnableServiceMutations.
  destruct mutator; cbn [negb]; [|split; [by intros (? & _)|done]].
  destruct health; cbn [negb]; [|split; [by intros (_ & ? & _)|done]].
  destruct ((timeout <? Second) || (2 * Minute <? timeout)) eqn:E1.
  { split; [|done]. intros (_ & _ & H & _). exfalso. bool_prop. lia. }
  destruct ((poll <? 10 * Millisecond) || (5 * Second <? poll)) eqn:E2.
  { split; [|done]. intros (_ & _ & _ & H). exfalso. bool_prop. lia. }
  destruct (service_targets_lookup policy (AllowedUnits policy) ∅) as (m & Em & Hm);
    [by intros unit ?%AllowedUnits_elem|].
  cbv zeta. rewrite Em. simpl. split.
  - intros _. unfold enabled. do 5 f_equal. apply map_eq. intros unit. rewrite Hm, lookup_fmap.
    destruct (policy !! unit) as [spec|] eqn:E.
    + rewrite decide_True; [done|]. apply AllowedUnits_elem. by exists spec.
    + case_decide as Hin; [done|apply lookup_empty].
  - intros _. bool_prop. repeat split; lia.
Qed.

Lemma EnableServiceMutations_inv policy timeout poll r r' :
  EnableServiceMutations true true policy timeout poll r = Ok r' ->
  r' = enabled policy timeout poll r /\ Second <= timeout <= 2 * Minute /\ 10 * Millisecond <= poll <= 5 * Second.
Proof.
  intros E. pose proof (EnableServiceMutations_Ok true true policy timeout poll r) as [H1 H2].
  destruct H2 as (_ & _ & Ht & Hi); [by rewrite E|]. rewrite H1 in E by (repeat split; first [reflexivity|apply Ht|apply Hi]). injection E as <-.
  split; [done|]. split; [exact Ht|exact Hi].
Qed.

Lemma verb_of_cases action : is_Some (verb_of action) ->
  action = "service.start" \/ action = "service.stop" \/ action = "service.restart".
Proof.
  unfold verb_of. destruct (action == "service.start") eqn:E1; [bool_prop; auto|].
  destruct (action == "service.stop") eqn:E2; [bool_prop; auto|].
  destruct (action == "service.restart") eqn:E3; [bool_prop; auto|]. by intros [? ?].
Qed.

Lemma enabled_confined policy timeout poll r :
  policy ⊆ compiledServices -> confined r -> confined (enabled policy timeout poll r).
Proof.
  intros Hsub [Hk Hs Ho _]. split.
  - do 3 apply register_keyed. exact Hk.
  - intros action. unfold enabled, register_mutation, register. simpl. rewrite !lookup_insert_is_Some.
    intros [<-|[_ [<-|[_ [<-|[_ H]]]]]]; [vm_compute; reflexivity..|by apply Hs].
  - assert (Htx : forall units action summary risk, is_Some (verb_of action) -> units = AllowedUnits policy ->
      transaction_operation (enabled policy timeout poll r) action
        {| RO_Definition := mutation_definition action summary risk units; RO_Handler := Some (HTransaction action) |}).
    { intros units action summary risk Hv ->. split; [done|]. split; [exact Hv|]. split; [done|].
      exists (AllowedUnits policy). split; [done|]. intros unit. rewrite AllowedUnits_elem. simpl.
      by rewrite lookup_fmap, fmap_is_Some. }
    intros action operation. unfold enabled at 1, register_mutation, register. simpl.
    intros [[<- <-]|[N1 [[<- <-]|[N2 [[<- <-]|[N3 H]]%lookup_insert_Some]]%lookup_insert_Some]]%lookup_insert_Some;
      [right; apply Htx; [by eexists|done]..|].
    destruct (Ho action operation H) as [Hr|(_ & Hv & _)]; [by left|].
    apply verb_of_cases in Hv as [->|[->| ->]]; congruence.
  - intros unit target. simpl. rewrite lookup_fmap_Some. intros (spec & <- & E). exists spec.
    split; [by eapply lookup_weaken|done].
Qed.

(** Enabling the mutations.  It succeeds exactly when both adapters are present and the two durations lie in their
    ranges.  Whatever the policy file was, the registry it builds from a loaded policy is confined: every operation is a
    read without confirmation or one of the three lifecycle actions, which require confirmation and accept one
    parameter, a unit of the policy; every target is a compiled unit with its compiled health URL. *)
Theorem EnableServiceMutations_confines mutator health path file policy timeout poll r :
  LoadPolicy path file = Ok policy -> confined r ->
  (is_ok (EnableServiceMutations mutator health policy timeout poll r) = true <->
   mutator = true /\ health = true /\ Second <= timeout <= 2 * Minute /\ 10 * Millisecond <= poll <= 5 * Second) /\
  (forall r', EnableServiceMutations mutator health policy timeout poll r = Ok r' ->
   confined r' /\ (forall unit, is_Some (R_ServiceTargets r' !! unit) <-> Allows policy unit = true)).
Proof.
  intros Hp Hr. pose proof (EnableServiceMutations_Ok mutator health policy timeout poll r) as [H1 H2].
  split; [split; [exact H2|by intros ->%H1]|]. intros r' E. rewrite H1 in E by (apply H2; by rewrite E).
  injection E as <-. split.
  - apply enabled_confined; [by eapply LoadPolicy_subset|exact Hr].
  - intros unit. simpl. rewrite lookup_fmap, fmap_is_Some. unfold Allows. by rewrite bool_decide_eq_true.
Qed.

(** ** Executing requests *)

Section executing.
Context {S : Type} `{!System S}.

Lemma now_runs (w : world S) (Q : time -> list event -> S -> Prop) :
  (forall t s, Q t [] s) -> runs now w Q.
Proof. intros H. apply runs_step, H. Qed.

Lemma newID_runs prefix (w : world S) (Q : string -> list event -> S -> Prop) :
  (forall id s, Q id [] s) -> runs (newID prefix) w Q.
Proof. intros H. apply runs_bind, runs_step. intros log. apply runs_ret, H. Qed.

Lemma request_id_runs id (w : world S) (Q : string -> list event -> S -> Prop) :
  (forall id' s, (id <> "" -> id' = id) -> Q id' [] s) ->
  runs (if id == "" then newID "request" else mret id) w Q.
Proof.
  intros H. destruct (id == "") eqn:E; bool_prop.
  - apply newID_runs. intros id' s. apply H. done.
  - apply runs_ret, H. done.
Qed.

Lemma read_only_runs r operation request (w : world S) (Q : handler_result -> list event -> S -> Prop) :
  read_only_operation operation ->
  (forall res added s, actions added = [] -> length added = 1%nat -> Q res added s) ->
  runs (run_handler r (RO_Handler operation) request) w Q.
Proof.
  intros [[-> | ->] _] HQ; simpl.
  - apply runs_bind, runs_step. intros log. apply runs_ret. by apply HQ.
  - apply runs_bind, runs_step. intros log. apply runs_bind, runs_step. intros log'.
    apply runs_bind, runs_step. intros log''. apply runs_ret. by apply HQ.
Qed.

(** What [Execute] answers and does. *)
Definition execute_result (r : Registry) (request : OperationRequest) (resp : OperationResponse) (added : list event) : Prop :=
  actions added = [] /\ Resp_Action resp = Req_Action request /\
  (Req_RequestID request <> "" -> Resp_RequestID resp = Req_RequestID request) /\
  match validate r request true with
  | inl p => added = [] /\ Resp_Status resp = "rejected" /\ Resp_Error resp = Some p /\ Resp_Result resp = None
  | inr operation =>
    read_only_operation operation /\ length added = 1%nat /\ Resp_Risk resp = OD_Risk (RO_Definition operation) /\
    ((Resp_Status resp = "completed" /\ Resp_Error resp = None) \/
     (Resp_Status resp = "failed" /\ is_Some (Resp_Error resp)))
  end.

Lemma Execute_runs r request (w : world S) :
  confined r -> runs (Execute r request) w (fun resp added _ => execute_result r request resp added).
Proof.
  intros Hc. unfold Execute, execute_result. apply runs_bind, now_runs. intros started s1 l1.
  apply runs_bind, newID_runs. intros audit s2 l2. apply runs_bind, request_id_runs. intros id s3 Hid l3.
  destruct (validate r request true) as [p|operation] eqn:E.
  { apply runs_bind, now_runs. intros finished s4 l4. apply runs_ret. by split_and!. }
  apply validate_inr in E as (_ & Hop & _ & Hcf & _).
  destruct (cf_operations r Hc _ _ Hop) as [Hro|(_ & _ & Htx & _)]; [|rewrite Hcf in Htx; done].
  apply runs_bind, (read_only_runs r operation request _ _ Hro). intros [result err] added s4 Ha Hlen l4.
  apply runs_bind, now_runs. intros finished s5 l5. apply runs_ret. simpl. rewrite app_nil_r.
  destruct err as [err|]; simpl; (split; [exact Ha|]); (split; [done|]); (split; [exact Hid|]);
    (split; [exact Hro|]); (split; [exact Hlen|]); (split; [done|]); [right|left]; split; done || by eexists.
Qed.

(** The plain execution endpoint never mutates.  On a confined registry every request ends, without panic and without a
    lifecycle action: a rejected one touches nothing, an accepted one makes exactly one observation and is answered as
    completed, or as failed with a problem.  The answer keeps the action and a given request identifier. *)
Lemma Execute_never_mutates r request (w : world S) :
  confined r ->
  runs (Execute r request) w (fun resp added _ =>
    actions added = [] /\ Resp_Action resp = Req_Action request /\
    (Req_RequestID request <> "" -> Resp_RequestID resp = Req_RequestID request) /\
    match validate r request true with
    | inl p => added = [] /\ Resp_Status resp = "rejected" /\ Resp_Error resp = Some p /\ Resp_Result resp = None
    | inr operation =>
      read_only_operation operation /\ length added = 1%nat /\ Resp_Risk resp = OD_Risk (RO_Definition operation) /\
      ((Resp_Status resp = "completed" /\ Resp_Error resp = None) \/
       (Resp_Status resp = "failed" /\ is_Some (Resp_Error resp)))
    end).
Proof. apply Execute_runs. Qed.
End executing.

(** ** Approved plans *)

Lemma exact_parameters_Ok ps acc m :
  exact_parameters ps acc = inr m <->
  Forall (fun p => TrimSpace (Param_Name p) <> "" /\ acc !! TrimSpace (Param_Name p) = None) ps /\
  NoDup ((fun p => TrimSpace (Param_Name p)) <$> ps) /\
  m = fold_left (fun m p => <[TrimSpace (Param_Name p) := Param_Value p]> m) ps acc.
Proof.
  revert acc. induction ps as [|p ps IH]; intros acc; simpl.
  { split; [intros [= <-]; repeat constructor|by intros (_ & _ & ->)]. }
  destruct (TrimSpace (Param_Name p) == "") eqn:E; bool_prop.
  { split; [done|]. intros (H & _). apply Forall_cons in H as [[? _] _]. done. }
  case_bool_decide as Hin.
  { split; [done|]. intros (H & _). apply Forall_cons in H as [[_ H] _]. rewrite H in Hin. by destruct Hin. }
  rewrite IH, Forall_cons, NoDup_cons. apply eq_None_not_Some in Hin. split.
  - intros (Hf & Hnd & ->). split; [|split; [|done]].
    + split; [done|]. eapply Forall_impl; [exact Hf|]. intros q [Hq Hl]. split; [done|].
      by apply lookup_insert_None in Hl as [? _].
    + split; [|done]. intros Hin'. apply list_elem_of_fmap in Hin' as (q & Eq & Hq).
      rewrite Forall_forall in Hf. destruct (Hf q Hq) as [_ Hl]. by rewrite <- Eq, lookup_insert_eq in Hl.
  - intros ([_ Hf] & [Hn Hnd] & ->). split; [|done]. apply Forall_forall. intros q Hq.
    rewrite Forall_forall in Hf. destruct (Hf q Hq) as [Hq1 Hq2]. split; [done|].
    rewrite lookup_insert_ne; [done|]. intros Eq. apply Hn. rewrite Eq. apply list_elem_of_fmap. eauto.
Qed.

(** The parameters of a plan under their trimmed names. *)
Definition trimmed_parameters (plan : OperationPlan) : gmap string string :=
  fold_left (fun m p => <[TrimSpace (Param_Name p) := Param_Value p]> m) (Plan_Parameters plan) ∅.

(** What [ValidateApprovedPlan] checks. *)
Record approvable (r : Registry) (t : time) (plan : OperationPlan) (operation : registeredOperation) : Prop := {
  ap_schema : Plan_Schema plan = PlanSchema;
  ap_valid : Plan_Valid plan = true;
  ap_confirmation : Plan_RequiresConfirmation plan = true;
  ap_digest : VerifyPlanDigest plan = true;
  ap_identity : TrimSpace (Plan_ID plan) <> "" /\ TrimSpace (Actor_ID (Plan_Actor plan)) <> "" /\
                TrimSpace (Plan_SessionID plan) <> "";
  ap_times : Plan_CreatedAt plan <> 0 /\ Plan_ExpiresAt plan <> 0 /\
             Plan_CreatedAt plan < Plan_ExpiresAt plan <= Plan_CreatedAt plan + 15 * Minute;
  ap_current : Plan_CreatedAt plan <= t + 30 * Second /\ t < Plan_ExpiresAt plan;
  ap_names : Forall (fun p => TrimSpace (Param_Name p) <> "") (Plan_Parameters plan) /\
             NoDup ((fun p => TrimSpace (Param_Name p)) <$> Plan_Parameters plan);
  ap_accepted : accepts r (plan_request plan (trimmed_parameters plan)) false operation;
  ap_policy : OD_RequiresConfirmation (RO_Definition operation) = true /\
              OD_Risk (RO_Definition operation) = Plan_Risk plan
}.

Lemma lifetime_exceeds t u : (15 * Minute <? Sub t u) = true <-> 15 * Minute < t - u.
Proof.
  rewrite Z.ltb_lt. unfold Sub. change (15 * Minute) with 900000000000.
  change (- 2 ^ 63) with (-9223372036854775808). change (2 ^ 63 - 1) with 9223372036854775807. lia.
Qed.

Lemma exactPlanParameters_Ok plan m :
  exactPlanParameters plan = inr m <->
  (Forall (fun p => TrimSpace (Param_Name p) <> "") (Plan_Parameters plan) /\
   NoDup ((fun p => TrimSpace (Param_Name p)) <$> Plan_Parameters plan)) /\ m = trimmed_parameters plan.
Proof.
  unfold exactPlanParameters. rewrite exact_parameters_Ok. split.
  - intros (Hf & Hnd & ->). split; [|done]. split; [|exact Hnd]. eapply Forall_impl; [exact Hf|]. by intros p [? _].
  - intros [[Hf Hnd] ->]. split; [|split; [exact Hnd|done]]. eapply Forall_impl; [exact Hf|].
    intros p Hp. split; [exact Hp|apply lookup_empty].
Qed.

Lemma ValidateApprovedPlan_None r t plan :
  ValidateApprovedPlan r t plan = None <-> exists operation, approvable r t plan operation.
Proof.
  unfold ValidateApprovedPlan, invalid_plan.
  destruct ((Plan_Schema plan != PlanSchema) || _ || _) eqn:E1.
  { split; [done|]. intros (op & []). bool_prop. intuition congruence. }
  destruct (VerifyPlanDigest plan) eqn:E2; cbn [negb]; [|split; [done|intros (op & []); congruence]].
  destruct ((TrimSpace (Plan_ID plan) == "") || _ || _) eqn:E3.
  { split; [done|]. intros (op & []). bool_prop. tauto. }
  destruct (IsZero (Plan_CreatedAt plan) || _ || _) eqn:E4.
  { split; [done|]. intros (op & []). unfold IsZero, After in E4. bool_prop. lia. }
  destruct (After (Plan_CreatedAt plan) (Add t (30 * Second)) || _) eqn:E5.
  { split; [done|]. intros (op & []). unfold After, Add in E5. bool_prop. lia. }
  destruct (15 * Minute <? Sub _ _) eqn:E6.
  { split; [done|]. intros (op & []). apply lifetime_exceeds in E6. lia. }
  destruct (exactPlanParameters plan) as [p|m] eqn:E7.
  { split; [done|]. intros (op & []).
    assert (exactPlanParameters plan = inr (trimmed_parameters plan)) by by apply exactPlanParameters_Ok. congruence. }
  apply exactPlanParameters_Ok in E7 as [Hnames ->].
  destruct (validate r (plan_request plan (trimmed_parameters plan)) false) as [p|op] eqn:E8.
  { split; [done|]. intros (op & []). apply validate_inr in ap_accepted0. congruence. }
  apply validate_inr in E8.
  destruct (negb (OD_RequiresConfirmation (RO_Definition op)) || _) eqn:E9.
  { split; [done|]. intros (op' & []). apply validate_inr in E8. apply validate_inr in ap_accepted0.
    assert (op' = op) as -> by congruence. bool_prop. intuition congruence. }
  split; [intros _; exists op|done].
  assert (E6' : ~ 15 * Minute < Plan_ExpiresAt plan - Plan_CreatedAt plan)
    by (intros H; apply lifetime_exceeds in H; congruence).
  unfold IsZero, After, Add in *. bool_prop. split; try tauto; lia.
Qed.

(** On a confined registry an accepted request that requires confirmation names one lifecycle action and one allowed
    unit, and so does an approvable plan. *)
Lemma accepts_unit r request execution operation :
  confined r -> accepts r request execution operation -> OD_RequiresConfirmation (RO_Definition operation) = true ->
  exists unit v, transaction_operation r (TrimSpace (Req_Action request)) operation /\
    verb_of (TrimSpace (Req_Action request)) = Some v /\
    Req_Parameters request = {["unit" := unit]} /\ is_Some (R_ServiceTargets r !! unit).
Proof.
  intros Hc (_ & Hop & _ & _ & Hpar) Hconf.
  destruct (cf_operations r Hc _ _ Hop) as [[_ Hro]|Htx]; [congruence|].
  pose proof Htx as (_ & [v Hv] & _ & units & Hps & Hunits). rewrite Hps in Hpar.
  destruct Hpar as [Hdecl Hval Hreq].
  destruct (Hreq (unit_parameter units) (list_elem_of_here _ _) eq_refl) as (unit & Hu & _). simpl in Hu.
  exists unit, v. split; [exact Htx|]. split; [exact Hv|]. split.
  - apply map_eq. intros name. destruct (decide (name = "unit")) as [->|Hne]; [by rewrite lookup_singleton_eq|].
    rewrite lookup_singleton_ne by done. apply eq_None_not_Some. intros [value E].
    apply Hdecl in E. apply Hne. by apply list_elem_of_singleton in E.
  - apply Hunits. by apply (Hval (unit_parameter units) unit (list_elem_of_here _ _) Hu).
Qed.

Lemma approvable_unit r t plan operation :
  confined r -> approvable r t plan operation ->
  exists unit v, transaction_operation r (TrimSpace (Plan_Action plan)) operation /\
    verb_of (TrimSpace (Plan_Action plan)) = Some v /\
    trimmed_parameters plan = {["unit" := unit]} /\ is_Some (R_ServiceTargets r !! unit).
Proof. intros Hc [_ _ _ _ _ _ _ _ Hacc [Hconf _]]. exact (accepts_unit _ _ _ _ Hc Hacc Hconf). Qed.

(** C20 Validation of an approved plan.  It passes exactly the plans that are executable, carry their own digest, identity
    and session, were created at most 30 seconds ahead of the clock, have not expired, live at most 15 minutes, name
    parameters once, and match the current registry in parameters, confirmation and risk.  On a confined registry such a
    plan names (up to surrounding blanks) one lifecycle action and exactly one parameter, a unit that is in the policy
    and compiled in. *)
Theorem ValidateApprovedPlan_spec r t plan :
  (ValidateApprovedPlan r t plan = None <-> exists operation, approvable r t plan operation) /\
  (confined r -> ValidateApprovedPlan r t plan = None ->
   exists unit, trimmed_parameters plan = {["unit" := unit]} /\ is_Some (R_ServiceTargets r !! unit) /\
     is_Some (compiledServices !! unit) /\ is_Some (verb_of (TrimSpace (Plan_Action plan)))).
Proof.
  split; [apply ValidateApprovedPlan_None|]. intros Hc H. apply ValidateApprovedPlan_None in H as [operation H].
  destruct (approvable_unit r t plan operation Hc H) as (unit & v & _ & Hv & Hp & [target Ht]).
  exists unit. split; [exact Hp|]. split; [by eexists|]. split; [|by eexists].
  destruct (cf_targets r Hc _ _ Ht) as (spec & E & _). by eexists.
Qed.

(** ** Executing approved plans *)

Section executing_approved.
Context {S : Type} `{!System S} `{!SystemLaws S}.

(** The ways [ExecuteApproved] ends. *)
Inductive approved_outcome (r : Registry) (plan : OperationPlan) (executor : Actor) (w : world S) :
  exec S OperationResponse -> Prop :=
| ao_rejected resp s p :
  (may_mutate executor = false /\ p = mutation_forbidden \/
   may_mutate executor = true /\ exists t, ValidateApprovedPlan r t plan = Some p) ->
  Resp_Status resp = "rejected" -> Resp_Error resp = Some p -> Resp_Result resp = None ->
  approved_outcome r plan executor w (Done resp (World s (w_log w)))
| ao_executed resp s added t operation unit target v pre res :
  may_mutate executor = true -> approvable r t plan operation ->
  trimmed_parameters plan = {["unit" := unit]} -> R_ServiceTargets r !! unit = Some target ->
  verb_of (Plan_Action plan) = Some v ->
  transaction_outcome (ST_HealthURL target) (Plan_Action plan) unit v pre res added ->
  Resp_Status resp = (if res.2 then "failed" else "completed") ->
  Resp_Error resp = problemFromOperationError <$> res.2 ->
  Resp_Result resp = Some (execution_entries executor plan res.1) ->
  approved_outcome r plan executor w (Done resp (World s (w_log w ++ added)))
| ao_panicked s t operation :
  may_mutate executor = true -> approvable r t plan operation -> TrimSpace (Plan_Action plan) <> Plan_Action plan ->
  approved_outcome r plan executor w (Panicked (World s (w_log w))).

Lemma ExecuteApproved_runs r plan executor (w : world S) :
  confined r -> approved_outcome r plan executor w (ExecuteApproved r plan executor w).
Proof.
  intros Hc. unfold ExecuteApproved.
  apply (runs_then _ _ _ (fun _ added _ => added = [])); [by apply now_runs|]. intros started ? s1 ->.
  apply (runs_then _ _ _ (fun _ added _ => added = [])); [by apply newID_runs|]. intros audit ? s2 ->.
  apply (runs_then _ _ _ (fun _ added _ => added = [])); [by apply request_id_runs|]. intros id ? s3 ->.
  cbn [w_log w_sys]. rewrite !app_nil_r.
  destruct (may_mutate executor) eqn:Em; cbn [negb].
  2: { apply (runs_then _ _ _ (fun _ added _ => added = [])); [by apply now_runs|]. intros finished ? s4 ->.
       cbn [w_log]. rewrite app_nil_r. eapply ao_rejected; [by left|done..]. }
  apply (runs_then _ _ _ (fun _ added _ => added = [])); [by apply now_runs|]. intros t ? s4 ->.
  cbn [w_log]. rewrite app_nil_r.
  destruct (ValidateApprovedPlan r t plan) as [p|] eqn:Ev.
  { apply (runs_then _ _ _ (fun _ added _ => added = [])); [by apply now_runs|]. intros finished ? s5 ->.
    cbn [w_log]. rewrite app_nil_r. eapply ao_rejected; [right; by eauto|done..]. }
  apply ValidateApprovedPlan_None in Ev as [operation Hap].
  destruct (approvable_unit r t plan operation Hc Hap) as (unit & v & (Hh & _) & Hv & Hp & [target Ht]).
  pose proof (ap_accepted _ _ _ _ Hap) as (_ & Hop & _). simpl in Hop.
  assert (exactPlanParameters plan = inr (trimmed_parameters plan)) as ->
    by (apply exactPlanParameters_Ok; split; [apply Hap|done]).
  destruct (decide (TrimSpace (Plan_Action plan) = Plan_Action plan)) as [Eq|Hne].
  2: { assert (R_Operations r !! Plan_Action plan = None) as ->.
       { apply eq_None_not_Some. intros H. by apply Hne, (cf_trimmed r Hc). }
       simpl. unfold mbind at 1, M_bind. simpl. by eapply ao_panicked. }
  rewrite Eq in *. rewrite Hop.
  change (default zero_registeredOperation (Some operation)) with operation. rewrite Hh. cbn [run_handler].
  replace (parameter (plan_request plan (trimmed_parameters plan)) "unit") with unit
    by (unfold parameter; simpl; rewrite Hp; by rewrite lookup_singleton_eq).
  eapply runs_then; [by apply (transaction_runs r (Plan_Action plan) unit target v)|].
  intros [result err] added s5 Htx.
  apply (runs_then _ _ _ (fun _ added _ => added = [])); [by apply now_runs|]. intros finished ? s6 ->.
  cbn [w_log w_sys]. rewrite app_nil_r.
  eapply (ao_executed r plan executor w _ s6 added t operation unit target v _ (result, err)); try eassumption;
    by destruct err.
Qed.

(** The reading of the clock at which [ExecuteApproved] validates, with what is read before it. *)
Definition approval_clock (plan : OperationPlan) : M S time :=
  _ ← now; _ ← newID "audit"; _ ← (if Plan_RequestID plan == "" then newID "request" else mret (Plan_RequestID plan)); now.

Lemma approval_clock_silent plan (w : world S) t w' : approval_clock plan w = Done t w' -> w_log w' = w_log w.
Proof.
  intros H. assert (runs (approval_clock plan) w (fun _ added _ => added = [])) as (t0 & added & s & E & ->).
  { apply runs_bind, now_runs. intros ? ? ?. apply runs_bind, newID_runs. intros ? ? ?.
    apply runs_bind, request_id_runs. intros ? ? _ ?. by apply now_runs. }
  rewrite H in E. injection E as _ ->. apply app_nil_r.
Qed.

(** What a response and the events tell of a plan that was carried out on the machine of [w]: one transaction for the
    action of the plan on its unit, and the action itself whenever the state before it could be observed. *)
Inductive carried_out (r : Registry) (plan : OperationPlan) (executor : Actor) (w : world S)
    (resp : OperationResponse) (added : list event) : Prop :=
| carried_out_by unit target v res :
  let pre := (sys_status unit (sys_with_timeout (R_TransactionTimeout r) (w_sys w))).1 in
  trimmed_parameters plan = {["unit" := unit]} -> R_ServiceTargets r !! unit = Some target ->
  verb_of (Plan_Action plan) = Some v ->
  transaction_outcome (ST_HealthURL target) (Plan_Action plan) unit v pre res added ->
  Resp_Status resp = (if res.2 then "failed" else "completed") ->
  Resp_Error resp = problemFromOperationError <$> res.2 ->
  Resp_Result resp = Some (execution_entries executor plan res.1) ->
  (pre.2 = None -> exists rest, actions added = (v, unit) :: rest) ->
  carried_out r plan executor w resp added.

(** A plan that validates when [ExecuteApproved] reads the clock is carried out, for every machine and timing. *)
Lemma approved_executes r plan executor (w : world S) t w' :
  confined r -> may_mutate executor = true -> TrimSpace (Plan_Action plan) = Plan_Action plan ->
  approval_clock plan w = Done t w' -> ValidateApprovedPlan r t plan = None ->
  exists resp added s, ExecuteApproved r plan executor w = Done resp (World s (w_log w ++ added)) /\
    carried_out r plan executor w' resp added.
Proof.
  intros Hc Hm Htrim Hclock Hval. pose proof (approval_clock_silent plan w t w' Hclock) as Hlog.
  pose proof Hval as Hap. apply ValidateApprovedPlan_None in Hap as [operation Hap].
  destruct (approvable_unit r t plan operation Hc Hap) as (unit & v & (Hh & _) & Hv & Hp & [target Ht]).
  pose proof (ap_accepted _ _ _ _ Hap) as (_ & Hop & _). simpl in Hop.
  assert (Hpar : exactPlanParameters plan = inr (trimmed_parameters plan))
    by (apply exactPlanParameters_Ok; split; [apply Hap|done]).
  rewrite Htrim in *. unfold approval_clock in Hclock. unfold ExecuteApproved. unfold mbind, M_bind in Hclock |- *.
  destruct (now w) as [started w1|w1|]; [|discriminate Hclock..].
  destruct (newID "audit" w1) as [audit w2|w2|]; [|discriminate Hclock..].
  destruct ((if Plan_RequestID plan == "" then newID "request" else mret (Plan_RequestID plan)) w2) as [id w3|w3|];
    [|discriminate Hclock..].
  rewrite Hm. cbn [negb]. rewrite Hclock, Hval, Hop, Hpar.
  change (default zero_registeredOperation (Some operation)) with operation. rewrite Hh. cbn [run_handler].
  replace (parameter (plan_request plan (trimmed_parameters plan)) "unit") with unit
    by (unfold parameter; simpl; rewrite Hp; by rewrite lookup_singleton_eq).
  destruct (transaction_runs r (Plan_Action plan) unit target v w' Ht Hv) as (res & added & s & -> & Htx).
  destruct res as [result err].
  destruct (now_runs (World s (w_log w' ++ added)) (fun _ more _ => more = [])) as (finished & more & s' & -> & ->); [done|].
  cbn [w_log]. rewrite app_nil_r, Hlog. eexists _, added, s'. split; [reflexivity|].
  eapply (carried_out_by r plan executor w' _ added unit target v (result, err)); try eassumption; [by destruct err..|].
  by eapply transaction_outcome_acts.
Qed.

(** The answer carries the action of the plan. *)
Lemma approved_action r plan executor : answers (ExecuteApproved r plan executor) (fun resp => Resp_Action resp = Plan_Action plan).
Proof.
  unfold ExecuteApproved. cbv zeta. do 3 (apply answers_bind; intros ?). case_match; [by apply answers_bind; intros ?; apply answers_ret|].
  apply answers_bind. intros t. case_match; [by apply answers_bind; intros ?; apply answers_ret|].
  apply answers_bind. intros [result err]. apply answers_bind. intros finished. apply answers_ret. by destruct err.
Qed.

(** C18 Executing an approved plan.  On a confined registry [ExecuteApproved] ends for every machine and timing: an
    executor without the permission (or a TCI one) and an invalid plan are rejected without touching the machine; otherwise
    exactly one service transaction runs, for the action of the plan on its one unit, which is an allowed compiled unit, and
    the answer is completed or failed as the transaction was, naming executor, plan actor, plan and digest; or the
    call panics because the action of the plan carries surrounding blanks. *)
Theorem ExecuteApproved_spec r plan executor (w : world S) :
  confined r -> approved_outcome r plan executor w (ExecuteApproved r plan executor w).
Proof. apply ExecuteApproved_runs. Qed.

(** The log a computation leaves. *)
Definition final_log {A} (w : world S) (e : exec S A) : list event :=
  match e with Done _ w' => w_log w' | Panicked w' => w_log w' | Diverged => w_log w end.

(** The actions of an approved execution are the action of the plan and at most one recovery, on the unit of the plan. *)
Lemma approved_actions r plan executor (w : world S) e :
  approved_outcome r plan executor w e ->
  exists added, final_log w e = w_log w ++ added /\
    (actions added = [] \/
     exists t operation unit v rest, may_mutate executor = true /\ approvable r t plan operation /\
       trimmed_parameters plan = {["unit" := unit]} /\ is_Some (R_ServiceTargets r !! unit) /\
       verb_of (Plan_Action plan) = Some v /\ actions added = (v, unit) :: rest /\
       (rest = [] \/ exists v', rest = [(v', unit)])).
Proof.
  intros [resp s p _ _ _ _|resp s added t operation unit target v pre res Hm Hap Hp Ht Hv Htx _ _ _|s t operation _ _ _]; simpl.
  - exists []. rewrite app_nil_r. auto.
  - exists added. split; [done|]. apply transaction_outcome_actions in Htx as [E|[E|(v' & _ & E & _)]]; [by left|right..].
    + exists t, operation, unit, v, [].
      repeat (split; [first [assumption|by eexists]|]). by left.
    + exists t, operation, unit, v, [(v', unit)].
      repeat (split; [first [assumption|by eexists]|]). right. by eexists.
  - exists []. rewrite app_nil_r. auto.
Qed.
End executing_approved.

(** ** Concrete executions *)

Definition example_registry : Registry := enabled compiledServices (30 * Second) Second NewRegistry.

Lemma example_registry_confined : confined example_registry.
Proof. apply enabled_confined; [done|apply NewRegistry_confined]. Qed.

Definition example_executor : Actor :=
  {| Actor_ID := "service:deployer"; Actor_Kind := ActorService; Actor_DisplayName := "Deployer";
     Actor_Roles := ["mutator"]; Actor_Permissions := [PermissionOperationMutate] |}.

(** The same plan with a blank in front of its action, sealed again. *)
Definition with_action (action : string) (p : OperationPlan) : OperationPlan :=
  {| Plan_Schema := Plan_Schema p; Plan_ID := Plan_ID p; Plan_Digest := Plan_Digest p;
     Plan_RequestID := Plan_RequestID p; Plan_SessionID := Plan_SessionID p; Plan_Actor := Plan_Actor p;
     Plan_Action := action; Plan_Parameters := Plan_Parameters p; Plan_Risk := Plan_Risk p;
     Plan_RequiresConfirmation := Plan_RequiresConfirmation p; Plan_Valid := Plan_Valid p;
     Plan_CreatedAt := Plan_CreatedAt p; Plan_ExpiresAt := Plan_ExpiresAt p; Plan_ErrorCode := Plan_ErrorCode p |}.
Definition blank_plan : OperationPlan :=
  let p := with_action " service.restart" example_plan in with_digest (PlanDigest p) p.

Definition log_of {A} (e : exec machine A) : option (list event) :=
  match e with Done _ w => Some (w_log w) | _ => None end.

(** A restart that works, one whose action fails and is followed by a recovery, and one that has no effect. *)
Example run_works :
  log_of (ExecuteApproved example_registry example_plan example_executor (idle_machine "inactive" ActionsWork example_now))
  = Some [EvStatus "quantum-runtime.service"; EvAction VRestart "quantum-runtime.service" false;
          EvStatus "quantum-runtime.service"; EvHealth "http://127.0.0.1:11450/healthz"].
Proof. vm_compute. reflexivity. Qed.

Example run_fails :
  log_of (ExecuteApproved example_registry example_plan example_executor (idle_machine "active" ActionsFail example_now))
  = Some [EvStatus "quantum-runtime.service"; EvHealth "http://127.0.0.1:11450/healthz";
          EvAction VRestart "quantum-runtime.service" true; EvStatus "quantum-runtime.service";
          EvAction VStart "quantum-runtime.service" true].
Proof. vm_compute. reflexivity. Qed.

Example run_stalls :
  log_of (ExecuteApproved example_registry example_plan example_executor (idle_machine "failed" ActionsStall example_now))
  = Some [EvStatus "quantum-runtime.service"; EvAction VRestart "quantum-runtime.service" false;
          EvStatus "quantum-runtime.service"; EvStatus "quantum-runtime.service"; EvStatus "quantum-runtime.service"].
Proof. vm_compute. reflexivity. Qed.

(** A defect in the lookup of the handler.  A plan whose action is written with a blank in front passes
    [ValidateApprovedPlan], which trims the action, and makes [ExecuteApproved], which does not, call a nil
    function: the request panics instead of being answered. *)
Theorem untrimmed_action_panics :
  ValidateApprovedPlan example_registry example_now blank_plan = None /\
  may_mutate example_executor = true /\
  ExecuteApproved example_registry blank_plan example_executor (idle_machine "active" ActionsWork example_now)
  = Panicked (idle_machine "active" ActionsWork example_now).
Proof. split; [|split]; vm_compute; reflexivity. Qed.

Lemma transaction_spec_witness :
  runs (runServiceTransaction example_registry "service.stop" "quantum-runtime.service") (idle_machine "active" ActionsFail 0)
    (fun res added _ => transaction_outcome "http://127.0.0.1:11450/healthz" "service.stop" "quantum-runtime.service" VStop
       (Some {["active_state" := AString "active"]}, None) res added).
Proof.
  exact (transaction_spec example_registry "service.stop" "quantum-runtime.service" VStop
    (idle_machine "active" ActionsFail 0) eq_refl).
Defined.

Lemma transaction_actions_example :
  exists res added s,
    runServiceTransaction example_registry "service.stop" "nginx.service" (idle_machine "active" ActionsFail 0)
    = Done res (World s added) /\ added = [].
Proof.
  destruct (transaction_actions example_registry "service.stop" "nginx.service" VStop
    (idle_machine "active" ActionsFail 0) eq_refl) as (res & added & s & E & _ & H).
  exists res, added, s. split; [exact E|]. apply H. vm_compute. reflexivity.
Defined.

Lemma timeout_never_recovers_witness :
  exists res added s,
    runServiceTransaction example_registry "service.stop" "quantum-runtime.service" (idle_machine "active" ActionsStall 0)
    = Done res (World s added) /\ actions added = [(VStop, "quantum-runtime.service")].
Proof.
  destruct (timeout_never_recovers example_registry "service.stop" "quantum-runtime.service"
    {| ST_HealthURL := "http://127.0.0.1:11450/healthz" |} VStop (idle_machine "active" ActionsStall 0)
    eq_refl eq_refl) as (res & added & s & E & H).
  exists res, added, s. split; [exact E|].
  assert (Hm : match runServiceTransaction example_registry "service.stop" "quantum-runtime.service"
      (idle_machine "active" ActionsStall 0) with Done res _ => res.2 | _ => None end =
    Some (OperationError "service_postcondition_failed"
      "service did not reach the required postcondition before timeout")) by (vm_compute; reflexivity).
  rewrite E in Hm. apply (H _ Hm).
Defined.

Lemma EnableServiceMutations_confines_witness :
  LoadPolicy "" PolicyUnreadable = Ok compiledServices /\
  exists r, EnableServiceMutations true true compiledServices (30 * Second) Second NewRegistry = Ok r /\ confined r.
Proof.
  split; [reflexivity|].
  destruct (EnableServiceMutations_confines true true "" PolicyUnreadable compiledServices (30 * Second) Second NewRegistry
    eq_refl NewRegistry_confined) as [_ H].
  destruct (EnableServiceMutations true true compiledServices (30 * Second) Second NewRegistry) as [r|e] eqn:E.
  - exists r. split; [reflexivity|]. apply (H r eq_refl).
  - exfalso. vm_compute in E. discriminate E.
Defined.

Definition status_request : OperationRequest :=
  {| Req_RequestID := "req-2"; Req_Action := "service.status"; Req_Actor := "human:alice";
     Req_Parameters := {["unit" := "ssh.service"]}; Req_Confirmation := "" |}.

Lemma Execute_never_mutates_example :
  exists resp added s, Execute example_registry status_request (idle_machine "active" ActionsWork 0)
    = Done resp (World s added) /\ actions added = [] /\ Resp_Status resp = "completed" /\ added = [EvStatus "ssh.service"].
Proof.
  destruct (Execute_never_mutates example_registry status_request (idle_machine "active" ActionsWork 0)
    example_registry_confined) as (resp & added & s & E & H & _).
  exists resp, added, s. split; [exact E|]. split; [exact H|].
  vm_compute in E. injection E as <- _ <-. split; reflexivity.
Defined.

Lemma ExecuteApproved_spec_witness :
  approved_outcome example_registry example_plan example_executor (idle_machine "active" ActionsFail example_now)
    (ExecuteApproved example_registry example_plan example_executor (idle_machine "active" ActionsFail example_now)).
Proof.
  apply (ExecuteApproved_spec example_registry example_plan example_executor
    (idle_machine "active" ActionsFail example_now) example_registry_confined).
Defined.
