(* ===== verification/Probe.v ===== *)
(** * The system probe of the broker

    [internal/systemprobe/probe.go]: the summary of the machine and the state of a unit, read from fixed files and from
    [systemctl].  They are the observations of [System.v]. *)

From Stdlib Require Import Ascii SpecFloat.
From S2P Require Import Prelude GoStrings GoTime GoConv GoText GoQuote OS Inventory.
From S2P Require Import Protocol System Mutations.
#[local] Open Scope Z_scope.

(** Each upper-case letter but the first gets an underscore; what is not UTF-8 becomes the replacement character. *)
Fixpoint snake (i : nat) (l : list token) : bytes :=
  match l with
  | [] => []
  | t :: l =>
    match t with
    | Rune [a] =>
      if between 65 (byte a) 90 then (if (0 <? i)%nat then [chr 95] else []) ++ chr (byte a + 32) :: snake (S i) l
      else a :: snake (S i) l
    | _ => token_bytes t ++ snake (S i) l
    end
  end.
Definition toSnakeCase (value : string) : string := of_bytes (snake 0 (tokens (to_bytes value))).

Definition parseOSReleaseValue (value : string) : string :=
  let value := TrimSpace value in
  if value == "" then ""
  else match Unquote value with Some unquoted => unquoted | None => Trim value (of_bytes [quote_double]) end.

(** One line of [/etc/os-release]. *)
Definition os_release_line (result : gmap string string) (line : string) : gmap string string :=
  let line := TrimSpace line in
  if (line == "") || HasPrefix line "#" then result
  else
    match Cut "=" line with
    | None => result
    | Some (key, value) =>
      let value := parseOSReleaseValue value in
      if key == "ID" then <["os_id" := value]> result
      else if key == "VERSION_ID" then <["os_version" := value]> result
      else if key == "PRETTY_NAME" then <["os_name" := value]> result
      else result
    end.

(** One line of [systemctl show]. *)
Definition status_line (result : dict) (line : string) : dict :=
  match Cut "=" line with
  | Some (key, value) => if key != "" then <[toSnakeCase key := AString value]> result else result
  | None => result
  end.
Definition parse_status (unit output : string) : observation :=
  let '(lines, failed) := scan_lines output in
  if failed then (None, Some (Text "parse systemctl output: %w" []))
  else (Some (fold_left status_line lines {["unit" := AString unit]}), None).

Section native.
Context {O : Type} `{!OS O}.

(** A line that is too long, or a failing read, ends the file. *)
Definition readOSRelease (path : string) (o : O) : gmap string string * O :=
  let '(file, o) := os_File path o in
  (match file with
   | None => ∅
   | Some (content, _) => fold_left os_release_line (scan_lines content).1 ∅
   end, o).

Definition readUptime (path : string) (o : O) : option spec_float * O :=
  let '(file, o) := os_File path o in
  (match file with
   | Some (data, false) =>
     let data := TrimSpace data in
     ParseFloat (match Cut " " data with Some (first, _) => first | None => data end)
   | _ => None
   end, o).

Definition native_Snapshot (o : O) : observation * O :=
  let '(err, o) := os_Err o in
  match err with
  | Some err => ((None, Some err), o)
  | None =>
    let '(hostname, o) := os_Hostname o in
    match hostname with
    | Err _ => ((None, Some (Text "read hostname: %w" [])), o)
    | Ok hostname =>
      let '(observed_at, o) := os_Now o in
      let result : dict :=
        <["hostname" := AString hostname]> (<["goos" := AString os_GOOS]> (<["architecture" := AString os_GOARCH]>
          (<["cpu_count" := ANumber os_NumCPU]> {["observed_at" := ATime observed_at]}))) in
      let '(release, o) := readOSRelease "/etc/os-release" o in
      let result := (AString <$> release) ∪ result in
      let '(uptime, o) := readUptime "/proc/uptime" o in
      let result := match uptime with Some uptime => <["uptime_seconds" := AFloat uptime]> result | None => result end in
      ((Some result, None), o)
    end
  end.

Definition native_ServiceStatus (unit : string) (o : O) : observation * O :=
  let '(path, o) := os_LookPath "systemctl" o in
  match path with
  | None => ((None, Some (Text "systemctl is not available" [])), o)
  | Some path =>
    let '(output, o) := os_Output path
      ["show"; "--no-page"; "--property=Id,LoadState,ActiveState,SubState,UnitFileState"; unit] o in
    (match output with
     | ExitError stderr => (None, Some (Text "systemctl status failed: %s" [TrimSpace stderr]))
     | NotRun _ => (None, Some (Text "run systemctl: %w" []))
     | Output output => parse_status unit output
     end, o)
  end.
End native.

(** The test cases. *)
Example toSnakeCase_example :
  toSnakeCase "ActiveState" = "active_state" /\ toSnakeCase "UnitFileState" = "unit_file_state" /\ toSnakeCase "Id" = "id".
Proof. by vm_compute. Qed.
Definition release_example : string := print_lines [
  "# comment"; "ID=quantum"; "VERSION_ID=" +:+ quoted (to_bytes "0.1");
  "PRETTY_NAME=" +:+ quoted (to_bytes "Quantum CoreOS " ++ [backslash; quote_double] ++ to_bytes "Foundation" ++
                             [backslash; quote_double])].
Example os_release_example :
  map_to_list (fold_left os_release_line (scan_lines release_example).1 ∅) ≡ₚ
    [("os_id", "quantum"); ("os_version", "0.1");
     ("os_name", of_bytes (to_bytes "Quantum CoreOS " ++ [quote_double] ++ to_bytes "Foundation" ++ [quote_double]))].
Proof. vm_compute. apply (bool_decide_unpack _). by vm_compute. Qed.

(** ** Reading systemctl back *)

(** What [systemctl show] prints for the properties the broker asks for. *)
Definition status_properties (state : ServiceState) (file_state : string) : list (string * string) :=
  [("Id", SS_Unit state); ("LoadState", SS_LoadState state); ("ActiveState", SS_ActiveState state);
   ("SubState", SS_SubState state); ("UnitFileState", file_state)].
Definition property_line (p : string * string) : string := p.1 +:+ "=" +:+ p.2.

Lemma status_line_property result p : no_byte "=" p.1 = true -> p.1 <> "" ->
  status_line result (property_line p) = <[toSnakeCase p.1 := AString p.2]> result.
Proof.
  intros H Hp. unfold status_line, property_line. rewrite (Cut_line _ _ H). apply neqb_true in Hp. by rewrite Hp.
Qed.

Lemma status_properties_keys state file_state p : p ∈ status_properties state file_state ->
  no_byte "=" p.1 = true /\ p.1 <> "".
Proof.
  unfold status_properties. intros H.
  repeat (apply elem_of_cons in H as [->|H]; [by split|]). by apply not_elem_of_nil in H.
Qed.

(** Their names in the result are distinct. *)
Lemma status_properties_inj state file_state p q :
  p ∈ status_properties state file_state -> q ∈ status_properties state file_state ->
  toSnakeCase q.1 = toSnakeCase p.1 -> p = q.
Proof.
  unfold status_properties. intros Hp Hq.
  repeat (apply elem_of_cons in Hp as [->|Hp]); try by apply not_elem_of_nil in Hp.
  all: repeat (apply elem_of_cons in Hq as [->|Hq]); try by apply not_elem_of_nil in Hq.
  all: vm_compute toSnakeCase; done.
Qed.

(** C40 What [systemctl] reports reaches its readers unchanged, whatever the order of its lines: the inventory reads the state
    back, the broker reads exactly the six entries it passes on, and the state that transactions compare is the active state
    as printed.  (Values hold no line breaks and fit into the scanner's buffer, as unit states do.) *)
Theorem systemctl_read_back unit state file_state lines :
  (lines ≡ₚ property_line <$> status_properties state file_state -> forallb plain_line lines = true ->
   exists d, parse_status unit (print_lines lines) = (Some d, None) /\
     d = <["id" := AString (SS_Unit state)]> (<["load_state" := AString (SS_LoadState state)]>
         (<["active_state" := AString (SS_ActiveState state)]> (<["sub_state" := AString (SS_SubState state)]>
         (<["unit_file_state" := AString file_state]> {["unit" := AString unit]})))) /\
     stateValue (Some d) "active_state" = ToLower (TrimSpace (SS_ActiveState state))) /\
  (lines ≡ₚ service_lines state -> forallb plain_line lines = true -> parse_service unit (print_lines lines) = Ok state).
Proof.
  split; [|apply parse_service_print]. intros Hp H. eexists. split; [|split; [reflexivity|reflexivity]].
  unfold parse_status. rewrite (scan_print _ H). do 2 f_equal.
  rewrite (fold_left_perm _ _ _ _ Hp).
  - unfold status_properties. csimpl. rewrite !status_line_property by done. cbn [fst snd].
    apply map_eq. intros k. vm_compute toSnakeCase.
    rewrite !lookup_insert. repeat case_decide; subst; try done.
  - intros d x y. rewrite !Hp. intros (p & -> & Hx)%list_elem_of_fmap (q & -> & Hy)%list_elem_of_fmap.
    rewrite !status_line_property by (eapply status_properties_keys; eassumption).
    destruct (decide (p = q)) as [->|Hne]; [done|]. apply insert_insert_ne. intros Hk. apply Hne.
    by apply (status_properties_inj state file_state).
Qed.

(** [systemctl] need not print the properties in the order they were asked for. *)
Lemma systemctl_read_back_witness :
  stateValue (parse_status "quantum-runtime.service"
    (print_lines (rev (property_line <$> status_properties (running "quantum-runtime.service") "enabled")))).1 "active_state" = "active" /\
  parse_service "quantum-runtime.service" (print_lines (rev (service_lines (running "quantum-runtime.service")))) =
    Ok (running "quantum-runtime.service").
Proof.
  split.
  - destruct (systemctl_read_back "quantum-runtime.service" (running "quantum-runtime.service") "enabled"
      (rev (property_line <$> status_properties (running "quantum-runtime.service") "enabled"))) as [H _].
    destruct H as (d & Hd & _ & Hv); [by rewrite <- Permutation_rev|by vm_compute|]. rewrite Hd. exact Hv.
  - apply (systemctl_read_back "quantum-runtime.service" (running "quantum-runtime.service") "enabled");
      [by rewrite <- Permutation_rev|by vm_compute].
Defined.
