(* ===== verification/Broker.v ===== *)
(** * The broker server, qcored

    [internal/broker/{server,approval}.go] and the start-up of [cmd/qcored/main.go]: authentication of the
    public service and of forwarded actors, the handlers, and the life of the process over requests and restarts.
    Requests are served in the order in which they take the lock of the grant store; what other requests and the rest of the
    machine do meanwhile is up to the abstract [System]. *)

From S2P Require Import Prelude GoStrings Sha256 GoTime Mux Config Protocol Actors Plans Grants ServiceControl System Registry Mutations.
#[local] Open Scope Z_scope.

Definition maxForwardedActorTokenBytes : Z := 4096.

Record confirmationEnvelope := { CE_Plan : OperationPlan; CE_ActorToken : string }.
Record approvedExecutionEnvelope := {
  AE_Plan : OperationPlan; AE_ConfirmationToken : string; AE_ActorToken : string }.

(** The grants of [SecurityBoundary] are state ([broker_state]). *)
Record Server := {
  Srv_Registry : Registry;
  Srv_Token : string;
  Srv_Actors : option Authenticator
}.

Definition authenticateActor (actors : option Authenticator) (token : string) : result Actor :=
  match actors with
  | None => fail "broker actor authentication is not configured"
  | Some authenticate =>
    let token := TrimSpace token in
    if (token == "") || (maxForwardedActorTokenBytes <? slen token) then fail "valid actor credential required"
    else
      match authenticate token with
      | None => fail "valid actor credential required"
      | Some actor => Ok actor
      end
  end.

(** ** Requests and answers *)

(** What [decodeJSON] makes of a body: not JSON of the expected shape (or too long), more than one value,
    or a value. *)
Inductive decoded (A : Type) := BodyInvalid | BodyTrailing | BodyValue (a : A).
Arguments BodyInvalid {_}.
Arguments BodyTrailing {_}.
Arguments BodyValue {_} _.

Inductive broker_request :=
| GetHealth
| GetOperations (broker_token : string)
| PostPlan (broker_token : string) (body : decoded OperationRequest)
| PostExecute (broker_token : string) (body : decoded OperationRequest)
| PostConfirm (broker_token : string) (body : decoded confirmationEnvelope)
| PostExecuteApproved (broker_token : string) (body : decoded approvedExecutionEnvelope)
| Unrouted (u : unmatched). (* answered by the multiplexer itself *)

Inductive body :=
| JSONHealth
| JSONOperations (definitions : list OperationDefinition)
| JSONProblem (p : Problem)
| JSONPlan (plan : BrokerPlan)
| JSONGrant (grant : GrantResponse)
| JSONOperation (response : OperationResponse)
| PlainUnmatched (u : unmatched).

Record http_response := { HTTP_Status : Z; HTTP_Body : body }.

Definition writeJSON (status : Z) (payload : body) : http_response :=
  {| HTTP_Status := status; HTTP_Body := payload |}.
Definition writeProblem (status : Z) (code message : string) : http_response :=
  writeJSON status (JSONProblem (problem code message)).
Definition writeOperationResponse (response : OperationResponse) : http_response :=
  let status :=
    if Resp_Status response == "rejected" then 400
    else if Resp_Status response == "failed" then 500 else 200 in
  writeJSON status (JSONOperation response).

(** ** The log

    The records of [logOperation] and of [handleConfirm], in their fields; the journal adds time and level. *)
Inductive log_line :=
| BrokerOperation (audit_id request_id plan_actor executor action risk status : string) (duration_ms : Z)
| ConfirmationIssued (grant_id plan_id plan_digest plan_actor approver action : string).

(** [Milliseconds] cuts towards zero. *)
Definition logOperation (response : OperationResponse) (planActor executor : string) : log_line :=
  BrokerOperation (Resp_AuditID response) (Resp_RequestID response) planActor executor (Resp_Action response)
    (Resp_Risk response) (Resp_Status response) (Sub (Resp_FinishedAt response) (Resp_StartedAt response) ÷ Millisecond).
Definition logConfirmation (grant : GrantResponse) (plan : OperationPlan) (approver : Actor) : log_line :=
  ConfirmationIssued (Grant_ID (GR_Grant grant)) (Plan_ID plan) (Plan_Digest plan) (Actor_ID (Plan_Actor plan))
    (Actor_ID approver) (Plan_Action plan).

(** The grant store of the process, with its file, and the machine. *)
Record broker_state (S : Type) := { BS_Grants : grant_process; BS_World : world S }.
Arguments BS_Grants {_} _.
Arguments BS_World {_} _.

(** What the environment contributes to a grant operation. *)
Record grant_env := { GE_IO : persist_io; GE_Entropy : issue_entropy; GE_Now : time }.

(** A request is answered, with the lines it logged, or its connection dropped by a panic, or never answered. *)
Inductive served (S : Type) :=
| Answered (response : http_response) (lines : list log_line) (st : broker_state S)
| Dropped (st : broker_state S)
| Unanswered.
Arguments Answered {_} _ _ _.
Arguments Dropped {_} _.
Arguments Unanswered {_}.

Section server.
Context {S : Type} `{!System S}.

(** Run an operation of the machine, then go on. *)
Definition with_machine {A} (m : M S A) (k : A -> broker_state S -> served S) (st : broker_state S) : served S :=
  match m (BS_World st) with
  | Done a w => k a {| BS_Grants := BS_Grants st; BS_World := w |}
  | Panicked w => Dropped {| BS_Grants := BS_Grants st; BS_World := w |}
  | Diverged => Unanswered
  end.

Definition with_grant_store (store : GrantStore) (file : grant_file) (st : broker_state S) : broker_state S :=
  {| BS_Grants := {| GP_Path := GP_Path (BS_Grants st); GP_TTL := GP_TTL (BS_Grants st);
                     GP_Store := Some store; GP_File := file |};
     BS_World := BS_World st |}.

Definition decodeJSON {A} (b : decoded A) (k : A -> served S) (st : broker_state S) : served S :=
  match b with
  | BodyInvalid => Answered (writeProblem 400 "invalid_json" "valid JSON request required") [] st
  | BodyTrailing => Answered (writeProblem 400 "invalid_json" "request body must contain exactly one JSON object") [] st
  | BodyValue a => k a
  end.

Definition handleCatalog (srv : Server) (st : broker_state S) : served S :=
  Answered (writeJSON 200 (JSONOperations (Catalog (Srv_Registry srv)))) [] st.

Definition handlePlan (srv : Server) (b : decoded OperationRequest) (st : broker_state S) : served S :=
  decodeJSON b (fun request =>
    let plan := Plan (Srv_Registry srv) request in
    Answered (writeJSON (if BP_Valid plan then 200 else 400) (JSONPlan plan)) [] st) st.

Definition handleExecute (srv : Server) (b : decoded OperationRequest) (st : broker_state S) : served S :=
  decodeJSON b (fun request =>
    with_machine (Execute (Srv_Registry srv) request)
      (fun response st =>
         Answered (writeOperationResponse response) [logOperation response (Req_Actor request) ""] st) st) st.

Definition handleConfirm (srv : Server) (env : grant_env) (b : decoded confirmationEnvelope)
    (st : broker_state S) : served S :=
  match GP_Store (BS_Grants st) with
  | None => Answered (writeProblem 503 "confirmation_unavailable" "broker confirmation state is unavailable") [] st
  | Some store =>
    decodeJSON b (fun envelope =>
      let plan := CE_Plan envelope in
      with_machine now (fun t st =>
        match ValidateApprovedPlan (Srv_Registry srv) t plan with
        | Some p => Answered (writeJSON 400 (JSONProblem p)) [] st
        | None =>
          match authenticateActor (Srv_Actors srv) (CE_ActorToken envelope) with
          | Err _ => Answered (writeProblem 401 "approver_unauthorized" "valid human approver credential required") [] st
          | Ok approver =>
            if (Actor_Kind approver != ActorHuman) || negb (HasPermission approver PermissionConfirm) then
              Answered (writeProblem 403 "approver_forbidden" "actor may not issue confirmation grants") [] st
            else
              let '(grant, store, file) :=
                Issue (GE_IO env) (GE_Entropy env) (GE_Now env) plan approver store (GP_File (BS_Grants st)) in
              let st := with_grant_store store file st in
              match grant with
              | Err _ => Answered (writeProblem 400 "confirmation_rejected"
                                     "operation plan cannot be confirmed under current policy") [] st
              | Ok grant => Answered (writeJSON 201 (JSONGrant grant)) [logConfirmation grant plan approver] st
              end
          end
        end) st) st
  end.

(** [rejectedApprovedResponse]: the answer before it is finished. *)
Definition rejectedApprovedResponse (plan : OperationPlan) : M S (Problem -> time -> OperationResponse) :=
  started ← now;
  request_id ← (if Plan_RequestID plan == "" then newID "request" else mret (Plan_RequestID plan));
  audit_id ← newID "audit";
  mret (fun p finished => new_response started request_id (Plan_Action plan) "rejected" audit_id (Plan_Risk plan)
                            finished None (Some p)).

Definition handleExecuteApproved (srv : Server) (env : grant_env) (b : decoded approvedExecutionEnvelope)
    (st : broker_state S) : served S :=
  decodeJSON b (fun envelope =>
    let plan := AE_Plan envelope in
    with_machine (rejectedApprovedResponse plan) (fun rejected st =>
      let reject p st :=
        with_machine now (fun finished st => Answered (writeOperationResponse (rejected p finished)) [] st) st in
      match GP_Store (BS_Grants st) with
      | None => reject (problem "confirmation_unavailable" "broker confirmation state is unavailable") st
      | Some store =>
        match authenticateActor (Srv_Actors srv) (AE_ActorToken envelope) with
        | Err _ => reject mutation_forbidden st
        | Ok executor =>
          if negb (may_mutate executor) then reject mutation_forbidden st
          else
            with_machine now (fun t st =>
              match ValidateApprovedPlan (Srv_Registry srv) t plan with
              | Some p => reject p st
              | None =>
                let '(grant, store, file) :=
                  Consume (GE_IO env) (GE_Now env) (AE_ConfirmationToken envelope) plan
                    (Actor_ID (Plan_Actor plan)) (Plan_Action plan) store (GP_File (BS_Grants st)) in
                let st := with_grant_store store file st in
                match grant with
                | Err _ =>
                  reject (problem "confirmation_rejected"
                            "confirmation grant is invalid, expired, stale, or already consumed") st
                | Ok _ =>
                  with_machine (ExecuteApproved (Srv_Registry srv) plan executor)
                    (fun response st =>
                       Answered (writeOperationResponse response)
                         [logOperation response (Actor_ID (Plan_Actor plan)) (Actor_ID executor)] st) st
                end
              end) st
        end
      end) st) st.

(** [requireBrokerAuth]. *)
Definition broker_authorized (srv : Server) (header : string) : bool :=
  let provided := TrimSpace header in
  negb (negb (slen provided =? slen (Srv_Token srv))
        || negb (ConstantTimeCompare (to_bytes provided) (to_bytes (Srv_Token srv)))).

Definition requireBrokerAuth (srv : Server) (header : string) (next : broker_state S -> served S)
    (st : broker_state S) : served S :=
  if broker_authorized srv header then next st
  else Answered (writeProblem 401 "unauthorized" "valid broker token required") [] st.

(** [Handler]: the routes. *)
Definition serve (srv : Server) (env : grant_env) (request : broker_request) (st : broker_state S) : served S :=
  match request with
  | GetHealth => Answered (writeJSON 200 JSONHealth) [] st
  | GetOperations token => requireBrokerAuth srv token (handleCatalog srv) st
  | PostPlan token b => requireBrokerAuth srv token (handlePlan srv b) st
  | PostExecute token b => requireBrokerAuth srv token (handleExecute srv b) st
  | PostConfirm token b => requireBrokerAuth srv token (handleConfirm srv env b) st
  | PostExecuteApproved token b => requireBrokerAuth srv token (handleExecuteApproved srv env b) st
  | Unrouted u => Answered (writeJSON (unmatched_status u) (PlainUnmatched u)) [] st
  end.
End server.

(** ** Starting qcored *)

(** What the files named by the configuration hold. *)
Record broker_files := {
  BF_PolicyDocument : policy_document;
  BF_Grants : grant_file;
  BF_ActorRegistry : registry_file
}.

Definition loadMutationSecurity (cfg : BrokerConfig) (files : broker_files) :
    result (option Authenticator * GrantStore * Policy) :=
  policy ← LoadPolicy (BC_ServicePolicyFile cfg) (BF_PolicyDocument files);
  match OpenGrantStore (BC_GrantPath cfg) (BC_GrantTTL cfg) (BF_Grants files) with
  | Err e => Err (errorf "open broker confirmation store" [])
  | Ok grants =>
    if BC_ActorFile cfg != "" then
      match LoadActorRegistry (BF_ActorRegistry files) with
      | Err e => Err (errorf "load broker actor registry" [])
      | Ok credentials => Ok (Some (AuthenticateBearer credentials), grants, policy)
      end
    else Ok (None, grants, policy)
  end.

(** The server [serve] of [cmd/qcored/main.go] starts, with its grant store. *)
Definition start_broker (cfg : BrokerConfig) (files : broker_files) : result (Server * GrantStore) :=
  '(actors, grants, policy) ← loadMutationSecurity cfg files;
  registry ← EnableServiceMutations true true policy (BC_TransactionTimeout cfg) (BC_ServicePollInterval cfg) NewRegistry;
  Ok ({| Srv_Registry := registry; Srv_Token := BC_BrokerToken cfg; Srv_Actors := actors |}, grants).

(** ** What one request does *)

Definition consume_op (env : grant_env) (e : approvedExecutionEnvelope) : grant_op :=
  OpConsume (GE_IO env) (GE_Now env) (AE_ConfirmationToken e) (AE_Plan e) (Actor_ID (Plan_Actor (AE_Plan e)))
    (Plan_Action (AE_Plan e)).
Definition issue_op (env : grant_env) (plan : OperationPlan) (approver : Actor) : grant_op :=
  OpIssue (GE_IO env) (GE_Entropy env) (GE_Now env) plan approver.

Section serving.
Context {S : Type} `{!System S} `{!SystemLaws S}.

Definition resumed (gp : grant_process) (w : world S) : broker_state S := {| BS_Grants := gp; BS_World := w |}.

Definition finish_approved (plan : OperationPlan) (executor : Actor) (gp : grant_process) (e : exec S OperationResponse) : served S :=
  match e with
  | Done response w =>
    Answered (writeOperationResponse response) [logOperation response (Actor_ID (Plan_Actor plan)) (Actor_ID executor)] (resumed gp w)
  | Panicked w => Dropped (resumed gp w)
  | Diverged => Unanswered
  end.

(** Only the execution of a read-only operation logs a line of its own. *)
Definition quiet_lines (srv : Server) (request : broker_request) (response : http_response) (lines : list log_line) : Prop :=
  lines = [] \/
  exists token op answer, request = PostExecute token (BodyValue op) /\ broker_authorized srv token = true /\
    response = writeOperationResponse answer /\ lines = [logOperation answer (Req_Actor op) ""].

(** The four kinds of requests: reads and rejections, grant operations without success, confirmations, approved
    executions. *)
Inductive served_case (srv : Server) (env : grant_env) (request : broker_request) (st : broker_state S) :
  served S -> Prop :=
| sc_quiet response lines s added :
  actions added = [] -> quiet_lines srv request response lines -> (forall g, HTTP_Body response <> JSONGrant g) ->
  served_case srv env request st
    (Answered response lines (resumed (BS_Grants st) (World s (w_log (BS_World st) ++ added))))
| sc_refused op gp response s :
  grant_step (BS_Grants st) op = (ResNone, gp) -> (forall g, HTTP_Body response <> JSONGrant g) ->
  served_case srv env request st (Answered response [] (resumed gp (World s (w_log (BS_World st)))))
| sc_confirmed token envelope approver g gp t s :
  request = PostConfirm token (BodyValue envelope) -> broker_authorized srv token = true ->
  ValidateApprovedPlan (Srv_Registry srv) t (CE_Plan envelope) = None ->
  authenticateActor (Srv_Actors srv) (CE_ActorToken envelope) = Ok approver ->
  grant_step (BS_Grants st) (issue_op env (CE_Plan envelope) approver) =
    (ResIssued g (CE_Plan envelope) approver, gp) ->
  served_case srv env request st
    (Answered (writeJSON 201 (JSONGrant g)) [logConfirmation g (CE_Plan envelope) approver] (resumed gp (World s (w_log (BS_World st)))))
| sc_executed token envelope executor grant gp s e :
  request = PostExecuteApproved token (BodyValue envelope) -> broker_authorized srv token = true ->
  authenticateActor (Srv_Actors srv) (AE_ActorToken envelope) = Ok executor ->
  may_mutate executor = true ->
  grant_step (BS_Grants st) (consume_op env envelope) =
    (ResConsumed (AE_ConfirmationToken envelope) grant (GE_Now env) (AE_Plan envelope), gp) ->
  approved_outcome (Srv_Registry srv) (AE_Plan envelope) executor (World s (w_log (BS_World st))) e ->
  (forall resp w, e = Done resp w -> Resp_Action resp = Plan_Action (AE_Plan envelope)) ->
  served_case srv env request st (finish_approved (AE_Plan envelope) executor gp e).

Lemma with_machine_runs {A} (m : M S A) (k : A -> broker_state S -> served S) st
    (Q : A -> list event -> S -> Prop) (Z : served S -> Prop) :
  runs m (BS_World st) Q ->
  (forall a added s, Q a added s -> Z (k a (resumed (BS_Grants st) (World s (w_log (BS_World st) ++ added))))) ->
  Z (with_machine m k st).
Proof. intros (a & added & s & E & H) HZ. unfold with_machine. rewrite E. by apply HZ. Qed.

(** A step that only reads the clock or the random source. *)
Lemma with_silent {A} (m : M S A) (k : A -> broker_state S -> served S) st (Z : served S -> Prop) :
  runs m (BS_World st) (fun _ added _ => added = []) ->
  (forall a s, Z (k a (resumed (BS_Grants st) (World s (w_log (BS_World st)))))) ->
  Z (with_machine m k st).
Proof.
  intros Hm HZ. eapply with_machine_runs; [exact Hm|]. intros a added s ->. rewrite app_nil_r. apply HZ.
Qed.

Lemma quiet srv env request st response :
  (forall g, HTTP_Body response <> JSONGrant g) -> served_case srv env request st (Answered response [] st).
Proof.
  intros H. destruct st as [gp [s log]].
  pose proof (sc_quiet srv env request {| BS_Grants := gp; BS_World := World s log |} response [] s [] eq_refl (or_introl eq_refl) H) as Hq.
  simpl in Hq. by rewrite app_nil_r in Hq.
Qed.

Lemma quiet_later srv env request st response s :
  (forall g, HTTP_Body response <> JSONGrant g) ->
  served_case srv env request st (Answered response [] (resumed (BS_Grants st) (World s (w_log (BS_World st))))).
Proof.
  intros H. pose proof (sc_quiet srv env request st response [] s [] eq_refl (or_introl eq_refl) H) as Hq. by rewrite app_nil_r in Hq.
Qed.

Lemma handleConfirm_cases srv env token b st :
  broker_authorized srv token = true ->
  served_case srv env (PostConfirm token b) st (handleConfirm srv env b st).
Proof.
  intros Hauth. unfold handleConfirm.
  destruct (GP_Store (BS_Grants st)) as [store|] eqn:Es; [|by apply quiet].
  destruct b as [| |envelope]; cbn [decodeJSON]; [by apply quiet..|].
  apply with_silent; [by apply now_runs|]. intros t s.
  destruct (ValidateApprovedPlan _ t _) as [p|] eqn:Ev; [by apply quiet_later|].
  destruct (authenticateActor _ _) as [approver|err] eqn:Ea; [|by apply quiet_later].
  destruct (_ || _); [by apply quiet_later|]. cbn [BS_Grants resumed].
  destruct (Issue _ _ _ _ _ _ _) as [[grant store'] file'] eqn:Ei.
  assert (Estep : grant_step (BS_Grants st) (issue_op env (CE_Plan envelope) approver) =
    (match grant with Ok g => ResIssued g (CE_Plan envelope) approver | Err _ => ResNone end,
     {| GP_Path := GP_Path (BS_Grants st); GP_TTL := GP_TTL (BS_Grants st); GP_Store := Some store'; GP_File := file' |})).
  { unfold grant_step, issue_op. rewrite Es, Ei. by destruct grant. }
  destruct grant as [g|err].
  - eapply sc_confirmed; try eassumption; done.
  - eapply sc_refused; [exact Estep|done].
Qed.

Lemma rejected_silent plan (w : world S) : runs (rejectedApprovedResponse plan) w (fun _ added _ => added = []).
Proof.
  unfold rejectedApprovedResponse. apply runs_bind, now_runs. intros started s1 l1.
  apply runs_bind, request_id_runs. intros id s2 _ l2. apply runs_bind, newID_runs. intros audit s3 l3.
  by apply runs_ret.
Qed.

Lemma handleExecuteApproved_cases srv env token b st :
  confined (Srv_Registry srv) -> broker_authorized srv token = true ->
  served_case srv env (PostExecuteApproved token b) st (handleExecuteApproved srv env b st).
Proof.
  intros Hc Hauth. unfold handleExecuteApproved.
  destruct b as [| |envelope]; cbn [decodeJSON]; [by apply quiet..|].
  apply with_silent; [apply rejected_silent|]. intros rejected s. cbn [BS_Grants resumed].
  assert (Hrej : forall p s', served_case srv env (PostExecuteApproved token (BodyValue envelope)) st
    (with_machine now (fun finished st => Answered (writeOperationResponse (rejected p finished)) [] st)
       (resumed (BS_Grants st) (World s' (w_log (BS_World st)))))).
  { intros p s'. apply with_silent; [by apply now_runs|]. intros finished s''. by apply (quiet_later srv env _ st _ s''). }
  destruct (GP_Store (BS_Grants st)) as [store|] eqn:Es; [|apply Hrej].
  destruct (authenticateActor _ _) as [executor|err] eqn:Ea; [|apply Hrej].
  destruct (may_mutate executor) eqn:Em; cbn [negb]; [|apply Hrej].
  apply with_silent; [by apply now_runs|]. intros t s1. cbn [BS_Grants resumed].
  destruct (ValidateApprovedPlan _ t _) as [p|] eqn:Ev; [apply Hrej|].
  destruct (Consume _ _ _ _ _ _ _ _) as [[grant store'] file'] eqn:Ei.
  assert (Estep : grant_step (BS_Grants st) (consume_op env envelope) =
    (match grant with Ok g => ResConsumed (AE_ConfirmationToken envelope) g (GE_Now env) (AE_Plan envelope)
                 | Err _ => ResNone end,
     {| GP_Path := GP_Path (BS_Grants st); GP_TTL := GP_TTL (BS_Grants st); GP_Store := Some store'; GP_File := file' |})).
  { unfold grant_step, consume_op. rewrite Es, Ei. by destruct grant. }
  destruct grant as [g|err].
  - pose proof (ExecuteApproved_runs (Srv_Registry srv) (AE_Plan envelope) executor
      (World s1 (w_log (BS_World st))) Hc) as Ho.
    unfold with_machine. cbn [BS_World with_grant_store resumed BS_Grants].
    pose proof (sc_executed srv env (PostExecuteApproved token (BodyValue envelope)) st token envelope executor g _ s1 _
      eq_refl Hauth Ea Em Estep Ho (approved_action _ _ _ _)) as H.
    unfold finish_approved in H. destruct (ExecuteApproved _ _ _ _) as [response w|w|]; exact H.
  - apply (with_silent now); [by apply now_runs|]. intros finished s2.
    eapply (sc_refused srv env _ st _ _ _ s2); [exact Estep|done].
Qed.

(** *** Every request *)

Lemma handleExecute_cases srv env token b st :
  confined (Srv_Registry srv) -> broker_authorized srv token = true ->
  served_case srv env (PostExecute token b) st (handleExecute srv b st).
Proof.
  intros Hc Hauth. unfold handleExecute. destruct b as [| |request]; cbn [decodeJSON]; [by apply quiet..|].
  eapply with_machine_runs; [by apply Execute_runs|]. intros resp added s (Ha & _).
  apply sc_quiet; [exact Ha|right; by eexists _, _, _|done].
Qed.

Lemma serve_cases srv env request st :
  confined (Srv_Registry srv) -> served_case srv env request st (serve srv env request st).
Proof.
  intros Hc. destruct request as [|token|token b|token b|token b|token b|u]; simpl; [by apply quiet| | | | | |by apply quiet];
    unfold requireBrokerAuth; (destruct (broker_authorized srv token) eqn:Ha; [|by apply quiet]).
  - by apply quiet.
  - unfold handlePlan. destruct b; by apply quiet.
  - by apply handleExecute_cases.
  - by apply handleConfirm_cases.
  - by apply handleExecuteApproved_cases.
Qed.
End serving.

Definition request_token (request : broker_request) : option string :=
  match request with
  | GetHealth | Unrouted _ => None
  | GetOperations token | PostPlan token _ | PostExecute token _ | PostConfirm token _
  | PostExecuteApproved token _ => Some token
  end.

(** Broker authentication.  Only the health endpoint and the multiplexer itself answer without the shared token: with any other header, up to
    surrounding blanks, every endpoint answers 401 and changes neither grants nor machine. *)
Theorem broker_token_required {S} `{!System S} srv env request (st : broker_state S) :
  (forall header, broker_authorized srv header = true <-> TrimSpace header = Srv_Token srv) /\
  (forall header, request_token request = Some header -> TrimSpace header <> Srv_Token srv ->
   serve srv env request st = Answered (writeProblem 401 "unauthorized" "valid broker token required") [] st) /\
  (request_token request = None ->
   serve srv env request st =
   Answered (match request with Unrouted u => writeJSON (unmatched_status u) (PlainUnmatched u) | _ => writeJSON 200 JSONHealth end) [] st).
Proof.
  assert (Hiff : forall header, broker_authorized srv header = true <-> TrimSpace header = Srv_Token srv).
  { intros header. unfold broker_authorized. rewrite negb_true_iff, orb_false_iff, !negb_false_iff, Z.eqb_eq.
    rewrite ConstantTimeCompare_true. split; [intros [_ H]; by apply to_bytes_inj|by intros ->]. }
  split; [exact Hiff|]. split.
  - intros header Hr Hne. rewrite <- Hiff in Hne. apply not_true_iff_false in Hne.
    destruct request; simplify_eq/=; unfold requireBrokerAuth; by rewrite Hne.
  - by destruct request.
Qed.

(** C17 Every request ends.  On a confined broker no request loops: each is answered, or dropped by the one panic the code
    has, which needs an execution of a plan whose action is surrounded by blanks. *)
Theorem broker_requests_end {S} `{!System S} `{!SystemLaws S} srv env request (st : broker_state S) :
  confined (Srv_Registry srv) ->
  (exists response lines st', serve srv env request st = Answered response lines st') \/
  (exists token envelope st', request = PostExecuteApproved token (BodyValue envelope) /\
     TrimSpace (Plan_Action (AE_Plan envelope)) <> Plan_Action (AE_Plan envelope) /\
     serve srv env request st = Dropped st').
Proof.
  intros Hc. destruct (serve_cases srv env request st Hc)
    as [response lines s added _ _ _|op gp response s _ _|token envelope approver g gp t s _ _ _ _ _
       |token envelope executor grant gp s e Hr _ _ _ _ [| |s' t operation _ _ Hne] _]; try (left; by eexists _, _, _).
  right. by eexists token, envelope, _.
Qed.

(** ** The life of the broker *)

(** Requests, and restarts of the process; [read_ok] says whether the grant file could be read. *)
Inductive broker_op :=
| BServe (env : grant_env) (request : broker_request)
| BRestart (read_ok : bool).

Record round (S : Type) := {
  rd_before : broker_state S;
  rd_op : broker_op;
  rd_response : option http_response; (* [None]: dropped, or a restart *)
  rd_after : broker_state S
}.
Arguments rd_before {_} _.
Arguments rd_op {_} _.
Arguments rd_response {_} _.
Arguments rd_after {_} _.

Section running.
Context {S : Type} `{!System S}.

Definition broker_step (srv : Server) (op : broker_op) (st : broker_state S) : option http_response * broker_state S :=
  match op with
  | BServe env request =>
    match serve srv env request st with
    | Answered response _ st' => (Some response, st')
    | Dropped st' => (None, st')
    | Unanswered => (None, st)
    end
  | BRestart read_ok => (None, {| BS_Grants := (grant_step (BS_Grants st) (OpRestart read_ok)).2; BS_World := BS_World st |})
  end.

Fixpoint broker_run (srv : Server) (st : broker_state S) (ops : list broker_op) : list (round S) :=
  match ops with
  | [] => []
  | op :: ops =>
    let '(response, st') := broker_step srv op st in
    {| rd_before := st; rd_op := op; rd_response := response; rd_after := st' |} :: broker_run srv st' ops
  end.

(** The lifecycle actions of a round. *)
Definition round_actions (rd : round S) : list (verb * string) :=
  actions (drop (length (w_log (BS_World (rd_before rd)))) (w_log (BS_World (rd_after rd)))).

(** A round that confirms a plan. *)
Definition confirms (srv : Server) (rd : round S) (g : GrantResponse) (plan : OperationPlan) (approver : Actor) : Prop :=
  exists env token envelope,
    rd_op rd = BServe env (PostConfirm token (BodyValue envelope)) /\ broker_authorized srv token = true /\
    CE_Plan envelope = plan /\ authenticateActor (Srv_Actors srv) (CE_ActorToken envelope) = Ok approver /\
    rd_response rd = Some (writeJSON 201 (JSONGrant g)).

(** A round in which the authenticated executor presents the token for the plan and the grant is consumed. *)
Definition presents (srv : Server) (rd : round S) (confirmation : string) (t : time) (plan : OperationPlan) : Prop :=
  exists env token envelope executor,
    rd_op rd = BServe env (PostExecuteApproved token (BodyValue envelope)) /\ broker_authorized srv token = true /\
    AE_Plan envelope = plan /\ AE_ConfirmationToken envelope = confirmation /\ GE_Now env = t /\
    authenticateActor (Srv_Actors srv) (AE_ActorToken envelope) = Ok executor /\ may_mutate executor = true.

(** The action of the plan on its one unit, which is in the policy, and at most one recovery on it. *)
Definition acts_as_planned (srv : Server) (rd : round S) (plan : OperationPlan) : Prop :=
  exists t operation unit v rest, approvable (Srv_Registry srv) t plan operation /\
    trimmed_parameters plan = {["unit" := unit]} /\ is_Some (R_ServiceTargets (Srv_Registry srv) !! unit) /\
    verb_of (Plan_Action plan) = Some v /\ round_actions rd = (v, unit) :: rest /\
    (rest = [] \/ exists v', rest = [(v', unit)]).

(** What a round means for the grants. *)
Record round_grants (srv : Server) (rd : round S) (r : grant_result) : Prop := {
  rg_issued g plan approver : r = ResIssued g plan approver -> confirms srv rd g plan approver;
  rg_consumed confirmation g t plan : r = ResConsumed confirmation g t plan ->
    presents srv rd confirmation t plan /\ (round_actions rd = [] \/ acts_as_planned srv rd plan);
  rg_other : round_actions rd <> [] -> exists confirmation g t plan, r = ResConsumed confirmation g t plan
}.
End running.

Section simulation.
Context {S : Type} `{!System S} `{!SystemLaws S}.

Lemma drop_log (log added : list event) : drop (length log) (log ++ added) = added.
Proof. apply drop_app_length. Qed.

Lemma finish_step srv env request st plan executor gp e (w : world S) :
  serve srv env request st = finish_approved plan executor gp e -> e <> Diverged ->
  exists response w', broker_step srv (BServe env request) st = (response, resumed gp w') /\
    w_log w' = final_log w e.
Proof.
  intros Hs He. simpl. rewrite Hs. destruct e as [resp w'|w'|]; simpl; [by eexists _, w'..|done].
Qed.

Lemma approved_not_diverged r plan executor (w : world S) e :
  approved_outcome r plan executor w e -> e <> Diverged.
Proof. by destruct 1. Qed.

Lemma grant_step_moves p op r gp :
  synced p -> grant_step p op = (r, gp) -> synced gp /\ grants_move r (current p) (current gp).
Proof. intros Hs E. pose proof (grant_step_move p op Hs) as H. by rewrite E in H. Qed.

(** Each round is one move of the grants. *)
Lemma broker_step_move srv op (st : broker_state S) :
  confined (Srv_Registry srv) -> synced (BS_Grants st) ->
  let '(response, st') := broker_step srv op st in
  let rd := {| rd_before := st; rd_op := op; rd_response := response; rd_after := st' |} in
  synced (BS_Grants st') /\
  exists r, grants_move r (current (BS_Grants st)) (current (BS_Grants st')) /\ round_grants srv rd r.
Proof.
  intros Hc Hs. destruct op as [env request|read_ok].
  2: { simpl. destruct (grant_step_move (BS_Grants st) (OpRestart read_ok) Hs) as [Hs' Hm]. split; [exact Hs'|].
       exists ResNone. split; [destruct read_ok; exact Hm|]. split; try done. intros Hne. destruct Hne.
       unfold round_actions. simpl. by rewrite drop_all. }
  pose proof (serve_cases srv env request st Hc) as H. remember (serve srv env request st) as o eqn:Eo.
  destruct H as [response lines s added Ha _ Hb|op gp response s E Hb|token envelope approver g gp t s Hr Hauth Hv Hact E
                |token envelope executor grant gp s e Hr Hauth Hact Hm E Ho _].
  - simpl. rewrite <- Eo. split; [exact Hs|]. exists ResNone. split; [constructor|].
    split; try done. intros Hne. destruct Hne. unfold round_actions. simpl. by rewrite drop_log.
  - simpl. rewrite <- Eo. destruct (grant_step_moves _ _ _ _ Hs E) as [Hs' Hmv].
    split; [exact Hs'|]. exists ResNone. split; [exact Hmv|]. split; try done.
    intros Hne. destruct Hne. unfold round_actions. simpl. by rewrite drop_all.
  - simpl. rewrite <- Eo. destruct (grant_step_moves _ _ _ _ Hs E) as [Hs' Hmv].
    split; [exact Hs'|]. eexists. split; [exact Hmv|]. split; try done.
    + intros ? ? ? [= <- <- <-]. exists env, token, envelope. rewrite Hr. by split_and!.
    + intros Hne. destruct Hne. unfold round_actions. simpl. by rewrite drop_all.
  - pose proof (approved_not_diverged _ _ _ _ _ Ho) as Hnd.
    destruct (finish_step srv env request st (AE_Plan envelope) executor gp e (World s (w_log (BS_World st)))) as (response & w' & Es & Hlog);
      [by symmetry|exact Hnd|]. rewrite Es.
    destruct (grant_step_moves _ _ _ _ Hs E) as [Hs' Hmv]. split; [exact Hs'|].
    eexists. split; [exact Hmv|]. split; [by intros ? ? ? [=]| |intros _; by repeat eexists].
    intros ? ? ? ? [= <- <- <- <-]. split; [exists env, token, envelope, executor; subst request; by split_and!|].
    destruct (approved_actions _ _ _ _ _ Ho) as (added & Hadd & Hacts). rewrite Hadd in Hlog. simpl in Hlog.
    assert (Hra : forall response', round_actions {| rd_before := st; rd_op := BServe env request; rd_response := response';
      rd_after := resumed gp w' |} = actions added).
    { intros response'. unfold round_actions. simpl. by rewrite Hlog, drop_log. }
    destruct Hacts as [Hacts|(t & operation & unit & v & rest & _ & Hap & Hp & Ht & Hv & Hacts & Hrest)];
      [left; by rewrite Hra|right]. exists t, operation, unit, v, rest. rewrite Hra. by split_and!.
Qed.

Lemma broker_run_moves srv ops (st : broker_state S) :
  confined (Srv_Registry srv) -> synced (BS_Grants st) ->
  exists rs l', moves (current (BS_Grants st)) rs l' /\ Forall2 (round_grants srv) (broker_run srv st ops) rs.
Proof.
  intros Hc. revert st. induction ops as [|op ops IH]; intros st Hs; simpl.
  { exists [], (current (BS_Grants st)). split; constructor. }
  pose proof (broker_step_move srv op st Hc Hs) as Hstep.
  destruct (broker_step srv op st) as [response st']. destruct Hstep as [Hs' (r & Hm & Hr)].
  destruct (IH st' Hs') as (rs & l' & Hms & Hf). exists (r :: rs), l'. split; [by econstructor|by constructor].
Qed.
End simulation.

(** ** No mutation without confirmation *)

(** Plans as a JSON decoder delivers them; approvers as the actor registry does. *)
Definition wire_broker_op (op : broker_op) : Prop :=
  match op with
  | BServe _ (PostConfirm _ (BodyValue envelope)) =>
    wire_plan (CE_Plan envelope) /\ valid_utf8 (Plan_Digest (CE_Plan envelope)) = true
  | BServe _ (PostExecuteApproved _ (BodyValue envelope)) => wire_plan (AE_Plan envelope)
  | _ => True
  end.

Definition wire_actors (srv : Server) : Prop :=
  forall authenticate token actor, Srv_Actors srv = Some authenticate -> authenticate token = Some actor -> wire_actor actor.

(** The clock of the grant store is not at the zero instant. *)
Definition broker_clock_set (op : broker_op) : Prop :=
  match op with BServe env _ => GE_Now env <> 0 | BRestart _ => True end.

(** The confirmation token a round presents. *)
Definition presented (op : broker_op) : option string :=
  match op with
  | BServe _ (PostExecuteApproved _ (BodyValue envelope)) => Some (AE_ConfirmationToken envelope)
  | _ => None
  end.

Lemma authenticateActor_wire srv token actor :
  wire_actors srv -> authenticateActor (Srv_Actors srv) token = Ok actor -> wire_actor actor.
Proof.
  unfold authenticateActor. intros Hw H. destruct (Srv_Actors srv) as [authenticate|] eqn:E; [|done].
  destruct (_ || _); [done|]. destruct (authenticate _) as [a|] eqn:Ea; [|done]. injection H as <-. by eapply Hw.
Qed.

Section safety.
Context {S : Type} `{!System S} `{!SystemLaws S}.

Lemma broker_run_ops srv ops (st : broker_state S) k rd :
  broker_run srv st ops !! k = Some rd -> ops !! k = Some (rd_op rd).
Proof.
  revert st k. induction ops as [|op ops IH]; intros st k; simpl; [done|].
  destruct (broker_step srv op st) as [response st']. destruct k as [|k]; simpl; [by intros [= <-]|apply IH].
Qed.

Lemma run_wire_results srv ops (st : broker_state S) rs :
  wire_actors srv -> Forall wire_broker_op ops -> Forall2 (round_grants srv) (broker_run srv st ops) rs ->
  Forall wire_result rs.
Proof.
  intros Hwa Hw Hf. apply Forall_lookup. intros k r Hr.
  apply (Forall2_lookup_r _ _ _ _ _ Hf) in Hr as (rd & Hrd & Hrg). apply broker_run_ops in Hrd.
  rewrite Forall_lookup in Hw. specialize (Hw _ _ Hrd).
  destruct r as [g plan approver|token g t plan|]; [| |done].
  - destruct (rg_issued _ _ _ Hrg g plan approver eq_refl) as (env & tok & envelope & Eop & _ & <- & Ha & _).
    rewrite Eop in Hw. destruct Hw as [Hw1 Hw2]. split; [exact Hw1|]. split; [exact Hw2|].
    by eapply authenticateActor_wire.
  - destruct (rg_consumed _ _ _ Hrg token g t plan eq_refl) as [(env & tok & envelope & ex & Eop & _ & <- & _) _].
    by rewrite Eop in Hw.
Qed.

(** A broker whose grant file does not exist yet. *)
Definition broker_start (path : string) (ttl : duration) (file : grant_file) (w : world S) : broker_state S :=
  {| BS_Grants := grant_start path ttl file; BS_World := w |}.

(** Rounds that change services, traced back to the confirmation; the theorem follows. *)
Lemma confirmed_mutation srv path ttl (w : world S) ops k rd :
  confined (Srv_Registry srv) -> wire_actors srv -> Forall wire_broker_op ops ->
  let rounds := broker_run srv (broker_start path ttl FileMissing w) ops in
  rounds !! k = Some rd -> round_actions rd <> [] ->
  exists token t plan, presents srv rd token t plan /\ acts_as_planned srv rd plan /\
    (exists unit, trimmed_parameters plan = {["unit" := unit]} /\ is_Some (compiledServices !! unit)) /\
    exists i rd0 g plan0 approver, (i < k)%nat /\ rounds !! i = Some rd0 /\ confirms srv rd0 g plan0 approver /\
      issuance g plan0 approver /\ Sum256 token = Sum256 (GR_Token g) /\ t < Grant_ExpiresAt (GR_Grant g) /\
      (binding plan = binding plan0 \/ collision (canonical_plan plan) (canonical_plan plan0)).
Proof.
  intros Hc Hwa Hw rounds Hk Hacts.
  destruct (broker_run_moves srv ops (broker_start path ttl FileMissing w) Hc (grant_start_synced _ _ _))
    as (rs & l' & Hms & Hf). fold rounds in Hf.
  unfold broker_start in Hms. cbn [BS_Grants] in Hms. rewrite grant_start_missing in Hms.
  pose proof (run_wire_results srv ops _ rs Hwa Hw Hf) as Hwr.
  destruct (Forall2_lookup_l _ _ _ _ _ Hf Hk) as (r & Hr & Hrg).
  destruct (rg_other _ _ _ Hrg Hacts) as (token & g & t & plan & ->).
  destruct (rg_consumed _ _ _ Hrg token g t plan eq_refl) as [Hp [Hnone|Hplanned]]; [done|].
  exists token, t, plan. split; [exact Hp|]. split; [exact Hplanned|]. split.
  { destruct Hplanned as (t' & op & unit & v & rest & _ & Hu & [target Ht] & _). exists unit. split; [exact Hu|].
    destruct (cf_targets _ Hc _ _ Ht) as (spec & E & _). by exists spec. }
  destruct (moves_provenance rs l' Hms Hwr k token g t plan Hr) as (i & Hlt & r0 & plan0 & approver & Hi & Hiss & Hsum & -> & Hexp & _ & Hb).
  apply (Forall2_lookup_r _ _ _ _ _ Hf) in Hi as (rd0 & Hrd0 & Hrg0).
  exists i, rd0, r0, plan0, approver. split; [exact Hlt|]. split; [exact Hrd0|].
  split; [by apply (rg_issued _ _ _ Hrg0)|]. by split_and!.
Qed.

(** C2 No mutation without confirmation.  Run a confined broker from an empty grant store over any requests, restarts,
    file-system failures, timings and machine behaviour.  If a round changes a service at all, then it is an approved
    execution of an authenticated, permitted executor; its actions are the action of the plan on the plan's one unit, which is
    compiled in, and at most one recovery on that unit; and an earlier round answered 201 to the confirmation, by an
    authenticated human with the permission who is not the actor of the plan, of a plan that agrees with the executed
    one on everything the digest covers (or two texts collide under SHA-256), issuing the presented token. *)
Theorem mutations_are_confirmed srv path ttl (w : world S) ops k rd :
  confined (Srv_Registry srv) -> wire_actors srv -> Forall wire_broker_op ops ->
  let rounds := broker_run srv (broker_start path ttl FileMissing w) ops in
  rounds !! k = Some rd -> round_actions rd <> [] ->
  exists token t plan, presents srv rd token t plan /\ acts_as_planned srv rd plan /\
    (exists unit, trimmed_parameters plan = {["unit" := unit]} /\ is_Some (compiledServices !! unit)) /\
    exists i rd0 g plan0 approver, (i < k)%nat /\ rounds !! i = Some rd0 /\ confirms srv rd0 g plan0 approver /\
      issuance g plan0 approver /\ Sum256 token = Sum256 (GR_Token g) /\ t < Grant_ExpiresAt (GR_Grant g) /\
      (binding plan = binding plan0 \/ collision (canonical_plan plan) (canonical_plan plan0)).
Proof. apply confirmed_mutation. Qed.

(** C3 One execution per token.  Whatever the grant file held at the start, in no run of the broker do two rounds change
    services under the same confirmation token, across restarts and failures of every kind. *)
Theorem one_execution_per_token srv path ttl file (w : world S) ops k1 k2 rd1 rd2 token1 token2 :
  confined (Srv_Registry srv) -> Forall broker_clock_set ops ->
  let rounds := broker_run srv (broker_start path ttl file w) ops in
  rounds !! k1 = Some rd1 -> rounds !! k2 = Some rd2 ->
  round_actions rd1 <> [] -> round_actions rd2 <> [] ->
  presented (rd_op rd1) = Some token1 -> presented (rd_op rd2) = Some token2 ->
  Sum256 token1 = Sum256 token2 -> k1 = k2.
Proof.
  intros Hc Hclock rounds H1 H2 A1 A2 P1 P2 Hsum.
  destruct (broker_run_moves srv ops (broker_start path ttl file w) Hc (grant_start_synced _ _ _))
    as (rs & l' & Hms & Hf). fold rounds in Hf.
  assert (Hres : forall k rd token, rounds !! k = Some rd -> round_actions rd <> [] -> presented (rd_op rd) = Some token ->
    exists g t plan, rs !! k = Some (ResConsumed token g t plan)).
  { intros k rd token Hk Ha Hp. destruct (Forall2_lookup_l _ _ _ _ _ Hf Hk) as (r & Hr & Hrg).
    destruct (rg_other _ _ _ Hrg Ha) as (token' & g & t & plan & ->).
    destruct (rg_consumed _ _ _ Hrg _ _ _ _ eq_refl) as [(env & tok & envelope & ex & Eop & _ & _ & <- & _) _].
    rewrite Eop in Hp. injection Hp as <-. eauto. }
  destruct (Hres _ _ _ H1 A1 P1) as (g1 & t1 & plan1 & R1). destruct (Hres _ _ _ H2 A2 P2) as (g2 & t2 & plan2 & R2).
  eapply single_use_lookup; [|exact R1|exact R2|exact Hsum].
  eapply moves_single_use; [exact Hms|]. intros token g t plan Hin.
  apply list_elem_of_lookup in Hin as [k Hk].
  apply (Forall2_lookup_r _ _ _ _ _ Hf) in Hk as (rd & Hrd & Hrg). apply broker_run_ops in Hrd.
  destruct (rg_consumed _ _ _ Hrg _ _ _ _ eq_refl) as [(env & tok & envelope & ex & Eop & _ & _ & _ & <- & _) _].
  rewrite Forall_lookup in Hclock. specialize (Hclock _ _ Hrd). rewrite Eop in Hclock. exact Hclock.
Qed.
End safety.

(** ** Starting a confined broker *)

(** The registry of a broker that started. *)
Lemma start_broker_registry cfg files srv grants :
  start_broker cfg files = Ok (srv, grants) ->
  exists policy, policy ⊆ compiledServices /\
    Srv_Registry srv = enabled policy (BC_TransactionTimeout cfg) (BC_ServicePollInterval cfg) NewRegistry.
Proof.
  unfold start_broker, loadMutationSecurity. intros H.
  destruct (LoadPolicy _ _) as [policy|] eqn:Ep; [|done]. cbn [mbind result_bind] in H.
  destruct (OpenGrantStore _ _ _) as [store|]; [|done]. exists policy. split; [by eapply LoadPolicy_subset|].
  destruct (BC_ActorFile cfg != ""); [destruct (LoadActorRegistry _) as [credentials|]; [|done]|];
    cbn [mbind result_bind] in H; (destruct (EnableServiceMutations _ _ _ _ _ _) as [r|] eqn:He; [|done]); simplify_eq/=;
    by destruct (EnableServiceMutations_inv _ _ _ _ _ He).
Qed.

Lemma started_confined cfg files srv grants :
  start_broker cfg files = Ok (srv, grants) -> confined (Srv_Registry srv).
Proof.
  intros (policy & Hsub & ->)%start_broker_registry. apply enabled_confined; [exact Hsub|apply NewRegistry_confined].
Qed.

(** C28 Start-up.  Whatever the configuration files hold, a broker that starts is confined, keeps the configured token and
    opened its grant store; it has an actor registry only if one is configured and loads, it enables exactly the units
    its policy allows, and its durations are in range.  Every error of a file prevents the start. *)
Theorem start_broker_confined cfg files srv grants :
  start_broker cfg files = Ok (srv, grants) ->
  confined (Srv_Registry srv) /\ Srv_Token srv = BC_BrokerToken cfg /\
  OpenGrantStore (BC_GrantPath cfg) (BC_GrantTTL cfg) (BF_Grants files) = Ok grants /\
  (exists policy, LoadPolicy (BC_ServicePolicyFile cfg) (BF_PolicyDocument files) = Ok policy /\
     forall unit, is_Some (R_ServiceTargets (Srv_Registry srv) !! unit) <-> Allows policy unit = true) /\
  (Srv_Actors srv = None <-> BC_ActorFile cfg = "") /\
  (BC_ActorFile cfg <> "" -> exists credentials, LoadActorRegistry (BF_ActorRegistry files) = Ok credentials /\
     Srv_Actors srv = Some (AuthenticateBearer credentials)) /\
  R_TransactionTimeout (Srv_Registry srv) = BC_TransactionTimeout cfg /\
  Second <= BC_TransactionTimeout cfg <= 2 * Minute /\ 10 * Millisecond <= BC_ServicePollInterval cfg <= 5 * Second.
Proof.
  unfold start_broker, loadMutationSecurity. intros H.
  destruct (LoadPolicy _ _) as [policy|] eqn:Ep; [|done]. cbn [mbind result_bind] in H.
  destruct (OpenGrantStore _ _ _) as [store|] eqn:Eg; [|done].
  assert (Hactors : exists actors,
    EnableServiceMutations true true policy (BC_TransactionTimeout cfg) (BC_ServicePollInterval cfg) NewRegistry
      = Ok (Srv_Registry srv) /\ Srv_Token srv = BC_BrokerToken cfg /\ Srv_Actors srv = actors /\ grants = store /\
    (actors = None <-> BC_ActorFile cfg = "") /\
    (BC_ActorFile cfg <> "" -> exists credentials, LoadActorRegistry (BF_ActorRegistry files) = Ok credentials /\
       actors = Some (AuthenticateBearer credentials))).
  { destruct (BC_ActorFile cfg != "") eqn:Ea; bool_prop;
      [destruct (LoadActorRegistry _) as [credentials|] eqn:Ec; [|done]|];
      cbn [mbind result_bind] in H;
      (destruct (EnableServiceMutations _ _ _ _ _ _) as [r|]; [|done]); simplify_eq/=.
    - exists (Some (AuthenticateBearer credentials)).
      repeat split; try done. intros _. by exists credentials.
    - exists None. by repeat split. }
  destruct Hactors as (actors & He & Htok & <- & -> & Hnone & Hsome).
  destruct (EnableServiceMutations_inv _ _ _ _ _ He) as (Er & Ht & Hi). rewrite Er.
  split; [apply enabled_confined; [by eapply LoadPolicy_subset|apply NewRegistry_confined]|].
  split; [exact Htok|]. split; [reflexivity|]. split.
  { exists policy. split; [reflexivity|]. intros unit. simpl. rewrite lookup_fmap, fmap_is_Some. unfold Allows.
    by rewrite bool_decide_eq_true. }
  split; [exact Hnone|]. split; [exact Hsome|]. split; [reflexivity|]. split; [exact Ht|exact Hi].
Qed.

(** ** A concrete broker *)

Definition example_authenticator : Authenticator := fun token =>
  if token == "approver-token" then Some example_approver
  else if token == "executor-token" then Some example_executor else None.
Definition example_server : Server :=
  {| Srv_Registry := example_registry; Srv_Token := "broker-secret"; Srv_Actors := Some example_authenticator |}.
Definition example_env : grant_env :=
  {| GE_IO := io_works; GE_Entropy := example_entropy; GE_Now := later |}.

Definition confirm_request : broker_request :=
  PostConfirm "broker-secret" (BodyValue {| CE_Plan := example_plan; CE_ActorToken := "approver-token" |}).
Definition execute_request : broker_request :=
  PostExecuteApproved " broker-secret "
    (BodyValue {| AE_Plan := example_plan; AE_ConfirmationToken := example_token; AE_ActorToken := "executor-token" |}).

(** An execution without confirmation, a confirmation, a restart, the execution and its replay. *)
Definition example_broker_ops : list broker_op :=
  [BServe example_env execute_request; BServe example_env confirm_request; BRestart true;
   BServe example_env execute_request; BServe example_env execute_request].
Definition example_rounds : list (round machine) :=
  broker_run example_server
    (broker_start "/var/lib/grants.json" (5 * Minute) FileMissing (idle_machine "inactive" ActionsWork later))
    example_broker_ops.

Example example_rounds_statuses :
  (fun rd => HTTP_Status <$> rd_response rd) <$> example_rounds = [Some 400; Some 201; None; Some 200; Some 400].
Proof. vm_compute. reflexivity. Qed.

Lemma example_rounds_actions :
  round_actions <$> example_rounds = [[]; []; []; [(VRestart, "quantum-runtime.service")]; []].
Proof. vm_compute. reflexivity. Qed.

Lemma example_broker_wire : Forall wire_broker_op example_broker_ops.
Proof.
  repeat (constructor; [first [exact I|exact example_plan_wire|split; [exact example_plan_wire|vm_compute; reflexivity]]|]).
  constructor.
Qed.

Lemma example_executor_wire : wire_actor example_executor.
Proof. repeat (constructor; [vm_compute; reflexivity|]). constructor. Qed.

Lemma example_server_wire : wire_actors example_server.
Proof.
  intros authenticate token actor [= <-]. unfold example_authenticator.
  destruct (token == "approver-token"); [intros [= <-]; exact example_approver_wire|].
  destruct (token == "executor-token"); [intros [= <-]; exact example_executor_wire|done].
Qed.

Lemma example_clock_set : Forall broker_clock_set example_broker_ops.
Proof. repeat (constructor; [first [exact I|vm_compute; discriminate]|]). constructor. Qed.

Lemma example_round_3 : exists rd, example_rounds !! 3%nat = Some rd /\ round_actions rd = [(VRestart, "quantum-runtime.service")].
Proof.
  pose proof (f_equal (lookup 3%nat) example_rounds_actions) as H. rewrite list_lookup_fmap in H.
  destruct (example_rounds !! 3%nat) as [rd|]; [|discriminate H]. exists rd. split; [done|]. by injection H.
Qed.

Lemma mutations_are_confirmed_witness :
  exists rd token t plan, example_rounds !! 3%nat = Some rd /\ presents example_server rd token t plan /\
    acts_as_planned example_server rd plan.
Proof.
  destruct example_round_3 as (rd & Hk & Ha).
  assert (Hne : round_actions rd <> []) by (rewrite Ha; discriminate).
  destruct (mutations_are_confirmed example_server "/var/lib/grants.json" (5 * Minute)
    (idle_machine "inactive" ActionsWork later) example_broker_ops 3 rd example_registry_confined example_server_wire
    example_broker_wire Hk Hne) as (token & t & plan & Hp & Hacts & _).
  exists rd, token, t, plan. split; [exact Hk|]. split; [exact Hp|exact Hacts].
Defined.

Lemma one_execution_per_token_witness :
  exists rd, example_rounds !! 3%nat = Some rd /\ round_actions rd <> [] /\ presented (rd_op rd) = Some example_token /\
    forall k rd', example_rounds !! k = Some rd' -> round_actions rd' <> [] ->
      presented (rd_op rd') = Some example_token -> 3%nat = k.
Proof.
  destruct example_round_3 as (rd & Hk & Ha).
  assert (Hne : round_actions rd <> []) by (rewrite Ha; discriminate).
  assert (Hp : presented (rd_op rd) = Some example_token).
  { apply broker_run_ops in Hk. injection Hk as <-. reflexivity. }
  exists rd. split; [exact Hk|]. split; [exact Hne|]. split; [exact Hp|]. intros k rd' Hk' Hne' Hp'.
  exact (one_execution_per_token example_server "/var/lib/grants.json" (5 * Minute) FileMissing
    (idle_machine "inactive" ActionsWork later) example_broker_ops 3 k rd rd' example_token example_token
    example_registry_confined example_clock_set Hk Hk' Hne Hne' Hp Hp' eq_refl).
Defined.

Lemma broker_requests_end_witness :
  exists response lines st', serve example_server example_env execute_request
    (broker_start "/var/lib/grants.json" (5 * Minute) FileMissing (idle_machine "inactive" ActionsWork later)) = Answered response lines st'.
Proof.
  destruct (broker_requests_end example_server example_env execute_request
    (broker_start "/var/lib/grants.json" (5 * Minute) FileMissing (idle_machine "inactive" ActionsWork later))
    example_registry_confined) as [H|(token & envelope & st' & E & H & _)]; [exact H|].
  exfalso. injection E as <- <-. apply H. vm_compute. reflexivity.
Defined.

Definition example_config : BrokerConfig :=
  {| BC_SocketPath := defaultBrokerSocket; BC_BrokerToken := "0123456789abcdef0123456789abcdef"; BC_ActorFile := "";
     BC_GrantPath := "/var/lib/grants.json"; BC_GrantTTL := 5 * Minute; BC_ServicePolicyFile := "";
     BC_TransactionTimeout := 30 * Second; BC_ServicePollInterval := Second; BC_RequestBodyLimit := defaultBodyLimit;
     BC_HeaderTimeout := 10 * Second; BC_IdleTimeout := 30 * Second |}.
Definition example_files : broker_files :=
  {| BF_PolicyDocument := PolicyUnreadable; BF_Grants := FileMissing; BF_ActorRegistry := RegistryUnreadable |}.

Lemma start_broker_confined_witness :
  exists srv grants, start_broker example_config example_files = Ok (srv, grants) /\ confined (Srv_Registry srv).
Proof.
  destruct (start_broker example_config example_files) as [[srv grants]|e] eqn:E.
  - exists srv, grants. split; [reflexivity|]. apply (start_broker_confined example_config example_files srv grants E).
  - exfalso. vm_compute in E. discriminate E.
Defined.
