(* ===== verification/BrokerLog.v ===== *)
(** * The journal of the broker

    [logOperation] and the record of [handleConfirm] (internal/broker/server.go) over the life of the broker: what the lines that
    [Broker.v] attaches to each answer say about who changed a service, and on whose word. *)

From S2P Require Import Prelude GoStrings Sha256 GoTime Protocol Actors Plans Grants ServiceControl System Registry Mutations Broker.
#[local] Open Scope Z_scope.

(** ** The lines of a round *)

Section rounds.
Context {S : Type} `{!System S}.

Definition served_lines (o : served S) : list log_line := match o with Answered _ lines _ => lines | _ => [] end.
Definition round_lines (srv : Server) (rd : round S) : list log_line :=
  match rd_op rd with
  | BServe env request => served_lines (serve srv env request (rd_before rd))
  | BRestart _ => []
  end.

Lemma broker_run_step srv ops (st : broker_state S) k rd :
  broker_run srv st ops !! k = Some rd -> broker_step srv (rd_op rd) (rd_before rd) = (rd_response rd, rd_after rd).
Proof.
  revert st k. induction ops as [|op ops IH]; intros st k; cbn [broker_run]; [done|].
  destruct (broker_step srv op st) as [response st'] eqn:E. destruct k as [|k]; cbn; [by intros [= <-]|apply IH].
Qed.

Context `{!SystemLaws S}.

(** An accepted confirmation is logged. *)
Lemma confirms_logged srv ops (st : broker_state S) k rd g plan approver :
  confined (Srv_Registry srv) -> broker_run srv st ops !! k = Some rd -> confirms srv rd g plan approver ->
  round_lines srv rd = [logConfirmation g plan approver].
Proof.
  intros Hc Hk (env & token & envelope & Eop & _ & <- & Ha & Er). apply broker_run_step in Hk.
  rewrite Eop, Er in Hk. unfold round_lines. rewrite Eop. cbn [broker_step] in Hk. revert Hk.
  destruct (serve_cases srv env (PostConfirm token (BodyValue envelope)) (rd_before rd) Hc)
    as [response lines s added _ _ Hb|op gp response s _ Hb|token' envelope' approver' g' gp t s E _ _ Ha' _
       |token' envelope' executor grant gp s e E]; [..|discriminate E].
  - intros [= -> _]. by destruct (Hb g).
  - intros [= -> _]. by destruct (Hb g).
  - injection E as <- <-. rewrite Ha in Ha'. injection Ha' as <-. by intros [= <- _].
Qed.

(** The line of a round that executes an approved plan. *)
Definition execution_line (plan : OperationPlan) (executor : Actor) (line : log_line) : Prop :=
  exists audit_id request_id risk status duration_ms,
    line = BrokerOperation audit_id request_id (Actor_ID (Plan_Actor plan)) (Actor_ID executor) (Plan_Action plan) risk status duration_ms.

Lemma mutation_logged srv ops (st : broker_state S) k rd token t plan :
  confined (Srv_Registry srv) -> broker_run srv st ops !! k = Some rd -> round_actions rd <> [] -> presents srv rd token t plan ->
  exists credential executor line, authenticateActor (Srv_Actors srv) credential = Ok executor /\ may_mutate executor = true /\
    round_lines srv rd = [line] /\ execution_line plan executor line.
Proof.
  intros Hc Hk Hacts (env & tok & envelope & executor & Eop & _ & <- & _ & _ & Ha & Hm). apply broker_run_step in Hk.
  unfold round_lines, round_actions in *. rewrite Eop in *. cbn [broker_step] in Hk. revert Hk.
  destruct (serve_cases srv env (PostExecuteApproved tok (BodyValue envelope)) (rd_before rd) Hc)
    as [response lines s added Hnone _ _|op gp response s _ _|token' envelope' approver' g' gp t' s E _ _ _ _
       |token' envelope' executor' grant gp s e E _ Ha' _ _ Ho Hact]; [| |discriminate E|].
  - intros [= _ E]. rewrite <-E in Hacts. cbn [BS_World resumed w_log] in Hacts. by rewrite drop_log in Hacts.
  - intros [= _ E]. rewrite <-E in Hacts. cbn [BS_World resumed w_log] in Hacts. by rewrite drop_all in Hacts.
  - injection E as <- <-. rewrite Ha in Ha'. injection Ha' as <-. intros Hstep. exists (AE_ActorToken envelope), executor.
    destruct e as [resp w|w|]; cbn [finish_approved] in *.
    + eexists. split; [exact Ha|]. split; [exact Hm|]. split; [reflexivity|]. unfold logOperation.
      assert (Resp_Action resp = Plan_Action (AE_Plan envelope)) as -> by by eapply Hact.
      by repeat eexists.
    + injection Hstep as _ E. rewrite <-E in Hacts. cbn [BS_World resumed w_log] in Hacts.
      inversion Ho as [| |s' t0 op _ _ Hne Ew]. subst. cbn in Hacts. by rewrite drop_all in Hacts.
    + by destruct (approved_not_diverged _ _ _ _ _ Ho).
Qed.
End rounds.

(** C15 The journal says who changed what.  Over any life of the broker that starts without grants: a round that changes a service at
    all logs exactly one line, which names an authenticated executor with the permission, the actor of the plan and the action of the
    plan that the round follows; and an earlier round logged one line of a confirmation, which names a human approver other than the
    actor of the plan, with the number, the actor and the action of that very plan (or two texts collide under SHA-256). *)
Theorem mutations_are_logged {S} `{!System S} `{!SystemLaws S} srv path ttl (w : world S) ops k rd :
  confined (Srv_Registry srv) -> wire_actors srv -> Forall wire_broker_op ops ->
  let rounds := broker_run srv (broker_start path ttl FileMissing w) ops in
  rounds !! k = Some rd -> round_actions rd <> [] ->
  exists plan, acts_as_planned srv rd plan /\
    (exists credential executor line, authenticateActor (Srv_Actors srv) credential = Ok executor /\ may_mutate executor = true /\
       round_lines srv rd = [line] /\ execution_line plan executor line) /\
    exists i rd0 plan0 approver grant_id digest, (i < k)%nat /\ rounds !! i = Some rd0 /\
      Actor_Kind approver = ActorHuman /\ Actor_ID approver <> Actor_ID (Plan_Actor plan0) /\
      round_lines srv rd0 = [ConfirmationIssued grant_id (Plan_ID plan0) digest (Actor_ID (Plan_Actor plan0)) (Actor_ID approver)
                               (Plan_Action plan0)] /\
      (Plan_ID plan0 = Plan_ID plan /\ Actor_ID (Plan_Actor plan0) = Actor_ID (Plan_Actor plan) /\ Plan_Action plan0 = Plan_Action plan \/
       collision (canonical_plan plan) (canonical_plan plan0)).
Proof.
  intros Hc Hwa Hw rounds Hk Hacts.
  destruct (confirmed_mutation srv path ttl w ops k rd Hc Hwa Hw Hk Hacts)
    as (token & t & plan & Hp & Hplanned & _ & i & rd0 & g & plan0 & approver & Hi & Hrd0 & Hconf & Hiss & _ & _ & Hbind).
  exists plan. split; [exact Hplanned|]. split; [by eapply mutation_logged|].
  eexists i, rd0, plan0, approver, _, _. split; [exact Hi|]. split; [exact Hrd0|]. split; [apply Hiss|]. split; [apply Hiss|].
  split; [by eapply confirms_logged|]. destruct Hbind as [Hb|Hcol]; [left|by right]. by injection Hb.
Qed.

Lemma example_journal :
  round_lines example_server <$> example_rounds =
  [[]; [ConfirmationIssued "grant-01" "plan-0102" (Plan_Digest example_plan) "human:alice" "human:bob" "service.restart"]; [];
   [BrokerOperation "audit-09" "req-1" "human:alice" "service:deployer" "service.restart" "low" "completed" 0]; []].
Proof. vm_compute. reflexivity. Qed.

Lemma mutations_are_logged_witness :
  exists rd plan executor line, example_rounds !! 3%nat = Some rd /\ acts_as_planned example_server rd plan /\
    round_lines example_server rd = [line] /\ execution_line plan executor line.
Proof.
  destruct example_round_3 as (rd & Hk & Ha).
  assert (Hne : round_actions rd <> []) by (rewrite Ha; discriminate).
  destruct (mutations_are_logged example_server "/var/lib/grants.json" (5 * Minute)
    (idle_machine "inactive" ActionsWork later) example_broker_ops 3 rd example_registry_confined example_server_wire
    example_broker_wire Hk Hne) as (plan & Hp & (credential & executor & line & _ & _ & Hl & Hx) & _).
  exists rd, plan, executor, line. split; [exact Hk|]. split; [exact Hp|]. split; [exact Hl|exact Hx].
Defined.
