(* ===== verification/Listener.v ===== *)
(** * The socket of the broker

    [internal/broker/listener.go]: creating the Unix socket over a path that may already exist.  Every system call is answered by
    [listen_io], so other processes may change the path between two calls; the model keeps the calls that change it. *)

From S2P Require Import Prelude.

(** What [os.Lstat] says about the path, and what dialling it gives. *)
Inductive lstat_result := LstatMissing | LstatError | LstatSocket | LstatOther.
Inductive dial_result := DialConnected | DialRefused | DialMissing | DialError.

(** The answers of the system; [false] is an error. *)
Record listen_io := {
  LI_MkdirAll : bool;
  LI_Lstat : lstat_result;
  LI_Dial : dial_result;
  LI_Remove : bool;
  LI_Listen : bool;
  LI_Chmod : bool
}.

(** The calls that change the file system, in order. *)
Inductive listen_call := CallMkdirAll | CallRemove | CallListen | CallChmod (mode : string) | CallClose.
#[export] Instance listen_call_eq_dec : EqDecision listen_call.
Proof. solve_decision. Defined.

(** The part between the directory and [net.Listen]: refuse, go on, or remove a stale socket first. *)
Definition clear_path (io : listen_io) : result unit * list listen_call :=
  match LI_Lstat io with
  | LstatMissing => (Ok tt, [])
  | LstatError => (fail "inspect socket path: %w", [])
  | LstatOther => (fail "socket path exists and is not a Unix socket", [])
  | LstatSocket =>
    match LI_Dial io with
    | DialConnected => (fail "qcored is already listening on the configured socket", [])
    | DialError => (fail "inspect existing socket listener: %w", [])
    | DialRefused | DialMissing =>
      if negb (LI_Remove io) then (fail "remove stale socket: %w", [CallRemove]) else (Ok tt, [CallRemove])
    end
  end.

Definition ListenUnix (io : listen_io) : result unit * list listen_call :=
  if negb (LI_MkdirAll io) then (fail "create socket directory: %w", [CallMkdirAll])
  else
    let '(cleared, calls) := clear_path io in
    let calls := CallMkdirAll :: calls in
    match cleared with
    | Err e => (Err e, calls)
    | Ok _ =>
      if negb (LI_Listen io) then (fail "listen on Unix socket: %w", calls ++ [CallListen])
      else if negb (LI_Chmod io) then
        (fail "set socket permissions: %w", calls ++ [CallListen; CallChmod "0660"; CallClose; CallRemove])
      else (Ok tt, calls ++ [CallListen; CallChmod "0660"])
    end.

(** [cleanupListener.Close]: both steps are always taken; a path that is gone already is no error.  The arguments say how
    closing and removing end. *)
Inductive remove_result := Removed | RemoveMissing | RemoveError.
Definition Close (close_ok : bool) (removed : remove_result) : result unit * list listen_call :=
  (if negb close_ok then fail "close"
   else match removed with RemoveError => fail "remove" | _ => Ok tt end, [CallClose; CallRemove]).

(** Read the calls of one outcome. *)
Ltac split_calls :=
  repeat match goal with
  | H : _ = ?before ++ _ :: _ |- _ => destruct before as [|? before]; simplify_eq/=
  | H : [] = _ ++ _ :: _ |- _ => by destruct (app_cons_not_nil _ _ _ H)
  end.
Ltac refused := split_and!; intros; split_calls; try done; first [exfalso; set_solver|naive_solver].

(** C35 The socket is not stolen.  The path is removed before listening only if it was a socket that nobody answered on; any other
    file, a live socket and every doubt end in an error before anything but the directory is touched.  Success means
    the broker listens, with mode 0660 set; and when setting the mode fails, the socket is closed and removed again. *)
Theorem ListenUnix_spec io :
  let '(listening, calls) := ListenUnix io in
  let stale := LI_Lstat io = LstatSocket /\ (LI_Dial io = DialRefused \/ LI_Dial io = DialMissing) in
  (listening = Ok tt ->
     (LI_Lstat io = LstatMissing /\ calls = [CallMkdirAll; CallListen; CallChmod "0660"]) \/
     (stale /\ calls = [CallMkdirAll; CallRemove; CallListen; CallChmod "0660"])) /\
  (forall before after, calls = before ++ CallRemove :: after -> CallListen ∉ before -> stale) /\
  (~ stale -> LI_Lstat io <> LstatMissing -> is_ok listening = false /\ calls = [CallMkdirAll]) /\
  (forall before after, calls = before ++ CallListen :: after -> listening <> Ok tt ->
     after = [] /\ LI_Listen io = false \/ after = [CallChmod "0660"; CallClose; CallRemove]).
Proof.
  unfold ListenUnix, clear_path, fail. destruct io as [mkdir lstat dial remove listen chmod]. cbn.
  destruct mkdir; cbn; [destruct lstat; cbn; [|refused|destruct dial; cbn; [refused| | |refused];
    (destruct remove; cbn; [|refused])|refused]; (destruct listen; cbn; [destruct chmod; cbn|])|refused].
  all: refused.
Qed.
