(* ===== verification/Control.v ===== *)
(** * The public API, quantum-control

    [internal/control/*.go]: authentication and permissions, the handlers, and the
    interleaving of any number of requests over the shared plan cache and audit log.  The privileged broker is an interface,
    [BrokerAPI]; [Client.v] implements it. *)

From Stdlib Require Import Ascii.
From S2P Require Import Inventory.
From S2P Require Import Prelude GoStrings Sha256 GoTime GoConv Mux Config Protocol Actors Plans Grants AuditLog.
#[local] Open Scope Z_scope.

(** ** What the server needs from its surroundings *)

(** [broker.API] with the extension [broker.ApprovalAPI], over the state [B] of the client and of all behind it.
    [api_Approval] says whether the client implements the extension. *)
Class BrokerAPI (B : Type) := {
  api_Health : B -> option text * B;
  api_Catalog : B -> result (list OperationDefinition) * B;
  api_Plan : OperationRequest -> B -> result BrokerPlan * B;
  api_Execute : OperationRequest -> B -> result OperationResponse * B;
  api_Approval : bool;
  api_Confirm : OperationPlan -> string -> B -> result GrantResponse * B;
  api_ExecuteApproved : OperationPlan -> string -> string -> B -> result OperationResponse * B
}.

(** What the parties of an approved execution may rely on: the client can count the executions it asked the broker for, and only
    [api_ExecuteApproved] asks for one, at most once, for what it was called with. *)
Class ExecutionLog (B : Type) `{!BrokerAPI B} := {
  execution : Type;
  executions : B -> list execution;
  executes : execution -> OperationPlan -> string -> string -> Prop;
  log_Health b : executions (api_Health b).2 = executions b;
  log_Catalog b : executions (api_Catalog b).2 = executions b;
  log_Plan request b : executions (api_Plan request b).2 = executions b;
  log_Execute request b : executions (api_Execute request b).2 = executions b;
  log_Confirm plan credential b : executions (api_Confirm plan credential b).2 = executions b;
  log_ExecuteApproved plan confirmation credential b :
    executions (api_ExecuteApproved plan confirmation credential b).2 = executions b \/
    exists x, executions (api_ExecuteApproved plan confirmation credential b).2 = executions b ++ [x] /\
      executes x plan confirmation credential
}.

(** The clock, the random source, the file system of the audit log, and the inventory of the host
    ([defaultInventoryScanner]). *)
Class Host (H : Type) := {
  #[global] host_scanner :: Scanner H;
  host_now : H -> time * H;
  host_entropy : H -> entropy * H;
  host_append : H -> append_io * H
}.

(** ** Start-up *)

(** [SecurityDependencies]. *)
Record SecurityDependencies := {
  SD_Authenticator : option Authenticator;
  SD_Audit : option AuditStore;
  SD_Plans : option PlanCache;
  SD_PlanBuilder : PlanBuilder
}.

(** What the files named by the configuration hold. *)
Record control_files := { CF_ActorRegistry : registry_file; CF_AuditFile : audit_file }.

Definition LoadSecurityDependencies (cfg : ControlConfig) (files : control_files) : result SecurityDependencies :=
  authenticators ←
    (if CC_ActorFile cfg != "" then
       match LoadActorRegistry (CF_ActorRegistry files) with
       | Err _ => fail "load actor registry"
       | Ok registry => Ok [Some (AuthenticateBearer registry)]
       end
     else Ok []);
  authenticators ←
    (if CC_APIToken cfg != "" then
       match NewStaticAuthenticator LegacyServiceActor (CC_APIToken cfg) with
       | Err _ => fail "initialize legacy API identity"
       | Ok legacy => Ok (authenticators ++ [Some (AuthenticateBearer legacy)])
       end
     else Ok authenticators);
  match OpenAuditStore (CC_AuditPath cfg) (CF_AuditFile files) with
  | Err _ => fail "open audit store"
  | Ok audit =>
    Ok {| SD_Authenticator := match authenticators with [] => None | _ => Some (MultiAuthenticateBearer authenticators) end;
          SD_Audit := Some audit;
          SD_Plans := Some NewPlanCache;
          SD_PlanBuilder := {| PB_TTL := CC_PlanTTL cfg |} |}
  end.

(** [Server]: what does not change while it runs.  The cache and the log are state ([control_state]). *)
Record Server := {
  Srv_Authenticator : option Authenticator;
  Srv_Audit : bool;
  Srv_Plans : bool;
  Srv_PlanBuilder : PlanBuilder
}.

Record control_state (H B : Type) := {
  CS_Host : H;
  CS_Broker : B;
  CS_Audit : option (AuditStore * audit_file);
  CS_Plans : PlanCache
}.
Arguments CS_Host {_ _} _.
Arguments CS_Broker {_ _} _.
Arguments CS_Audit {_ _} _.
Arguments CS_Plans {_ _} _.

Definition NewServerWithSecurity {H B} (host : H) (broker : B) (file : audit_file) (d : SecurityDependencies) :
    Server * control_state H B :=
  let builder := if PB_TTL (SD_PlanBuilder d) <=? 0 then {| PB_TTL := 5 * Minute |} else SD_PlanBuilder d in
  ({| Srv_Authenticator := SD_Authenticator d; Srv_Audit := bool_decide (is_Some (SD_Audit d)); Srv_Plans := true;
      Srv_PlanBuilder := builder |},
   {| CS_Host := host; CS_Broker := broker; CS_Audit := (fun audit => (audit, file)) <$> SD_Audit d;
      CS_Plans := default NewPlanCache (SD_Plans d) |}).

(** [NewServer]: without files, with the API token as the only credential if it is usable, and no audit log. *)
Definition defaultSecurityDependencies (cfg : ControlConfig) : SecurityDependencies :=
  {| SD_Authenticator :=
       if CC_APIToken cfg != "" then
         match NewStaticAuthenticator LegacyServiceActor (CC_APIToken cfg) with
         | Ok legacy => Some (AuthenticateBearer legacy)
         | Err _ => None
         end
       else None;
     SD_Audit := None;
     SD_Plans := Some NewPlanCache;
     SD_PlanBuilder := {| PB_TTL := 5 * Minute |} |}.
Definition NewServer {H B} (host : H) (broker : B) (cfg : ControlConfig) : Server * control_state H B :=
  NewServerWithSecurity host broker AuditMissing (defaultSecurityDependencies cfg).

(** ** Handlers as programs

    A handler is a tree of effects on the shared state.  Each effect is atomic: the plan cache, the audit store and the
    broker guard it with their locks.  Between two effects of one request other requests run. *)

Inductive effect :=
| ReadEntropy
| BuildPlan (b : PlanBuilder) (actor : Actor) (session : string) (plan : BrokerPlan)
| PutPlan (plan : OperationPlan)
| GetPlan (id : string)
| AppendAudit (event : AuditEvent)
| ReadIntegrity
| QueryAudit (limit : Z) (actor action : string)
| CallHealth
| CallCatalog
| ScanSnapshot
| ScanComponent (id : string)
| CallPlan (request : OperationRequest)
| CallExecute (request : OperationRequest)
| CallConfirm (plan : OperationPlan) (credential : string)
| CallExecuteApproved (plan : OperationPlan) (confirmation credential : string).

(** The lookup of a plan also tells the clock reading it was made at; handlers do not use it. *)
Definition answer (e : effect) : Type :=
  match e with
  | ReadEntropy => entropy
  | BuildPlan _ _ _ _ => result OperationPlan
  | PutPlan _ => unit
  | GetPlan _ => time * option OperationPlan
  | AppendAudit _ => result AuditRecord
  | ReadIntegrity => dict
  | QueryAudit _ _ _ => list AuditRecord
  | CallHealth => option text
  | CallCatalog => result (list OperationDefinition)
  | ScanSnapshot => result Snapshot
  | ScanComponent _ => result (option Component)
  | CallPlan _ => result BrokerPlan
  | CallExecute _ => result OperationResponse
  | CallConfirm _ _ => result GrantResponse
  | CallExecuteApproved _ _ _ => result OperationResponse
  end.

Inductive prog (A : Type) : Type :=
| Ret (a : A)
| Do (e : effect) (k : answer e -> prog A).
Arguments Ret {_} _.
Arguments Do {_} _ _.

Fixpoint prog_bind {A B} (k : A -> prog B) (p : prog A) : prog B :=
  match p with
  | Ret a => k a
  | Do e j => Do e (fun a => prog_bind k (j a))
  end.
#[export] Instance prog_ret : MRet prog := @Ret.
#[export] Instance prog_mbind : MBind prog := fun A B k p => prog_bind k p.

Definition perform_effect (e : effect) : prog (answer e) := Do e Ret.

(** ** Requests and answers *)

(** What decoding a request body gives. *)
Inductive request_body (A : Type) :=
| TooLarge
| NotJSON (message : text)
| TrailingData
| Decoded (a : A).
Arguments TooLarge {_}.
Arguments NotJSON {_} _.
Arguments TrailingData {_}.
Arguments Decoded {_} _.

Record confirmationRequest := { CR_PlanID : string }.
Record approvedExecutionRequest := { AX_PlanID : string; AX_ConfirmationToken : string }.

(** The route the multiplexers select ([Routes.v]); [RouteRoot] also takes every [GET] that no other pattern takes. *)
Inductive route :=
| RouteRoot
| RouteHealth
| RouteReady
| RouteInfo
| RouteOperations
| RoutePlan (b : request_body OperationRequest)
| RouteExecute (b : request_body OperationRequest)
| RouteExecuteApproved (b : request_body approvedExecutionRequest)
| RouteSystemStatus
| RouteServiceStatus (unit : string)
| RouteAudit (limit actor_id action : string)
| RouteAuditIntegrity
| RouteConfirmations (b : request_body confirmationRequest)
| RouteComponents
| RouteComponent (id : string)
| RouteUnmatched (u : unmatched). (* answered by the multiplexer itself *)

Record http_request := {
  HR_Authorization : string;
  HR_SessionID : string;
  HR_Route : route
}.

Inductive payload :=
| JSONRoot
| JSONHealth
| JSONReady
| JSONInfo (durable_audit service_mutations : bool)
| JSONOperations (definitions : list OperationDefinition)
| JSONPlan (plan : OperationPlan)
| JSONOperation (response : OperationResponse)
| JSONResult (result : option dict)
| JSONAudit (integrity : dict) (records : list AuditRecord)
| JSONIntegrity (integrity : dict)
| JSONIntegrityUnavailable
| JSONGrant (grant : GrantResponse)
| JSONSnapshot (snapshot : Snapshot)
| JSONComponent (component : Component)
| PlainUnmatched (u : unmatched)
| JSONProblem (p : Problem) (request_id : string).

Record http_response := {
  HTTP_Status : Z;
  HTTP_Challenge : bool; (* WWW-Authenticate *)
  HTTP_RequestID : string; (* X-Quantum-Request-ID *)
  HTTP_Payload : payload
}.

(** The values the context of a request carries. *)
Record context := {
  CX_RequestID : string;
  CX_Actor : Actor;
  CX_SessionID : string;
  CX_Credential : string
}.

Definition writeJSON (request_id : string) (status : Z) (p : payload) : prog http_response :=
  mret {| HTTP_Status := status; HTTP_Challenge := false; HTTP_RequestID := request_id; HTTP_Payload := p |}.
Definition writeProblem (request_id : string) (status : Z) (code message : string) : prog http_response :=
  writeJSON request_id status (JSONProblem (problem code message) request_id).

(** ** Authentication *)

Definition authenticateRequest (srv : Server) (header : string) : option (Actor * string) :=
  match Srv_Authenticator srv with
  | None => if TrimSpace header != "" then None else Some (LocalReadOnlyActor, "")
  | Some authenticate =>
    if negb (HasPrefix header "Bearer ") then None
    else
      let provided := TrimSpace (TrimPrefix header "Bearer ") in
      actor ← authenticate provided; Some (actor, provided)
  end.

Definition correlation_byte (a : ascii) : bool :=
  between 97 (byte a) 122 || between 65 (byte a) 90 || between 48 (byte a) 57
  || (byte a =? 45) || (byte a =? 95) || (byte a =? 46) || (byte a =? 58) || (byte a =? 64).

(** A byte of a rune beyond ASCII is not one of the accepted characters either. *)
Definition validCorrelationID (value : string) : bool :=
  if (slen value <? 1) || (160 <? slen value) then false else forallb correlation_byte (to_bytes value).

Definition requirePermission (srv : Server) (request : http_request) (request_id : string) (permission : Permission)
    (next : context -> prog http_response) : prog http_response :=
  match authenticateRequest srv (HR_Authorization request) with
  | None =>
    mret {| HTTP_Status := 401; HTTP_Challenge := true; HTTP_RequestID := request_id;
            HTTP_Payload := JSONProblem (problem "unauthorized" "A valid actor credential is required.") request_id |}
  | Some (actor, credential) =>
    if negb (HasPermission actor permission) then
      writeProblem request_id 403 "forbidden" "The authenticated actor does not have permission for this operation."
    else
      let session := TrimSpace (HR_SessionID request) in
      let go session := next {| CX_RequestID := request_id; CX_Actor := actor; CX_SessionID := session;
                                CX_Credential := credential |} in
      if session == "" then go ("session-" +:+ request_id)
      else if negb (validCorrelationID session) then
        writeProblem request_id 400 "invalid_session_id" "X-Quantum-Session-ID does not match policy."
      else go session
  end.

(** ** Shared steps of the handlers *)

Definition appendAudit (srv : Server) (event : AuditEvent) : prog unit :=
  if negb (Srv_Audit srv) then mret tt
  else _ ← perform_effect (AppendAudit event); mret tt.

(** [decodeOperation] and the two decoders with a fixed message. *)
Definition decode_body {A} (request_id : string) (message : text -> text) (b : request_body A)
    (k : A -> prog http_response) : prog http_response :=
  match b with
  | TooLarge => writeProblem request_id 413 "request_too_large" "The request body exceeds the configured limit."
  | NotJSON err => writeJSON request_id 400 (JSONProblem {| Problem_Code := "invalid_json"; Problem_Message := message err |} request_id)
  | TrailingData => writeProblem request_id 400 "invalid_json" "The request body must contain exactly one JSON object."
  | Decoded a => k a
  end.

Definition prepareRequest (cx : context) (request : OperationRequest) : OperationRequest :=
  {| Req_RequestID := if TrimSpace (Req_RequestID request) == "" then CX_RequestID cx else Req_RequestID request;
     Req_Action := Req_Action request;
     Req_Actor := Actor_ID (CX_Actor cx);
     Req_Parameters := Req_Parameters request;
     Req_Confirmation := "" |}.

Definition brokerGatewayError (cx : context) : prog http_response :=
  writeProblem (CX_RequestID cx) 502 "broker_error" "The privileged broker request failed.".

Definition operationHTTPStatus (status : string) : Z :=
  if status == "completed" then 200
  else if status == "rejected" then 400
  else if status == "failed" then 500
  else 502.

Definition recoveryStatus (result : option dict) : string :=
  match result with
  | None => ""
  | Some m => TrimSpace (match m !! "recovery_status" with Some (AString value) => value | _ => "" end)
  end.

Definition error_code (p : option Problem) : string := match p with Some p => Problem_Code p | None => "" end.

(** [strconv.Atoi] on 64-bit machines. *)
Notation Atoi := ParseInt.

(** ** The handlers *)

Definition handleReady (srv : Server) (request_id : string) : prog http_response :=
  if negb (Srv_Plans srv) then writeProblem request_id 503 "security_unavailable" "The security subsystem is unavailable."
  else
    failure ← perform_effect CallHealth;
    match failure with
    | Some _ => writeProblem request_id 503 "broker_unavailable" "The privileged broker is unavailable."
    | None => writeJSON request_id 200 JSONReady
    end.

Definition handleInfo (srv : Server) (approval : bool) (cx : context) : prog http_response :=
  writeJSON (CX_RequestID cx) 200 (JSONInfo (Srv_Audit srv) approval).

Definition handleOperations (cx : context) : prog http_response :=
  operations ← perform_effect CallCatalog;
  match operations with
  | Err _ => brokerGatewayError cx
  | Ok operations => writeJSON (CX_RequestID cx) 200 (JSONOperations operations)
  end.

Definition plan_event (cx : context) (plan : OperationPlan) : AuditEvent :=
  {| Ev_Event := if Actor_Kind (CX_Actor cx) == ActorTCI then "proposal.created" else "plan.created";
     Ev_Actor := CX_Actor cx; Ev_RequestID := Plan_RequestID plan; Ev_SessionID := Plan_SessionID plan;
     Ev_PlanID := Plan_ID plan; Ev_PlanDigest := Plan_Digest plan; Ev_Action := Plan_Action plan;
     Ev_Risk := Plan_Risk plan; Ev_Status := if negb (Plan_Valid plan) then "rejected" else "valid";
     Ev_RollbackStatus := ""; Ev_Parameters := PlanParametersMap plan; Ev_ErrorCode := Plan_ErrorCode plan |}.

Definition handlePlan (srv : Server) (b : request_body OperationRequest) (cx : context) : prog http_response :=
  decode_body (CX_RequestID cx) (fun err => err) b (fun request =>
    let request := prepareRequest cx request in
    answer ← perform_effect (CallPlan request);
    match answer with
    | Err _ => brokerGatewayError cx
    | Ok brokerPlan =>
      built ← perform_effect (BuildPlan (Srv_PlanBuilder srv) (CX_Actor cx) (CX_SessionID cx) brokerPlan);
      match built with
      | Err _ => writeProblem (CX_RequestID cx) 500 "plan_contract_error" "The immutable operation plan could not be created."
      | Ok plan =>
        _ ← perform_effect (PutPlan plan);
        _ ← appendAudit srv (plan_event cx plan);
        writeJSON (CX_RequestID cx) (if negb (Plan_Valid plan) then 400 else 200) (JSONPlan plan)
      end
    end).

Definition execute_event (cx : context) (request : OperationRequest) (response : OperationResponse) : AuditEvent :=
  {| Ev_Event := "operation." +:+ Resp_Status response; Ev_Actor := CX_Actor cx;
     Ev_RequestID := Resp_RequestID response; Ev_SessionID := CX_SessionID cx; Ev_PlanID := ""; Ev_PlanDigest := "";
     Ev_Action := Resp_Action response; Ev_Risk := Resp_Risk response; Ev_Status := Resp_Status response;
     Ev_RollbackStatus := ""; Ev_Parameters := Req_Parameters request;
     Ev_ErrorCode := error_code (Resp_Error response) |}.

Definition handleExecute (srv : Server) (b : request_body OperationRequest) (cx : context) : prog http_response :=
  decode_body (CX_RequestID cx) (fun err => err) b (fun request =>
    let request := prepareRequest cx request in
    answer ← perform_effect (CallExecute request);
    match answer with
    | Err _ => brokerGatewayError cx
    | Ok response =>
      _ ← appendAudit srv (execute_event cx request response);
      writeJSON (CX_RequestID cx) (operationHTTPStatus (Resp_Status response)) (JSONOperation response)
    end).

(** [handleSystemStatus] and [handleServiceStatus] after building their request. *)
Definition read_status (cx : context) (action : string) (parameters : gmap string string) : prog http_response :=
  answer ← perform_effect (CallExecute {| Req_RequestID := CX_RequestID cx; Req_Action := action;
    Req_Actor := Actor_ID (CX_Actor cx); Req_Parameters := parameters; Req_Confirmation := "" |});
  match answer with
  | Err _ => brokerGatewayError cx
  | Ok response =>
    if Resp_Status response != "completed" then
      writeJSON (CX_RequestID cx) (operationHTTPStatus (Resp_Status response)) (JSONOperation response)
    else writeJSON (CX_RequestID cx) 200 (JSONResult (Resp_Result response))
  end.
Definition handleSystemStatus (cx : context) : prog http_response := read_status cx "system.snapshot" ∅.
Definition handleServiceStatus (unit : string) (cx : context) : prog http_response :=
  read_status cx "service.status" {["unit" := unit]}.

Definition handleAuditQuery (srv : Server) (limit actor_id action : string) (cx : context) : prog http_response :=
  if negb (Srv_Audit srv) then
    writeProblem (CX_RequestID cx) 503 "audit_unavailable" "Durable audit storage is unavailable."
  else
    let query limit :=
      let actorID := TrimSpace actor_id in
      let action := TrimSpace action in
      if (128 <? slen actorID) || (160 <? slen action) then
        writeProblem (CX_RequestID cx) 400 "invalid_filter" "Audit filters exceed the supported length."
      else
        integrity ← perform_effect ReadIntegrity;
        records ← perform_effect (QueryAudit limit actorID action);
        writeJSON (CX_RequestID cx) 200 (JSONAudit integrity records) in
    let raw := TrimSpace limit in
    if raw == "" then query 100
    else
      match Atoi raw with
      | Some parsed =>
        if (parsed <? 1) || (500 <? parsed) then
          writeProblem (CX_RequestID cx) 400 "invalid_limit" "limit must be an integer from 1 through 500."
        else query parsed
      | None => writeProblem (CX_RequestID cx) 400 "invalid_limit" "limit must be an integer from 1 through 500."
      end.

Definition handleAuditIntegrity (srv : Server) (cx : context) : prog http_response :=
  if negb (Srv_Audit srv) then writeJSON (CX_RequestID cx) 503 JSONIntegrityUnavailable
  else integrity ← perform_effect ReadIntegrity; writeJSON (CX_RequestID cx) 200 (JSONIntegrity integrity).

Definition confirmation_event (cx : context) (plan : OperationPlan) : AuditEvent :=
  {| Ev_Event := "confirmation.issued"; Ev_Actor := CX_Actor cx; Ev_RequestID := CX_RequestID cx;
     Ev_SessionID := CX_SessionID cx; Ev_PlanID := Plan_ID plan; Ev_PlanDigest := Plan_Digest plan;
     Ev_Action := Plan_Action plan; Ev_Risk := Plan_Risk plan; Ev_Status := "issued"; Ev_RollbackStatus := "";
     Ev_Parameters := ∅; Ev_ErrorCode := "" |}.

Definition handleConfirmation (srv : Server) (approval : bool) (b : request_body confirmationRequest) (cx : context) :
    prog http_response :=
  let id := CX_RequestID cx in
  if negb (Srv_Plans srv) then
    writeProblem id 503 "confirmation_unavailable" "Operation plan storage is unavailable."
  else if negb approval then
    writeProblem id 503 "confirmation_unavailable" "The privileged broker does not support structured confirmations."
  else
    decode_body id (fun _ => Text "A valid confirmation request is required." []) b (fun request =>
      let planID := TrimSpace (CR_PlanID request) in
      if (planID == "") || (160 <? slen planID) then
        writeProblem id 400 "invalid_plan_id" "plan_id is required and must match a cached plan."
      else
        '(_, found) ← perform_effect (GetPlan planID);
        match found : option OperationPlan with
        | None => writeProblem id 404 "plan_not_found" "The operation plan does not exist or has expired."
        | Some plan =>
          grant ← perform_effect (CallConfirm plan (CX_Credential cx));
          match grant with
          | Err _ =>
            writeProblem id 400 "confirmation_rejected" "The operation plan cannot be confirmed under the current policy."
          | Ok grant =>
            _ ← appendAudit srv (confirmation_event cx plan);
            writeJSON id 201 (JSONGrant grant)
          end
        end).

(** The events around an approved execution. *)
Definition execution_event (cx : context) (plan : OperationPlan) (request_id event status rollback error : string) : AuditEvent :=
  {| Ev_Event := event; Ev_Actor := CX_Actor cx; Ev_RequestID := request_id; Ev_SessionID := CX_SessionID cx;
     Ev_PlanID := Plan_ID plan; Ev_PlanDigest := Plan_Digest plan; Ev_Action := Plan_Action plan; Ev_Risk := Plan_Risk plan;
     Ev_Status := status; Ev_RollbackStatus := rollback; Ev_Parameters := PlanParametersMap plan; Ev_ErrorCode := error |}.
Definition attempt_event (cx : context) (plan : OperationPlan) : AuditEvent :=
  execution_event cx plan (CX_RequestID cx) "operation.attempt" "attempted" "not_started" "".
Definition unknown_event (cx : context) (plan : OperationPlan) : AuditEvent :=
  execution_event cx plan (CX_RequestID cx) "operation.unknown" "unknown" "unknown" "broker_transport_failed".
Definition outcome_event (cx : context) (plan : OperationPlan) (response : OperationResponse) : AuditEvent :=
  let rollbackStatus := recoveryStatus (Resp_Result response) in
  execution_event cx plan (Resp_RequestID response) ("operation." +:+ Resp_Status response) (Resp_Status response)
    (if rollbackStatus == "" then "not_required" else rollbackStatus) (error_code (Resp_Error response)).

Definition handleApprovedExecute (srv : Server) (approval : bool) (b : request_body approvedExecutionRequest) (cx : context) :
    prog http_response :=
  let id := CX_RequestID cx in
  if negb (Srv_Plans srv) then
    writeProblem id 503 "mutation_unavailable" "Operation plan storage is unavailable."
  else if negb approval then
    writeProblem id 503 "mutation_unavailable" "The privileged broker does not support approved mutations."
  else
    decode_body id (fun _ => Text "A valid approved execution request is required." []) b (fun request =>
      let planID := TrimSpace (AX_PlanID request) in
      let confirmation := TrimSpace (AX_ConfirmationToken request) in
      if (planID == "") || (160 <? slen planID) then
        writeProblem id 400 "invalid_plan_id" "plan_id is required and must match a cached plan."
      else if (confirmation == "") || (512 <? slen confirmation) then
        writeProblem id 400 "invalid_confirmation_token" "A bounded confirmation token is required."
      else
        '(_, found) ← perform_effect (GetPlan planID);
        match found : option OperationPlan with
        | None => writeProblem id 404 "plan_not_found" "The operation plan does not exist or has expired."
        | Some plan =>
          _ ← appendAudit srv (attempt_event cx plan);
          answer ← perform_effect (CallExecuteApproved plan confirmation (CX_Credential cx));
          match answer with
          | Err _ =>
            _ ← appendAudit srv (unknown_event cx plan);
            writeProblem id 502 "broker_error" "The privileged broker request failed after the execution attempt was submitted."
          | Ok response =>
            _ ← appendAudit srv (outcome_event cx plan response);
            writeJSON id (operationHTTPStatus (Resp_Status response)) (JSONOperation response)
          end
        end).

(** Inventory. *)
Definition inventory_failure (cx : context) : prog http_response :=
  writeProblem (CX_RequestID cx) 500 "inventory_unavailable" "The read-only component inventory could not be completed.".
Definition handleComponents (cx : context) : prog http_response :=
  snapshot ← perform_effect ScanSnapshot;
  match snapshot with
  | Err _ => inventory_failure cx
  | Ok snapshot => writeJSON (CX_RequestID cx) 200 (JSONSnapshot snapshot)
  end.
Definition handleComponent (id : string) (cx : context) : prog http_response :=
  component ← perform_effect (ScanComponent id);
  match component with
  | Err _ => inventory_failure cx
  | Ok None =>
    writeProblem (CX_RequestID cx) 404 "component_not_found"
      "The requested component identifier is not part of the inventory contract."
  | Ok (Some component) => writeJSON (CX_RequestID cx) 200 (JSONComponent component)
  end.

(** ** Routes *)

Definition newRequestID : prog string :=
  e ← perform_effect ReadEntropy;
  mret (match Ent_Bytes e with
        | Some value => hex_encode value
        | None => "request-" +:+ decimal (Ent_UnixNano e)
        end).

(** The two patterns of [inventoryHandler]. *)
Definition inventoryHandler (r : route) : option (Permission * (context -> prog http_response)) :=
  match r with
  | RouteComponents => Some (PermissionInventoryRead, handleComponents)
  | RouteComponent id => Some (PermissionInventoryRead, handleComponent id)
  | _ => None
  end.

(** The permission a route requires, with its handler; the others are public. *)
Definition protected (srv : Server) (approval : bool) (r : route) : option (Permission * (context -> prog http_response)) :=
  match r with
  | RouteRoot | RouteHealth | RouteReady | RouteUnmatched _ => None
  | RouteComponents | RouteComponent _ => inventoryHandler r
  | RouteInfo => Some (PermissionControlRead, handleInfo srv approval)
  | RouteOperations => Some (PermissionOperationCatalog, handleOperations)
  | RoutePlan b => Some (PermissionOperationPlan, handlePlan srv b)
  | RouteExecute b => Some (PermissionOperationExecute, handleExecute srv b)
  | RouteExecuteApproved b => Some (PermissionOperationMutate, handleApprovedExecute srv approval b)
  | RouteSystemStatus => Some (PermissionControlRead, handleSystemStatus)
  | RouteServiceStatus unit => Some (PermissionControlRead, handleServiceStatus unit)
  | RouteAudit limit actor_id action => Some (PermissionAuditRead, handleAuditQuery srv limit actor_id action)
  | RouteAuditIntegrity => Some (PermissionAuditRead, handleAuditIntegrity srv)
  | RouteConfirmations b => Some (PermissionConfirm, handleConfirmation srv approval b)
  end.

(** [ServeHTTP] with [Handler] and [inventoryHandler]: [withRequestID], then the route. *)
Definition Handler (srv : Server) (approval : bool) (request : http_request) : prog http_response :=
  id ← newRequestID;
  match protected srv approval (HR_Route request) with
  | Some (permission, next) => requirePermission srv request id permission next
  | None =>
    match HR_Route request with
    | RouteReady => handleReady srv id
    | RouteHealth => writeJSON id 200 JSONHealth
    | RouteUnmatched u => writeJSON id (unmatched_status u) (PlainUnmatched u)
    | _ => writeJSON id 200 JSONRoot
    end
  end.

(** ** Running requests *)

(** What the history of the server keeps of an effect and its answer. *)
Inductive observed :=
| SawBuild (b : PlanBuilder) (actor : Actor) (session : string) (plan : BrokerPlan) (built : result OperationPlan)
| SawPut (plan : OperationPlan)
| SawGet (id : string) (at_time : time) (found : option OperationPlan)
| SawAppend (event : AuditEvent) (record : result AuditRecord)
| SawPlan (request : OperationRequest) (plan : result BrokerPlan)
| SawExecute (request : OperationRequest) (response : result OperationResponse)
| SawConfirm (plan : OperationPlan) (credential : string) (grant : result GrantResponse)
| SawExecuteApproved (plan : OperationPlan) (confirmation credential : string) (response : result OperationResponse)
| SawRead. (* entropy, integrity, query, health, catalogue, inventory *)

Definition observe (e : effect) : answer e -> observed :=
  match e with
  | BuildPlan b actor session plan => SawBuild b actor session plan
  | PutPlan plan => fun _ => SawPut plan
  | GetPlan id => fun found => SawGet id found.1 found.2
  | AppendAudit event => SawAppend event
  | CallPlan request => SawPlan request
  | CallExecute request => SawExecute request
  | CallConfirm plan credential => SawConfirm plan credential
  | CallExecuteApproved plan confirmation credential => SawExecuteApproved plan confirmation credential
  | _ => fun _ => SawRead
  end.

Section running.
Context {H B : Type} `{!Host H} `{!BrokerAPI B}.
Implicit Types s : control_state H B.

Definition with_host (h : H) s : control_state H B :=
  {| CS_Host := h; CS_Broker := CS_Broker s; CS_Audit := CS_Audit s; CS_Plans := CS_Plans s |}.
Definition with_broker (b : B) s : control_state H B :=
  {| CS_Host := CS_Host s; CS_Broker := b; CS_Audit := CS_Audit s; CS_Plans := CS_Plans s |}.
Definition with_plans (h : H) (plans : PlanCache) s : control_state H B :=
  {| CS_Host := h; CS_Broker := CS_Broker s; CS_Audit := CS_Audit s; CS_Plans := plans |}.
Definition with_audit (h : H) (audit : AuditStore * audit_file) s : control_state H B :=
  {| CS_Host := h; CS_Broker := CS_Broker s; CS_Audit := Some audit; CS_Plans := CS_Plans s |}.

(** A call of the broker. *)
Definition call {A} (f : B -> A * B) s : A * control_state H B :=
  let '(a, b) := f (CS_Broker s) in (a, with_broker b s).

Definition perform (e : effect) s : answer e * control_state H B :=
  match e with
  | ReadEntropy => let '(x, h) := host_entropy (CS_Host s) in (x, with_host h s)
  | BuildPlan b actor session plan =>
    let '(t, h) := host_now (CS_Host s) in
    let '(x, h) := host_entropy h in
    (Build b t x actor session plan, with_host h s)
  | PutPlan plan => let '(t, h) := host_now (CS_Host s) in (tt, with_plans h (Put t plan (CS_Plans s)) s)
  | GetPlan id =>
    let '(t, h) := host_now (CS_Host s) in
    let '(found, plans) := Get t id (CS_Plans s) in
    ((t, found), with_plans h plans s)
  | AppendAudit event =>
    match CS_Audit s with
    | None => (fail "audit store is nil", s)
    | Some (store, file) =>
      let '(io, h) := host_append (CS_Host s) in
      let '(x, h) := host_entropy h in
      let '(t, h) := host_now h in
      let '(record, store, file) := Append io x t event store file in
      (record, with_audit h (store, file) s)
    end
  | ReadIntegrity => (match CS_Audit s with Some (store, _) => Integrity store | None => ∅ end, s)
  | QueryAudit limit actor action =>
    (match CS_Audit s with Some (store, _) => Query limit actor action store | None => [] end, s)
  | CallHealth => call api_Health s
  | CallCatalog => call api_Catalog s
  | ScanSnapshot => let '(snapshot, h) := scan_Snapshot (CS_Host s) in (snapshot, with_host h s)
  | ScanComponent id => let '(component, h) := scan_Component id (CS_Host s) in (component, with_host h s)
  | CallPlan request => call (api_Plan request) s
  | CallExecute request => call (api_Execute request) s
  | CallConfirm plan credential => call (api_Confirm plan credential) s
  | CallExecuteApproved plan confirmation credential => call (api_ExecuteApproved plan confirmation credential) s
  end.

(** One request alone, from its first effect to its answer. *)
Fixpoint run_alone {A} (p : prog A) s : A * control_state H B :=
  match p with
  | Ret a => (a, s)
  | Do e k => let '(a, s) := perform e s in run_alone (k a) s
  end.

(** Requests in flight, by number, over the shared state, with the history of all effects. *)
Record pool := {
  PL_State : control_state H B;
  PL_Threads : list (prog http_response);
  PL_History : list (nat * observed)
}.

(** Request [i] performs its next effect. *)
Definition pool_step (pl : pool) (i : nat) : pool :=
  match PL_Threads pl !! i with
  | Some (Do e k) =>
    let '(a, s) := perform e (PL_State pl) in
    {| PL_State := s; PL_Threads := <[i := k a]> (PL_Threads pl);
       PL_History := PL_History pl ++ [(i, observe e a)] |}
  | _ => pl
  end.

(** The server working on [requests] in the order of [schedule]. *)
Definition start_pool (srv : Server) (requests : list http_request) s : pool :=
  {| PL_State := s; PL_Threads := Handler srv api_Approval <$> requests; PL_History := [] |}.
Definition run_pool (schedule : list nat) (pl : pool) : pool := fold_left pool_step schedule pl.

(** What request [i] did. *)
Definition thread_history (i : nat) (history : list (nat * observed)) : list observed :=
  (filter (fun io : nat * observed => io.1 = i) history).*2.
End running.
Arguments pool : clear implicits.

(** ** Paths of a handler

    [path p tr q]: performing effects with any answers, [p] observes [tr] and becomes [q].  What holds for all paths
    of a handler holds in every interleaving. *)

Fixpoint path {A} (p : prog A) (tr : list observed) (q : prog A) {struct tr} : Prop :=
  match tr with
  | [] => q = p
  | o :: tr =>
    match p with
    | Ret _ => False
    | Do e k => exists a, o = observe e a /\ path (k a) tr q
    end
  end.

Lemma path_snoc {A} (p q : prog A) tr e k a :
  path p tr q -> q = Do e k -> path p (tr ++ [observe e a]) (k a).
Proof.
  revert p. induction tr as [|o tr IH]; intros p; simpl.
  - intros -> ->. by exists a.
  - destruct p as [|e' k']; [done|]. intros (a' & -> & Hp) Hq. exists a'. split; [done|]. by apply IH.
Qed.

(** Follow a path of a concrete handler: one case per guard and answer. *)
Ltac walk H :=
  repeat match type of H with
  | path (Ret _) ?tr _ => destruct tr as [|? tr]; cbn [path] in H; [subst|destruct H]
  | path (Do _ _) ?tr _ => destruct tr as [|? tr]; cbn [path] in H; [subst|destruct H as (? & -> & H)]
  | path (match ?x with _ => _ end) _ _ => destruct x eqn:?
  | path (mbind _ (match ?x with _ => _ end)) _ _ => destruct x eqn:?
  | path (mbind _ (appendAudit _ _)) _ _ => unfold appendAudit in H
  | path _ _ _ => progress cbn in H
  | path (?f _) _ _ => unfold f in H
  | path (?f _ _) _ _ => unfold f in H
  | path (?f _ _ _) _ _ => unfold f in H
  | path (?f _ _ _ _) _ _ => unfold f in H
  | path (?f _ _ _ _ _) _ _ => unfold f in H
  end.

Section pools.
Context {H B : Type} `{!Host H} `{!BrokerAPI B}.
Implicit Types pl : pool H B.

Lemma run_pool_invariant (I : pool H B -> Prop) schedule pl :
  I pl -> (forall pl i, I pl -> I (pool_step pl i)) -> I (run_pool schedule pl).
Proof.
  unfold run_pool. intros H0 HS. revert pl H0. induction schedule as [|i schedule IH]; intros pl H0; simpl; [done|].
  apply IH, HS, H0.
Qed.

Lemma thread_history_snoc i j o history :
  thread_history i (history ++ [(j, o)]) = thread_history i history ++ (if decide (j = i) then [o] else []).
Proof.
  unfold thread_history. rewrite filter_app, fmap_app. f_equal.
  destruct (decide (j = i)) as [->|Hne].
  - cbn. by rewrite decide_True by done.
  - cbn. by rewrite decide_False by done.
Qed.

Lemma elem_of_thread_history i o history : o ∈ thread_history i history <-> (i, o) ∈ history.
Proof.
  unfold thread_history. rewrite list_elem_of_fmap. split.
  - intros ([j o'] & -> & [Hj Hin]%list_elem_of_filter). simpl in *. by subst.
  - intros Hin. exists (i, o). split; [done|]. by apply list_elem_of_filter.
Qed.

(** Every request follows a path of its handler. *)
Lemma pool_paths srv requests (s : control_state H B) schedule i request :
  requests !! i = Some request ->
  exists q, PL_Threads (run_pool schedule (start_pool srv requests s)) !! i = Some q /\
    path (Handler srv api_Approval request)
      (thread_history i (PL_History (run_pool schedule (start_pool srv requests s)))) q.
Proof.
  intros Hi. apply (run_pool_invariant (fun pl => exists q, PL_Threads pl !! i = Some q /\
    path (Handler srv api_Approval request) (thread_history i (PL_History pl)) q)).
  - exists (Handler srv api_Approval request). simpl. by rewrite list_lookup_fmap, Hi.
  - intros pl j (q & Hq & Hp). unfold pool_step.
    destruct (PL_Threads pl !! j) as [[r|e k]|] eqn:Ej; [by exists q| |by exists q].
    destruct (perform e (PL_State pl)) as [a s']. simpl. rewrite thread_history_snoc.
    destruct (decide (j = i)) as [->|Hne].
    + rewrite Ej in Hq. injection Hq as <-. exists (k a). split.
      * apply list_lookup_insert_eq. by eapply lookup_lt_Some.
      * by eapply path_snoc.
    + rewrite list_lookup_insert_ne by done. exists q. by rewrite app_nil_r.
Qed.
End pools.

(** ** What each handler can do *)

(** What [requirePermission] has established when it calls the handler. *)
Record admitted (srv : Server) (request : http_request) (permission : Permission) (cx : context) : Prop := {
  ad_actor : authenticateRequest srv (HR_Authorization request) = Some (CX_Actor cx, CX_Credential cx);
  ad_permission : permission ∈ Actor_Permissions (CX_Actor cx);
  ad_session : CX_SessionID cx =
    if TrimSpace (HR_SessionID request) == "" then "session-" +:+ CX_RequestID cx else TrimSpace (HR_SessionID request)
}.

Section shapes.
Context (srv : Server) (approval : bool).

Lemma handler_path request tr q o :
  path (Handler srv approval request) tr q -> o ∈ tr -> o <> SawRead ->
  exists permission next cx tr', protected srv approval (HR_Route request) = Some (permission, next) /\
    admitted srv request permission cx /\ tr = SawRead :: tr' /\ path (next cx) tr' q.
Proof.
  unfold Handler. intros Hp Ho Hne. destruct tr as [|o' tr]; [by apply not_elem_of_nil in Ho|].
  destruct Hp as (e & -> & Hp).
  assert (Hin : o ∈ tr) by (apply elem_of_cons in Ho as [->|]; [done|assumption]). clear Ho.
  cbn in Hp. set (id := match Ent_Bytes e with Some _ => _ | None => _ end) in Hp.
  destruct (protected srv approval (HR_Route request)) as [[permission next]|].
  - unfold requirePermission in Hp.
    destruct (authenticateRequest srv (HR_Authorization request)) as [[actor credential]|] eqn:Ea.
    2: { walk Hp. by apply not_elem_of_nil in Hin. }
    destruct (HasPermission actor permission) eqn:Eperm; cbn [negb] in Hp.
    2: { walk Hp. by apply not_elem_of_nil in Hin. }
    apply has_permission_in_elem in Eperm.
    destruct (TrimSpace (HR_SessionID request) == "") eqn:Es.
    + eexists _, _, _, _. split; [done|]. split; [|split; [done|exact Hp]]. split; [exact Ea|exact Eperm|by rewrite Es].
    + destruct (validCorrelationID _); cbn [negb] in Hp.
      2: { walk Hp. by apply not_elem_of_nil in Hin. }
      eexists _, _, _, _. split; [done|]. split; [|split; [done|exact Hp]]. split; [exact Ea|exact Eperm|by rewrite Es].
  - exfalso. destruct (HR_Route request); walk Hp; try by apply not_elem_of_nil in Hin.
    all: apply elem_of_cons in Hin as [->|Hin]; [done|by apply not_elem_of_nil in Hin].
Qed.

(** The observation of [appendAudit]. *)
Definition logged (event : AuditEvent) (tr : list observed) : Prop :=
  if Srv_Audit srv then exists r, tr = [SawAppend event r] else tr = [].

(** A plan enters the cache only as built, for the caller, from the answer of the broker to the caller's request. *)
Definition plan_shape (cx : context) (b : request_body OperationRequest) (plan : OperationPlan) (tr : list observed) : Prop :=
  exists request brokerPlan rest, b = Decoded request /\
    tr = SawPlan (prepareRequest cx request) (Ok brokerPlan)
         :: SawBuild (Srv_PlanBuilder srv) (CX_Actor cx) (CX_SessionID cx) brokerPlan (Ok plan)
         :: SawPut plan :: rest.

Definition confirm_shape (cx : context) (b : request_body confirmationRequest) (plan : OperationPlan) (credential : string)
    (tr : list observed) : Prop :=
  exists request t grant rest, b = Decoded request /\ TrimSpace (CR_PlanID request) <> "" /\ credential = CX_Credential cx /\
    tr = SawGet (TrimSpace (CR_PlanID request)) t (Some plan) :: SawConfirm plan credential grant :: rest.

(** The append that announces an approved execution is attempted before the broker is called; the outcome is appended afterwards. *)
Definition execute_shape (cx : context) (b : request_body approvedExecutionRequest) (plan : OperationPlan)
    (confirmation credential : string) (response : result OperationResponse) (tr : list observed) (finished : bool) : Prop :=
  exists request t attempt rest, b = Decoded request /\ TrimSpace (AX_PlanID request) <> "" /\ confirmation = TrimSpace (AX_ConfirmationToken request) /\
    credential = CX_Credential cx /\ logged (attempt_event cx plan) attempt /\
    tr = SawGet (TrimSpace (AX_PlanID request)) t (Some plan)
         :: attempt ++ SawExecuteApproved plan confirmation credential response :: rest /\
    (rest = [] \/ logged match response with Err _ => unknown_event cx plan | Ok r => outcome_event cx plan r end rest) /\
    (finished = true ->
     logged match response with Err _ => unknown_event cx plan | Ok r => outcome_event cx plan r end rest).

Definition finished {A} (p : prog A) : bool := match p with Ret _ => true | Do _ _ => false end.

(** Decide membership in a concrete list of observations. *)
Ltac observed_in H :=
  repeat (apply elem_of_cons in H as [H|H]; [try discriminate H|]); try (by apply not_elem_of_nil in H);
  try (apply not_elem_of_nil in H; destruct H).

Lemma handlePlan_path b cx tr q plan :
  path (handlePlan srv b cx) tr q -> SawPut plan ∈ tr -> plan_shape cx b plan tr.
Proof.
  intros Hp Hin. walk Hp; observed_in Hin; simplify_eq/=; repeat eexists.
Qed.

Lemma handleConfirmation_path b cx tr q plan credential grant :
  path (handleConfirmation srv approval b cx) tr q -> SawConfirm plan credential grant ∈ tr ->
  confirm_shape cx b plan credential tr.
Proof.
  intros Hp Hin. walk Hp; observed_in Hin; simplify_eq/=; repeat eexists; bool_prop; tauto.
Qed.

Lemma handleApprovedExecute_path b cx tr q plan confirmation credential response :
  path (handleApprovedExecute srv approval b cx) tr q -> SawExecuteApproved plan confirmation credential response ∈ tr ->
  execute_shape cx b plan confirmation credential response tr (finished q).
Proof.
  intros Hp Hin. unfold execute_shape, logged.
  walk Hp; observed_in Hin; simplify_eq/=.
  all: destruct (Srv_Audit srv); simplify_eq/=;
    first [eexists _, _, [_], _; split; [reflexivity|]; split; [bool_prop; tauto|]; do 2 (split; [reflexivity|]); split; [by eauto|]
          |eexists _, _, [], _; split; [reflexivity|]; split; [bool_prop; tauto|]; do 2 (split; [reflexivity|]); split; [by eauto|]];
    (split; [reflexivity|]); (split; [by eauto|]); intros Hf; first [discriminate Hf|by eauto].
Qed.

(** Which route an observation belongs to. *)
Definition on_route (r : route) (o : observed) : Prop :=
  match o with
  | SawPut _ => exists b, r = RoutePlan b
  | SawConfirm _ _ _ => exists b, r = RouteConfirmations b
  | SawExecuteApproved _ _ _ _ => exists b, r = RouteExecuteApproved b
  | _ => True
  end.

Lemma route_path r permission next cx tr q o :
  protected srv approval r = Some (permission, next) -> path (next cx) tr q -> o ∈ tr -> on_route r o.
Proof.
  intros Hr Hp Hin. destruct r; cbn in Hr; simplify_eq.
  1-2, 4, 6-9: walk Hp; observed_in Hin; subst; exact I.
  all: unfold on_route; destruct o; eauto.
  all: exfalso; walk Hp; observed_in Hin.
Qed.

(** Requests to the broker carry the authenticated actor and no confirmation. *)
Lemma caller_request r permission next cx tr q request :
  protected srv approval r = Some (permission, next) -> path (next cx) tr q ->
  (exists bp, SawPlan request bp ∈ tr) \/ (exists response, SawExecute request response ∈ tr) ->
  Req_Actor request = Actor_ID (CX_Actor cx) /\ Req_Confirmation request = "".
Proof.
  intros Hr Hp Hin. destruct r; cbn in Hr; simplify_eq; walk Hp;
    destruct Hin as [[? Hin]|[? Hin]]; observed_in Hin; simplify_eq/=; done.
Qed.

(** The same, for a whole request. *)
Lemma request_path request tr q o :
  path (Handler srv approval request) tr q -> o ∈ tr -> o <> SawRead ->
  exists permission next cx tr', protected srv approval (HR_Route request) = Some (permission, next) /\
    admitted srv request permission cx /\ tr = SawRead :: tr' /\ o ∈ tr' /\ path (next cx) tr' q /\
    on_route (HR_Route request) o.
Proof.
  intros Hp Hin Hne. destruct (handler_path request tr q _ Hp Hin Hne) as (permission & next & cx & tr' & Hr & Ha & -> & Hp').
  apply elem_of_cons in Hin as [|Hin]; [done|]. exists permission, next, cx, tr'.
  do 5 (split; [assumption || reflexivity|]). by eapply route_path.
Qed.

Lemma request_put request tr q plan :
  path (Handler srv approval request) tr q -> SawPut plan ∈ tr ->
  exists cx b tr', HR_Route request = RoutePlan b /\ admitted srv request PermissionOperationPlan cx /\
    tr = SawRead :: tr' /\ plan_shape cx b plan tr'.
Proof.
  intros Hp Hin. destruct (request_path request tr q _ Hp Hin) as (permission & next & cx & tr' & Hr & Ha & -> & Hin' & Hp' & b & Hb);
    [done|]. rewrite Hb in Hr. simplify_eq/=. exists cx, b, tr'.
  split; [exact Hb|]. split; [exact Ha|]. split; [done|]. by eapply handlePlan_path.
Qed.

Lemma request_confirm request tr q plan credential grant :
  path (Handler srv approval request) tr q -> SawConfirm plan credential grant ∈ tr ->
  exists cx b tr', HR_Route request = RouteConfirmations b /\ admitted srv request PermissionConfirm cx /\
    tr = SawRead :: tr' /\ confirm_shape cx b plan credential tr'.
Proof.
  intros Hp Hin. destruct (request_path request tr q _ Hp Hin) as (permission & next & cx & tr' & Hr & Ha & -> & Hin' & Hp' & b & Hb);
    [done|]. rewrite Hb in Hr. simplify_eq/=. exists cx, b, tr'.
  split; [exact Hb|]. split; [exact Ha|]. split; [done|]. by eapply handleConfirmation_path.
Qed.

Lemma request_execute request tr q plan confirmation credential response :
  path (Handler srv approval request) tr q -> SawExecuteApproved plan confirmation credential response ∈ tr ->
  exists cx b tr', HR_Route request = RouteExecuteApproved b /\ admitted srv request PermissionOperationMutate cx /\
    tr = SawRead :: tr' /\ execute_shape cx b plan confirmation credential response tr' (finished q).
Proof.
  intros Hp Hin. destruct (request_path request tr q _ Hp Hin) as (permission & next & cx & tr' & Hr & Ha & -> & Hin' & Hp' & b & Hb);
    [done|]. rewrite Hb in Hr. simplify_eq/=. exists cx, b, tr'.
  split; [exact Hb|]. split; [exact Ha|]. split; [done|]. by eapply handleApprovedExecute_path.
Qed.
End shapes.

(** ** What every history of the server satisfies *)

Section histories.
Context {H B : Type} `{!Host H} `{!BrokerAPI B}.
Implicit Types (pl : pool H B) (s : control_state H B).

Definition put_before (plan : OperationPlan) (before : list (nat * observed)) : Prop :=
  exists j, (j, SawPut plan) ∈ before.

(** The cache holds what was put into it, lookups answer unexpired plans of it, and built plans were built. *)
Record sound_history pl : Prop := {
  sh_cache id plan : CS_Plans (PL_State pl) !! id = Some plan -> Plan_ID plan = id /\ put_before plan (PL_History pl);
  sh_get before i id t plan after :
    PL_History pl = before ++ (i, SawGet id t (Some plan)) :: after ->
    Plan_ID plan = id /\ t < Plan_ExpiresAt plan /\ put_before plan before;
  sh_build i b actor session brokerPlan plan :
    (i, SawBuild b actor session brokerPlan (Ok plan)) ∈ PL_History pl ->
    exists t e, Build b t e actor session brokerPlan = Ok plan
}.

Lemma put_before_app plan before after : put_before plan before -> put_before plan (before ++ after).
Proof. intros [j Hj]. exists j. apply elem_of_app. by left. Qed.

Lemma perform_plans e s id plan :
  CS_Plans (perform e s).2 !! id = Some plan ->
  CS_Plans s !! id = Some plan \/ (e = PutPlan plan /\ Plan_ID plan = id).
Proof.
  destruct e; simpl; unfold call; repeat case_match; simplify_eq/=; auto.
  - unfold Put. rewrite lookup_insert. case_decide as Hid; [intros [= ->]; auto|].
    rewrite purgeExpired_lookup. intros (? & -> & ?)%bind_Some. case_decide; simplify_eq. auto.
  - rewrite purgeExpired_lookup. intros (? & -> & ?)%bind_Some. case_decide; simplify_eq. auto.
Qed.

Lemma sound_history_step pl i : sound_history pl -> sound_history (pool_step pl i).
Proof.
  intros [Hc Hg Hb]. unfold pool_step. destruct (PL_Threads pl !! i) as [[r|e k]|]; try by split.
  destruct (perform e (PL_State pl)) as [a s'] eqn:E. split; simpl.
  - intros id plan Hp. replace s' with (perform e (PL_State pl)).2 in Hp by by rewrite E.
    apply perform_plans in Hp as [Hp|[-> <-]].
    + destruct (Hc _ _ Hp). split; [done|]. by apply put_before_app.
    + split; [done|]. exists i. apply elem_of_app. right. by left.
  - intros before j id t plan after Heq. apply snoc_split in Heq as [(-> & -> & Heq)|(after' & -> & Heq)]; [|by eapply Hg].
    destruct e; simplify_eq/=. destruct (host_now _) as [t' h]. simplify_eq/=.
    match goal with Hp : Some plan = _ |- _ => symmetry in Hp; rewrite purgeExpired_lookup in Hp;
      apply bind_Some in Hp as (plan' & Hp & Hd); case_decide; simplify_eq; rename Hp into Hlook end.
    destruct (Hc _ _ Hlook). by split.
  - intros j b actor session brokerPlan plan [Hin|Hin]%elem_of_app; [by eapply Hb|].
    apply list_elem_of_singleton in Hin. destruct e; simplify_eq/=.
    destruct (host_now _) as [t h], (host_entropy h) as [x h']. simplify_eq/=. eauto.
Qed.

Lemma run_sound srv requests s schedule :
  CS_Plans s = ∅ -> sound_history (run_pool schedule (start_pool srv requests s)).
Proof.
  intros Hs. apply run_pool_invariant; [|intros; by apply sound_history_step].
  split; simpl.
  - intros id plan. by rewrite Hs, lookup_empty.
  - intros [] ?????; discriminate.
  - intros ?????? []%not_elem_of_nil.
Qed.

(** Every moment of a history was the end of the history of a shorter run. *)
Lemma history_prefix srv requests s schedule before after :
  PL_History (run_pool schedule (start_pool srv requests s)) = before ++ after ->
  exists schedule', PL_History (run_pool schedule' (start_pool srv requests s)) = before.
Proof.
  revert before after. unfold run_pool. induction schedule as [|i schedule IH] using rev_ind; intros before after.
  - simpl. intros E. exists []. simpl. by destruct before.
  - rewrite fold_left_app. simpl. set (pl := fold_left _ schedule _) in *. intros E.
    destruct (exists_last_or_nil after) as [->|(after' & x & ->)].
    + exists (schedule ++ [i]). rewrite fold_left_app. simpl. by rewrite app_nil_r in E.
    + unfold pool_step in E. destruct (PL_Threads pl !! i) as [[r|e k]|]; try by eapply IH.
      destruct (perform e (PL_State pl)) as [a s']. simpl in E.
      rewrite (assoc_L (++)) in E. apply app_inj_tail in E as [E _]. by eapply IH.
Qed.

(** What has happened [before] request [i] forwards a plan to the broker: the caller was admitted, the plan was in the cache and
    unexpired, and a request with the permission to plan had it built, for its own actor, from the answer of the broker. *)
Record forwarded (srv : Server) (requests : list http_request) (before : list (nat * observed)) (i : nat)
    (permission : Permission) (cx : context) (plan : OperationPlan) : Prop := {
  fw_caller : exists request, requests !! i = Some request /\ admitted srv request permission cx;
  fw_unexpired : exists t, (i, SawGet (Plan_ID plan) t (Some plan)) ∈ before /\ t < Plan_ExpiresAt plan;
  fw_planned : exists j request operation cx' brokerPlan t e,
    requests !! j = Some request /\ HR_Route request = RoutePlan (Decoded operation) /\
    admitted srv request PermissionOperationPlan cx' /\
    (j, SawPlan (prepareRequest cx' operation) (Ok brokerPlan)) ∈ before /\ (j, SawPut plan) ∈ before /\
    Build (Srv_PlanBuilder srv) t e (CX_Actor cx') (CX_SessionID cx') brokerPlan = Ok plan
}.

Section run.
Context (srv : Server) (requests : list http_request) (s : control_state H B) (schedule : list nat).
Let history : list (nat * observed) := PL_History (run_pool schedule (start_pool srv requests s)).

(** The requests of a history follow paths that end with its last event. *)
Lemma event_path before i o after :
  history = before ++ (i, o) :: after ->
  exists request q, requests !! i = Some request /\
    path (Handler srv api_Approval request) (thread_history i before ++ [o]) q.
Proof.
  intros E. rewrite (cons_middle (i, o)), (assoc_L (++)) in E.
  destruct (history_prefix _ _ _ _ _ _ E) as [schedule' E'].
  destruct (requests !! i) as [request|] eqn:Hi.
  - destruct (pool_paths srv requests s schedule' i request Hi) as (q & _ & Hp). exists request, q. split; [done|].
    rewrite E', thread_history_snoc, decide_True in Hp by done. exact Hp.
  - exfalso. assert (Hin : (i, o) ∈ PL_History (run_pool schedule' (start_pool srv requests s)))
      by (rewrite E'; apply elem_of_app; right; by left).
    revert Hin. apply (run_pool_invariant (fun pl => PL_Threads pl !! i = None /\ (i, o) ∉ PL_History pl)).
    + simpl. rewrite list_lookup_fmap, Hi. split; [done|apply not_elem_of_nil].
    + intros pl j [Hn Hh]. unfold pool_step. destruct (PL_Threads pl !! j) as [[r|e k]|] eqn:Ej; [done| |done].
      destruct (perform e (PL_State pl)) as [a s']. simpl. assert (j <> i) by congruence.
      rewrite list_lookup_insert_ne by done. split; [done|].
      intros [Hin|Hin%list_elem_of_singleton]%elem_of_app; [done|congruence].
Qed.

Lemma forwarded_planned before i o after plan :
  CS_Plans s = ∅ -> history = before ++ (i, o) :: after -> put_before plan before ->
  exists j request operation cx' brokerPlan t e,
    requests !! j = Some request /\ HR_Route request = RoutePlan (Decoded operation) /\
    admitted srv request PermissionOperationPlan cx' /\
    (j, SawPlan (prepareRequest cx' operation) (Ok brokerPlan)) ∈ before /\ (j, SawPut plan) ∈ before /\
    Build (Srv_PlanBuilder srv) t e (CX_Actor cx') (CX_SessionID cx') brokerPlan = Ok plan.
Proof.
  intros Hs E [j Hj]. pose proof Hj as (l1 & l2 & Hl)%list_elem_of_split.
  assert (E2 : history = l1 ++ (j, SawPut plan) :: (l2 ++ (i, o) :: after)) by by rewrite E, Hl, <- (assoc_L (++)).
  destruct (event_path _ _ _ _ E2) as (request & q & Hr & Hp).
  destruct (request_put _ _ _ _ _ plan Hp) as (cx' & b & tr & Hroute & Ha & Htr & Hshape); [apply elem_of_app; right; by left|].
  destruct Hshape as (operation & brokerPlan & rest & -> & ->).
  assert (Hin : forall o', o' ∈ thread_history j l1 ++ [SawPut plan] -> (j, o') ∈ before).
  { intros o' [Ho|Ho%list_elem_of_singleton]%elem_of_app; subst; [|done].
    apply elem_of_thread_history in Ho. apply elem_of_app. by left. }
  rewrite Htr in Hin.
  assert (Hbuild : (j, SawBuild (Srv_PlanBuilder srv) (CX_Actor cx') (CX_SessionID cx') brokerPlan (Ok plan)) ∈ before)
    by (apply Hin; set_solver).
  destruct (sh_build _ (run_sound srv requests s schedule Hs) j _ _ _ _ _
    ltac:(fold history; rewrite E; apply elem_of_app; left; exact Hbuild)) as (t & e & Hb).
  exists j, request, operation, cx', brokerPlan, t, e. do 3 (split; [done|]). split; [apply Hin; set_solver|]. done.
Qed.

Lemma forwarded_get before i id t o after plan :
  CS_Plans s = ∅ -> history = before ++ (i, o) :: after -> (i, SawGet id t (Some plan)) ∈ before ->
  (i, SawGet (Plan_ID plan) t (Some plan)) ∈ before /\ t < Plan_ExpiresAt plan /\ put_before plan before.
Proof.
  intros Hs E Hin. pose proof Hin as (l1 & l2 & Hl)%list_elem_of_split.
  destruct (sh_get _ (run_sound srv requests s schedule Hs) l1 i id t plan (l2 ++ (i, o) :: after)) as (Hid & Ht & Hput).
  - fold history. by rewrite E, Hl, <- (assoc_L (++)).
  - rewrite Hid. split; [done|]. split; [done|]. rewrite Hl. by apply put_before_app.
Qed.

Lemma elem_before i before o o' : o' ∈ thread_history i before ++ [o] -> o' <> o -> (i, o') ∈ before.
Proof.
  intros [Ho|Ho%list_elem_of_singleton]%elem_of_app Hne; [|done]. by apply elem_of_thread_history.
Qed.

(** Forwarded plans and requests; the theorem follows. *)
Lemma forwarded_all before i o after :
  CS_Plans s = ∅ -> history = before ++ (i, o) :: after ->
  match o with
  | SawConfirm plan credential _ =>
    exists cx, forwarded srv requests before i PermissionConfirm cx plan /\ credential = CX_Credential cx
  | SawExecuteApproved plan _ credential _ =>
    exists cx, forwarded srv requests before i PermissionOperationMutate cx plan /\ credential = CX_Credential cx /\
      (Srv_Audit srv = true -> exists record, (i, SawAppend (attempt_event cx plan) record) ∈ before)
  | SawPlan request _ | SawExecute request _ =>
    exists r cx permission, requests !! i = Some r /\ admitted srv r permission cx /\
      Req_Actor request = Actor_ID (CX_Actor cx) /\ Req_Confirmation request = ""
  | _ => True
  end.
Proof.
  intros Hs E. destruct (event_path _ _ _ _ E) as (request & q & Hr & Hp).
  assert (Hin : o ∈ thread_history i before ++ [o]) by (apply elem_of_app; right; by left).
  destruct o as [| | | |operation bp|operation resp|plan credential grant|plan confirmation credential response|]; try done.
  1, 2: destruct (request_path _ _ _ _ _ _ Hp Hin) as (permission & next & cx & tr & Hroute & Ha & _ & Hin' & Hp' & _); [done|];
    exists request, cx, permission; do 2 (split; [done|]); eapply caller_request; [exact Hroute|exact Hp'|eauto].
  - destruct (request_confirm _ _ _ _ _ _ _ _ Hp Hin) as (cx & b & tr & _ & Ha & Htr & Hshape).
    destruct Hshape as (body & t & g & rest & -> & _ & -> & ->). exists cx. split; [|done].
    assert (Hget : (i, SawGet (TrimSpace (CR_PlanID body)) t (Some plan)) ∈ before)
      by (eapply elem_before; [rewrite Htr; set_solver|done]).
    destruct (forwarded_get _ _ _ _ _ _ _ Hs E Hget) as (Hget' & Ht & Hput).
    split; [eauto|eauto|by eapply forwarded_planned].
  - destruct (request_execute _ _ _ _ _ _ _ _ _ Hp Hin) as (cx & b & tr & _ & Ha & Htr & Hshape).
    destruct Hshape as (body & t & attempt & rest & -> & _ & -> & -> & Hlog & -> & _). exists cx.
    assert (Hget : (i, SawGet (TrimSpace (AX_PlanID body)) t (Some plan)) ∈ before)
      by (eapply elem_before; [rewrite Htr; set_solver|done]).
    destruct (forwarded_get _ _ _ _ _ _ _ Hs E Hget) as (Hget' & Ht & Hput).
    split; [split; [eauto|eauto|by eapply forwarded_planned]|]. split; [done|].
    intros Haudit. unfold logged in Hlog. rewrite Haudit in Hlog. destruct Hlog as [r ->]. exists r.
    eapply elem_before; [rewrite Htr; set_solver|done].
Qed.
(** C8 What the public API forwards.  In every interleaving of any requests on a fresh server, whatever the broker,
    the clock and the disk do: a plan goes to the broker for confirmation only on behalf of an authenticated caller with the
    permission to confirm, and for execution only on behalf of one with the permission to mutate, with the credential
    of that caller; the plan was still unexpired in the cache, was built by this server, for the actor of an admitted planning
    request, from the broker's answer to it; and before the broker is called for an execution, an append to the audit log that announces
    it is attempted (a failed one is passed over).  A request
    never carries an actor or a confirmation of the client's choice. *)
Theorem control_forwards before i o after :
  CS_Plans s = ∅ -> history = before ++ (i, o) :: after ->
  match o with
  | SawConfirm plan credential _ =>
    exists cx, forwarded srv requests before i PermissionConfirm cx plan /\ credential = CX_Credential cx
  | SawExecuteApproved plan _ credential _ =>
    exists cx, forwarded srv requests before i PermissionOperationMutate cx plan /\ credential = CX_Credential cx /\
      (Srv_Audit srv = true -> exists record, (i, SawAppend (attempt_event cx plan) record) ∈ before)
  | SawPlan request _ | SawExecute request _ =>
    exists r cx permission, requests !! i = Some r /\ admitted srv r permission cx /\
      Req_Actor request = Actor_ID (CX_Actor cx) /\ Req_Confirmation request = ""
  | _ => True
  end.
Proof. apply forwarded_all. Qed.
End run.

(** *** What reaches the broker *)

(** A property of the client that every call preserves. *)
Record api_closed (I : B -> Prop) : Prop := {
  ac_Health b : I b -> I (api_Health b).2;
  ac_Catalog b : I b -> I (api_Catalog b).2;
  ac_Plan request b : I b -> I (api_Plan request b).2;
  ac_Execute request b : I b -> I (api_Execute request b).2;
  ac_Confirm plan credential b : I b -> I (api_Confirm plan credential b).2;
  ac_ExecuteApproved plan confirmation credential b : I b -> I (api_ExecuteApproved plan confirmation credential b).2
}.

Lemma perform_broker (I : B -> Prop) e s : api_closed I -> I (CS_Broker s) -> I (CS_Broker (perform e s).2).
Proof.
  intros [? ? ? ? ? ?] Hi. destruct e; simpl; unfold call; repeat case_match; simplify_eq/=; try exact Hi;
    match goal with E : ?f (CS_Broker s) = (_, ?b) |- I ?b => replace b with (f (CS_Broker s)).2 by by rewrite E end; auto.
Qed.

Lemma run_broker (I : B -> Prop) srv requests s schedule :
  api_closed I -> I (CS_Broker s) -> I (CS_Broker (PL_State (run_pool schedule (start_pool srv requests s)))).
Proof.
  intros Hc Hi. apply (run_pool_invariant (fun pl => I (CS_Broker (PL_State pl)))); [exact Hi|].
  intros pl i Hpl. unfold pool_step. destruct (PL_Threads pl !! i) as [[r|e k]|]; try exact Hpl.
  pose proof (perform_broker I e _ Hc Hpl) as H'. by destruct (perform e (PL_State pl)).
Qed.

(** The approved executions a history forwarded. *)
Definition requested (io : nat * observed) : option (OperationPlan * string * string) :=
  match io.2 with SawExecuteApproved plan confirmation credential _ => Some (plan, confirmation, credential) | _ => None end.

Context `{!ExecutionLog B}.
Definition executes_request (x : execution) (r : OperationPlan * string * string) : Prop := executes x r.1.1 r.1.2 r.2.

Lemma perform_executions i e s a s' :
  perform e s = (a, s') ->
  executions (CS_Broker s') = executions (CS_Broker s) \/
  exists x r, executions (CS_Broker s') = executions (CS_Broker s) ++ [x] /\ requested (i, observe e a) = Some r /\
    executes_request x r.
Proof.
  intros E. destruct e; simpl in E; unfold call in E.
  15: { destruct (api_ExecuteApproved plan confirmation credential (CS_Broker s)) as [r b] eqn:Eb. simplify_eq/=.
        pose proof (log_ExecuteApproved plan confirmation credential (CS_Broker s)) as Hlog. rewrite Eb in Hlog.
        destruct Hlog as [Hlog|(x & Hlog & Hx)]; [by left|right]. by exists x, (plan, confirmation, credential). }
  all: left; repeat case_match; simplify_eq/=; try reflexivity;
    match goal with E : ?f ?c = (_, ?b) |- _ => replace b with (f c).2 by by rewrite E end;
    auto using log_Health, log_Catalog, log_Plan, log_Execute, log_Confirm.
Qed.

(** Every execution the client asked for was requested by a handler, in the order of the requests, each at most once. *)
Lemma executions_requested srv requests s schedule :
  let pl := run_pool schedule (start_pool srv requests s) in
  exists new sent, executions (CS_Broker (PL_State pl)) = executions (CS_Broker s) ++ new /\
    Forall2 executes_request new sent /\ sent `sublist_of` omap requested (PL_History pl).
Proof.
  cbv zeta. apply (run_pool_invariant (fun pl => exists new sent,
    executions (CS_Broker (PL_State pl)) = executions (CS_Broker s) ++ new /\
    Forall2 executes_request new sent /\ sent `sublist_of` omap requested (PL_History pl))).
  { exists [], []. simpl. by rewrite app_nil_r. }
  intros pl i (new & sent & Hnew & Hf & Hsub). unfold pool_step.
  destruct (PL_Threads pl !! i) as [[r|e k]|]; try by exists new, sent.
  destruct (perform e (PL_State pl)) as [a s'] eqn:E. simpl. rewrite omap_app.
  destruct (perform_executions i e _ _ _ E) as [Hs|(x & r & Hs & Hr & Hx)].
  - exists new, sent. rewrite Hs. split; [done|]. split; [done|]. by apply sublist_inserts_r.
  - exists (new ++ [x]), (sent ++ [r]). rewrite Hs, Hnew, <- (assoc_L (++)). split; [done|].
    split; [by apply Forall2_app; [|constructor]|]. apply sublist_app; [done|]. simpl in *. by rewrite Hr.
Qed.

(** *** The audit trail *)

(** What a stored record keeps of its event. *)
Record records_event (event : AuditEvent) (r : AuditRecord) : Prop := {
  re_actor : AR_Actor r = Ev_Actor event;
  re_event : AR_Event r = sanitizeLabel (Ev_Event event) 96;
  re_status : AR_Status r = sanitizeLabel (Ev_Status event) 64;
  re_plan : AR_PlanID r = sanitizeLabel (Ev_PlanID event) 160;
  re_digest : AR_PlanDigest r = sanitizeDigest (Ev_PlanDigest event);
  re_action : AR_Action r = sanitizeLabel (Ev_Action event) 160;
  re_rollback : AR_RollbackStatus r = sanitizeLabel (Ev_RollbackStatus event) 64;
  re_parameters : AR_Parameters r = RedactParameters (Ev_Parameters event)
}.

Definition stored_record (io : nat * observed) : option AuditRecord :=
  match io.2 with SawAppend _ (Ok r) => Some r | _ => None end.

(** Since [store] the log in memory has grown by exactly the records whose append succeeded, in their order, each
    linked to the one before. *)
Definition trail (store : AuditStore) pl : Prop :=
  let added := omap stored_record (PL_History pl) in
  exists store' file, CS_Audit (PL_State pl) = Some (store', file) /\
    AS_Records store' = AS_Records store ++ added /\
    AS_LastHash store' = head_hash (AS_LastHash store) added /\
    AS_Sequence store' = head_sequence (AS_Sequence store) added /\
    chained (AS_LastHash store) (AS_Sequence store) added /\
    forall i event r, (i, SawAppend event (Ok r)) ∈ PL_History pl -> records_event event r.

Lemma final_record_event e now event store : records_event event (final_record e now event store).
Proof. by split. Qed.

Lemma perform_audit i e s store file a s' :
  CS_Audit s = Some (store, file) -> perform e s = (a, s') ->
  exists file',
    (stored_record (i, observe e a) = None /\ CS_Audit s' = Some (store, file')) \/
    (exists event r, observe e a = SawAppend event (Ok r) /\ CS_Audit s' = Some (store_with r store, file') /\
       linked (AS_LastHash store) (AS_Sequence store) r /\ records_event event r).
Proof.
  intros Ha E. destruct e; simpl in E; unfold call in E;
    try (repeat case_match; simplify_eq/=; exists file; by left).
  rewrite Ha in E. destruct (host_append _) as [io h], (host_entropy h) as [x h'], (host_now h') as [t h''].
  pose proof (Append_cases io x t event store file) as Hcase. destruct (Append io x t event store file) as [[r st] f].
  injection E as <- <-. exists f. simpl. inversion Hcase; subst; [|by left..].
  right. eexists _, _. split; [done|]. split; [done|]. split; [by apply final_record_linked|apply final_record_event].
Qed.

Lemma trail_step store pl i : trail store pl -> trail store (pool_step pl i).
Proof.
  intros (store' & file & Ha & Hr & Hh & Hq & Hc & He). unfold pool_step.
  destruct (PL_Threads pl !! i) as [[r|e k]|]; try (by exists store', file).
  destruct (perform e (PL_State pl)) as [a s'] eqn:E. unfold trail. simpl. rewrite omap_app.
  destruct (perform_audit i _ _ _ _ _ _ Ha E) as (file' & [[Hn Hs]|(event & r & Ho & Hs & Hlink & Hrec)]).
  - exists store', file'. simpl. rewrite Hn, app_nil_r. split; [done|]. do 4 (split; [done|]).
    intros j event r [Hin|Hin%list_elem_of_singleton]%elem_of_app; [by eapply He|]. injection Hin as -> Hin.
    unfold stored_record in Hn. simpl in Hn. by rewrite <- Hin in Hn.
  - exists (store_with r store'), file'. rewrite Ho. unfold stored_record at 2 4 6 8. simpl.
    rewrite Hr, Hh, Hq, (assoc_L (++)), head_hash_snoc, head_sequence_snoc in *.
    split; [done|]. do 3 (split; [done|]). split.
    + apply chained_app. by split.
    + intros j event' r' [Hin|Hin%list_elem_of_singleton]%elem_of_app; [by eapply He|]. by simplify_eq.
Qed.

(** C9 No execution without a trail.  In every interleaving, while the log is open, the log in memory grows by exactly the
    records whose append succeeded, in order, as a hash chain, each with the actor and the sanitised fields of its event.  A finished
    request that had the broker execute a plan looked the plan up, appended the attempt, called the broker once, and appended the
    outcome (or that the outcome is unknown), in this order, for the same caller and plan. *)
Theorem executions_leave_trail srv requests s schedule store file :
  CS_Audit s = Some (store, file) ->
  let pl := run_pool schedule (start_pool srv requests s) in
  trail store pl /\
  (Srv_Audit srv = true ->
   forall i response plan confirmation credential outcome,
   PL_Threads pl !! i = Some (Ret response) ->
   (i, SawExecuteApproved plan confirmation credential outcome) ∈ PL_History pl ->
   exists cx id t attempted recorded,
     thread_history i (PL_History pl) =
     [SawRead; SawGet id t (Some plan); SawAppend (attempt_event cx plan) attempted;
      SawExecuteApproved plan confirmation credential outcome;
      SawAppend match outcome with Err _ => unknown_event cx plan | Ok r => outcome_event cx plan r end recorded]).
Proof.
  intros Ha. cbv zeta. split.
  - apply run_pool_invariant; [|intros; by apply trail_step]. exists store, file. simpl.
    rewrite app_nil_r. do 5 (split; [done|]). intros ? ? ? []%not_elem_of_nil.
  - intros Haudit i response plan confirmation credential outcome Ht Hin.
    apply elem_of_thread_history in Hin.
    destruct (requests !! i) as [request|] eqn:Hi.
    + destruct (pool_paths srv requests s schedule i request Hi) as (q & Hq & Hp). rewrite Ht in Hq. injection Hq as <-.
      destruct (request_execute _ _ _ _ _ _ _ _ _ Hp Hin) as (cx & b & tr & _ & _ & Htr & Hshape).
      destruct Hshape as (body & t & attempt & rest & _ & _ & _ & _ & Hlog & -> & _ & Hfin).
      unfold logged in *. rewrite Haudit in *. destruct Hlog as [attempted ->], (Hfin eq_refl) as [recorded ->].
      exists cx, (TrimSpace (AX_PlanID body)), t, attempted, recorded. exact Htr.
    + exfalso. assert (Hn : PL_Threads (run_pool schedule (start_pool srv requests s)) !! i = None).
      { apply (run_pool_invariant (fun pl => PL_Threads pl !! i = None)).
        - simpl. by rewrite list_lookup_fmap, Hi.
        - intros pl j Hn. unfold pool_step. destruct (PL_Threads pl !! j) as [[r|e k]|] eqn:Ej; try done.
          destruct (perform e (PL_State pl)) as [a s']. simpl. rewrite list_lookup_insert_ne; [done|congruence]. }
      congruence.
Qed.
End histories.

(** ** Who is admitted *)

(** A request that is refused: it draws its identifier and nothing else. *)
Definition refused (p : prog http_response) (status : Z) (code : string) : Prop :=
  exists answer_of, p = Do ReadEntropy (fun e => Ret (answer_of e)) /\
    forall e, HTTP_Status (answer_of e) = status /\
      exists message id, HTTP_Payload (answer_of e) = JSONProblem (problem code message) id.

(** The actors of the configuration file, when there is one. *)
Definition registry_actor (cfg : ControlConfig) (files : control_files) (credential : string) : option Actor :=
  if CC_ActorFile cfg == "" then None
  else match LoadActorRegistry (CF_ActorRegistry files) with
       | Ok credentials => AuthenticateBearer credentials credential
       | Err _ => None
       end.

Lemma legacy_normal : normalizeActor LegacyServiceActor = Ok LegacyServiceActor.
Proof. vm_compute. reflexivity. Qed.

Lemma static_authenticates token credentials credential :
  NewStaticAuthenticator LegacyServiceActor token = Ok credentials ->
  AuthenticateBearer credentials credential =
  if (TrimSpace credential != "") && bool_decide (Sum256 credential = Sum256 token)
  then Some LegacyServiceActor else None.
Proof.
  unfold NewStaticAuthenticator, AuthenticateBearer. rewrite legacy_normal.
  destruct (TrimSpace token == ""); [done|]. intros [= <-].
  destruct (TrimSpace credential == ""); [done|]. cbn [negb andb].
  unfold find_credential. cbn [Cred_TokenSHA256 Cred_Actor]. rewrite decodeSHA256_sha256.
  unfold ConstantTimeCompare. by destruct (bool_decide _).
Qed.

(** Which bearer credential authenticates whom: the registry first, then the API token. *)
Definition accepts_bearer (cfg : ControlConfig) (files : control_files) (credential : string) (actor : Actor) : Prop :=
  registry_actor cfg files credential = Some actor \/
  (registry_actor cfg files credential = None /\ CC_APIToken cfg <> "" /\ Sum256 credential = Sum256 (CC_APIToken cfg) /\
   actor = LegacyServiceActor).

Lemma loaded_authenticator cfg files d credential :
  LoadSecurityDependencies cfg files = Ok d ->
  match SD_Authenticator d with
  | None => CC_ActorFile cfg = "" /\ CC_APIToken cfg = ""
  | Some authenticate => (CC_ActorFile cfg <> "" \/ CC_APIToken cfg <> "") /\
      forall actor, authenticate credential = Some actor <->
        TrimSpace credential <> "" /\ accepts_bearer cfg files credential actor
  end.
Proof.
  intros Hd.
  assert (Hblank : TrimSpace credential = "" -> forall credentials, AuthenticateBearer credentials credential = None)
    by (unfold AuthenticateBearer; by intros ->).
  assert (Hlegacy : forall legacy actor, NewStaticAuthenticator LegacyServiceActor (CC_APIToken cfg) = Ok legacy ->
    AuthenticateBearer legacy credential = Some actor <->
    TrimSpace credential <> "" /\ Sum256 credential = Sum256 (CC_APIToken cfg) /\ actor = LegacyServiceActor).
  { intros legacy actor El. rewrite (static_authenticates _ _ _ El). clear El. generalize LegacyServiceActor as service.
    destruct (TrimSpace credential == "") eqn:Eb;
      cbn [negb andb]; bool_prop; [split; [intros [=]|by intros [[] _]]|].
    case_bool_decide as Es; [split; [by intros [= <-]|by intros (_ & _ & ->)]|split; [intros [=]|by intros (_ & ? & _)]]. }
  revert Hd. unfold LoadSecurityDependencies, accepts_bearer, registry_actor, fail.
  destruct (CC_ActorFile cfg == "") eqn:Ef; cbn [negb]; bool_prop;
    [|destruct (LoadActorRegistry _) as [registry|] eqn:Er; cbn [mbind result_bind]; [|done]].
  all: destruct (CC_APIToken cfg == "") eqn:Et; cbn [negb mbind result_bind]; bool_prop;
    [|destruct (NewStaticAuthenticator _ _) as [legacy|] eqn:El; cbn [mbind result_bind app]; [|done]].
  all: destruct (OpenAuditStore _ _) as [audit|]; [intros [= <-]; cbn [SD_Authenticator]|intros [=]].
  { by split. }
  all: split; [first [by left|by right]|intros actor].
  all: unfold MultiAuthenticateBearer; cbn [find_first]; try specialize (Hlegacy legacy actor eq_refl).
  all: destruct (decide (TrimSpace credential = "")) as [Hb|Hb];
    [rewrite ?(Hblank Hb); split; [intros [=]|by intros [[] _]]|].
  2, 3: destruct (AuthenticateBearer registry credential) as [found|] eqn:Efound;
    try (split; [intros H; split; [exact Hb|by left]|intros [_ [H|[H _]]]; [exact H|discriminate H]]).
  - replace (match AuthenticateBearer legacy credential with Some b => Some b | None => None end)
      with (AuthenticateBearer legacy credential) by by destruct (AuthenticateBearer legacy credential).
    rewrite Hlegacy. split; [intros (_ & H); split; [exact Hb|by right]|intros [_ [[=]|(_ & _ & H)]]; by split].
  - split; [intros [=]|intros [_ [[=]|(_ & H & _)]]; by destruct H].
  - replace (match AuthenticateBearer legacy credential with Some b => Some b | None => None end)
      with (AuthenticateBearer legacy credential) by by destruct (AuthenticateBearer legacy credential).
    rewrite Hlegacy. split; [intros (_ & H); split; [exact Hb|by right]|intros [_ [[=]|(_ & _ & H)]]; by split].
Qed.

Lemma refused_answer (f : string -> http_response) status code :
  (forall id, HTTP_Status (f id) = status /\ exists message rid, HTTP_Payload (f id) = JSONProblem (problem code message) rid) ->
  refused (id ← newRequestID; mret (f id)) status code.
Proof. intros Hf. eexists. split; [reflexivity|]. intros e. apply Hf. Qed.

(** Neither an actor registry nor an API token is configured. *)
Definition open_access (cfg : ControlConfig) : Prop := CC_ActorFile cfg = "" /\ CC_APIToken cfg = "".

(** Permissions that only actors of the registry can hold. *)
Definition registry_only : list Permission := [PermissionConfirm; PermissionOperationMutate].

Lemma bootstrap_permissions permission :
  permission ∈ registry_only ->
  permission ∉ Actor_Permissions LocalReadOnlyActor /\ permission ∉ Actor_Permissions LegacyServiceActor.
Proof.
  intros Hp. rewrite <- !has_permission_in_elem.
  repeat (apply elem_of_cons in Hp as [->|Hp]; [split; vm_compute; discriminate|]). by apply not_elem_of_nil in Hp.
Qed.

Lemma authenticated_iff {H B : Type} (host : H) (broker : B) cfg files d header actor credential :
  LoadSecurityDependencies cfg files = Ok d ->
  authenticateRequest (NewServerWithSecurity host broker (CF_AuditFile files) d).1 header = Some (actor, credential) <->
  (open_access cfg /\ TrimSpace header = "" /\ actor = LocalReadOnlyActor /\ credential = "") \/
  (~ open_access cfg /\ HasPrefix header "Bearer " = true /\ credential = TrimSpace (TrimPrefix header "Bearer ") /\
   credential <> "" /\ accepts_bearer cfg files credential actor).
Proof.
  intros Hd. set (provided := TrimSpace (TrimPrefix header "Bearer ")).
  pose proof (loaded_authenticator cfg files d provided Hd) as Hload. unfold authenticateRequest, open_access. fold provided.
  cbn [NewServerWithSecurity fst Srv_Authenticator].
  destruct (SD_Authenticator d) as [authenticate|].
  - destruct Hload as [Hclosed Hload]. destruct (HasPrefix header "Bearer "); cbn [negb].
    2: { split; [intros [=]|intros [([? ?] & _)|(_ & [=] & _)]]. destruct Hclosed; congruence. }
    rewrite bind_Some. split.
    + intros (a & Ha & [= -> <-]). apply Hload in Ha as [Hne Ha]. unfold provided in Hne. rewrite TrimSpace_idemp in Hne.
      right. split; [intros []; destruct Hclosed; congruence|]. by do 3 (split; [done|]).
    + intros [([? ?] & _)|(_ & _ & -> & Hne & Ha)]; [destruct Hclosed; congruence|]. exists actor. split; [|done].
      apply Hload. split; [|exact Ha]. unfold provided. by rewrite TrimSpace_idemp.
  - destruct (TrimSpace header == "") eqn:E; cbn [negb]; bool_prop.
    + generalize LocalReadOnlyActor as local. intros local.
      split; [intros [= <- <-]; by left|]. intros [(_ & _ & -> & ->)|([] & _)]; done.
    + split; [intros [=]|]. intros [(_ & ? & _)|([] & _)]; done.
Qed.

(** Who is admitted by [NewServer]: a token of blanks only counts as none. *)
Lemma NewServer_authenticates {H B : Type} (host : H) (broker : B) cfg header actor credential :
  authenticateRequest (NewServer host broker cfg).1 header = Some (actor, credential) <->
  if TrimSpace (CC_APIToken cfg) == "" then TrimSpace header = "" /\ actor = LocalReadOnlyActor /\ credential = ""
  else HasPrefix header "Bearer " = true /\ credential = TrimSpace (TrimPrefix header "Bearer ") /\ credential <> "" /\
       Sum256 credential = Sum256 (CC_APIToken cfg) /\ actor = LegacyServiceActor.
Proof.
  unfold NewServer, defaultSecurityDependencies, authenticateRequest. cbn [NewServerWithSecurity fst Srv_Authenticator SD_Authenticator].
  destruct (TrimSpace (CC_APIToken cfg) == "") eqn:Eb; bool_prop.
  - assert ((if CC_APIToken cfg != "" then
       match NewStaticAuthenticator LegacyServiceActor (CC_APIToken cfg) with
       | Ok legacy => Some (AuthenticateBearer legacy) | Err _ => None end else None) = None) as ->.
    { destruct (CC_APIToken cfg != ""); [|done]. unfold NewStaticAuthenticator. by rewrite Eb. }
    destruct (TrimSpace header == "") eqn:E; cbn [negb]; bool_prop; generalize LocalReadOnlyActor as local; intros local;
      [split; [by intros [= <- <-]|by intros (_ & -> & ->)]|split; [intros [=]|by intros (? & _)]].
  - assert (Hne : (CC_APIToken cfg != "") = true) by (bool_prop; intros E; by rewrite E in Eb). rewrite Hne.
    destruct (NewStaticAuthenticator LegacyServiceActor (CC_APIToken cfg)) as [legacy|e] eqn:El.
    2: { revert El. unfold NewStaticAuthenticator. rewrite legacy_normal.
      destruct (String.eqb_spec (TrimSpace (CC_APIToken cfg)) ""); done. }
    destruct (HasPrefix header "Bearer "); cbn [negb]; [|split; [intros [=]|by intros ([=] & _)]].
    rewrite (static_authenticates _ _ _ El), TrimSpace_idemp. generalize LegacyServiceActor as service. intros service.
    destruct (TrimSpace (TrimPrefix header "Bearer ") == "") eqn:E; cbn [negb andb]; bool_prop;
      [split; [intros [=]|by intros (_ & -> & [] & _)]|].
    case_bool_decide; cbn; [split; [by intros [= <- <-]|by intros (_ & -> & _ & _ & ->)]|
      split; [intros [=]|by intros (_ & -> & _ & ? & _)]].
Qed.

(** C10 Who is admitted.  After start-up from any configuration: without registry and token exactly the requests without
    credentials are authenticated, as the local read-only actor; otherwise exactly those with a bearer token of the registry or, failing
    that, the API token.  Only actors of the registry are ever admitted to confirm or to execute mutations.  A request
    that is not authenticated, lacks the permission of its route or has a malformed session identifier is answered 401, 403
    or 400 and has no effect at all: no call of the broker, no plan, no audit record. *)
Theorem control_authorization {H B : Type} (host : H) (broker : B) cfg files d request :
  LoadSecurityDependencies cfg files = Ok d ->
  let srv := (NewServerWithSecurity host broker (CF_AuditFile files) d).1 in
  let header := HR_Authorization request in
  (forall actor credential, authenticateRequest srv header = Some (actor, credential) <->
   (open_access cfg /\ TrimSpace header = "" /\ actor = LocalReadOnlyActor /\ credential = "") \/
   (~ open_access cfg /\ HasPrefix header "Bearer " = true /\ credential = TrimSpace (TrimPrefix header "Bearer ") /\
    credential <> "" /\ accepts_bearer cfg files credential actor)) /\
  (forall permission cx, admitted srv request permission cx -> permission ∈ registry_only ->
   registry_actor cfg files (CX_Credential cx) = Some (CX_Actor cx)) /\
  (forall approval permission next, protected srv approval (HR_Route request) = Some (permission, next) ->
   (authenticateRequest srv header = None -> refused (Handler srv approval request) 401 "unauthorized") /\
   (forall actor credential, authenticateRequest srv header = Some (actor, credential) ->
    (permission ∉ Actor_Permissions actor -> refused (Handler srv approval request) 403 "forbidden") /\
    (permission ∈ Actor_Permissions actor -> TrimSpace (HR_SessionID request) <> "" ->
     validCorrelationID (TrimSpace (HR_SessionID request)) = false ->
     refused (Handler srv approval request) 400 "invalid_session_id"))).
Proof.
  intros Hd srv header.
  assert (Hauth : forall actor credential, authenticateRequest srv header = Some (actor, credential) <->
    (open_access cfg /\ TrimSpace header = "" /\ actor = LocalReadOnlyActor /\ credential = "") \/
    (~ open_access cfg /\ HasPrefix header "Bearer " = true /\ credential = TrimSpace (TrimPrefix header "Bearer ") /\
     credential <> "" /\ accepts_bearer cfg files credential actor))
    by exact (fun actor credential => authenticated_iff host broker cfg files d header actor credential Hd).
  split; [exact Hauth|]. split.
  - intros permission cx [Ha Hp _] Hreg. destruct (bootstrap_permissions permission Hreg) as [H1 H2].
    apply Hauth in Ha as [(_ & _ & Ha & _)|(_ & _ & _ & _ & [Ha|(_ & _ & _ & Ha)])];
      [rewrite Ha in Hp; by destruct H1|exact Ha|rewrite Ha in Hp; by destruct H2].
  - intros approval permission next Hr. unfold Handler. rewrite Hr. unfold requirePermission. fold header. split.
    + intros ->. apply refused_answer. intros id. split; [reflexivity|by eexists _, _].
    + intros actor credential ->. split.
      * intros Hp. destruct (HasPermission actor permission) eqn:E; [by apply has_permission_in_elem in E|].
        apply refused_answer. intros id. split; [reflexivity|by eexists _, _].
      * intros Hp Hs Hv. apply has_permission_in_elem in Hp. unfold HasPermission. rewrite Hp. cbn [negb].
        apply String.eqb_neq in Hs. rewrite Hs, Hv. apply refused_answer. intros id. split; [reflexivity|by eexists _, _].
Qed.

(** ** A concrete run

    A host that counts its readings, and a broker that answers every call. *)

(** Nothing of the inventory is installed on it. *)
#[local] Instance counting_scanner : Scanner nat := {
  scan_Snapshot n := (Ok {| Sn_Schema := SchemaVersion; Sn_ObservedAt := example_now; Sn_Components := [] |}, n);
  scan_Component _ n := (Ok None, n)
}.
#[local] Instance counting_host : Host nat := {
  host_now n := (Add example_now (Z.of_nat n), S n);
  host_entropy n := ({| Ent_Bytes := Some [chr (Z.of_nat n)]; Ent_UnixNano := 0 |}, S n);
  host_append n := (audit_io_works, n)
}.

Definition example_completed : OperationResponse :=
  {| Resp_RequestID := "req-1"; Resp_Action := "service.restart"; Resp_Status := "completed"; Resp_Risk := RiskLow;
     Resp_StartedAt := example_now; Resp_FinishedAt := example_now; Resp_AuditID := "audit-1"; Resp_Result := Some ∅;
     Resp_Error := None |}.

#[local] Instance agreeing_broker : BrokerAPI unit := {
  api_Health b := (None, b);
  api_Catalog b := (Ok [], b);
  api_Plan request b := (Ok example_broker_plan, b);
  api_Execute request b := (Ok example_completed, b);
  api_Approval := true;
  api_Confirm plan credential b := (fail "not confirmed", b);
  api_ExecuteApproved plan confirmation credential b := (Ok example_completed, b)
}.

Definition example_caller : Actor :=
  {| Actor_ID := "human:alice"; Actor_Kind := ActorHuman; Actor_DisplayName := "Alice"; Actor_Roles := ["mutator"];
     Actor_Permissions := [PermissionOperationPlan; PermissionOperationMutate] |}.
Definition example_control : Server :=
  {| Srv_Authenticator := Some (fun token => if token == "alice-token" then Some example_caller else None);
     Srv_Audit := true; Srv_Plans := true; Srv_PlanBuilder := {| PB_TTL := 5 * Minute |} |}.
Definition example_request (r : route) : http_request :=
  {| HR_Authorization := "Bearer alice-token"; HR_SessionID := "session-1"; HR_Route := r |}.

(** A plan and its execution; the second request starts after the first has stored its plan, under the identifier
    drawn then. *)
Definition example_requests : list http_request :=
  [example_request (RoutePlan (Decoded (BP_Request example_broker_plan)));
   example_request (RouteExecuteApproved (Decoded {| AX_PlanID := "plan-02"; AX_ConfirmationToken := "token" |}))].
Definition example_control_state : control_state nat unit :=
  {| CS_Host := 0%nat; CS_Broker := tt; CS_Audit := Some (empty_store example_path, AuditMissing); CS_Plans := ∅ |}.
Definition example_schedule : list nat := [0; 0; 0; 0; 1; 1; 0; 1; 1; 1]%nat.
Notation example_pool :=
  (run_pool example_schedule (start_pool example_control example_requests example_control_state)).

Definition is_execution (io : nat * observed) : bool :=
  match io.2 with SawExecuteApproved _ _ _ (Ok _) => true | _ => false end.

Lemma example_execution :
  exists before i plan confirmation credential response after,
    PL_History example_pool = before ++ (i, SawExecuteApproved plan confirmation credential response) :: after.
Proof.
  assert (H : existsb is_execution (PL_History example_pool) = true) by (vm_compute; reflexivity).
  apply existsb_elem in H as ([i o] & Hin & Ho). apply list_elem_of_split in Hin as (before & after & Heq).
  destruct o; try discriminate Ho. by eexists _, _, _, _, _, _, _.
Qed.

Lemma control_forwards_witness :
  exists before i plan confirmation credential response after cx,
    PL_History example_pool = before ++ (i, SawExecuteApproved plan confirmation credential response) :: after /\
    forwarded example_control example_requests before i PermissionOperationMutate cx plan.
Proof.
  destruct example_execution as (before & i & plan & confirmation & credential & response & after & E).
  destruct (control_forwards example_control example_requests example_control_state example_schedule before i _ after
    eq_refl E) as (cx & Hf & _).
  exists before, i, plan, confirmation, credential, response, after, cx. split; [exact E|exact Hf].
Defined.

Lemma executions_leave_trail_witness :
  exists store file, CS_Audit example_control_state = Some (store, file) /\ trail store example_pool.
Proof.
  exists (empty_store example_path), AuditMissing. split; [reflexivity|].
  apply (executions_leave_trail example_control example_requests example_control_state example_schedule
    (empty_store example_path) AuditMissing eq_refl).
Defined.

Definition open_config : ControlConfig :=
  {| CC_Listen := defaultControlListen; CC_APIToken := ""; CC_ActorFile := ""; CC_AuditPath := example_path;
     CC_PlanTTL := 5 * Minute; CC_BrokerSocket := defaultBrokerSocket;
     CC_BrokerToken := "0123456789abcdef0123456789abcdef"; CC_RequestBodyLimit := defaultBodyLimit;
     CC_HeaderTimeout := 10 * Second; CC_IdleTimeout := 90 * Second; CC_BrokerTimeout := 15 * Second |}.
Definition open_files : control_files := {| CF_ActorRegistry := RegistryUnreadable; CF_AuditFile := AuditMissing |}.

Lemma control_authorization_witness :
  exists d, LoadSecurityDependencies open_config open_files = Ok d /\
    refused (Handler (NewServerWithSecurity tt tt AuditMissing d).1 true (example_request RouteAuditIntegrity)) 401 "unauthorized".
Proof.
  eexists. split; [reflexivity|].
  destruct (control_authorization tt tt open_config open_files _ (example_request RouteAuditIntegrity) eq_refl) as (_ & _ & H).
  apply (H true PermissionAuditRead _ eq_refl). reflexivity.
Defined.
