(* ===== verification/Main.v ===== *)
(** * The two programs

    [cmd/quantum-control/main.go] and [cmd/qcored/main.go]: their commands, and the start-up of each process from its environment
    and its files up to the moment it listens. *)

From S2P Require Import Prelude GoStrings Sha256 GoTime GoConv Config Protocol Actors Plans Grants AuditLog ServiceControl System.
From S2P Require Import Registry Mutations Broker Listener Control.
#[local] Open Scope Z_scope.

Definition Version : string := "0.3.0-alpha.1".

(** What the files hold, by path. *)
Record disk := {
  DK_Read : read_file;
  DK_Actors : string -> registry_file;
  DK_Audit : string -> audit_file;
  DK_Policy : string -> policy_document;
  DK_Grants : string -> grant_file
}.

Definition control_files_of (d : disk) (cfg : ControlConfig) : control_files :=
  {| CF_ActorRegistry := DK_Actors d (CC_ActorFile cfg); CF_AuditFile := DK_Audit d (CC_AuditPath cfg) |}.
Definition broker_files_of (d : disk) (cfg : BrokerConfig) : broker_files :=
  {| BF_PolicyDocument := DK_Policy d (BC_ServicePolicyFile cfg); BF_Grants := DK_Grants d (BC_GrantPath cfg);
     BF_ActorRegistry := DK_Actors d (BC_ActorFile cfg) |}.

(** The limits of an [http.Server]. *)
Record http_server := {
  HS_Addr : string;
  HS_ReadHeaderTimeout : duration;
  HS_ReadTimeout : duration;
  HS_WriteTimeout : duration;
  HS_IdleTimeout : duration;
  HS_MaxHeaderBytes : Z
}.

(** The sum of two durations wraps around at 64 bits. *)
Definition plus64 (a b : duration) : duration := (a + b + 2 ^ 63) mod 2 ^ 64 - 2 ^ 63.

(** The two tables of commands. *)
Inductive command := CmdVersion | CmdCheckConfig | CmdCatalog | CmdServe | CmdUnknown (name : string).
Definition control_command (args : list string) : command :=
  let name := match args with [] => "serve" | name :: _ => name end in
  if (name == "version") || (name == "--version") || (name == "-version") then CmdVersion
  else if name == "check-config" then CmdCheckConfig
  else if name == "serve" then CmdServe
  else CmdUnknown name.
Definition qcored_command (args : list string) : command :=
  let name := match args with [] => "serve" | name :: _ => name end in
  if (name == "version") || (name == "--version") || (name == "-version") then CmdVersion
  else if name == "check-config" then CmdCheckConfig
  else if name == "catalog" then CmdCatalog
  else if name == "serve" then CmdServe
  else CmdUnknown name.

(** What a run of a program comes to: a line of output, the encoded catalogue, or a process that listens. *)
Inductive outcome (A : Type) :=
| Printed (line : string)
| PrintedCatalog (definitions : list OperationDefinition)
| Started (process : A).
Arguments Printed {_} _.
Arguments PrintedCatalog {_} _.
Arguments Started {_} _.

(** ** quantum-control *)

Definition control_http (cfg : ControlConfig) : http_server :=
  {| HS_Addr := CC_Listen cfg; HS_ReadHeaderTimeout := CC_HeaderTimeout cfg; HS_ReadTimeout := 30 * Second;
     HS_WriteTimeout := plus64 (CC_BrokerTimeout cfg) (5 * Second); HS_IdleTimeout := CC_IdleTimeout cfg;
     HS_MaxHeaderBytes := Z.shiftl 1 20 |}.

(** [serve] up to [ListenAndServe]: the limits, the token for the broker and the state of the API. *)
Definition control_serve (env : environment) (d : disk) : result (http_server * string * SecurityDependencies) :=
  match LoadControl env (DK_Read d) with
  | Err _ => fail "load configuration: %w"
  | Ok cfg =>
    match LoadSecurityDependencies cfg (control_files_of d cfg) with
    | Err _ => fail "initialize security state: %w"
    | Ok dependencies => Ok (control_http cfg, CC_BrokerToken cfg, dependencies)
    end
  end.

Definition control_check (env : environment) (d : disk) : result string :=
  cfg ← LoadControl env (DK_Read d);
  match LoadSecurityDependencies cfg (control_files_of d cfg) with
  | Err _ => fail "validate security state: %w"
  | Ok _ => Ok "configuration and security state valid"
  end.

Definition control_run (args : list string) (env : environment) (d : disk) :
    result (outcome (http_server * string * SecurityDependencies)) :=
  match control_command args with
  | CmdVersion => Ok (Printed Version)
  | CmdCheckConfig => line ← control_check env d; Ok (Printed line)
  | CmdServe => process ← control_serve env d; Ok (Started process)
  | CmdCatalog => Err (errorf "unknown command %q; expected serve, version, or check-config" ["catalog"])
  | CmdUnknown name => Err (errorf "unknown command %q; expected serve, version, or check-config" [name])
  end.

(** ** qcored *)

Definition broker_http (cfg : BrokerConfig) : http_server :=
  {| HS_Addr := ""; HS_ReadHeaderTimeout := BC_HeaderTimeout cfg;
     HS_ReadTimeout := plus64 (BC_TransactionTimeout cfg) (10 * Second);
     HS_WriteTimeout := plus64 (BC_TransactionTimeout cfg) (15 * Second); HS_IdleTimeout := BC_IdleTimeout cfg;
     HS_MaxHeaderBytes := Z.shiftl 1 20 |}.

(** [serve] up to [Serve]. *)
Definition qcored_serve (env : environment) (d : disk) (io : listen_io) : result (http_server * Broker.Server * GrantStore) :=
  match LoadBroker env (DK_Read d) with
  | Err _ => fail "load configuration: %w"
  | Ok cfg =>
    match loadMutationSecurity cfg (broker_files_of d cfg) with
    | Err _ => fail "initialize privileged security state: %w"
    | Ok (actors, grants, policy) =>
      match EnableServiceMutations true true policy (BC_TransactionTimeout cfg) (BC_ServicePollInterval cfg) NewRegistry with
      | Err _ => fail "initialize service mutation registry: %w"
      | Ok registry =>
        _ ← (ListenUnix io).1;
        Ok (broker_http cfg, {| Srv_Registry := registry; Srv_Token := BC_BrokerToken cfg; Srv_Actors := actors |}, grants)
      end
    end
  end.

Definition qcored_check (env : environment) (d : disk) : result string :=
  cfg ← LoadBroker env (DK_Read d);
  _ ← loadMutationSecurity cfg (broker_files_of d cfg);
  Ok "configuration and privileged security state valid".

Definition qcored_catalog : result (list OperationDefinition) :=
  registry ← EnableServiceMutations true true DefaultPolicy (30 * Second) (250 * Millisecond) NewRegistry;
  Ok (Catalog registry).

Definition qcored_run (args : list string) (env : environment) (d : disk) (io : listen_io) :
    result (outcome (http_server * Broker.Server * GrantStore)) :=
  match qcored_command args with
  | CmdVersion => Ok (Printed Version)
  | CmdCheckConfig => line ← qcored_check env d; Ok (Printed line)
  | CmdCatalog => definitions ← qcored_catalog; Ok (PrintedCatalog definitions)
  | CmdServe => process ← qcored_serve env d io; Ok (Started process)
  | CmdUnknown name => Err (errorf "unknown command %q; expected serve, version, check-config, or catalog" [name])
  end.

(** ** What the start-up guarantees *)

Lemma LoadControl_valid env read cfg : LoadControl env read = Ok cfg -> valid_control cfg.
Proof.
  unfold LoadControl. intros H. do 6 (apply bind_Ok in H as (? & _ & H)). cbv zeta in H.
  apply bind_Ok in H as ([] & Hv & [= <-]). by apply ValidateControl_Ok.
Qed.

Lemma LoadBroker_valid env read cfg : LoadBroker env read = Ok cfg -> valid_broker cfg.
Proof.
  unfold LoadBroker. intros H. do 7 (apply bind_Ok in H as (? & _ & H)). cbv zeta in H.
  apply bind_Ok in H as ([] & Hv & [= <-]). by apply ValidateBroker_Ok.
Qed.

(** The durations of a valid configuration suffice for the registry. *)
Lemma valid_registry cfg policy :
  valid_broker cfg ->
  EnableServiceMutations true true policy (BC_TransactionTimeout cfg) (BC_ServicePollInterval cfg) NewRegistry =
    Ok (enabled policy (BC_TransactionTimeout cfg) (BC_ServicePollInterval cfg) NewRegistry).
Proof.
  intros Hv. apply EnableServiceMutations_Ok. pose proof (vb_transaction _ Hv). pose proof (vb_poll _ Hv).
  split; [done|]. split; [done|]. by split.
Qed.

(** A process that serves has started as [start_broker] describes it. *)
Lemma qcored_serve_started env d io http srv grants :
  qcored_serve env d io = Ok (http, srv, grants) ->
  exists cfg, LoadBroker env (DK_Read d) = Ok cfg /\ http = broker_http cfg /\
    start_broker cfg (broker_files_of d cfg) = Ok (srv, grants).
Proof.
  unfold qcored_serve, start_broker. destruct (LoadBroker env (DK_Read d)) as [cfg|]; [|discriminate].
  destruct (loadMutationSecurity _ _) as [[[actors g] policy]|] eqn:El; [|discriminate].
  destruct (EnableServiceMutations _ _ _ _ _ _) as [registry|] eqn:Er; [|discriminate].
  intros H. apply bind_Ok in H as ([] & _ & [= <- <- <-]). exists cfg. split; [done|]. split; [done|]. by rewrite El; simpl; rewrite Er.
Qed.

(** C32 check-config decides.  For every environment and every content of the files, [quantum-control check-config] succeeds exactly
    when [quantum-control serve] reaches its listener; [qcored check-config], which does not build the registry, succeeds
    exactly when [qcored serve] reaches its socket, because the validated durations suffice for the registry; and
    without arguments both programs serve. *)
Theorem check_config_decides env d io :
  is_ok (control_run ["serve"] env d) = is_ok (control_run ["check-config"] env d) /\
  is_ok (qcored_run ["serve"] env d io) = is_ok (qcored_run ["check-config"] env d io) && is_ok (ListenUnix io).1 /\
  control_run [] env d = control_run ["serve"] env d /\ qcored_run [] env d io = qcored_run ["serve"] env d io /\
  is_ok (qcored_run ["catalog"] env d io) = true.
Proof.
  split; [|split; [|split; [done|split; [done|]]]].
  - unfold control_run. simpl. unfold control_serve, control_check. destruct (LoadControl env (DK_Read d)) as [cfg|]; [|done]. simpl.
    by destruct (LoadSecurityDependencies _ _).
  - unfold qcored_run. simpl. unfold qcored_serve, qcored_check. destruct (LoadBroker env (DK_Read d)) as [cfg|] eqn:E; [|done].
    apply LoadBroker_valid in E. simpl. destruct (loadMutationSecurity _ _) as [[[actors grants] policy]|]; [|done].
    rewrite (valid_registry cfg policy E). simpl. by destruct (ListenUnix io).1.
  - unfold qcored_run. simpl. unfold qcored_catalog.
    destruct (EnableServiceMutations_Ok true true DefaultPolicy (30 * Second) (250 * Millisecond) NewRegistry) as [He _].
    rewrite He; [done|]. repeat split; vm_compute; discriminate.
Qed.

(** C33 Bootstrap access stays on loopback.  When the public API starts, it is without authentication only if its listen address is
    a loopback address; on any other address every admitted request presents a credential of the actor registry or the API
    token.  The lifetime of its plans is within what the broker accepts. *)
Theorem bootstrap_only_on_loopback {H B : Type} (host : H) (client : B) env d http token dependencies :
  control_serve env d = Ok (http, token, dependencies) ->
  let srv := (NewServerWithSecurity host client AuditMissing dependencies).1 in
  (Srv_Authenticator srv = None -> isLoopbackListen (HS_Addr http) = true) /\
  (forall header actor credential, isLoopbackListen (HS_Addr http) = false ->
     authenticateRequest srv header = Some (actor, credential) ->
     HasPrefix header "Bearer " = true /\ credential <> "" /\
     exists cfg, LoadControl env (DK_Read d) = Ok cfg /\ accepts_bearer cfg (control_files_of d cfg) credential actor) /\
  0 < PB_TTL (Srv_PlanBuilder srv) <= 15 * Minute /\ 32 <= slen token.
Proof.
  unfold control_serve. intros Hs. destruct (LoadControl env (DK_Read d)) as [cfg|] eqn:E; [|discriminate Hs].
  pose proof (LoadControl_valid _ _ _ E) as Hv.
  destruct (LoadSecurityDependencies cfg (control_files_of d cfg)) as [deps|] eqn:El; [|discriminate Hs]. injection Hs as <- <- <-.
  assert (Hopen : open_access cfg -> isLoopbackListen (CC_Listen cfg) = true) by (intros [? ?]; by apply (vc_open _ Hv)).
  assert (Hauth : forall header actor credential,
    authenticateRequest (NewServerWithSecurity host client AuditMissing deps).1 header = Some (actor, credential) <->
    (open_access cfg /\ TrimSpace header = "" /\ actor = LocalReadOnlyActor /\ credential = "") \/
    (~ open_access cfg /\ HasPrefix header "Bearer " = true /\ credential = TrimSpace (TrimPrefix header "Bearer ") /\
     credential <> "" /\ accepts_bearer cfg (control_files_of d cfg) credential actor))
    by exact (fun header actor credential => authenticated_iff host client cfg (control_files_of d cfg) deps header actor credential El).
  cbv zeta. change (HS_Addr (control_http cfg)) with (CC_Listen cfg). split; [|split; [|split]].
  - intros Hnone. apply Hopen. pose proof (loaded_authenticator cfg (control_files_of d cfg) deps "" El) as Hl.
    cbn [NewServerWithSecurity fst Srv_Authenticator] in Hnone. rewrite Hnone in Hl. by destruct Hl.
  - intros header actor credential Hloop Ha. apply Hauth in Ha as [(Ho & _)|(_ & Hp & _ & Hne & Hacc)];
      [rewrite (Hopen Ho) in Hloop; discriminate Hloop|]. split; [exact Hp|]. split; [exact Hne|]. by exists cfg.
  - cbn [NewServerWithSecurity fst Srv_PlanBuilder].
    assert (SD_PlanBuilder deps = {| PB_TTL := CC_PlanTTL cfg |}) as ->.
    { revert El. unfold LoadSecurityDependencies. destruct (if CC_ActorFile cfg != "" then _ else _) as [l1|]; [|done]. simpl.
      destruct (if CC_APIToken cfg != "" then _ else _) as [l2|]; [|done]. simpl. destruct (OpenAuditStore _ _); [|done].
      by intros [= <-]. }
    simpl. pose proof (vc_ttl _ Hv) as Httl. destruct (Z.leb_spec (CC_PlanTTL cfg) 0); [lia|exact Httl].
  - apply (vc_token _ Hv).
Qed.

(** ** A concrete start *)

Definition example_environment : environment := fun key =>
  if key == "QUANTUM_CONTROL_BROKER_TOKEN" then "0123456789abcdef0123456789abcdef"
  else if key == "QUANTUM_CONTROL_LISTEN" then "[::1]:17440" else "".
Definition example_disk : disk :=
  {| DK_Read := fun _ => None; DK_Actors := fun _ => RegistryUnreadable; DK_Audit := fun _ => AuditMissing;
     DK_Policy := fun _ => PolicyUnreadable; DK_Grants := fun _ => FileMissing |}.

Lemma bootstrap_only_on_loopback_witness :
  exists http token dependencies, control_serve example_environment example_disk = Ok (http, token, dependencies) /\
    HS_Addr http = "[::1]:17440" /\ isLoopbackListen (HS_Addr http) = true.
Proof.
  destruct (control_serve example_environment example_disk) as [[[http token] dependencies]|e] eqn:E;
    [|exfalso; vm_compute in E; discriminate E].
  exists http, token, dependencies. split; [reflexivity|].
  destruct (bootstrap_only_on_loopback tt tt example_environment example_disk http token dependencies E) as [H _].
  vm_compute in E. injection E as <- _ <-. split; [reflexivity|]. apply H. reflexivity.
Defined.
