(* ===== verification/Lifecycle.v ===== *)
(** * From listening to exit

    The second half of [serve] in [cmd/quantum-control/main.go] and [cmd/qcored/main.go]: the goroutine that serves, the channel for
    its result, the signal, and the graceful shutdown, as a step function over the events of the process and of its surroundings.
    [http.Server] is what its documentation says: [Shutdown] closes the listener and the idle connections and waits until the
    others have become idle, or its context ends; once it was called [Serve] answers [ErrServerClosed]. A connection that was
    accepted before, but is not idle yet, may still bring a request, and one that never does counts as idle after five
    seconds. *)

From S2P Require Import Prelude Listener.

(** The two programs: [quantum-control] listens on TCP inside [ListenAndServe]; [qcored] brings its Unix listener along and closes it
    once more when [serve] returns. *)
Inductive program := QuantumControl | Qcored.

(** The goroutine: before [Serve] or [ListenAndServe], inside, about to send what it made of the result, done. *)
Inductive server_point := NotStarted | Serving | Sending (v : option text) | Sent.
(** [serve] itself: the [select], inside [Shutdown] (with the error of closing the listener, if any), the receive after it, returned. *)
Inductive main_point := Selecting | Draining (closed : result unit) | Receiving | Returned (r : result unit).
(** Whose socket is at the path. *)
Inductive socket_owner := NoSocket | OurSocket | TheirSocket.

Record process := {
  PR_Main : main_point;
  PR_Server : server_point;
  PR_ErrCh : option (option text); (* [errCh], of capacity one; [None] inside is [nil] *)
  PR_Signalled : bool; (* [ctx.Done()] is closed *)
  PR_InShutdown : bool;
  PR_Active : nat; (* connections that are not idle: accepted, or with a request begun and not ended *)
  PR_Path : socket_owner
}.
Definition set_main m p := {| PR_Main := m; PR_Server := PR_Server p; PR_ErrCh := PR_ErrCh p; PR_Signalled := PR_Signalled p;
  PR_InShutdown := PR_InShutdown p; PR_Active := PR_Active p; PR_Path := PR_Path p |}.
Definition set_server s p := {| PR_Main := PR_Main p; PR_Server := s; PR_ErrCh := PR_ErrCh p; PR_Signalled := PR_Signalled p;
  PR_InShutdown := PR_InShutdown p; PR_Active := PR_Active p; PR_Path := PR_Path p |}.
Definition set_channel c p := {| PR_Main := PR_Main p; PR_Server := PR_Server p; PR_ErrCh := c; PR_Signalled := PR_Signalled p;
  PR_InShutdown := PR_InShutdown p; PR_Active := PR_Active p; PR_Path := PR_Path p |}.
Definition set_signalled p := {| PR_Main := PR_Main p; PR_Server := PR_Server p; PR_ErrCh := PR_ErrCh p; PR_Signalled := true;
  PR_InShutdown := PR_InShutdown p; PR_Active := PR_Active p; PR_Path := PR_Path p |}.
Definition set_shutdown p := {| PR_Main := PR_Main p; PR_Server := PR_Server p; PR_ErrCh := PR_ErrCh p;
  PR_Signalled := PR_Signalled p; PR_InShutdown := true; PR_Active := PR_Active p; PR_Path := PR_Path p |}.
Definition set_active n p := {| PR_Main := PR_Main p; PR_Server := PR_Server p; PR_ErrCh := PR_ErrCh p;
  PR_Signalled := PR_Signalled p; PR_InShutdown := PR_InShutdown p; PR_Active := n; PR_Path := PR_Path p |}.
Definition set_path o p := {| PR_Main := PR_Main p; PR_Server := PR_Server p; PR_ErrCh := PR_ErrCh p;
  PR_Signalled := PR_Signalled p; PR_InShutdown := PR_InShutdown p; PR_Active := PR_Active p; PR_Path := o |}.

(** After the start-up; [qcored] has its socket by then. *)
Definition launched (prog : program) : process :=
  {| PR_Main := Selecting; PR_Server := NotStarted; PR_ErrCh := None; PR_Signalled := false; PR_InShutdown := false; PR_Active := 0;
     PR_Path := match prog with Qcored => OurSocket | QuantumControl => NoSocket end |}.

(** How closing the listener and removing its path end. *)
Record close_io := { CI_Close : bool; CI_Remove : bool }.

(** [Close] of the listener that the program serves on ([cleanupListener.Close] for [qcored]): whatever is at the path goes. *)
Definition close_listener (prog : program) (io : close_io) (p : process) : result unit * process :=
  match prog with
  | QuantumControl => (if CI_Close io then Ok tt else fail "close", p)
  | Qcored =>
    let removed := if negb (CI_Remove io) then RemoveError else match PR_Path p with NoSocket => RemoveMissing | _ => Removed end in
    ((Close (CI_Close io) removed).1, if CI_Remove io then set_path NoSocket p else p)
  end.

(** What can happen next.  The first seven are steps of the process itself, the others come from its surroundings. *)
Inductive moment :=
| Start (* the goroutine serves *)
| ServeClosed (* [Serve] answers [ErrServerClosed] *)
| Send
| SelectResult
| SelectSignal
| Drained (* [Shutdown] finds idle connections only, and closes them *)
| Receive
| ServeEnds (e : text) (* [Serve], or listening before it, fails *)
| Expired (* the 15 seconds of [shutdownCtx] are over *)
| BeginRequest (* a connection is accepted, or a request begins on an idle one *)
| EndRequest (* a connection becomes idle, or is closed *)
| Signal (* SIGINT or SIGTERM *)
| Successor. (* another [qcored] listens where no socket is *)
#[export] Instance moment_eq_dec : EqDecision moment.
Proof. solve_decision. Defined.

Definition own (e : moment) : bool :=
  match e with Start | ServeClosed | Send | SelectResult | SelectSignal | Drained | Receive => true | _ => false end.

(** [return], with the deferred [listener.Close()] of [qcored]. *)
Definition return_with (prog : program) (io : close_io) (r : result unit) (p : process) : process :=
  set_main (Returned r) match prog with Qcored => (close_listener prog io p).2 | QuantumControl => p end.

(** The value that [errCh] delivers, as the result of [serve]. *)
Definition delivered (v : option text) : result unit := match v with None => Ok tt | Some e => Err e end.
Definition graceful : result unit := fail "graceful shutdown: %w".

(** The goroutine: serve, and send what is not [ErrServerClosed]. *)
Definition goroutine_step (prog : program) (e : moment) (io : close_io) (p : process) : option process :=
  match e, PR_Server p with
  | Start, NotStarted => if PR_InShutdown p then None else Some (set_server Serving p)
  | ServeEnds e, (NotStarted | Serving) =>
    if PR_InShutdown p then None else Some (set_server (Sending (Some e)) (close_listener prog io p).2)
  | ServeClosed, NotStarted =>
    if PR_InShutdown p then Some (set_server (Sending None) (close_listener prog io p).2) else None
  | ServeClosed, Serving => if PR_InShutdown p then Some (set_server (Sending None) p) else None
  | Send, Sending v => match PR_ErrCh p with None => Some (set_server Sent (set_channel (Some v) p)) | Some _ => None end
  | _, _ => None
  end.

(** The [select] of [serve] and what follows it. *)
Definition main_step (prog : program) (e : moment) (io : close_io) (p : process) : option process :=
  match e, PR_Main p with
  | SelectResult, Selecting =>
    match PR_ErrCh p with Some v => Some (return_with prog io (delivered v) (set_channel None p)) | None => None end
  | SelectSignal, Selecting =>
    if negb (PR_Signalled p) then None
    else
      let '(closed, p) := match PR_Server p with Serving => close_listener prog io p | _ => (Ok tt, p) end in
      Some (set_main (Draining closed) (set_shutdown p))
  | Drained, Draining closed =>
    match PR_Active p, closed with
    | O, Ok _ => Some (set_main Receiving p)
    | O, Err _ => Some (return_with prog io graceful p)
    | S _, _ => None
    end
  | Expired, Draining _ => Some (return_with prog io graceful p)
  | Receive, Receiving =>
    match PR_ErrCh p with Some v => Some (return_with prog io (delivered v) (set_channel None p)) | None => None end
  | _, _ => None
  end.

(** Requests, the signal, and another process. *)
Definition outside_step (e : moment) (p : process) : option process :=
  match e with
  | BeginRequest =>
    match PR_Main p, PR_Server p with
    | (Selecting | Draining _), (Serving | Sending _ | Sent) => Some (set_active (S (PR_Active p)) p)
    | _, _ => None
    end
  | EndRequest => match PR_Active p with O => None | S n => Some (set_active n p) end
  | Signal => Some (set_signalled p)
  | Successor => match PR_Path p with NoSocket => Some (set_path TheirSocket p) | _ => None end
  | _ => None
  end.

Definition step (prog : program) (e : moment) (io : close_io) (p : process) : option process :=
  match PR_Main p with
  | Returned _ => None
  | _ =>
    match e with
    | Start | ServeClosed | Send | ServeEnds _ => goroutine_step prog e io p
    | SelectResult | SelectSignal | Drained | Receive | Expired => main_step prog e io p
    | BeginRequest | EndRequest | Signal | Successor => outside_step e p
    end
  end.

Fixpoint run (prog : program) (moments : list (moment * close_io)) (p : process) : option process :=
  match moments with
  | [] => Some p
  | (e, io) :: moments => p ← step prog e io p; run prog moments p
  end.

(** [main]: the exit status. *)
Definition exit_status {A} (r : result A) : Z := (if is_ok r then 0 else 1)%Z.

(** ** How it ends *)

Definition returned (p : process) : bool := match PR_Main p with Returned _ => true | _ => false end.

(** What happened so far: the error of [Serve], and whether the signal came. *)
Definition served_error (past : list moment) : option text :=
  head (omap (fun e => match e with ServeEnds e => Some e | _ => None end) past).
Definition is_signal (e : moment) : bool := match e with Signal => true | _ => false end.
Definition signalled (past : list moment) : bool := existsb is_signal past.

Lemma served_error_snoc past e :
  served_error (past ++ [e]) = match served_error past with Some e => Some e | None => match e with ServeEnds e => Some e | _ => None end end.
Proof. unfold served_error. rewrite omap_app. destruct (omap _ past); [by destruct e|done]. Qed.
Lemma signalled_snoc past e : signalled (past ++ [e]) = signalled past || is_signal e.
Proof. unfold signalled. rewrite existsb_app. cbn. by rewrite orb_false_r. Qed.

(** What holds of a process after the moments [past]. *)
Record lifecycle (past : list moment) (p : process) : Prop := {
  lc_main :
    match PR_Main p with
    | Selecting => PR_InShutdown p = false
    | Draining _ => PR_InShutdown p = true
    | Receiving => PR_InShutdown p = true /\ PR_Active p = 0%nat
    | Returned (Ok _) => PR_Signalled p = true /\ PR_Active p = 0%nat /\ served_error past = None
    | Returned (Err e) => served_error past = Some e \/ (Err e = graceful /\ PR_Signalled p = true)
    end;
  lc_server :
    match PR_Server p with
    | NotStarted | Serving => PR_ErrCh p = None /\ served_error past = None
    | Sending v => PR_ErrCh p = None /\ served_error past = v /\ (v = None -> PR_InShutdown p = true)
    | Sent =>
      returned p = true \/
      (PR_ErrCh p = Some (served_error past) /\ (served_error past = None -> PR_InShutdown p = true))
    end;
  lc_signal : PR_Signalled p = signalled past;
  lc_shutdown : PR_InShutdown p = true -> PR_Signalled p = true
}.

Lemma close_listener_fields prog io p : exists o, (close_listener prog io p).2 = set_path o p.
Proof. destruct p, prog; cbn; [by eexists|]. destruct (CI_Remove io); by eexists. Qed.

Lemma launched_lifecycle prog : lifecycle [] (launched prog).
Proof. by split. Qed.

Ltac step_cases H :=
  unfold step, goroutine_step, main_step, outside_step, return_with in H;
  repeat match type of H with
  | context [close_listener ?prog ?io ?p] =>
    let o := fresh "o" in let E := fresh "E" in let c := fresh "closed" in let q := fresh "q" in
    pose proof (close_listener_fields prog io p) as [o E]; destruct (close_listener prog io p) as [c q]; cbn [snd] in E; subst q
  end;
  cbn in H; repeat case_match; simplify_eq/=.

Lemma step_lifecycle prog past e io p q : lifecycle past p -> step prog e io p = Some q -> lifecycle (past ++ [e]) q.
Proof.
  intros [Hm Hs Hg Hh] H. destruct p as [m s c sg sh a o0]. cbn in *. step_cases H.
  all: repeat match goal with
       | H : _ /\ _ |- _ => destruct H
       | H : false = true \/ _ |- _ => destruct H; [discriminate|]
       | H : negb _ = false |- _ => apply negb_false_iff in H
       end; subst.
  all: split; cbn in *; rewrite ?served_error_snoc, ?signalled_snoc, <-?Hg, ?orb_false_r, ?orb_true_r; auto.
  all: try (destruct (served_error past); cbn in *; auto; fail).
  all: try (intuition congruence).
  all: destruct_or?; try done; destruct_and?; simplify_eq/=; destruct (served_error past); cbn in *; try naive_solver.
Qed.

Lemma run_snoc prog moments e io p : run prog (moments ++ [(e, io)]) p = q ← run prog moments p; step prog e io q.
Proof.
  revert p. induction moments as [|[e' io'] moments IH]; intros p; cbn; [by destruct (step _ _ _ _)|].
  destruct (step _ _ _ p); cbn; [apply IH|done].
Qed.

Lemma run_lifecycle prog moments p : run prog moments (launched prog) = Some p -> lifecycle moments.*1 p.
Proof.
  revert p. induction moments as [|[e io] moments IH] using rev_ind; intros p H.
  - injection H as <-. apply launched_lifecycle.
  - rewrite run_snoc in H. destruct (run prog moments _) as [q|]; [|done].
    rewrite fmap_app. eapply step_lifecycle; [by apply IH|exact H].
Qed.

Lemma signalled_spec past : signalled past = true <-> Signal ∈ past.
Proof. unfold signalled. rewrite existsb_elem. split; [by intros ([] & Hin & [=])|]. intros Hin. by exists Signal. Qed.
Lemma served_error_none past : served_error past = None <-> forall e, ServeEnds e ∉ past.
Proof.
  induction past as [|e past IH]; [set_solver|]. destruct e; cbn; try (unfold served_error in IH; cbn in IH; rewrite IH; set_solver).
  split; [done|]. intros H. by destruct (H e); left.
Qed.
Lemma served_error_some past e : served_error past = Some e -> ServeEnds e ∈ past.
Proof. induction past as [|x past IH]; [done|]. destruct x; cbn; try (intros H; right; by apply IH). intros [= ->]. by left. Qed.

(** What the process still has to do. *)
Definition steps_left (p : process) : nat :=
  match PR_Server p with NotStarted => 3 | Serving => 2 | Sending _ => 1 | Sent => 0 end +
  match PR_Main p with Selecting => 3 | Draining _ => 2 | Receiving => 1 | Returned _ => 0 end.

Lemma step_left prog e io p q : step prog e io p = Some q -> (if own e then 1 else 0) + steps_left q <= steps_left p.
Proof. intros H. destruct p as [m s c sg sh a o0]. step_cases H. all: unfold steps_left; cbn; lia. Qed.

Lemma run_left prog moments p q :
  run prog moments p = Some q -> length (filter (fun e => own e = true) moments.*1) + steps_left q <= steps_left p.
Proof.
  revert p. induction moments as [|[e io] moments IH]; intros p H; [by injection H as <-|].
  cbn in H. destruct (step prog e io p) as [p'|] eqn:E; [|done]. apply step_left in E. apply IH in H.
  cbn [fmap list_fmap fst]. rewrite filter_cons. destruct (own e); case_decide; try done; cbn [length]; lia.
Qed.

(** The process itself can go on after a signal, unless it waits for a request. *)
Lemma step_ready prog io past p :
  lifecycle past p -> PR_Signalled p = true -> returned p = false ->
  (exists e q, own e = true /\ step prog e io p = Some q) \/
  exists closed n, PR_Main p = Draining closed /\ PR_Active p = S n.
Proof.
  intros [Hm Hs _ _] Hg Hr. destruct p as [m s c sg sh a o0]. cbn in *. subst sg. unfold step. cbn.
  destruct m as [|closed| |r]; [left|destruct a as [|n]; [left|right; eauto]|left|discriminate Hr].
  - exists SelectSignal. destruct s; cbn; try destruct (close_listener prog io _); by eexists.
  - exists Drained. destruct closed; by eexists.
  - destruct Hm as [-> _]. destruct s as [| |v|].
    + exists ServeClosed. by eexists.
    + exists ServeClosed. by eexists.
    + destruct Hs as (-> & _). exists Send. by eexists.
    + destruct Hs as [Hs|(-> & _)]; [discriminate Hs|]. exists Receive. by eexists.
Qed.

(** The deferred [Close] of [qcored] clears the path on every return. *)
Lemma step_returned prog e io p q :
  step prog e io p = Some q -> returned q = true -> prog = Qcored -> CI_Remove io = true -> PR_Path q = NoSocket.
Proof.
  intros H Hr -> Hio. destruct p as [m s c sg sh a o0]. unfold step, goroutine_step, main_step, outside_step, return_with, close_listener in H. rewrite Hio in H. cbn in H.
  repeat case_match; simplify_eq/=; done.
Qed.

(** C24 The programs stop.  In every run of either program from the start of its goroutine: the process takes at most six steps of
    its own; once it is signalled and until it returns it can always take one, unless it waits for connections that are not
    idle, which the deadline of 15 seconds ends.  It exits with status 0 only after a signal, with no request cut off
    and no error of the server lost; with status 1 it reports that error, or that the graceful shutdown failed.  [qcored] leaves no socket behind. *)
Theorem serve_stops prog moments io p :
  run prog moments (launched prog) = Some p ->
  (length (filter (fun e => own e = true) moments.*1) <= 6)%nat /\
  (Signal ∈ moments.*1 -> returned p = false ->
     (exists e, own e = true /\ is_Some (step prog e io p)) \/
     (0 < PR_Active p)%nat /\ exists q, step prog Expired io p = Some q /\ returned q = true) /\
  match PR_Main p with
  | Returned r =>
    (exit_status r = 0%Z <-> r = Ok tt) /\
    match r with
    | Ok _ => Signal ∈ moments.*1 /\ PR_Active p = 0%nat /\ forall e, ServeEnds e ∉ moments.*1
    | Err e => ServeEnds e ∈ moments.*1 \/ (Err e = graceful /\ Signal ∈ moments.*1)
    end /\
    (prog = Qcored -> (forall io, io ∈ moments.*2 -> CI_Remove io = true) -> PR_Path p = NoSocket)
  | _ => True
  end.
Proof.
  intros H. pose proof (run_lifecycle _ _ _ H) as Hl. pose proof (run_left _ _ _ _ H) as Hn.
  split; [cbn in Hn; lia|]. split.
  - intros Hs Hr. rewrite <-signalled_spec, <-(lc_signal _ _ Hl) in Hs.
    destruct (step_ready prog io _ _ Hl Hs Hr) as [(e & q & He & Hq)|(closed & n & Hm & Ha)]; [left; by eauto|right].
    rewrite Ha. split; [lia|]. unfold step, main_step. rewrite !Hm. eexists. split; [reflexivity|]. by destruct prog.
  - destruct (PR_Main p) as [| | |r] eqn:Em; try done. split; [by destruct r as [[]|]|]. split.
    + pose proof (lc_main _ _ Hl) as Hm. rewrite Em in Hm.
      destruct r as [[]|e]; rewrite <-signalled_spec, <-(lc_signal _ _ Hl); [by rewrite <-served_error_none|]. destruct Hm as [Hm|Hm]; [left; by apply served_error_some|by right].
    + destruct moments as [|[e io'] moments _] using rev_ind; [by injection H as <-|]. rewrite run_snoc in H.
      intros -> Hio. destruct (run Qcored moments _) as [q|]; [|done]. eapply (step_returned Qcored e io' q p); try done.
      * unfold returned. by rewrite Em.
      * apply Hio. rewrite fmap_app. set_solver.
Qed.

(** Status 0 although the socket of a successor was removed: [Shutdown] has closed the listener and removed its path, another
    [qcored] takes it, and the deferred [Close] of the first removes it again. *)
Definition successor_run : list moment :=
  [Start; Signal; SelectSignal; Successor; ServeClosed; Send; Drained; Receive].
Definition all_ok : close_io := {| CI_Close := true; CI_Remove := true |}.
Theorem successor_socket_removed :
  PR_Path <$> run Qcored ((., all_ok) <$> take 7 successor_run) (launched Qcored) = Some TheirSocket /\
  (fun p => (PR_Main p, PR_Path p)) <$> run Qcored ((., all_ok) <$> successor_run) (launched Qcored) =
    Some (Returned (Ok tt), NoSocket).
Proof. by split. Qed.

Lemma serve_stops_witness :
  exists p, run Qcored ((., all_ok) <$> successor_run) (launched Qcored) = Some p /\ PR_Active p = 0%nat /\ PR_Path p = NoSocket.
Proof.
  destruct (run Qcored ((., all_ok) <$> successor_run) (launched Qcored)) as [p|] eqn:E; [|discriminate E].
  destruct (serve_stops Qcored _ all_ok p E) as (_ & _ & H). exists p. split; [reflexivity|].
  injection E as <-. destruct H as (_ & (_ & Ha & _) & Hp). split; [exact Ha|]. apply Hp; [reflexivity|].
  intros io Hio. apply list_elem_of_In in Hio. repeat destruct Hio as [<-|Hio]; try reflexivity. destruct Hio.
Defined.
