(* ===== verification/Client.v ===== *)
(** * The client of the broker, and the composition of both processes

    [internal/broker/client.go]: what the public API sends to qcored and makes of the answers.  The client is an instance of the
    interface [BrokerAPI] of [Control.v] over the server of [Broker.v], with a network that may lose requests and answers, and with other
    users of the socket, restarts and crashes in between. *)

From S2P Require Import Prelude GoStrings Sha256 GoTime Protocol JsonAny Actors Plans Grants AuditLog ServiceControl System Registry Mutations.
From S2P Require Import Control Broker.
#[local] Open Scope Z_scope.

(** ** JSON between the two processes

    Encoding and decoding keeps every value but the bytes of strings that are not UTF-8, empty optional lists, which are left out,
    and the difference between values of unknown type. *)

Definition scrub_parameter (p : Parameter') : Parameter' :=
  {| Param_Name := scrub (Param_Name p); Param_Value := scrub (Param_Value p) |}.

Definition scrub_plan (p : OperationPlan) : OperationPlan :=
  {| Plan_Schema := scrub (Plan_Schema p); Plan_ID := scrub (Plan_ID p); Plan_Digest := scrub (Plan_Digest p);
     Plan_RequestID := scrub (Plan_RequestID p); Plan_SessionID := scrub (Plan_SessionID p);
     Plan_Actor := scrub_actor (Plan_Actor p); Plan_Action := scrub (Plan_Action p);
     Plan_Parameters := scrub_parameter <$> Plan_Parameters p; Plan_Risk := scrub (Plan_Risk p);
     Plan_RequiresConfirmation := Plan_RequiresConfirmation p; Plan_Valid := Plan_Valid p;
     Plan_CreatedAt := Plan_CreatedAt p; Plan_ExpiresAt := Plan_ExpiresAt p; Plan_ErrorCode := scrub (Plan_ErrorCode p) |}.

Definition scrub_request (r : OperationRequest) : OperationRequest :=
  {| Req_RequestID := scrub (Req_RequestID r); Req_Action := scrub (Req_Action r); Req_Actor := scrub (Req_Actor r);
     Req_Parameters := scrub_map (Req_Parameters r); Req_Confirmation := scrub (Req_Confirmation r) |}.

Definition scrub_parameter_definition (p : ParameterDefinition) : ParameterDefinition :=
  {| PD_Name := scrub (PD_Name p); PD_Description := scrub (PD_Description p); PD_Required := PD_Required p;
     PD_Pattern := scrub (PD_Pattern p);
     PD_AllowedValues := match PD_AllowedValues p with
                         | None | Some [] => None
                         | Some values => Some (scrub <$> values)
                         end |}.

Definition scrub_definition (d : OperationDefinition) : OperationDefinition :=
  {| OD_Action := scrub (OD_Action d); OD_Summary := scrub (OD_Summary d); OD_Risk := scrub (OD_Risk d);
     OD_RequiresConfirmation := OD_RequiresConfirmation d; OD_Implemented := OD_Implemented d;
     OD_Parameters := scrub_parameter_definition <$> OD_Parameters d |}.

Definition scrub_problem (p : Problem) : Problem :=
  {| Problem_Code := scrub (Problem_Code p); Problem_Message := Problem_Message p |}.

Definition scrub_broker_plan (p : BrokerPlan) : BrokerPlan :=
  {| BP_Request := scrub_request (BP_Request p); BP_Definition := scrub_definition (BP_Definition p);
     BP_Valid := BP_Valid p; BP_RequiresConfirmation := BP_RequiresConfirmation p;
     BP_Error := scrub_problem <$> BP_Error p |}.

(** A result without entries is left out. *)
Definition scrub_response (r : OperationResponse) : OperationResponse :=
  {| Resp_RequestID := scrub (Resp_RequestID r); Resp_Action := scrub (Resp_Action r); Resp_Status := scrub (Resp_Status r);
     Resp_Risk := scrub (Resp_Risk r); Resp_StartedAt := Resp_StartedAt r; Resp_FinishedAt := Resp_FinishedAt r;
     Resp_AuditID := scrub (Resp_AuditID r);
     Resp_Result := match Resp_Result r with
                    | Some m => if bool_decide (m = ∅) then None else Some (scrub_dict m)
                    | None => None
                    end;
     Resp_Error := scrub_problem <$> Resp_Error r |}.

Definition scrub_grant_response (g : GrantResponse) : GrantResponse :=
  {| GR_Grant := scrub_grant (GR_Grant g); GR_Token := scrub (GR_Token g) |}.

(** An answer whose instants and numbers have no text is sent without a body. *)
Definition response_marshals (r : OperationResponse) : bool :=
  marshals (Resp_StartedAt r) && marshals (Resp_FinishedAt r)
  && match Resp_Result r with Some m => bool_decide (m = ∅) || bool_decide (is_Some (dict_json m)) | None => true end.
Definition grant_marshals (g : ConfirmationGrant) : bool :=
  marshals (Grant_IssuedAt g) && marshals (Grant_ExpiresAt g) && marshals (Grant_UsedAt g).
Definition body_marshals (x : body) : bool :=
  match x with
  | JSONOperation response => response_marshals response
  | JSONGrant grant => grant_marshals (GR_Grant grant)
  | _ => true
  end.

(** ** The network and everybody else

    What happens around one call: [MO_Before] happens at the broker first (requests of others, restarts), the request may get
    lost or be too long for the broker, the answer may get lost, or be too long or cut short. *)
Record moment := {
  MO_Before : list broker_op;
  MO_Env : grant_env;
  MO_Sent : bool;
  MO_TooLong : bool;
  MO_Received : bool
}.

(** The client ([CL_Token]) with the broker behind its socket.  [CL_Rounds] keeps every round of the broker since its start, and
    whether this client asked for it. *)
Record client_state (S : Type) := {
  CL_Token : string;
  CL_Server : Server;
  CL_Broker : broker_state S;
  CL_Script : nat -> moment;
  CL_Calls : nat;
  CL_Rounds : list (bool * round S)
}.
Arguments CL_Token {_} _.
Arguments CL_Server {_} _.
Arguments CL_Broker {_} _.
Arguments CL_Script {_} _.
Arguments CL_Calls {_} _.
Arguments CL_Rounds {_} _.

(** ** The calls *)

Section client.
Context {S : Type} `{!System S}.
Implicit Types b : client_state S.

(** One operation of the broker, on behalf of the client ([own]) or not. *)
Definition broker_round (own : bool) b (op : broker_op) : client_state S :=
  let '(response, st) := broker_step (CL_Server b) op (CL_Broker b) in
  {| CL_Token := CL_Token b; CL_Server := CL_Server b; CL_Broker := st; CL_Script := CL_Script b; CL_Calls := CL_Calls b;
     CL_Rounds := CL_Rounds b ++ [(own, {| rd_before := CL_Broker b; rd_op := op; rd_response := response; rd_after := st |})] |}.

Definition next_call b : client_state S :=
  {| CL_Token := CL_Token b; CL_Server := CL_Server b; CL_Broker := CL_Broker b; CL_Script := CL_Script b;
     CL_Calls := Datatypes.S (CL_Calls b); CL_Rounds := CL_Rounds b |}.

(** The moment of the next call, and the broker when the request arrives. *)
Definition next_moment b : moment := CL_Script b (CL_Calls b).
Definition others_first b : client_state S := fold_left (broker_round false) (MO_Before (next_moment b)) (next_call b).

Definition containsStatus (statuses : list Z) (status : Z) : bool :=
  existsb (fun accepted => accepted =? status) statuses.

(** [do]: [encoded] says whether the input can be marshalled, [request] is what the broker reads, [output] what the client
    decodes from the body of an accepted answer. *)
Definition client_do {A} (encoded : bool) (request : bool -> broker_request) (accepted : list Z) (output : body -> option A)
    b : result A * client_state S :=
  if negb encoded then (fail "encode broker request", b)
  else
    let m := next_moment b in
    let b := others_first b in
    if negb (MO_Sent m) then (fail "broker request", b)
    else
      let b' := broker_round true b (BServe (MO_Env m) (request (MO_TooLong m))) in
      match (broker_step (CL_Server b) (BServe (MO_Env m) (request (MO_TooLong m))) (CL_Broker b)).1 with
      | None => (fail "broker request", b')
      | Some response =>
        if negb (MO_Received m) then (fail "read broker response", b')
        else if negb (containsStatus accepted (HTTP_Status response)) then
          (Err (errorf "broker returned HTTP %d" [decimal (Z.to_N (HTTP_Status response))]), b')
        else
          match output (HTTP_Body response) with
          | Some a => (Ok a, b')
          | None => (fail "decode broker response", b')
          end
      end.

(** The body of a request as the broker decodes it. *)
Definition sent_body {A} (a : A) (too_long : bool) : decoded A := if too_long then BodyInvalid else BodyValue a.

(** *** Decoding answers

    Unknown members are ignored, so the problem of a refused request fills the field [error] of the expected structure and
    leaves the rest zero. *)
Definition zero_BrokerPlan (p : Problem) : BrokerPlan :=
  {| BP_Request := {| Req_RequestID := ""; Req_Action := ""; Req_Actor := ""; Req_Parameters := ∅; Req_Confirmation := "" |};
     BP_Definition := zero_OperationDefinition; BP_Valid := false; BP_RequiresConfirmation := false;
     BP_Error := Some (scrub_problem p) |}.
Definition zero_response (p : Problem) : OperationResponse :=
  {| Resp_RequestID := ""; Resp_Action := ""; Resp_Status := ""; Resp_Risk := ""; Resp_StartedAt := 0; Resp_FinishedAt := 0;
     Resp_AuditID := ""; Resp_Result := None; Resp_Error := Some (scrub_problem p) |}.

Definition as_health (x : body) : option () := match x with JSONHealth => Some () | _ => None end.
Definition as_operations (x : body) : option (list OperationDefinition) :=
  match x with JSONOperations l => Some (scrub_definition <$> l) | _ => None end.
Definition as_plan (x : body) : option BrokerPlan :=
  match x with
  | JSONPlan plan => Some (scrub_broker_plan plan)
  | JSONProblem p => Some (zero_BrokerPlan p)
  | _ => None
  end.
Definition as_response (x : body) : option OperationResponse :=
  match x with
  | JSONOperation response => if response_marshals response then Some (scrub_response response) else None
  | JSONProblem p => Some (zero_response p)
  | _ => None
  end.
Definition as_grant (x : body) : option GrantResponse :=
  match x with
  | JSONGrant grant => if grant_marshals (GR_Grant grant) then Some (scrub_grant_response grant) else None
  | _ => None
  end.

Definition client_Health b : option text * client_state S :=
  let '(r, b) := client_do true (fun _ => GetHealth) [200] as_health b in
  (match r with Ok _ => None | Err e => Some e end, b).
Definition client_Catalog b : result (list OperationDefinition) * client_state S :=
  client_do true (fun _ => GetOperations (CL_Token b)) [200] as_operations b.
Definition client_Plan (request : OperationRequest) b : result BrokerPlan * client_state S :=
  client_do true (fun long => PostPlan (CL_Token b) (sent_body (scrub_request request) long)) [200; 400] as_plan b.
Definition client_Execute (request : OperationRequest) b : result OperationResponse * client_state S :=
  client_do true (fun long => PostExecute (CL_Token b) (sent_body (scrub_request request) long)) [200; 400; 500] as_response b.
Definition plan_marshals (plan : OperationPlan) : bool := marshals (Plan_CreatedAt plan) && marshals (Plan_ExpiresAt plan).
Definition client_Confirm (plan : OperationPlan) (actorToken : string) b : result GrantResponse * client_state S :=
  client_do (plan_marshals plan)
    (fun long => PostConfirm (CL_Token b)
       (sent_body {| CE_Plan := scrub_plan plan; CE_ActorToken := scrub actorToken |} long)) [201] as_grant b.
Definition client_ExecuteApproved (plan : OperationPlan) (confirmationToken actorToken : string) b :
    result OperationResponse * client_state S :=
  client_do (plan_marshals plan)
    (fun long => PostExecuteApproved (CL_Token b)
       (sent_body {| AE_Plan := scrub_plan plan; AE_ConfirmationToken := scrub confirmationToken;
                     AE_ActorToken := scrub actorToken |} long)) [200; 400; 500] as_response b.

(** [Client] implements [API] and [ApprovalAPI]. *)
Definition client_api : BrokerAPI (client_state S) := {|
  api_Health := client_Health;
  api_Catalog := client_Catalog;
  api_Plan := client_Plan;
  api_Execute := client_Execute;
  api_Approval := true;
  api_Confirm := client_Confirm;
  api_ExecuteApproved := client_ExecuteApproved
|}.
End client.

(** ** What every call does to the broker *)

(** A request of the client: with its token, and with a body as the JSON decoder of the broker delivers it. *)
Inductive client_request (token : string) : broker_request -> Prop :=
| cr_health : client_request token GetHealth
| cr_operations : client_request token (GetOperations token)
| cr_plan request too_long : client_request token (PostPlan token (sent_body (scrub_request request) too_long))
| cr_execute request too_long : client_request token (PostExecute token (sent_body (scrub_request request) too_long))
| cr_confirm plan credential too_long : plan_marshals plan = true ->
  client_request token (PostConfirm token
    (sent_body {| CE_Plan := scrub_plan plan; CE_ActorToken := scrub credential |} too_long))
| cr_execute_approved plan confirmation credential too_long : plan_marshals plan = true ->
  client_request token (PostExecuteApproved token
    (sent_body {| AE_Plan := scrub_plan plan; AE_ConfirmationToken := scrub confirmation;
                  AE_ActorToken := scrub credential |} too_long)).

Lemma scrub_plan_wire plan :
  plan_marshals plan = true -> wire_plan (scrub_plan plan) /\ valid_utf8 (Plan_Digest (scrub_plan plan)) = true.
Proof.
  unfold plan_marshals, marshals. intros H. bool_prop. split; [|apply scrub_is_valid]. split.
  - repeat (constructor; [apply scrub_is_valid|]). constructor.
  - simpl. apply Forall_fmap, Forall_true. intros p. split; apply scrub_is_valid.
  - unfold time_ok. simpl. lia.
  - unfold time_ok. simpl. lia.
Qed.

Lemma client_request_wire token env request : client_request token request -> wire_broker_op (BServe env request).
Proof.
  destruct 1 as [| | | |plan credential []|plan confirmation credential []]; try exact I; by apply scrub_plan_wire.
Qed.

Section rounds.
Context {S : Type} `{!System S}.
Implicit Types b : client_state S.

(** The broker after some operations. *)
Definition broker_after (srv : Server) (st : broker_state S) (ops : list broker_op) : broker_state S :=
  fold_left (fun st op => (broker_step srv op st).2) ops st.

Lemma broker_run_snoc srv (st : broker_state S) ops op :
  broker_run srv st (ops ++ [op]) =
  broker_run srv st ops ++ [{| rd_before := broker_after srv st ops; rd_op := op;
    rd_response := (broker_step srv op (broker_after srv st ops)).1;
    rd_after := (broker_step srv op (broker_after srv st ops)).2 |}].
Proof.
  revert st. induction ops as [|op' ops IH]; intros st; simpl.
  - by destruct (broker_step srv op st).
  - destruct (broker_step srv op' st) as [response st']. simpl. by rewrite IH.
Qed.

(** The client since the start of its broker: the rounds are a run of the broker, those of others as scripted, its own ones
    for its requests. *)
Record connected (token : string) (srv : Server) (start : broker_state S) (script : nat -> moment) b : Prop := {
  cn_token : CL_Token b = token;
  cn_server : CL_Server b = srv;
  cn_script : CL_Script b = script;
  cn_rounds : broker_run srv start (rd_op <$> (CL_Rounds b).*2) = (CL_Rounds b).*2;
  cn_broker : CL_Broker b = broker_after srv start (rd_op <$> (CL_Rounds b).*2);
  cn_ops : Forall (fun x : bool * round S =>
    if x.1 then exists env request, rd_op x.2 = BServe env request /\ client_request token request
    else exists n : nat, rd_op x.2 ∈ MO_Before (script n)) (CL_Rounds b)
}.

Lemma broker_round_connected token srv start script (own : bool) b op :
  connected token srv start script b ->
  (if own then exists env request, op = BServe env request /\ client_request token request
   else exists n, op ∈ MO_Before (script n)) ->
  connected token srv start script (broker_round own b op).
Proof.
  intros [Ht Hs Hsc Hr Hb Ho] Hop. unfold broker_round. rewrite Hs, Hb.
  destruct (broker_step srv op _) as [response st] eqn:E. split; simpl; try done.
  - rewrite !fmap_app. simpl. by rewrite broker_run_snoc, E, Hr.
  - rewrite !fmap_app. unfold broker_after. simpl. rewrite fold_left_app. simpl. fold (broker_after srv start (rd_op <$> (CL_Rounds b).*2)).
    by rewrite E.
  - apply Forall_app. split; [done|]. constructor; [|constructor]. by destruct own.
Qed.

Lemma others_connected token srv start script ops b :
  connected token srv start script b -> (forall op, op ∈ ops -> exists n, op ∈ MO_Before (script n)) ->
  connected token srv start script (fold_left (broker_round false) ops b).
Proof.
  revert b. induction ops as [|op ops IH]; intros b Hb Hops; simpl; [done|]. apply IH; [|set_solver].
  apply broker_round_connected; [done|]. apply Hops. by left.
Qed.

End rounds.

(** ** What a client of the socket promises

    A call lets others have their turns and then makes at most one round of its own, for a request of a given kind.  [Client.v] proves this
    of the client on values and [Wire.v] of the client on bytes; [EndToEnd.v] relies on nothing else. *)

Inductive calls {S} `{!System S} (P : broker_request -> Prop) (b : client_state S) : client_state S -> Prop :=
| call_failed : calls P b b
| call_unsent : calls P b (others_first b)
| call_made request : P request ->
  calls P b (broker_round true (others_first b) (BServe (MO_Env (next_moment b)) request)).

Definition confirms_with (token : string) (plan : OperationPlan) (credential : string) (request : broker_request) : Prop :=
  plan_marshals plan = true /\ exists long, request = PostConfirm token
    (sent_body {| CE_Plan := scrub_plan plan; CE_ActorToken := scrub credential |} long).
Definition executes_with (token : string) (plan : OperationPlan) (confirmation credential : string) (request : broker_request) : Prop :=
  plan_marshals plan = true /\ exists long, request = PostExecuteApproved token
    (sent_body {| AE_Plan := scrub_plan plan; AE_ConfirmationToken := scrub confirmation; AE_ActorToken := scrub credential |} long).

Class SocketClient (S : Type) `{!System S} := {
  #[global] socket_api :: BrokerAPI (client_state S);
  socket_Health b : calls (eq GetHealth) b (api_Health b).2;
  socket_Catalog b : calls (eq (GetOperations (CL_Token b))) b (api_Catalog b).2;
  socket_Plan request b :
    calls (fun r => exists long, r = PostPlan (CL_Token b) (sent_body (scrub_request request) long)) b (api_Plan request b).2;
  socket_Execute request b :
    calls (fun r => exists long, r = PostExecute (CL_Token b) (sent_body (scrub_request request) long)) b (api_Execute request b).2;
  socket_Confirm plan credential b : calls (confirms_with (CL_Token b) plan credential) b (api_Confirm plan credential b).2;
  socket_ExecuteApproved plan confirmation credential b :
    calls (executes_with (CL_Token b) plan confirmation credential) b (api_ExecuteApproved plan confirmation credential b).2
}.

Section promise.
Context {S : Type} `{!System S}.
Implicit Types b : client_state S.

Lemma calls_connected token srv start script (P : broker_request -> Prop) b b' :
  calls P b b' -> (forall request, P request -> client_request token request) ->
  connected token srv start script b -> connected token srv start script b'.
Proof.
  intros Hc HP Hb.
  assert (H1 : connected token srv start script (others_first b)).
  { apply others_connected; [by destruct Hb|]. intros op Hop. exists (CL_Calls b). unfold next_moment in Hop.
    by rewrite <- (cn_script _ _ _ _ _ Hb). }
  destruct Hc as [| |request Hr]; [done|done|]. apply broker_round_connected; [done|]. eauto.
Qed.

Lemma connected_closed `{!SocketClient S} token srv start script : api_closed (connected token srv start script).
Proof.
  split; intros;
    match goal with Hb : connected _ _ _ _ _ |- _ => pose proof (cn_token _ _ _ _ _ Hb) as Ht end;
    (eapply calls_connected;
      [first [apply socket_Health|apply socket_Catalog|apply socket_Plan|apply socket_Execute|apply socket_Confirm|apply socket_ExecuteApproved]
      | |done]);
    unfold confirms_with, executes_with; rewrite ?Ht; intros r Hr;
    repeat match goal with H : _ /\ _ |- _ => destruct H | H : exists _, _ |- _ => destruct H end; subst r; by constructor.
Qed.

(** *** The executions a client asked for *)

Definition own_execution (x : bool * round S) : option (round S) :=
  if x.1 then match rd_op x.2 with BServe _ (PostExecuteApproved _ (BodyValue _)) => Some x.2 | _ => None end else None.
Definition own_executions b : list (round S) := omap own_execution (CL_Rounds b).

(** The round answers a request to execute this plan, with these credentials. *)
Definition executes_in (rd : round S) (plan : OperationPlan) (confirmation credential : string) : Prop :=
  exists env token, rd_op rd = BServe env (PostExecuteApproved token
    (BodyValue {| AE_Plan := scrub_plan plan; AE_ConfirmationToken := scrub confirmation; AE_ActorToken := scrub credential |})).

Lemma broker_round_executions own b op :
  exists rd, rd_op rd = op /\
    own_executions (broker_round own b op) = own_executions b ++ option_list (own_execution (own, rd)).
Proof.
  unfold own_executions, broker_round. destruct (broker_step _ op _) as [response st]. eexists {| rd_op := op |}.
  split; [reflexivity|]. cbn [CL_Rounds fst snd]. rewrite omap_app. f_equal; cbn; by destruct own_execution.
Qed.

Lemma others_executions ops b : own_executions (fold_left (broker_round false) ops b) = own_executions b.
Proof.
  revert b. induction ops as [|op ops IH]; intros b; simpl; [done|]. rewrite IH.
  destruct (broker_round_executions false b op) as (rd & _ & ->). simpl. by rewrite app_nil_r.
Qed.

Lemma others_first_executions b : own_executions (others_first b) = own_executions b.
Proof. exact (others_executions _ (next_call b)). Qed.

Lemma calls_executions (P : broker_request -> Prop) b b' : calls P b b' ->
  own_executions b' = own_executions b \/
  exists env request rd, P request /\ rd_op rd = BServe env request /\
    own_executions b' = own_executions b ++ option_list (own_execution (true, rd)).
Proof.
  intros [| |request Hr]; [by left|left; apply others_first_executions|]. right.
  edestruct broker_round_executions as (rd & Hop & ->). rewrite others_first_executions. by eexists _, request, rd.
Qed.

Lemma no_executions (P : broker_request -> Prop) b b' : calls P b b' ->
  (forall request, P request -> match request with PostExecuteApproved _ _ => False | _ => True end) ->
  own_executions b' = own_executions b.
Proof.
  intros [->|(env & request & rd & Hr & Hop & ->)]%calls_executions HP; [done|]. specialize (HP request Hr).
  unfold own_execution. cbn [fst snd]. rewrite Hop. destruct request; try destruct HP; simpl; by rewrite app_nil_r.
Qed.

(** A client of the socket keeps the promise about executions. *)
#[export] Program Instance client_log `{!SocketClient S} : ExecutionLog (client_state S) := {
  execution := round S;
  executions := own_executions;
  executes := executes_in
}.
Next Obligation. intros ? b. eapply no_executions; [apply socket_Health|]. by intros r <-. Qed.
Next Obligation. intros ? b. eapply no_executions; [apply socket_Catalog|]. by intros r <-. Qed.
Next Obligation. intros ? request b. eapply no_executions; [apply socket_Plan|]. by intros r [? ->]. Qed.
Next Obligation. intros ? request b. eapply no_executions; [apply socket_Execute|]. by intros r [? ->]. Qed.
Next Obligation. intros ? plan credential b. eapply no_executions; [apply socket_Confirm|]. by intros r [_ [? ->]]. Qed.
Next Obligation.
  intros ? plan confirmation credential b. simpl.
  destruct (calls_executions _ _ _ (socket_ExecuteApproved plan confirmation credential b)) as [->|(env & r & rd & [_ [long ->]] & Hop & ->)];
    [by left|].
  unfold own_execution. cbn [fst snd]. rewrite Hop. destruct long; simpl; [left; apply app_nil_r|right].
  exists rd. split; [done|]. by eexists _, _.
Qed.

(** The client on values. *)
Lemma client_do_calls {A} encoded request accepted (output : body -> option A) (P : broker_request -> Prop) b :
  (encoded = true -> forall long, P (request long)) -> calls P b (client_do encoded request accepted output b).2.
Proof.
  intros HP. unfold client_do. destruct encoded; cbn [negb]; [|constructor]. cbv zeta.
  destruct (MO_Sent _); cbn [negb]; [|constructor]. specialize (HP eq_refl (MO_TooLong (next_moment b))).
  destruct (broker_step _ _ _).1 as [response|]; [|by constructor]. destruct (MO_Received _); cbn [negb]; [|by constructor].
  destruct (containsStatus _ _); cbn [negb]; [|by constructor]. destruct (output _); by constructor.
Qed.
Definition client_socket : SocketClient S.
Proof.
  refine {| socket_api := client_api |}.
  - intros b. cbn [api_Health client_api]. unfold client_Health.
    pose proof (client_do_calls true (fun _ => GetHealth) [200] as_health (eq GetHealth) b) as H.
    destruct (client_do _ _ _ _ b). by apply H.
  - intros b. by apply client_do_calls.
  - intros request b. apply client_do_calls; eauto.
  - intros request b. apply client_do_calls; eauto.
  - intros plan credential b. apply client_do_calls. unfold confirms_with. eauto.
  - intros plan confirmation credential b. apply client_do_calls. unfold executes_with. eauto.
Defined.
End promise.

(** ** The processes agree on their messages *)

Section messages.
Context {S : Type} `{!System S}.
Implicit Types b : client_state S.

(** The client can read every answer of the broker with an accepted status, unless it could not be marshalled. *)
Definition readable_answers {A} (accepted : list Z) (output : body -> option A) (o : served S) : Prop :=
  match o with
  | Answered response _ _ =>
    containsStatus accepted (HTTP_Status response) = true -> body_marshals (HTTP_Body response) = true -> is_Some (output (HTTP_Body response))
  | _ => True
  end.

Lemma auth_readable {A} srv token accepted (output : body -> option A) next st :
  containsStatus accepted 401 = false -> readable_answers accepted output (next st) ->
  readable_answers accepted output (requireBrokerAuth srv token next st).
Proof. unfold requireBrokerAuth. intros H1 H2. destruct (broker_authorized srv token); [done|]. simpl. congruence. Qed.

Lemma machine_readable {A B} accepted (output : body -> option A) (m : M S B) (k : B -> broker_state S -> served S) st :
  (forall a st, readable_answers accepted output (k a st)) -> readable_answers accepted output (with_machine m k st).
Proof. intros Hk. unfold with_machine. destruct (m _); [apply Hk|done|done]. Qed.

Lemma decode_readable {A B} accepted (output : body -> option A) (x : decoded B) k st :
  containsStatus accepted 400 = false \/ (forall p, is_Some (output (JSONProblem p))) ->
  (forall a, readable_answers accepted output (k a)) -> readable_answers accepted output (decodeJSON x k st).
Proof. intros H Hk. destruct x; simpl; [| |apply Hk]; destruct H as [->|H]; done. Qed.

Lemma plan_readable srv body st : readable_answers [200; 400] as_plan (handlePlan srv body st).
Proof. unfold handlePlan. apply decode_readable; [by right|]. intros request _ _. by destruct (BP_Valid _). Qed.

Lemma operation_readable response lines st :
  readable_answers [200; 400; 500] as_response (Answered (writeOperationResponse response) lines st).
Proof. intros _ Hm. cbn in *. rewrite Hm. by eexists. Qed.

Lemma then_operation (m : M S OperationResponse) lines st :
  readable_answers [200; 400; 500] as_response
    (with_machine m (fun response st => Answered (writeOperationResponse response) (lines response) st) st).
Proof. apply machine_readable. intros. apply operation_readable. Qed.

Lemma execute_readable srv body st : readable_answers [200; 400; 500] as_response (handleExecute srv body st).
Proof. unfold handleExecute. apply decode_readable; [by right|]. intros request. apply (then_operation (Execute _ request) (fun response => [logOperation response _ _])). Qed.

Lemma confirm_readable srv env body st : readable_answers [201] as_grant (handleConfirm srv env body st).
Proof.
  unfold handleConfirm. destruct (GP_Store _) as [store|]; [|done]. apply decode_readable; [by left|]. intros envelope.
  apply machine_readable. intros t st'. destruct (ValidateApprovedPlan _ _ _); [done|].
  destruct (authenticateActor _ _) as [approver|]; [|done]. destruct (_ || _); [done|].
  destruct (Issue _ _ _ _ _ _ _) as [[[grant|] store'] file]; intros Hc Hm; [|discriminate Hc].
  cbn in *. rewrite Hm. by eexists.
Qed.

Lemma execute_approved_readable srv env body st :
  readable_answers [200; 400; 500] as_response (handleExecuteApproved srv env body st).
Proof.
  unfold handleExecuteApproved. apply decode_readable; [by right|]. intros envelope. apply machine_readable. intros rejected st1.
  assert (Hrej : forall (f : time -> OperationResponse) st,
    readable_answers [200; 400; 500] as_response (with_machine now (fun t st => Answered (writeOperationResponse (f t)) [] st) st))
    by (intros f st'; apply machine_readable; intros; apply operation_readable).
  destruct (GP_Store _) as [store|]; [|apply Hrej].
  destruct (authenticateActor _ _) as [executor|]; [|apply Hrej].
  destruct (negb _); [apply Hrej|]. apply machine_readable. intros t st2.
  destruct (ValidateApprovedPlan _ _ _); [apply Hrej|].
  destruct (Consume _ _ _ _ _ _ _ _) as [[[grant|] store'] file]; [apply then_operation|apply Hrej].
Qed.

(** The routes of the calls. *)
Lemma health_served srv env st : readable_answers [200] as_health (serve (S := S) srv env GetHealth st).
Proof. intros _ _. by eexists. Qed.
Lemma operations_served srv env token st : readable_answers [200] as_operations (serve (S := S) srv env (GetOperations token) st).
Proof. apply auth_readable; [done|intros _ _; by eexists]. Qed.
Lemma plan_served srv env token body st : readable_answers [200; 400] as_plan (serve (S := S) srv env (PostPlan token body) st).
Proof. apply auth_readable; [done|apply plan_readable]. Qed.
Lemma execute_served srv env token body st :
  readable_answers [200; 400; 500] as_response (serve (S := S) srv env (PostExecute token body) st).
Proof. apply auth_readable; [done|apply execute_readable]. Qed.
Lemma confirm_served srv env token body st : readable_answers [201] as_grant (serve (S := S) srv env (PostConfirm token body) st).
Proof. apply auth_readable; [done|apply confirm_readable]. Qed.
Lemma execute_approved_served srv env token body st :
  readable_answers [200; 400; 500] as_response (serve (S := S) srv env (PostExecuteApproved token body) st).
Proof. apply auth_readable; [done|apply execute_approved_readable]. Qed.

(** The last round of the client is the broker's answer to this request, with an accepted status. *)
Definition answered_in (request : bool -> broker_request) (accepted : list Z) (after : client_state S) (response : http_response) : Prop :=
  exists rounds rd env long, CL_Rounds after = rounds ++ [(true, rd)] /\ rd_op rd = BServe env (request long) /\
    rd_response rd = Some response /\ HTTP_Status response ∈ accepted.

(** A successful call reports the answer of its own round; a failed one could read the answer, unless it came without a body. *)
Definition reports {A} (request : bool -> broker_request) (accepted : list Z) (output : body -> option A) (result : result A * client_state S) : Prop :=
  match result.1 with
  | Ok a => exists response, answered_in request accepted result.2 response /\ output (HTTP_Body response) = Some a
  | Err e => e = Text "decode broker response" [] ->
      exists response, answered_in request accepted result.2 response /\ body_marshals (HTTP_Body response) = false
  end.

Lemma containsStatus_elem accepted status : containsStatus accepted status = true <-> status ∈ accepted.
Proof.
  unfold containsStatus. rewrite existsb_elem. split; [intros (x & Hx & E)|intros Hx; exists status; by rewrite Z.eqb_refl].
  by apply Z.eqb_eq in E as <-.
Qed.

Lemma client_do_reports {A} encoded request accepted (output : body -> option A) b :
  (forall srv env long st, readable_answers accepted output (serve srv env (request long) st)) ->
  reports request accepted output (client_do encoded request accepted output b).
Proof.
  intros Hr. unfold client_do, reports. destruct encoded; cbn [negb]; [|done]. cbv zeta.
  destruct (MO_Sent _); cbn [negb]; [|done]. set (b1 := others_first b). set (m := next_moment b).
  assert (Hrounds : exists rd, CL_Rounds (broker_round true b1 (BServe (MO_Env m) (request (MO_TooLong m)))) = CL_Rounds b1 ++ [(true, rd)] /\
    rd_op rd = BServe (MO_Env m) (request (MO_TooLong m)) /\ rd_response rd = (broker_step (CL_Server b1) (BServe (MO_Env m) (request (MO_TooLong m))) (CL_Broker b1)).1).
  { unfold broker_round. destruct (broker_step _ _ _) as [response st]. by eexists. }
  destruct Hrounds as (rd & Hrd & Hop & Hresp).
  specialize (Hr (CL_Server b1) (MO_Env m) (MO_TooLong m) (CL_Broker b1)).
  destruct (broker_step _ _ _).1 as [response|] eqn:E; [|done].
  assert (Hok : containsStatus accepted (HTTP_Status response) = true -> body_marshals (HTTP_Body response) = true ->
    is_Some (output (HTTP_Body response))).
  { simpl in E. destruct (serve _ _ _ _); simplify_eq/=; done. }
  destruct (MO_Received m); cbn [negb]; [|done]. destruct (containsStatus _ _) eqn:Ec; cbn [negb]; [|done].
  assert (Hin : answered_in request accepted (broker_round true b1 (BServe (MO_Env m) (request (MO_TooLong m)))) response).
  { exists (CL_Rounds b1), rd, (MO_Env m), (MO_TooLong m). by apply containsStatus_elem in Ec. }
  destruct (output _) as [a|] eqn:Ea; cbn [fst snd]; [by exists response|]. intros _. exists response. split; [done|].
  destruct (body_marshals _); [|done]. by destruct (Hok eq_refl eq_refl).
Qed.

(** C13 The processes agree on their messages.  Whatever broker is behind the socket, in whatever state, and whatever gets lost: a call
    of the client that succeeds reports the broker's answer to this very call, with one of the statuses the call accepts, up to the
    encoding; and a call fails to decode an answer with an accepted status only if the broker could not marshal it. *)
Theorem client_reports_answers b :
  reports (fun _ => GetOperations (CL_Token b)) [200] as_operations (client_Catalog b) /\
  (forall request, reports (fun long => PostPlan (CL_Token b) (sent_body (scrub_request request) long)) [200; 400] as_plan
     (client_Plan request b)) /\
  (forall request, reports (fun long => PostExecute (CL_Token b) (sent_body (scrub_request request) long)) [200; 400; 500]
     as_response (client_Execute request b)) /\
  (forall plan credential, reports (fun long => PostConfirm (CL_Token b)
     (sent_body {| CE_Plan := scrub_plan plan; CE_ActorToken := scrub credential |} long)) [201] as_grant
     (client_Confirm plan credential b)) /\
  (forall plan confirmation credential, reports (fun long => PostExecuteApproved (CL_Token b)
     (sent_body {| AE_Plan := scrub_plan plan; AE_ConfirmationToken := scrub confirmation; AE_ActorToken := scrub credential |} long))
     [200; 400; 500] as_response (client_ExecuteApproved plan confirmation credential b)) /\
  (client_Health b).1 <> Some (Text "decode broker response" []).
Proof.
  split; [|split; [|split; [|split; [|split]]]]; intros.
  - apply client_do_reports. intros. apply operations_served.
  - apply client_do_reports. intros. apply plan_served.
  - apply client_do_reports. intros. apply execute_served.
  - apply client_do_reports. intros. apply confirm_served.
  - apply client_do_reports. intros. apply execute_approved_served.
  - unfold client_Health, client_do. cbv zeta. cbn [negb serve broker_step]. destruct (MO_Sent _), (MO_Received _); done.
Qed.
End messages.
