(* ===== verification/Messages.v ===== *)
(** * The messages of both servers as bytes

    The request bodies of the public API and of the broker with their JSON fields ([protocol/types.go], [security/types.go],
    [approval.go], [security_routes.go], [mutation_routes.go]): marshalling, decoding, and that decoding what was marshalled gives the
    message with its strings made valid UTF-8, which is what [Client.v] takes the broker to read. *)

From S2P Require Import Prelude GoStrings GoTime Protocol Actors Plans Grants AuditLog ServiceControl System Registry Mutations.
From S2P Require Import Control Broker Client.
From S2P Require Import JsonParse TimeText JsonDecode JsonAny.
#[local] Open Scope Z_scope.

(** ** Operation requests *)

Definition OperationRequest_fields : list string := ["request_id"; "action"; "actor"; "parameters"; "confirmation"].
Definition decode_OperationRequest (strict : bool) : decoder OperationRequest :=
  to_struct strict OperationRequest_fields (fun get =>
    request_id ← to_string (get "request_id"); action ← to_string (get "action"); actor ← to_string (get "actor");
    parameters ← to_map (get "parameters"); confirmation ← to_string (get "confirmation");
    Some {| Req_RequestID := request_id; Req_Action := action; Req_Actor := actor; Req_Parameters := parameters;
            Req_Confirmation := confirmation |}).
Definition encode_OperationRequest (r : OperationRequest) : json :=
  of_struct ([("request_id", of_string (Req_RequestID r)); ("action", of_string (Req_Action r)); ("actor", of_string (Req_Actor r))]
    ++ omit_if (bool_decide (Req_Parameters r = ∅)) ("parameters", of_map (Req_Parameters r))
    ++ omit_if (Req_Confirmation r == "") ("confirmation", of_string (Req_Confirmation r))).

(** ** The bodies of the public API *)

Definition decode_confirmationRequest (strict : bool) : decoder confirmationRequest :=
  to_struct strict ["plan_id"] (fun get => plan_id ← to_string (get "plan_id"); Some {| CR_PlanID := plan_id |}).
Definition decode_approvedExecutionRequest (strict : bool) : decoder approvedExecutionRequest :=
  to_struct strict ["plan_id"; "confirmation_token"] (fun get =>
    plan_id ← to_string (get "plan_id"); token ← to_string (get "confirmation_token");
    Some {| AX_PlanID := plan_id; AX_ConfirmationToken := token |}).

(** ** Plans *)

Definition Actor_fields : list string := ["id"; "kind"; "display_name"; "roles"; "permissions"].
Definition decode_Actor (strict : bool) : decoder Actor :=
  to_struct strict Actor_fields (fun get =>
    id ← to_string (get "id"); kind ← to_string (get "kind"); name ← to_string (get "display_name");
    roles ← to_slice to_string (get "roles"); permissions ← to_slice to_string (get "permissions");
    Some {| Actor_ID := id; Actor_Kind := kind; Actor_DisplayName := name; Actor_Roles := roles; Actor_Permissions := permissions |}).
Definition encode_Actor (a : Actor) : json :=
  of_struct [("id", of_string (Actor_ID a)); ("kind", of_string (Actor_Kind a)); ("display_name", of_string (Actor_DisplayName a));
             ("roles", of_slice of_string (Actor_Roles a)); ("permissions", of_slice of_string (Actor_Permissions a))].

Definition decode_Parameter (strict : bool) : decoder Parameter' :=
  to_struct strict ["name"; "value"] (fun get =>
    name ← to_string (get "name"); value ← to_string (get "value"); Some {| Param_Name := name; Param_Value := value |}).
Definition encode_Parameter (p : Parameter') : json :=
  of_struct [("name", of_string (Param_Name p)); ("value", of_string (Param_Value p))].

Definition OperationPlan_fields : list string :=
  ["schema"; "id"; "digest"; "request_id"; "session_id"; "actor"; "action"; "parameters"; "risk"; "requires_confirmation"; "valid";
   "created_at"; "expires_at"; "error_code"].
Definition decode_OperationPlan (strict : bool) : decoder OperationPlan :=
  to_struct strict OperationPlan_fields (fun get =>
    schema ← to_string (get "schema"); id ← to_string (get "id"); digest ← to_string (get "digest");
    request_id ← to_string (get "request_id"); session_id ← to_string (get "session_id");
    actor ← decode_Actor strict (get "actor"); action ← to_string (get "action");
    parameters ← to_slice (decode_Parameter strict) (get "parameters"); risk ← to_string (get "risk");
    requires_confirmation ← to_bool (get "requires_confirmation"); valid ← to_bool (get "valid");
    created_at ← to_instant (get "created_at"); expires_at ← to_instant (get "expires_at");
    error_code ← to_string (get "error_code");
    Some {| Plan_Schema := schema; Plan_ID := id; Plan_Digest := digest; Plan_RequestID := request_id; Plan_SessionID := session_id;
            Plan_Actor := actor; Plan_Action := action; Plan_Parameters := parameters; Plan_Risk := risk;
            Plan_RequiresConfirmation := requires_confirmation; Plan_Valid := valid; Plan_CreatedAt := created_at;
            Plan_ExpiresAt := expires_at; Plan_ErrorCode := error_code |}).
Definition encode_OperationPlan (p : OperationPlan) : json :=
  of_struct ([("schema", of_string (Plan_Schema p)); ("id", of_string (Plan_ID p)); ("digest", of_string (Plan_Digest p));
    ("request_id", of_string (Plan_RequestID p)); ("session_id", of_string (Plan_SessionID p));
    ("actor", encode_Actor (Plan_Actor p)); ("action", of_string (Plan_Action p));
    ("parameters", of_slice encode_Parameter (Plan_Parameters p)); ("risk", of_string (Plan_Risk p));
    ("requires_confirmation", JBool (Plan_RequiresConfirmation p)); ("valid", JBool (Plan_Valid p));
    ("created_at", of_instant (Plan_CreatedAt p)); ("expires_at", of_instant (Plan_ExpiresAt p))]
    ++ omit_if (Plan_ErrorCode p == "") ("error_code", of_string (Plan_ErrorCode p))).

(** ** The bodies of the broker *)

Definition decode_confirmationEnvelope (strict : bool) : decoder confirmationEnvelope :=
  to_struct strict ["plan"; "actor_token"] (fun get =>
    plan ← decode_OperationPlan strict (get "plan"); token ← to_string (get "actor_token");
    Some {| CE_Plan := plan; CE_ActorToken := token |}).
Definition encode_confirmationEnvelope (e : confirmationEnvelope) : json :=
  of_struct [("plan", encode_OperationPlan (CE_Plan e)); ("actor_token", of_string (CE_ActorToken e))].
Definition decode_approvedExecutionEnvelope (strict : bool) : decoder approvedExecutionEnvelope :=
  to_struct strict ["plan"; "confirmation_token"; "actor_token"] (fun get =>
    plan ← decode_OperationPlan strict (get "plan"); confirmation ← to_string (get "confirmation_token");
    token ← to_string (get "actor_token");
    Some {| AE_Plan := plan; AE_ConfirmationToken := confirmation; AE_ActorToken := token |}).
Definition encode_approvedExecutionEnvelope (e : approvedExecutionEnvelope) : json :=
  of_struct [("plan", encode_OperationPlan (AE_Plan e)); ("confirmation_token", of_string (AE_ConfirmationToken e));
             ("actor_token", of_string (AE_ActorToken e))].

(** [decodeJSON] of the broker, and the decoders of the public API; the message of an error of the decoder is an argument. *)
Definition broker_body {A} (limit : Z) (d : decoder A) (body : bytes) : decoded A :=
  match read_body limit d body with
  | OverLimit | Undecodable => BodyInvalid
  | Trailing => BodyTrailing
  | Value a => BodyValue a
  end.
Definition control_body {A} (message : bytes -> text) (limit : Z) (d : decoder A) (body : bytes) : request_body A :=
  match read_body limit d body with
  | OverLimit => TooLarge
  | Undecodable => NotJSON (message body)
  | Trailing => TrailingData
  | Value a => Decoded a
  end.

(** ** Decoding what was marshalled *)

(** Every member of a marshalled struct is a field of it. *)
Ltac own_fields := rewrite ?field_names_app, ?andb_true_iff; repeat split; try first [apply field_names_omit | apply field_names_optional]; reflexivity.
(** Decode a marshalled struct field by field. *)
Ltac decode_fields :=
  let own := fresh in
  eassert (own : field_names _ _ = true); [|rewrite to_struct_of by exact own; rewrite !values_of_struct by exact own; clear own]; [own_fields|];
  lazymatch goal with |- context [given ?members _] =>
    let get := fresh in set (get := given members);
    repeat match goal with |- context [get ?name] =>
      let E := fresh in
      eassert (E : get name = _);
        [unfold get;
         repeat match goal with
         | |- context [given (_ ++ _) _] => rewrite given_app
         | |- context [given (omit_if _ _) _] => rewrite given_omit
         | |- context [given (optional_member _ _ _) _] => rewrite given_optional
         end;
         lazy beta iota zeta delta [given omap list_omap fst snd String.eqb Ascii.eqb Bool.eqb];
         repeat match goal with |- context [_ ++ []] => rewrite app_nil_r | |- context [[] ++ _] => rewrite app_nil_l end; reflexivity
        |rewrite E; clear E]
    end; clear get
  end.

Lemma to_bool_of b : to_bool [JBool b] = Some b.
Proof. done. Qed.

Create HintDb wire discriminated.
#[local] Hint Rewrite to_string_of to_string_optional to_map_of to_map_optional to_bool_of : wire.

Lemma decode_encode_request strict r :
  decode_OperationRequest strict [encode_OperationRequest r] = Some (scrub_request r).
Proof. unfold decode_OperationRequest, encode_OperationRequest. decode_fields. by autorewrite with wire. Qed.

Lemma to_slice_strings l : to_slice to_string [of_slice of_string l] = Some (scrub <$> l).
Proof. apply to_slice_of. intros s _. apply to_string_of. Qed.
#[local] Hint Rewrite to_slice_strings : wire.

Lemma decode_encode_actor strict a : decode_Actor strict [encode_Actor a] = Some (scrub_actor a).
Proof. unfold decode_Actor, encode_Actor. decode_fields. by autorewrite with wire. Qed.
Lemma decode_encode_parameter strict p : decode_Parameter strict [encode_Parameter p] = Some (scrub_parameter p).
Proof. unfold decode_Parameter, encode_Parameter. decode_fields. by autorewrite with wire. Qed.
Lemma to_slice_parameters strict l :
  to_slice (decode_Parameter strict) [of_slice encode_Parameter l] = Some (scrub_parameter <$> l).
Proof. apply to_slice_of. intros p _. apply decode_encode_parameter. Qed.
#[local] Hint Rewrite decode_encode_actor to_slice_parameters : wire.

Lemma decode_encode_plan strict p :
  plan_marshals p = true -> decode_OperationPlan strict [encode_OperationPlan p] = Some (scrub_plan p).
Proof.
  unfold plan_marshals. intros [H1%marshals_ok H2%marshals_ok]%andb_true_iff.
  unfold decode_OperationPlan, encode_OperationPlan. decode_fields. autorewrite with wire.
  by rewrite !to_instant_of.
Qed.

Lemma decode_encode_confirmation strict e :
  plan_marshals (CE_Plan e) = true ->
  decode_confirmationEnvelope strict [encode_confirmationEnvelope e] =
  Some {| CE_Plan := scrub_plan (CE_Plan e); CE_ActorToken := scrub (CE_ActorToken e) |}.
Proof.
  intros H. unfold decode_confirmationEnvelope, encode_confirmationEnvelope. decode_fields. autorewrite with wire.
  by rewrite decode_encode_plan.
Qed.
Lemma decode_encode_execution strict e :
  plan_marshals (AE_Plan e) = true ->
  decode_approvedExecutionEnvelope strict [encode_approvedExecutionEnvelope e] =
  Some {| AE_Plan := scrub_plan (AE_Plan e); AE_ConfirmationToken := scrub (AE_ConfirmationToken e);
          AE_ActorToken := scrub (AE_ActorToken e) |}.
Proof.
  intros H. unfold decode_approvedExecutionEnvelope, encode_approvedExecutionEnvelope. decode_fields. autorewrite with wire.
  by rewrite decode_encode_plan.
Qed.

(** *** Marshalled messages are JSON objects *)

(** One goal for each member that is not a string, an instant or a boolean. *)
Ltac each_member :=
  repeat (apply Forall_cons_2; [try first [apply of_string_wf | apply of_instant_wf | exact I]|]); try apply Forall_nil_2.

Lemma encode_actor_wf depth a : depth + 1 < maxNestingDepth -> well_formed depth (encode_Actor a).
Proof.
  intros H. apply of_struct_wf; [lia|]. each_member; apply of_slice_wf; try lia; apply Forall_true; intros; apply of_string_wf.
Qed.
Lemma encode_request_wf r : well_formed 0 (encode_OperationRequest r).
Proof.
  apply of_struct_wf; [done|]. rewrite !Forall_app. split; [each_member|].
  split; apply omit_if_wf; [by apply of_map_wf|apply of_string_wf].
Qed.
Lemma encode_plan_wf depth p : depth + 2 < maxNestingDepth -> well_formed depth (encode_OperationPlan p).
Proof.
  intros H. apply of_struct_wf; [lia|]. rewrite Forall_app. split; [|apply omit_if_wf, of_string_wf].
  each_member; [cbn; apply encode_actor_wf; lia|]. cbn. apply of_slice_wf; [lia|]. apply Forall_true. intros q.
  apply of_struct_wf; [lia|]. each_member.
Qed.
Lemma encode_confirmation_wf e : well_formed 0 (encode_confirmationEnvelope e).
Proof. apply of_struct_wf; [done|]. each_member. by apply encode_plan_wf. Qed.
Lemma encode_execution_wf e : well_formed 0 (encode_approvedExecutionEnvelope e).
Proof. apply of_struct_wf; [done|]. each_member. by apply encode_plan_wf. Qed.

Lemma broker_body_marshal {A} limit (d : decoder A) v a :
  well_formed 0 v -> delimited v = true -> d [v] = Some a ->
  broker_body limit d (marshal v) = sent_body a (limit <? Z.of_nat (length (marshal v))).
Proof.
  intros Hv Hd Ha. pose proof (read_body_marshal limit d v Hv Hd) as H. cbv zeta in H. unfold broker_body.
  rewrite Z.leb_antisym in H. destruct (limit <? _); cbn [negb] in H; [by destruct H as [-> | ->]|]. by rewrite H, Ha.
Qed.

Lemma socket_request limit r :
  let sent := marshal (encode_OperationRequest r) in
  broker_body limit (decode_OperationRequest true) sent = sent_body (scrub_request r) (limit <? Z.of_nat (length sent)).
Proof. apply broker_body_marshal; [apply encode_request_wf|done|apply decode_encode_request]. Qed.
Lemma socket_confirmation limit plan credential :
  plan_marshals plan = true ->
  let sent := marshal (encode_confirmationEnvelope {| CE_Plan := plan; CE_ActorToken := credential |}) in
  broker_body limit (decode_confirmationEnvelope true) sent =
    sent_body {| CE_Plan := scrub_plan plan; CE_ActorToken := scrub credential |} (limit <? Z.of_nat (length sent)).
Proof. intros H. apply broker_body_marshal; [apply encode_confirmation_wf|done|by apply decode_encode_confirmation]. Qed.
Lemma socket_execution limit plan confirmation credential :
  plan_marshals plan = true ->
  let sent := marshal (encode_approvedExecutionEnvelope
    {| AE_Plan := plan; AE_ConfirmationToken := confirmation; AE_ActorToken := credential |}) in
  broker_body limit (decode_approvedExecutionEnvelope true) sent =
    sent_body {| AE_Plan := scrub_plan plan; AE_ConfirmationToken := scrub confirmation; AE_ActorToken := scrub credential |}
      (limit <? Z.of_nat (length sent)).
Proof. intros H. apply broker_body_marshal; [apply encode_execution_wf|done|by apply decode_encode_execution]. Qed.
