(* ===== verification/AuditBytes.v ===== *)
(** * The audit log as bytes

    The lines that [Append] writes and the scan of [loadAndVerify] (internal/security/audit.go) on the bytes of the file: reading what
    was written gives the lines that [AuditLog.v] works on. *)

From Stdlib Require Import Ascii.
From S2P Require Import Prelude GoStrings GoTime GoConv GoText Protocol Actors Plans Grants AuditLog Client.
From S2P Require Import Json JsonParse TimeText JsonDecode Messages.
#[local] Open Scope Z_scope.

(** ** Records *)

(** [strconv.ParseUint] of the text of a number, base 10 and 64 bits: a sign, a point or an exponent is an error. *)
Definition ParseUint (l : bytes) : option Z :=
  if bool_decide (l = []) || negb (forallb is_digit l) then None
  else if 2 ^ 64 <=? read_digits l 0 then None else Some (read_digits l 0).
Definition to_uint64 : decoder Z := to_scalar 0 (fun v => match v with JNumber l => ParseUint l | _ => None end).
Definition of_uint64 (n : Z) : json := JNumber (to_bytes (decimal (Z.to_N n))).

Definition AuditRecord_fields : list string :=
  ["schema"; "sequence"; "id"; "timestamp"; "event"; "actor"; "request_id"; "session_id"; "plan_id"; "plan_digest"; "action"; "risk";
   "status"; "rollback_status"; "parameters"; "error_code"; "previous_hash"; "entry_hash"].
Definition decode_AuditRecord (strict : bool) : decoder AuditRecord :=
  to_struct strict AuditRecord_fields (fun get =>
    schema ← to_string (get "schema"); sequence ← to_uint64 (get "sequence"); id ← to_string (get "id");
    timestamp ← to_instant (get "timestamp"); event ← to_string (get "event"); actor ← decode_Actor strict (get "actor");
    request_id ← to_string (get "request_id"); session_id ← to_string (get "session_id"); plan_id ← to_string (get "plan_id");
    plan_digest ← to_string (get "plan_digest"); action ← to_string (get "action"); risk ← to_string (get "risk");
    status ← to_string (get "status"); rollback_status ← to_string (get "rollback_status"); parameters ← to_map (get "parameters");
    error_code ← to_string (get "error_code"); previous_hash ← to_string (get "previous_hash");
    entry_hash ← to_string (get "entry_hash");
    Some {| AR_Schema := schema; AR_Sequence := sequence; AR_ID := id; AR_Timestamp := timestamp; AR_Event := event; AR_Actor := actor;
            AR_RequestID := request_id; AR_SessionID := session_id; AR_PlanID := plan_id; AR_PlanDigest := plan_digest;
            AR_Action := action; AR_Risk := risk; AR_Status := status; AR_RollbackStatus := rollback_status;
            AR_Parameters := parameters; AR_ErrorCode := error_code; AR_PreviousHash := previous_hash; AR_EntryHash := entry_hash |}).
Definition encode_AuditRecord (r : AuditRecord) : json :=
  of_struct ([("schema", of_string (AR_Schema r)); ("sequence", of_uint64 (AR_Sequence r)); ("id", of_string (AR_ID r));
    ("timestamp", of_instant (AR_Timestamp r)); ("event", of_string (AR_Event r)); ("actor", encode_Actor (AR_Actor r))]
    ++ omit_if (AR_RequestID r == "") ("request_id", of_string (AR_RequestID r))
    ++ omit_if (AR_SessionID r == "") ("session_id", of_string (AR_SessionID r))
    ++ omit_if (AR_PlanID r == "") ("plan_id", of_string (AR_PlanID r))
    ++ omit_if (AR_PlanDigest r == "") ("plan_digest", of_string (AR_PlanDigest r))
    ++ omit_if (AR_Action r == "") ("action", of_string (AR_Action r))
    ++ omit_if (AR_Risk r == "") ("risk", of_string (AR_Risk r))
    ++ [("status", of_string (AR_Status r))]
    ++ omit_if (AR_RollbackStatus r == "") ("rollback_status", of_string (AR_RollbackStatus r))
    ++ omit_if (bool_decide (AR_Parameters r = ∅)) ("parameters", of_map (AR_Parameters r))
    ++ omit_if (AR_ErrorCode r == "") ("error_code", of_string (AR_ErrorCode r))
    ++ [("previous_hash", of_string (AR_PreviousHash r)); ("entry_hash", of_string (AR_EntryHash r))]).

(** ** Lines *)

(** What [loadAndVerify] makes of a line: the decoder reads the first JSON value of it. *)
Definition read_line (line : bytes) : audit_line :=
  {| line_length := Z.of_nat (length line);
     line_content_of :=
       let line := drop_cr line in
       if TrimSpace (of_bytes line) == "" then LineBlank
       else
         match parse line with
         | Parsed v _ => match decode_AuditRecord true [v] with Some r => LineRecord r | None => LineUndecodable end
         | _ => LineUndecodable
         end |}.

(** The finished lines of a file and what follows the last newline. *)
Fixpoint file_lines (l : bytes) : list bytes * bytes :=
  match l with
  | [] => ([], [])
  | a :: l =>
    let '(lines, rest) := file_lines l in
    if Ascii.eqb a newline then ([] :: lines, rest)
    else match lines with [] => ([], a :: rest) | line :: lines => ((a :: line) :: lines, rest) end
  end.
Definition torn_line (rest : bytes) : option audit_line := if bool_decide (rest = []) then None else Some (read_line rest).
Definition read_lines (content : bytes) : audit_lines :=
  let '(lines, rest) := file_lines content in {| AF_Lines := read_line <$> lines; AF_Torn := torn_line rest |}.

(** What [Append] writes. *)
Definition record_bytes (r : AuditRecord) : bytes := to_bytes (marshal_record r) ++ [newline].

(** ** Decoding a record that was encoded *)

Lemma ParseUint_decimal n : 0 <= n < 2 ^ 64 -> ParseUint (to_bytes (decimal (Z.to_N n))) = Some n.
Proof.
  intros H. unfold ParseUint. destruct (decimal_start (Z.to_N n)) as (a & l & E & _).
  rewrite decimal_digits, read_digits_decimal, Z2N.id by lia. rewrite bool_decide_eq_false_2 by (rewrite E; done). cbn [orb negb].
  destruct (Z.leb_spec (2 ^ 64) n); [lia|done].
Qed.
Lemma to_uint64_of n : 0 <= n < 2 ^ 64 -> to_uint64 [of_uint64 n] = Some n.
Proof. intros H. unfold to_uint64, to_scalar, of_uint64. cbn. by rewrite ParseUint_decimal. Qed.

#[local] Hint Rewrite to_string_of to_string_optional to_map_of to_map_optional to_slice_strings decode_encode_actor : wire.

Lemma decode_encode_record strict r :
  time_ok (AR_Timestamp r) -> 0 <= AR_Sequence r < 2 ^ 64 ->
  decode_AuditRecord strict [encode_AuditRecord r] = Some (scrub_record r).
Proof.
  intros Ht Hs. unfold decode_AuditRecord, encode_AuditRecord. decode_fields.
  autorewrite with wire. rewrite to_uint64_of, to_instant_of by done. done.
Qed.

Lemma encode_record_wf depth r : depth + 2 < maxNestingDepth -> well_formed depth (encode_AuditRecord r).
Proof.
  intros H. apply of_struct_wf; [lia|]. rewrite !Forall_app.
  repeat match goal with |- _ /\ _ => split end; try apply omit_if_wf; try apply of_string_wf; try (apply of_map_wf; lia); each_member.
  - apply decimal_number.
  - cbn. apply encode_actor_wf. lia.
Qed.

(** ** The text of a record is the encoded record *)

Definition member_text (kv : string * json) : bytes := quoted_raw (escape kv.1) ++ chr 58 :: print kv.2.
Definition members_text (members : list (string * json)) : bytes := mjoin ((fun kv => chr 44 :: member_text kv) <$> members).

Lemma members_text_cons kv l : members_text (kv :: l) = chr 44 :: member_text kv ++ members_text l.
Proof. done. Qed.

(** Concatenations that differ in their brackets. *)
Ltac text_eq :=
  change (to_bytes "{") with [chr 123]; change (to_bytes ",") with [chr 44]; change (to_bytes "}") with [chr 125];
  change (members_text []) with (@nil ascii); repeat progress (rewrite <-?app_assoc; cbn [app]); reflexivity.

Lemma print_of_struct kv members :
  print (of_struct (kv :: members)) = chr 123 :: member_text kv ++ members_text members ++ [chr 125].
Proof.
  unfold of_struct. cbn [print]. f_equal. revert kv. induction members as [|kv' members IH]; intros kv; [done|].
  cbn [fmap list_fmap print_seq] in *. rewrite IH, members_text_cons. change (member_text kv) with (quoted_raw (escape kv.1) ++ chr 58 :: print kv.2). cbn [fst snd].
  text_eq.
Qed.
Lemma members_text_app l k : members_text (l ++ k) = members_text l ++ members_text k.
Proof. unfold members_text. by rewrite fmap_app, join_app. Qed.
Lemma json_kv_text key value v : to_bytes value = print v -> to_bytes (json_kv key value) = member_text (key, v).
Proof. intros H. unfold json_kv, member_text. rewrite !to_bytes_app, json_string_print, H. done. Qed.
Lemma json_kv_string key s : to_bytes (json_kv key (json_string s)) = member_text (key, of_string s).
Proof. apply json_kv_text, json_string_print. Qed.
Lemma json_opt_text key value : to_bytes (json_opt key value) = members_text (omit_if (value == "") (key, of_string value)).
Proof.
  unfold json_opt. destruct (value == ""); [done|]. cbn [omit_if]. rewrite members_text_cons, to_bytes_app, json_kv_string.
  by rewrite app_nil_r.
Qed.

Lemma json_array_text (l : list string) : to_bytes (json_array json_string l) = print (of_slice of_string l).
Proof.
  destruct l as [|s l]; [done|]. unfold of_slice. cbn [json_array fmap list_fmap print].
  rewrite !to_bytes_app, json_string_print. change (to_bytes "[") with [chr 91]. cbn [app]. f_equal.
  revert s. induction l as [|s' l IH]; intros s; [done|]. cbn [json_tail fmap list_fmap print_seq] in *.
  rewrite !to_bytes_app, json_string_print. rewrite <-(IH s'). change (to_bytes ",") with [chr 44]. text_eq.
Qed.
Lemma json_actor_text a : to_bytes (json_actor a) = print (encode_Actor a).
Proof.
  unfold json_actor, encode_Actor. rewrite print_of_struct, !members_text_cons, !to_bytes_app, !json_kv_string.
  rewrite !(json_kv_text _ _ (of_slice of_string _)) by apply json_array_text. text_eq.
Qed.
Lemma json_map_text m : to_bytes (json_map m) = print (of_map m).
Proof.
  unfold json_map, of_map. destruct (sort_by fst (map_to_list m)) as [|kv l]; [done|].
  rewrite fmap_cons, print_of_struct, !to_bytes_app, json_kv_string. change (to_bytes "{") with [chr 123]. cbn [app]. do 2 f_equal.
  induction l as [|kv' l IH]; [done|]. cbn [fold_right]. rewrite fmap_cons, members_text_cons, !to_bytes_app, json_kv_string, IH.
  cbn [app]. change (to_bytes ",") with [chr 44]. text_eq.
Qed.

Lemma marshal_record_text r : to_bytes (marshal_record r) = marshal (encode_AuditRecord r).
Proof.
  unfold marshal_record, encode_AuditRecord, marshal. rewrite of_instant_string. cbn [app]. rewrite print_of_struct.
  repeat progress rewrite ?members_text_cons, ?members_text_app. rewrite <-!json_opt_text.
  rewrite !to_bytes_app, !json_kv_string.
  rewrite (json_kv_text "sequence" _ (of_uint64 (AR_Sequence r))) by done.
  rewrite (json_kv_text "actor" _ (encode_Actor (AR_Actor r))) by apply json_actor_text.
  assert (to_bytes (if decide (AR_Parameters r = ∅) then "" else "," +:+ json_kv "parameters" (json_map (AR_Parameters r))) =
    members_text (omit_if (bool_decide (AR_Parameters r = ∅)) ("parameters", of_map (AR_Parameters r)))) as ->.
  { case_decide as E; [by rewrite bool_decide_eq_true_2|]. rewrite bool_decide_eq_false_2 by done. cbn [omit_if].
    rewrite members_text_cons, to_bytes_app, (json_kv_text _ _ (of_map (AR_Parameters r))) by apply json_map_text.
    by rewrite app_nil_r. }
  text_eq.
Qed.

(** ** The lines of a file *)

Lemma file_lines_app l k : file_lines (l ++ k) =
  let '(lines, rest) := file_lines l in
  let '(lines', rest') := file_lines k in
  match lines' with [] => (lines, rest ++ rest') | line :: lines' => (lines ++ (rest ++ line) :: lines', rest') end.
Proof.
  induction l as [|a l IH]; cbn [app file_lines]; [by destruct (file_lines k) as [[|line lines'] rest']|]. rewrite IH.
  destruct (file_lines l) as [lines rest], (file_lines k) as [[|line lines'] rest'], lines; by destruct (Ascii.eqb a newline).
Qed.
Lemma file_lines_plain l : forallb (fun a => negb (Ascii.eqb a newline)) l = true -> file_lines l = ([], l).
Proof.
  induction l as [|a l IH]; [done|]. cbn [forallb file_lines]. intros [Ha H]%andb_true_iff. rewrite IH by done. by destruct (Ascii.eqb a newline).
Qed.

(** ** Appending *)

(** No control character, and so no newline, is in a marshalled text. *)
Definition visible (l : bytes) : bool := forallb (fun a => 32 <=? byte a) l.
Lemma visible_app l k : visible (l ++ k) = visible l && visible k.
Proof. apply forallb_app. Qed.
Lemma visible_join ls : Forall (fun l => visible l = true) ls -> visible (mjoin ls) = true.
Proof. induction 1 as [|l ls Hl _ IH]; [done|]. cbn [mjoin list_join]. by rewrite visible_app, Hl. Qed.
Lemma visible_elem l : (forall a, a ∈ l -> 32 <= byte a) -> visible l = true.
Proof. intros H. apply forallb_elem. intros a Ha. specialize (H a Ha). lia. Qed.

Lemma esc_token_visible t : proper t = true -> visible (esc_token t) = true.
Proof.
  destruct t as [[|a [|b bs]]|]; intros H; [done| | |reflexivity].
  - destruct a as [[] [] [] [] [] [] [] []]; first [discriminate H | reflexivity].
  - apply proper_high_all in H. unfold esc_token. case_decide; [reflexivity|]. case_decide; [reflexivity|].
    apply visible_elem. intros c Hc. rewrite Forall_forall in H. specialize (H c Hc). unfold ascii7 in H. lia.
Qed.
Lemma escape_visible s : visible (escape s) = true.
Proof.
  apply visible_join, Forall_fmap. eapply Forall_impl; [apply tokens_proper|]. apply esc_token_visible.
Qed.
Lemma string_visible s : visible (print (of_string s)) = true.
Proof. cbn. by rewrite visible_app, escape_visible. Qed.
Lemma member_visible key v : visible (print v) = true -> visible (member_text (key, v)) = true.
Proof. intros H. unfold member_text. rewrite visible_app. apply andb_true_iff. split; [apply string_visible|exact H]. Qed.
Lemma members_visible members :
  Forall (fun kv => visible (print kv.2) = true) members -> visible (members_text members) = true.
Proof. intros H. apply visible_join, Forall_fmap. eapply Forall_impl; [exact H|]. intros [key v] Hv. by apply member_visible. Qed.
Lemma struct_visible kv members :
  Forall (fun kv => visible (print kv.2) = true) (kv :: members) -> visible (print (of_struct (kv :: members))) = true.
Proof.
  intros [Hkv H]%Forall_cons. rewrite print_of_struct. destruct kv as [key v]. cbn [visible forallb].
  change (visible (member_text (key, v) ++ members_text members ++ [chr 125]) = true).
  by rewrite !visible_app, member_visible, members_visible.
Qed.
Lemma omit_visible empty key v : visible (print v) = true -> Forall (fun kv => visible (print kv.2) = true) (omit_if empty (key, v)).
Proof. destruct empty; repeat constructor. done. Qed.

Lemma strings_visible l : visible (print (of_slice of_string l)) = true.
Proof.
  unfold of_slice. cbn [print visible forallb]. apply andb_true_iff. split; [done|].
  induction l as [|s l IH]; [done|]. cbn [fmap list_fmap print_seq] in *. destruct (of_string <$> l) eqn:E.
  - change (visible (print (of_string s) ++ [chr 93]) = true). by rewrite visible_app, string_visible.
  - change (visible (print (of_string s) ++ [chr 44] ++ print_seq print 93 (j :: l0)) = true).
    rewrite !visible_app, string_visible. exact IH.
Qed.
Lemma map_visible m : visible (print (of_map m)) = true.
Proof.
  unfold of_map. destruct (sort_by fst (map_to_list m)) as [|kv l]; [done|]. rewrite fmap_cons. apply struct_visible.
  apply Forall_cons_2; [apply string_visible|]. apply Forall_fmap, Forall_true. intros kv'. apply string_visible.
Qed.
Lemma actor_visible a : visible (print (encode_Actor a)) = true.
Proof. apply struct_visible. repeat constructor; first [apply string_visible | apply strings_visible]. Qed.
Lemma record_visible r : visible (to_bytes (marshal_record r)) = true.
Proof.
  rewrite marshal_record_text. unfold marshal, encode_AuditRecord. rewrite of_instant_string. cbn [app]. apply struct_visible.
  repeat first [apply Forall_cons_2 | apply Forall_app_2 | apply omit_visible | apply Forall_nil_2].
  all: cbn [snd]; first [apply string_visible | apply actor_visible | apply map_visible | idtac].
  apply visible_elem. intros a Ha. pose proof (decimal_digits (Z.to_N (AR_Sequence r))) as H.
  rewrite forallb_elem in H. specialize (H a Ha). unfold is_digit, between in H. lia.
Qed.
Lemma visible_one_line l : visible l = true -> forallb (fun a => negb (Ascii.eqb a newline)) l = true.
Proof.
  unfold visible. rewrite !forallb_elem. intros H a Ha. specialize (H a Ha). destruct (Ascii.eqb_spec a newline) as [->|]; done.
Qed.

(** Trimming keeps a brace. *)
Lemma trim_front_keeps p1 p2 p3 x l :
  p1 x = false -> (forall a, p2 x a = false /\ p2 a x = false) ->
  (forall a b, p3 x a b = false /\ p3 a x b = false /\ p3 a b x = false) -> x ∈ l -> x ∈ trim_front p1 p2 p3 l.
Proof.
  intros H1 H2 H3. induction l as [l IH] using bytes_strong_ind. intros Hx. destruct l as [|a l1]; [done|]. cbn [trim_front].
  destruct (p1 a) eqn:E1.
  { apply IH; [simpl; lia|]. apply elem_of_cons in Hx as [->|Hx]; [congruence|done]. }
  destruct l1 as [|b l2]; [done|]. destruct (p2 a b) eqn:E2.
  { apply IH; [simpl; lia|]. apply elem_of_cons in Hx as [->|Hx]; [by destruct (H2 b); congruence|].
    apply elem_of_cons in Hx as [->|Hx]; [by destruct (H2 a); congruence|done]. }
  destruct l2 as [|c l3]; [done|]. destruct (p3 a b c) eqn:E3; [|done].
  apply IH; [simpl; lia|]. apply elem_of_cons in Hx as [->|Hx]; [by destruct (H3 b c) as (? & ? & ?); congruence|].
  apply elem_of_cons in Hx as [->|Hx]; [by destruct (H3 a c) as (? & ? & ?); congruence|].
  apply elem_of_cons in Hx as [->|Hx]; [by destruct (H3 a b) as (? & ? & ?); congruence|done].
Qed.
Lemma space3_brace a b : space3 a (chr 123) b = false.
Proof. unfold space3. change (byte (chr 123)) with 123. cbn. by rewrite ?andb_false_r. Qed.
Lemma trimmed_brace l : TrimSpace (of_bytes (chr 123 :: l)) <> "".
Proof.
  assert (H : chr 123 ∈ trim_right (trim_left (to_bytes (of_bytes (chr 123 :: l))))).
  { rewrite to_of_bytes. unfold trim_left, trim_right. rewrite list_elem_of_In, <-in_rev, <-list_elem_of_In.
    apply trim_front_keeps; [done| | |].
    3: rewrite list_elem_of_In, <-in_rev, <-list_elem_of_In; apply trim_front_keeps; [done| | |by left].
    all: intros; unfold space2; repeat split; rewrite ?space3_brace; unfold space3; change (byte (chr 123)) with 123; cbn -[Z.eqb]; rewrite ?andb_false_r, ?orb_false_r; try reflexivity. }
  intros Hb. unfold TrimSpace in Hb. apply (f_equal to_bytes) in Hb. rewrite to_of_bytes in Hb. rewrite Hb in H. by apply not_elem_of_nil in H.
Qed.
Definition storable (r : AuditRecord) : Prop := time_ok (AR_Timestamp r) /\ 0 <= AR_Sequence r < 2 ^ 64.

Lemma record_brace r : exists l, to_bytes (marshal_record r) = chr 123 :: l ++ [chr 125].
Proof.
  rewrite marshal_record_text. unfold marshal, encode_AuditRecord. cbn [app]. rewrite print_of_struct. eexists.
  by rewrite app_assoc.
Qed.

(** A line that begins with a marshalled record is that record, whatever follows on it. *)
Lemma read_line_record r junk :
  storable r -> line_content_of (read_line (to_bytes (marshal_record r) ++ junk)) = LineRecord (scrub_record r).
Proof.
  intros [Ht Hs]. unfold read_line. cbn [line_content_of]. destruct (record_brace r) as [l E].
  assert (Hcr : exists junk', drop_cr (to_bytes (marshal_record r) ++ junk) = to_bytes (marshal_record r) ++ junk').
  { unfold drop_cr. destruct junk as [|a junk _] using rev_ind.
    - rewrite app_nil_r, E, app_comm_cons, rev_app_distr. cbn. exists []. by rewrite app_nil_r.
    - rewrite app_assoc, rev_app_distr. cbn [rev app]. destruct (Ascii.eqb a (chr 13)); [|by rewrite <-app_assoc; eexists].
      rewrite rev_involutive. by eexists. }
  destruct Hcr as [junk' ->]. destruct (String.eqb_spec (TrimSpace (of_bytes (to_bytes (marshal_record r) ++ junk'))) "") as [Hb|_].
  { rewrite E in Hb. by apply trimmed_brace in Hb. }
  rewrite marshal_record_text. unfold marshal. rewrite parse_delimited by first [by apply encode_record_wf | done].
  by rewrite decode_encode_record.
Qed.

Lemma written_line_bytes r : storable r -> read_line (to_bytes (marshal_record r)) = written_line r.
Proof.
  intros Hr. pose proof (read_line_record r [] Hr) as H. rewrite app_nil_r in H.
  unfold written_line. rewrite <-H, <-(of_to_bytes (marshal_record r)), slen_of_bytes, of_to_bytes. done.
Qed.

Lemma read_lines_line content line :
  visible line = true ->
  read_lines (content ++ line ++ [newline]) =
  let torn := (file_lines content).2 in
  {| AF_Lines := AF_Lines (read_lines content) ++ [read_line (torn ++ line)]; AF_Torn := None |}.
Proof.
  intros Hv. unfold read_lines. rewrite file_lines_app. destruct (file_lines content) as [lines torn]. cbv zeta.
  rewrite file_lines_app, (file_lines_plain line) by by apply visible_one_line. cbn [file_lines fst snd].
  change (Ascii.eqb newline newline) with true. cbn [app AF_Lines]. by rewrite app_nil_r, fmap_app.
Qed.
Lemma read_lines_torn content part :
  visible part = true ->
  read_lines (content ++ part) = {| AF_Lines := AF_Lines (read_lines content); AF_Torn := torn_line ((file_lines content).2 ++ part) |}.
Proof.
  intros Hv. unfold read_lines. rewrite file_lines_app, (file_lines_plain part) by by apply visible_one_line.
  by destruct (file_lines content) as [lines torn].
Qed.
Lemma visible_take n l : visible l = true -> visible (take n l) = true.
Proof. intros H. rewrite <-(take_drop n l), visible_app in H. by apply andb_true_iff in H as [H _]. Qed.

(** C22 The file is the log.  For every record whose timestamp has a four-digit year: what [Append] writes to a file, read back by the
    scanner and the decoder, is the model of the appended log, whether the file was missing, whole or torn; and a write cut
    short anywhere before its newline leaves the torn line of the model.  So what the theorems on the log say of lines and decoded
    records holds of the bytes on disk. *)
Theorem audit_bytes io r content fault :
  storable r ->
  let torn := (file_lines content).2 in
  let text := to_bytes (marshal_record r) in
  AIO_Joined io = read_line (torn ++ text) ->
  append_line io r (AuditFile (read_lines content) fault) = AuditFile (read_lines (content ++ record_bytes r)) fault /\
  append_line io r AuditMissing = AuditFile (read_lines (record_bytes r)) NoFault /\
  (forall n, tear_line (torn_line (torn ++ take n text)) (AuditFile (read_lines content) fault) =
     AuditFile (read_lines (content ++ take n text)) fault).
Proof.
  intros Hr torn text Hj. assert (Hv : visible text = true) by apply record_visible. unfold record_bytes. fold text. split; [|split].
  - rewrite read_lines_line by done. fold torn. cbv zeta. unfold append_line. cbn [file_content file_fault].
    unfold torn in *. unfold read_lines in *. destruct (file_lines content) as [lines rest]. cbn [AF_Torn AF_Lines snd] in *.
    unfold torn_line. case_bool_decide as E; [|by rewrite Hj]. subst rest. cbn [app]. unfold text. by rewrite written_line_bytes.
  - rewrite <-(app_nil_l (text ++ [newline])), read_lines_line by done. cbn. unfold text. by rewrite written_line_bytes.
  - intros n. rewrite read_lines_torn by by apply visible_take. fold torn. unfold tear_line. cbn [file_content file_fault].
    do 2 f_equal. unfold torn_line at 1. case_bool_decide as E.
    + apply app_eq_nil in E as [E1 E2]. unfold read_lines. fold torn. destruct (file_lines content) as [lines rest] eqn:El.
      unfold torn in *. cbn [snd] in *. subst rest. by rewrite E2.
    + unfold torn_line. by rewrite bool_decide_eq_false_2.
Qed.

(** ** Text behind a record *)

(** The scan sees of a line only its content and whether it fits the buffer. *)
Lemma load_lines_same ls l k number previous sequence acc :
  line_content_of l = line_content_of k -> line_length l < maxAuditLineBytes -> line_length k < maxAuditLineBytes ->
  load_lines (ls ++ [l]) number previous sequence acc = load_lines (ls ++ [k]) number previous sequence acc.
Proof.
  intros Hc Hl Hk. revert number previous sequence acc. induction ls as [|x ls IH]; intros number previous sequence acc; cbn [app load_lines].
  - rewrite !(proj2 (Z.leb_gt _ _)) by done. by rewrite Hc.
  - destruct (_ <=? _); [done|]. destruct (line_content_of x); try done. by rewrite IH.
Qed.

(** Text behind the JSON of the last record is not noticed: the file opens, or does not open, exactly as without it. *)
Theorem trailing_text_undetected path content r junk fault :
  storable r -> visible junk = true -> slen (marshal_record r) + Z.of_nat (length junk) < maxAuditLineBytes ->
  (file_lines content).2 = [] ->
  OpenAuditStore path (AuditFile (read_lines (content ++ to_bytes (marshal_record r) ++ junk ++ [newline])) fault) =
  OpenAuditStore path (AuditFile (read_lines (content ++ record_bytes r)) fault).
Proof.
  intros Hr Hj Hlen Htorn. unfold record_bytes. rewrite (app_assoc (to_bytes _) junk).
  rewrite !read_lines_line by (rewrite ?visible_app, record_visible; done). rewrite Htorn. cbv zeta. cbn [app].
  set (line := read_line _). set (line' := read_line _).
  assert (Hlength : slen (marshal_record r) = Z.of_nat (length (to_bytes (marshal_record r))))
    by (by rewrite <-(of_to_bytes (marshal_record r)) at 1; rewrite slen_of_bytes).
  assert (Hload : load_lines (AF_Lines (read_lines content) ++ [line]) 0 "" 0 [] = load_lines (AF_Lines (read_lines content) ++ [line']) 0 "" 0 []).
  { apply load_lines_same; unfold line, line'; cbn [read_line line_length]; rewrite ?length_app; [|lia..].
    rewrite read_line_record by done. by rewrite <-(app_nil_r (to_bytes (marshal_record r))), read_line_record. }
  unfold OpenAuditStore. destruct (TrimSpace path == ""); [done|]. unfold loadAndVerify, scanned. cbn [AF_Lines AF_Torn AS_Records].
  rewrite !app_nil_r, Hload. by destruct fault.
Qed.

Lemma audit_bytes_witness :
  append_line audit_io_works example_final AuditMissing = AuditFile (read_lines (record_bytes example_final)) NoFault.
Proof.
  set (io := {| AIO_Marshal := true; AIO_MkdirAll := true; AIO_OpenFile := true; AIO_Write := WriteOk; AIO_Sync := true;
    AIO_Close := true; AIO_Joined := read_line ([] ++ to_bytes (marshal_record example_final)) |}).
  destruct (audit_bytes io example_final [] NoFault) as (_ & H & _); [|reflexivity|exact H].
  split; [split; vm_compute; (reflexivity || discriminate)|split; vm_compute; (reflexivity || discriminate)].
Defined.
