(* ===== verification/StateFiles.v ===== *)
(** * The other files as bytes

    The actor registry (security/auth.go), the service policy (servicecontrol/policy.go) and the confirmation store
    (security/grants.go) as they are read and written: [os.ReadFile], the size limit and one [Decode] that refuses unknown fields;
    [json.MarshalIndent] for the store. *)

From S2P Require Import Prelude GoStrings GoTime Protocol Actors Plans Grants AuditLog ServiceControl Client.
From S2P Require Import Json JsonParse TimeText JsonDecode JsonIndent JsonAny Messages AuditBytes.
From S2P Require Import Config System Registry Mutations Broker Control Main.
#[local] Open Scope Z_scope.

(** What [os.ReadFile] gives. *)
Inductive file_read := ReadMissing | ReadError | ReadBytes (content : bytes).

(** One [Decode]: the first JSON value counts, what follows it is not looked at. *)
Definition decode_document {A} (d : decoder A) (content : bytes) : option A :=
  match parse content with Parsed v _ => d [v] | _ => None end.

(** ** The actor registry *)

Definition decode_ActorCredential (strict : bool) : decoder ActorCredential :=
  to_struct strict ["actor"; "token_sha256"] (fun get =>
    actor ← decode_Actor strict (get "actor"); digest ← to_string (get "token_sha256");
    Some {| Cred_Actor := actor; Cred_TokenSHA256 := digest |}).
Definition decode_ActorRegistry (strict : bool) : decoder ActorRegistry :=
  to_struct strict ["schema"; "actors"] (fun get =>
    schema ← to_string (get "schema"); actors ← to_slice (decode_ActorCredential strict) (get "actors");
    Some {| Registry_Schema := schema; Registry_Actors := actors |}).

Definition maxDocumentBytes : Z := Z.shiftl 1 20.
Definition registry_of (r : file_read) : registry_file :=
  match r with
  | ReadMissing | ReadError => RegistryUnreadable
  | ReadBytes content =>
    if maxDocumentBytes <? Z.of_nat (length content) then RegistryOversized
    else match decode_document (decode_ActorRegistry true) content with Some r => RegistryDocument r | None => RegistryUndecodable end
  end.

(** ** The service policy *)

Definition decode_policyFile (strict : bool) : decoder policyFile :=
  to_struct strict ["schema"; "allowed_units"] (fun get =>
    schema ← to_string (get "schema"); units ← to_slice to_string (get "allowed_units");
    Some {| PF_Schema := schema; PF_AllowedUnits := units |}).
Definition policy_of (r : file_read) : policy_document :=
  match r with
  | ReadMissing | ReadError => PolicyUnreadable
  | ReadBytes content =>
    if maxDocumentBytes <? Z.of_nat (length content) then PolicyOversized
    else match decode_document (decode_policyFile true) content with Some p => PolicyDocument p | None => PolicyUndecodable end
  end.

(** ** The confirmation store *)

Definition ConfirmationGrant_fields : list string :=
  ["schema"; "id"; "plan_id"; "plan_digest"; "subject_actor_id"; "session_id"; "approver"; "action"; "issued_at"; "expires_at"; "used_at"].
Definition decode_ConfirmationGrant (strict : bool) : decoder ConfirmationGrant :=
  to_struct strict ConfirmationGrant_fields (fun get =>
    schema ← to_string (get "schema"); id ← to_string (get "id"); plan_id ← to_string (get "plan_id");
    plan_digest ← to_string (get "plan_digest"); subject ← to_string (get "subject_actor_id");
    session_id ← to_string (get "session_id"); approver ← decode_Actor strict (get "approver"); action ← to_string (get "action");
    issued_at ← to_instant (get "issued_at"); expires_at ← to_instant (get "expires_at"); used_at ← to_instant (get "used_at");
    Some {| Grant_Schema := schema; Grant_ID := id; Grant_PlanID := plan_id; Grant_PlanDigest := plan_digest;
            Grant_SubjectActorID := subject; Grant_SessionID := session_id; Grant_Approver := approver; Grant_Action := action;
            Grant_IssuedAt := issued_at; Grant_ExpiresAt := expires_at; Grant_UsedAt := used_at |}).
(** [omitempty] leaves no [time.Time] out, the zero one neither.  Instants are written in UTC; an expiry taken over from a plan that was
    decoded with an offset keeps the offset in Go, and denotes the same instant. *)
Definition encode_ConfirmationGrant (g : ConfirmationGrant) : json :=
  of_struct [("schema", of_string (Grant_Schema g)); ("id", of_string (Grant_ID g)); ("plan_id", of_string (Grant_PlanID g));
    ("plan_digest", of_string (Grant_PlanDigest g)); ("subject_actor_id", of_string (Grant_SubjectActorID g));
    ("session_id", of_string (Grant_SessionID g)); ("approver", encode_Actor (Grant_Approver g));
    ("action", of_string (Grant_Action g)); ("issued_at", of_instant (Grant_IssuedAt g));
    ("expires_at", of_instant (Grant_ExpiresAt g)); ("used_at", of_instant (Grant_UsedAt g))].

Definition decode_storedGrant (strict : bool) : decoder storedGrant :=
  to_struct strict ["grant"; "token_sha256"] (fun get =>
    grant ← decode_ConfirmationGrant strict (get "grant"); digest ← to_string (get "token_sha256");
    Some {| SG_Grant := grant; SG_TokenSHA256 := digest |}).
Definition encode_storedGrant (s : storedGrant) : json :=
  of_struct [("grant", encode_ConfirmationGrant (SG_Grant s)); ("token_sha256", of_string (SG_TokenSHA256 s))].

Definition decode_grantState (strict : bool) : decoder grantState :=
  to_struct strict ["schema"; "grants"] (fun get =>
    schema ← to_string (get "schema"); grants ← to_slice (decode_storedGrant strict) (get "grants");
    Some {| GS_Schema := schema; GS_Grants := grants |}).
Definition encode_grantState (s : grantState) : json :=
  of_struct [("schema", of_string (GS_Schema s)); ("grants", of_slice encode_storedGrant (GS_Grants s))].

Definition grants_of (r : file_read) : grant_file :=
  match r with
  | ReadMissing => FileMissing
  | ReadError => FileUnreadable
  | ReadBytes content =>
    match decode_document (decode_grantState true) content with
    | Some s => FileState (Z.of_nat (length content)) s
    | None => FileUndecodable (Z.of_nat (length content))
    end
  end.

(** What [persistLocked] writes. *)
Definition grant_bytes (s : grantState) : bytes := print_indent 0 (encode_grantState s) ++ [chr 10].

(** ** A disk of bytes *)

(** The audit log may also become unreadable on the way. *)
Definition audit_of (r : file_read) : audit_file :=
  match r with
  | ReadMissing => AuditMissing
  | ReadError => AuditFile {| AF_Lines := []; AF_Torn := None |} OpenFails
  | ReadBytes content => AuditFile (read_lines content) NoFault
  end.
Definition disk_of (fs : string -> file_read) : disk :=
  {| DK_Read := fun path => match fs path with ReadBytes content => Some (of_bytes content) | _ => None end;
     DK_Actors := fun path => registry_of (fs path);
     DK_Audit := fun path => audit_of (fs path);
     DK_Policy := fun path => policy_of (fs path);
     DK_Grants := fun path => grants_of (fs path) |}.

(** ** Reading what was written *)

(** The instants of a grant can be marshalled. *)
Definition stored_marshals (s : storedGrant) : Prop :=
  let g := SG_Grant s in time_ok (Grant_IssuedAt g) /\ time_ok (Grant_ExpiresAt g) /\ time_ok (Grant_UsedAt g).

#[local] Hint Rewrite to_string_of decode_encode_actor : wire.

Lemma decode_encode_grant strict s :
  stored_marshals s -> decode_ConfirmationGrant strict [encode_ConfirmationGrant (SG_Grant s)] = Some (scrub_grant (SG_Grant s)).
Proof.
  intros (H1 & H2 & H3). unfold decode_ConfirmationGrant, encode_ConfirmationGrant. decode_fields. autorewrite with wire.
  by rewrite !to_instant_of.
Qed.
Lemma decode_encode_stored strict s : stored_marshals s -> decode_storedGrant strict [encode_storedGrant s] = Some (scrub_stored s).
Proof.
  intros H. unfold decode_storedGrant, encode_storedGrant. decode_fields. autorewrite with wire. by rewrite decode_encode_grant.
Qed.
Lemma decode_encode_state strict s :
  Forall stored_marshals (GS_Grants s) -> decode_grantState strict [encode_grantState s] = Some (scrub_state s).
Proof.
  intros H. unfold decode_grantState, encode_grantState. decode_fields. autorewrite with wire.
  rewrite (to_slice_of _ _ scrub_stored); [done|]. rewrite Forall_forall in H. intros g Hg. by apply decode_encode_stored, H.
Qed.

Lemma encode_state_wf s : well_formed 0 (encode_grantState s).
Proof.
  apply of_struct_wf; [done|]. each_member. cbn [snd]. apply of_slice_wf; [done|]. apply Forall_true. intros g.
  apply of_struct_wf; [done|]. each_member. cbn [snd]. apply of_struct_wf; [done|]. each_member. cbn [snd]. by apply encode_actor_wf.
Qed.

(** C23 The confirmation store on disk.  Whatever state is persisted, provided its instants have four-digit years: the indented text
    that is written decodes, strictly, to the same state with invalid UTF-8 replaced, so that a write whose steps all succeed leaves
    exactly the file the model of the store goes on from. *)
Theorem grant_store_bytes (io : persist_io) s file :
  Forall stored_marshals (GS_Grants s) ->
  grants_of (ReadBytes (grant_bytes s)) = FileState (Z.of_nat (length (grant_bytes s))) (scrub_state s) /\
  ((forall step, io step = true) -> PIO_Size io = Z.of_nat (length (grant_bytes s)) ->
   persistLocked io s file = (Ok tt, grants_of (ReadBytes (grant_bytes s)))).
Proof.
  intros H.
  assert (E : grants_of (ReadBytes (grant_bytes s)) = FileState (Z.of_nat (length (grant_bytes s))) (scrub_state s)).
  { unfold grants_of, decode_document. unfold grant_bytes at 1. rewrite parse_indented by (apply encode_state_wf || done).
    by rewrite decode_encode_state. }
  split; [exact E|]. intros Hio Hsize. rewrite E. unfold persistLocked. by rewrite !Hio, Hsize.
Qed.

(** ** What counts of a document *)

Lemma decode_document_more {A} (d : decoder A) content members rest k :
  parse content = Parsed (JObject members) rest -> decode_document d (content ++ k) = decode_document d content.
Proof.
  intros H. unfold decode_document. rewrite H. unfold parse in *. apply (parse_more _) with (k := k) in H; [|by left].
  apply (parse_up _ (value_fuel (content ++ k))) in H; [by rewrite H|]. unfold value_fuel. rewrite length_app. lia.
Qed.

(** Documents are read strictly, up to their end.  A registry or policy that loads is within 1 MiB and one JSON object (or [null], which has
    the wrong schema) without unknown members; what follows the object in the file is not looked at. *)
Theorem documents_read path content :
  (forall credentials, LoadActorRegistry (registry_of (ReadBytes content)) = Ok credentials ->
     Z.of_nat (length content) <= maxDocumentBytes /\
     exists members rest, parse content = Parsed (JObject members) rest /\
       (forall key value, (key, value) ∈ members -> resolve ["schema"; "actors"] (unquote key) <> None) /\
       forall k, Z.of_nat (length (content ++ k)) <= maxDocumentBytes ->
         LoadActorRegistry (registry_of (ReadBytes (content ++ k))) = Ok credentials) /\
  (forall policy, LoadPolicy path (policy_of (ReadBytes content)) = Ok policy -> TrimSpace path <> "" ->
     Z.of_nat (length content) <= maxDocumentBytes /\
     exists members rest, parse content = Parsed (JObject members) rest /\
       (forall key value, (key, value) ∈ members -> resolve ["schema"; "allowed_units"] (unquote key) <> None) /\
       forall k, Z.of_nat (length (content ++ k)) <= maxDocumentBytes ->
         LoadPolicy path (policy_of (ReadBytes (content ++ k))) = Ok policy).
Proof.
  split.
  - intros credentials H. unfold registry_of in *. destruct (Z.ltb_spec maxDocumentBytes (Z.of_nat (length content))); [discriminate H|].
    split; [done|]. destruct (decode_document _ content) as [r|] eqn:E; [|discriminate H]. pose proof E as Ed. unfold decode_document in E.
    destruct (parse content) as [v rest| |] eqn:Ep; try discriminate E.
    destruct (to_struct_strict _ _ _ _ E) as [->|(members & -> & Hm)].
    { vm_compute in E. injection E as <-. discriminate H. }
    exists members, rest. split; [done|]. split; [done|]. intros k Hk. rewrite (proj2 (Z.ltb_ge _ _)) by done.
    by rewrite (decode_document_more _ _ _ _ k Ep), Ed.
  - intros policy H Hpath. unfold policy_of in *. apply String.eqb_neq in Hpath. unfold LoadPolicy in *. rewrite Hpath in *.
    destruct (Z.ltb_spec maxDocumentBytes (Z.of_nat (length content))); [discriminate H|].
    split; [done|]. destruct (decode_document _ content) as [r|] eqn:E; [|discriminate H]. pose proof E as Ed. unfold decode_document in E.
    destruct (parse content) as [v rest| |] eqn:Ep; try discriminate E.
    destruct (to_struct_strict _ _ _ _ E) as [->|(members & -> & Hm)].
    { vm_compute in E. injection E as <-. discriminate H. }
    exists members, rest. split; [done|]. split; [done|]. intros k Hk. rewrite (proj2 (Z.ltb_ge _ _)) by done.
    by rewrite (decode_document_more _ _ _ _ k Ep), Ed.
Qed.

(** ** The files that are shipped *)

(** [config/actors.example.json] and [config/service-mutation-policy.example.json], with single quotation marks. *)
Definition actors_example : bytes := with_quotes (to_bytes "{
  'schema': 'quantum.control/actors/v1alpha1',
  'actors': [
    {
      'actor': {
        'id': 'human:administrator',
        'kind': 'human',
        'display_name': 'Local Administrator',
        'roles': ['approver'],
        'permissions': []
      },
      'token_sha256': 'aaaaaaaaaaaaaaaaaaaaaaaaaaaaaaaaaaaaaaaaaaaaaaaaaaaaaaaaaaaaaaaa'
    },
    {
      'actor': {
        'id': 'service:mutation-executor',
        'kind': 'service',
        'display_name': 'Approved Mutation Executor',
        'roles': ['mutator'],
        'permissions': []
      },
      'token_sha256': 'cccccccccccccccccccccccccccccccccccccccccccccccccccccccccccccccc'
    },
    {
      'actor': {
        'id': 'tci:quantum',
        'kind': 'tci',
        'display_name': 'Quantum TCI',
        'roles': ['tci-proposer'],
        'permissions': []
      },
      'token_sha256': 'bbbbbbbbbbbbbbbbbbbbbbbbbbbbbbbbbbbbbbbbbbbbbbbbbbbbbbbbbbbbbbbb'
    }
  ]
}
").
Definition policy_example : bytes := with_quotes (to_bytes "{
  'schema': 'quantum.control/service-mutation-policy/v1alpha1',
  'allowed_units': [
    'quantum-runtime.service'
  ]
}
").

(** The human approves and cannot execute, the service executes and cannot approve, the TCI does neither. *)
Example actors_example_loads :
  match LoadActorRegistry (registry_of (ReadBytes actors_example)) with
  | Ok credentials =>
    (fun c => let a := Cred_Actor c in (Actor_ID a, HasPermission a PermissionConfirm, may_mutate a)) <$> credentials
  | Err _ => []
  end = [("human:administrator", true, false); ("service:mutation-executor", false, true); ("tci:quantum", false, false)].
Proof. vm_compute. reflexivity. Qed.
Example policy_example_loads :
  match LoadPolicy "/etc/policy.json" (policy_of (ReadBytes policy_example)) with Ok p => AllowedUnits p | Err _ => [] end =
  ["quantum-runtime.service"].
Proof. vm_compute. reflexivity. Qed.

Lemma documents_read_witness :
  exists policy, LoadPolicy "/etc/policy.json" (policy_of (ReadBytes (policy_example ++ to_bytes "not JSON"))) = Ok policy.
Proof.
  destruct (LoadPolicy "/etc/policy.json" (policy_of (ReadBytes policy_example))) as [policy|e] eqn:E;
    [|exfalso; vm_compute in E; discriminate E].
  destruct (documents_read "/etc/policy.json" policy_example) as [_ H].
  destruct (H policy E) as (_ & members & rest & _ & _ & Hk); [vm_compute; discriminate|].
  exists policy. apply Hk. vm_compute. discriminate.
Defined.

Definition example_grants : grantState :=
  {| GS_Schema := grantStoreSchema;
     GS_Grants := [{| SG_Grant := {| Grant_Schema := GrantSchema; Grant_ID := "grant-01"; Grant_PlanID := "plan-02"; Grant_PlanDigest := "00";
                        Grant_SubjectActorID := "human:alice"; Grant_SessionID := "session-1"; Grant_Approver := zero_Actor;
                        Grant_Action := "service.restart"; Grant_IssuedAt := 0; Grant_ExpiresAt := 5 * Minute; Grant_UsedAt := 0 |};
                      SG_TokenSHA256 := "00" |}] |}.
Lemma grant_store_bytes_witness :
  Forall stored_marshals (GS_Grants example_grants) /\
  grants_of (ReadBytes (grant_bytes example_grants)) =
    FileState (Z.of_nat (length (grant_bytes example_grants))) (scrub_state example_grants).
Proof.
  assert (H : Forall stored_marshals (GS_Grants example_grants)).
  { apply Forall_cons_2; [|apply Forall_nil_2]. split; [|split]; split; vm_compute; (reflexivity || discriminate). }
  split; [exact H|].
  exact (proj1 (grant_store_bytes {| PIO_Step := fun _ => true; PIO_Size := 0 |} example_grants FileMissing H)).
Defined.

(** [config/quantum-control.env.example] and [config/qcored.env.example] with the optional lines in use. *)
Definition env_of (entries : list (string * string)) : environment := fun key =>
  default "" (find_first (fun kv => if kv.1 == key then Some kv.2 else None) entries).
Definition control_env_example : environment := env_of
  [("QUANTUM_CONTROL_LISTEN", "127.0.0.1:17440");
   ("QUANTUM_CONTROL_API_TOKEN", "replace-with-a-long-random-value");
   ("QUANTUM_CONTROL_ACTOR_FILE", "/etc/quantum-control/actors.json");
   ("QUANTUM_CONTROL_AUDIT_PATH", "/var/lib/quantum-control/audit/audit.jsonl");
   ("QUANTUM_CONTROL_PLAN_TTL", "5m");
   ("QUANTUM_CONTROL_BROKER_SOCKET", "/run/quantum-control/qcored.sock");
   ("QUANTUM_CONTROL_BROKER_TOKEN_FILE", "/etc/quantum-control/broker.token");
   ("QUANTUM_CONTROL_REQUEST_BODY_LIMIT", "1048576");
   ("QUANTUM_CONTROL_HEADER_TIMEOUT", "10s");
   ("QUANTUM_CONTROL_IDLE_TIMEOUT", "90s");
   ("QUANTUM_CONTROL_BROKER_TIMEOUT", "45s")].
Definition qcored_env_example : environment := env_of
  [("QUANTUM_CONTROL_BROKER_SOCKET", "/run/quantum-control/qcored.sock");
   ("QUANTUM_CONTROL_BROKER_TOKEN_FILE", "/etc/quantum-control/broker.token");
   ("QUANTUM_CONTROL_ACTOR_FILE", "/etc/quantum-control/actors.json");
   ("QUANTUM_CONTROL_GRANT_PATH", "/var/lib/quantum-control-broker/grants.json");
   ("QUANTUM_CONTROL_GRANT_TTL", "2m");
   ("QUANTUM_CONTROL_SERVICE_POLICY_FILE", "/etc/quantum-control/service-mutation-policy.json");
   ("QUANTUM_CONTROL_TRANSACTION_TIMEOUT", "30s");
   ("QUANTUM_CONTROL_SERVICE_POLL_INTERVAL", "250ms");
   ("QUANTUM_CONTROL_BROKER_REQUEST_BODY_LIMIT", "1048576");
   ("QUANTUM_CONTROL_BROKER_HEADER_TIMEOUT", "10s");
   ("QUANTUM_CONTROL_BROKER_IDLE_TIMEOUT", "30s")].
(** A fresh installation: the shipped documents, a generated token, no state yet. *)
Definition fresh_disk : string -> file_read := fun path =>
  if path == "/etc/quantum-control/actors.json" then ReadBytes actors_example
  else if path == "/etc/quantum-control/service-mutation-policy.json" then ReadBytes policy_example
  else if path == "/etc/quantum-control/broker.token" then ReadBytes (to_bytes "0123456789abcdef0123456789abcdef" ++ [chr 10])
  else ReadMissing.

(** Both programs start on it, the public API on the loopback address with the answers of the broker outlasting a transaction. *)
Example shipped_configuration_starts :
  (match control_serve control_env_example (disk_of fresh_disk) with
   | Ok (http, token, _) => Some (HS_Addr http, token)
   | Err _ => None
   end = Some ("127.0.0.1:17440", "0123456789abcdef0123456789abcdef")) /\
  is_ok (qcored_check qcored_env_example (disk_of fresh_disk)) = true.
Proof. vm_compute. by split. Qed.
