(* ===== verification/Answers.v ===== *)
(** * The answers of the broker as bytes

    [writeJSON] of broker/server.go with the structs of protocol/types.go and security/types.go, and [json.Unmarshal] of broker/client.go:
    what the client reads of the bytes is what [Client.v] takes it to read. *)

From S2P Require Import Prelude GoStrings GoTime Mux Protocol Actors Plans Grants AuditLog ServiceControl System Registry Mutations.
From S2P Require Import Control Broker Client.
From S2P Require Import Json JsonParse TimeText JsonDecode JsonAny Messages AuditBytes StateFiles.
#[local] Open Scope Z_scope.

(** ** Pointers and slices that may be nil *)

(** What is given after the last [null]. *)
Definition since_null (vs : list json) : list json :=
  fold_left (fun given v => match v with JNull => [] | _ => given ++ [v] end) vs [].
(** A pointer is nil before the first value and after [null]; other values go into what it points to. *)
Definition to_pointer {A} (d : decoder A) : decoder (option A) := fun vs =>
  _ ← mapM (fun v => d [v]) vs;
  match since_null vs with
  | [] => Some None
  | vs => Some <$> d vs
  end.
Definition to_nilable {A} (d : decoder A) : decoder (option (list A)) := fun vs =>
  l ← to_slice d vs;
  Some (match since_null vs with [] => None | _ => Some l end).

(** ** Definitions and plans *)

Definition decode_ParameterDefinition (strict : bool) : decoder ParameterDefinition :=
  to_struct strict ["name"; "description"; "required"; "pattern"; "allowed_values"] (fun get =>
    name ← to_string (get "name"); description ← to_string (get "description"); required ← to_bool (get "required");
    pattern ← to_string (get "pattern"); allowed ← to_nilable to_string (get "allowed_values");
    Some {| PD_Name := name; PD_Description := description; PD_Required := required; PD_Pattern := pattern; PD_AllowedValues := allowed |}).
Definition encode_ParameterDefinition (p : ParameterDefinition) : json :=
  of_struct ([("name", of_string (PD_Name p)); ("description", of_string (PD_Description p)); ("required", JBool (PD_Required p))]
    ++ omit_if (PD_Pattern p == "") ("pattern", of_string (PD_Pattern p))
    ++ omit_if (bool_decide (default [] (PD_AllowedValues p) = [])) ("allowed_values", of_slice of_string (default [] (PD_AllowedValues p)))).

Definition decode_OperationDefinition (strict : bool) : decoder OperationDefinition :=
  to_struct strict ["action"; "summary"; "risk"; "requires_confirmation"; "implemented"; "parameters"] (fun get =>
    action ← to_string (get "action"); summary ← to_string (get "summary"); risk ← to_string (get "risk");
    requires_confirmation ← to_bool (get "requires_confirmation"); implemented ← to_bool (get "implemented");
    parameters ← to_slice (decode_ParameterDefinition strict) (get "parameters");
    Some {| OD_Action := action; OD_Summary := summary; OD_Risk := risk; OD_RequiresConfirmation := requires_confirmation;
            OD_Implemented := implemented; OD_Parameters := parameters |}).
Definition encode_OperationDefinition (d : OperationDefinition) : json :=
  of_struct ([("action", of_string (OD_Action d)); ("summary", of_string (OD_Summary d)); ("risk", of_string (OD_Risk d));
    ("requires_confirmation", JBool (OD_RequiresConfirmation d)); ("implemented", JBool (OD_Implemented d))]
    ++ omit_if (bool_decide (OD_Parameters d = [])) ("parameters", of_slice encode_ParameterDefinition (OD_Parameters d))).

Section answers.
(** How a message reads (its errors come from the operating system and from [encoding/json]), the pages of net/http, the version, and
    the time in the answer to a refused request. *)
Context (message : text -> string) (page : unmatched -> bytes) (version : string) (clock : time).

Definition decode_Problem (strict : bool) : decoder Problem :=
  to_struct strict ["code"; "message"] (fun get =>
    code ← to_string (get "code"); m ← to_string (get "message"); Some {| Problem_Code := code; Problem_Message := Text m [] |}).
Definition encode_Problem (p : Problem) : json :=
  of_struct [("code", of_string (Problem_Code p)); ("message", of_string (message (Problem_Message p)))].

(** [protocol.OperationPlan]; the warnings are checked and never used. *)
Definition decode_BrokerPlan (strict : bool) : decoder BrokerPlan :=
  to_struct strict ["request"; "definition"; "valid"; "requires_confirmation"; "warnings"; "error"] (fun get =>
    request ← decode_OperationRequest strict (get "request"); definition ← decode_OperationDefinition strict (get "definition");
    valid ← to_bool (get "valid"); requires_confirmation ← to_bool (get "requires_confirmation");
    _ ← to_slice to_string (get "warnings"); err ← to_pointer (decode_Problem strict) (get "error");
    Some {| BP_Request := request; BP_Definition := definition; BP_Valid := valid; BP_RequiresConfirmation := requires_confirmation;
            BP_Error := err |}).
Definition encode_BrokerPlan (p : BrokerPlan) : json :=
  of_struct ([("request", encode_OperationRequest (BP_Request p)); ("definition", encode_OperationDefinition (BP_Definition p));
    ("valid", JBool (BP_Valid p)); ("requires_confirmation", JBool (BP_RequiresConfirmation p))]
    ++ optional_member "error" encode_Problem (BP_Error p)).

(** ** Results and grants *)

Definition OperationResponse_fields : list string :=
  ["request_id"; "action"; "status"; "risk"; "started_at"; "finished_at"; "audit_id"; "result"; "error"].
Definition decode_OperationResponse (strict : bool) : decoder OperationResponse :=
  to_struct strict OperationResponse_fields (fun get =>
    request_id ← to_string (get "request_id"); action ← to_string (get "action"); status ← to_string (get "status");
    risk ← to_string (get "risk"); started_at ← to_instant (get "started_at"); finished_at ← to_instant (get "finished_at");
    audit_id ← to_string (get "audit_id"); result ← to_dict (get "result"); err ← to_pointer (decode_Problem strict) (get "error");
    Some {| Resp_RequestID := request_id; Resp_Action := action; Resp_Status := status; Resp_Risk := risk; Resp_StartedAt := started_at;
            Resp_FinishedAt := finished_at; Resp_AuditID := audit_id; Resp_Result := result; Resp_Error := err |}).
(** A result without entries is left out; [None] where a value has no text. *)
Definition encode_result (result : option dict) : option (list (string * json)) :=
  match result with
  | Some m => if bool_decide (m = ∅) then Some [] else v ← dict_json m; Some [("result", v)]
  | None => Some []
  end.
Definition encode_OperationResponse (r : OperationResponse) : option json :=
  if marshals (Resp_StartedAt r) && marshals (Resp_FinishedAt r) then
    result ← encode_result (Resp_Result r);
    Some (of_struct ([("request_id", of_string (Resp_RequestID r)); ("action", of_string (Resp_Action r));
      ("status", of_string (Resp_Status r)); ("risk", of_string (Resp_Risk r)); ("started_at", of_instant (Resp_StartedAt r));
      ("finished_at", of_instant (Resp_FinishedAt r)); ("audit_id", of_string (Resp_AuditID r))]
      ++ result ++ optional_member "error" encode_Problem (Resp_Error r)))
  else None.

Definition decode_GrantResponse (strict : bool) : decoder GrantResponse :=
  to_struct strict ["grant"; "token"] (fun get =>
    grant ← decode_ConfirmationGrant strict (get "grant"); token ← to_string (get "token");
    Some {| GR_Grant := grant; GR_Token := token |}).
Definition encode_GrantResponse (g : GrantResponse) : option json :=
  if grant_marshals (GR_Grant g) then
    Some (of_struct [("grant", encode_ConfirmationGrant (GR_Grant g)); ("token", of_string (GR_Token g))])
  else None.

(** ** Bodies *)

(** The payloads of the broker; maps are written in the order of their keys. *)
Definition body_json (x : body) : option json :=
  match x with
  | JSONHealth => Some (of_struct [("service", of_string "qcored"); ("status", of_string "ok"); ("version", of_string version)])
  | JSONOperations l => Some (of_struct [("operations", of_slice encode_OperationDefinition l)])
  | JSONProblem p => if marshals clock then Some (of_struct [("error", encode_Problem p); ("time", of_instant clock)]) else None
  | JSONPlan plan => Some (encode_BrokerPlan plan)
  | JSONGrant grant => encode_GrantResponse grant
  | JSONOperation response => encode_OperationResponse response
  | PlainUnmatched _ => None
  end.
(** [Encoder.Encode] ends with a newline; after an error it has written nothing. *)
Definition encoded_line (v : option json) : bytes := match v with Some v => marshal v ++ [chr 10] | None => [] end.
Definition answer_bytes (x : body) : bytes :=
  match x with
  | PlainUnmatched u => page u
  | _ => encoded_line (body_json x)
  end.

(** [json.Unmarshal]: one value and white space. *)
Definition unmarshal {A} (d : decoder A) (data : bytes) : option A :=
  match parse data with
  | Parsed v rest => if bool_decide (skip_space rest = []) then d [v] else None
  | _ => None
  end.

(** The decoders of the calls: [map[string]any] for [Health], a struct around the list for [Catalog]. *)
Definition read_health : decoder () := fun vs => _ ← to_dict vs; Some ().
Definition read_operations : decoder (list OperationDefinition) :=
  to_struct false ["operations"] (fun get => to_slice (decode_OperationDefinition false) (get "operations")).

(** Messages as they arrive. *)
Definition spoken_problem (p : Problem) : Problem :=
  {| Problem_Code := Problem_Code p; Problem_Message := Text (scrub (message (Problem_Message p))) [] |}.
Definition spoken_plan (p : BrokerPlan) : BrokerPlan :=
  {| BP_Request := BP_Request p; BP_Definition := BP_Definition p; BP_Valid := BP_Valid p;
     BP_RequiresConfirmation := BP_RequiresConfirmation p; BP_Error := spoken_problem <$> BP_Error p |}.
Definition spoken_response (r : OperationResponse) : OperationResponse :=
  {| Resp_RequestID := Resp_RequestID r; Resp_Action := Resp_Action r; Resp_Status := Resp_Status r; Resp_Risk := Resp_Risk r;
     Resp_StartedAt := Resp_StartedAt r; Resp_FinishedAt := Resp_FinishedAt r; Resp_AuditID := Resp_AuditID r;
     Resp_Result := Resp_Result r; Resp_Error := spoken_problem <$> Resp_Error r |}.

(** ** Reading what was written *)

#[local] Hint Rewrite to_string_of to_string_optional to_bool_of to_slice_strings decode_encode_request decode_encode_actor : wire.

Lemma to_pointer_optional {A B} (d : decoder A) (f : B -> json) (g : B -> A) (b : option B) :
  (forall b, d [f b] = Some (g b)) -> (forall b, f b <> JNull) ->
  to_pointer d (match b with Some b => [f b] | None => [] end) = Some (g <$> b).
Proof.
  intros Hd Hn. destruct b as [b|]; [|done]. unfold to_pointer, since_null. cbn [mapM mbind option_bind fold_left app].
  rewrite Hd. cbn. specialize (Hn b). destruct (f b) eqn:E; [done|..]; rewrite <-E, Hd; done.
Qed.
Lemma decode_encode_problem strict p : decode_Problem strict [encode_Problem p] = Some (spoken_problem (scrub_problem p)).
Proof. unfold decode_Problem, encode_Problem. decode_fields. by autorewrite with wire. Qed.
Lemma to_pointer_problem strict p :
  to_pointer (decode_Problem strict) (match p with Some p => [encode_Problem p] | None => [] end) =
  Some (spoken_problem <$> (scrub_problem <$> p)).
Proof. rewrite (to_pointer_optional _ _ _ p (decode_encode_problem strict)) by done. by destruct p. Qed.

Lemma decode_encode_parameter_definition strict p :
  decode_ParameterDefinition strict [encode_ParameterDefinition p] = Some (scrub_parameter_definition p).
Proof.
  unfold decode_ParameterDefinition, encode_ParameterDefinition, scrub_parameter_definition. decode_fields. autorewrite with wire.
  destruct (PD_AllowedValues p) as [[|v l]|]; [done| |done]. cbn [default].
  rewrite (bool_decide_eq_false_2 (v :: l = [])) by done. unfold to_nilable. by rewrite to_slice_strings.
Qed.
Lemma decode_encode_definition strict d : decode_OperationDefinition strict [encode_OperationDefinition d] = Some (scrub_definition d).
Proof.
  unfold decode_OperationDefinition, encode_OperationDefinition, scrub_definition. decode_fields. autorewrite with wire.
  assert (E : to_slice (decode_ParameterDefinition strict)
    (if bool_decide (OD_Parameters d = []) then [] else [of_slice encode_ParameterDefinition (OD_Parameters d)]) =
    Some (scrub_parameter_definition <$> OD_Parameters d)).
  { case_bool_decide as H; [by rewrite H|]. apply to_slice_of. intros p _. apply decode_encode_parameter_definition. }
  by rewrite E.
Qed.
#[local] Hint Rewrite decode_encode_definition to_pointer_problem : wire.

Lemma decode_encode_broker_plan strict p : decode_BrokerPlan strict [encode_BrokerPlan p] = Some (spoken_plan (scrub_broker_plan p)).
Proof. unfold decode_BrokerPlan, encode_BrokerPlan. decode_fields. by autorewrite with wire. Qed.

Lemma decode_encode_grant_response strict g v :
  encode_GrantResponse g = Some v -> decode_GrantResponse strict [v] = Some (scrub_grant_response g).
Proof.
  unfold encode_GrantResponse, grant_marshals. destruct (_ && _) eqn:H; [|done]. intros [= <-]. bool_prop.
  unfold decode_GrantResponse. decode_fields. autorewrite with wire.
  assert (E : decode_ConfirmationGrant strict [encode_ConfirmationGrant (GR_Grant g)] = Some (scrub_grant (GR_Grant g))); [|by rewrite E].
  apply (decode_encode_grant strict {| SG_Grant := GR_Grant g; SG_TokenSHA256 := "" |}).
  destruct H as [[H1 H2] H3]. split; [|split]; by apply marshals_ok.
Qed.

(** The result fits when its integers and its depth do. *)
Definition response_fits (r : OperationResponse) : bool :=
  match Resp_Result r with Some m => any_fits 1 (AMap (Some (map_to_list m))) | None => true end.

Lemma decode_encode_response strict r v : response_fits r = true ->
  encode_OperationResponse r = Some v -> decode_OperationResponse strict [v] = Some (spoken_response (scrub_response r)).
Proof.
  unfold response_fits, encode_OperationResponse, encode_result. destruct (_ && _) eqn:Ht; [|done].
  apply andb_true_iff in Ht as [H1%marshals_ok H2%marshals_ok].
  assert (Hgo : forall result, match Resp_Result r with Some m => if bool_decide (m = ∅) then None else Some m | None => None end = result ->
    forall members, (members = [] /\ result = None \/ exists m w, members = [("result", w)] /\ result = Some m /\ to_dict [w] = Some (Some (scrub_dict m))) ->
    decode_OperationResponse strict [of_struct ([("request_id", of_string (Resp_RequestID r)); ("action", of_string (Resp_Action r));
      ("status", of_string (Resp_Status r)); ("risk", of_string (Resp_Risk r)); ("started_at", of_instant (Resp_StartedAt r));
      ("finished_at", of_instant (Resp_FinishedAt r)); ("audit_id", of_string (Resp_AuditID r))]
      ++ members ++ optional_member "error" encode_Problem (Resp_Error r))] = Some (spoken_response (scrub_response r))).
  { intros result Er members Hm. unfold decode_OperationResponse, spoken_response, scrub_response.
    destruct Hm as [[-> ->]|(m & w & -> & -> & Ew)]; decode_fields; autorewrite with wire; rewrite !to_instant_of by done;
      cbn [mbind option_bind]; [|rewrite Ew; cbn [mbind option_bind]];
      destruct (Resp_Result r) as [m'|]; try (case_bool_decide; simplify_eq/=); try done. }
  destruct (Resp_Result r) as [m|] eqn:Er; intros Hf Hv.
  - case_bool_decide as Hm; cbn [mbind option_bind] in Hv.
    + apply (inj Some) in Hv as <-. apply (Hgo None); [done|by left].
    + destruct (dict_json m) as [w|] eqn:Ew; [|done]. apply (inj Some) in Hv as <-. apply (Hgo (Some m)); [done|]. right. exists m, w.
      split; [done|]. split; [done|]. by apply (to_dict_of m 1).
  - apply (inj Some) in Hv as <-. apply (Hgo None); [done|by left].
Qed.

(** *** What is written is JSON *)

Lemma encode_problem_wf depth p : depth < maxNestingDepth -> well_formed depth (encode_Problem p).
Proof. intros H. apply of_struct_wf; [done|]. each_member. Qed.
Lemma encode_definition_wf depth d : depth + 3 < maxNestingDepth -> well_formed depth (encode_OperationDefinition d).
Proof.
  intros H. apply of_struct_wf; [lia|]. rewrite Forall_app. split; [each_member|]. apply omit_if_wf. apply of_slice_wf; [lia|].
  apply Forall_true. intros p. apply of_struct_wf; [lia|]. rewrite !Forall_app. split; [each_member|].
  split; apply omit_if_wf; [apply of_string_wf|]. apply of_slice_wf; [lia|]. apply Forall_true. intros. apply of_string_wf.
Qed.
Lemma encode_request_wf' depth r : depth + 1 < maxNestingDepth -> well_formed depth (encode_OperationRequest r).
Proof.
  intros H. apply of_struct_wf; [lia|]. rewrite !Forall_app. split; [each_member|].
  split; apply omit_if_wf; [apply of_map_wf; lia|apply of_string_wf].
Qed.
Lemma encode_broker_plan_wf p : well_formed 0 (encode_BrokerPlan p).
Proof.
  apply of_struct_wf; [done|]. rewrite Forall_app. split; [each_member; cbn [snd]|].
  - by apply encode_request_wf'.
  - by apply encode_definition_wf.
  - apply optional_member_wf. intros q. by apply encode_problem_wf.
Qed.
Lemma encode_grant_response_wf g v : encode_GrantResponse g = Some v -> well_formed 0 v.
Proof.
  unfold encode_GrantResponse. destruct (grant_marshals _); [|done]. intros [= <-]. apply of_struct_wf; [done|]. each_member.
  cbn [snd]. apply of_struct_wf; [done|]. each_member. by apply encode_actor_wf.
Qed.
Lemma encode_response_wf r v : response_fits r = true -> encode_OperationResponse r = Some v -> well_formed 0 v.
Proof.
  unfold response_fits, encode_OperationResponse. destruct (_ && _); [|done]. intros Hf Hv.
  destruct (encode_result _) as [members|] eqn:E; [|done]. apply (inj Some) in Hv as <-. apply of_struct_wf; [done|].
  rewrite !Forall_app. split; [each_member|]. split; [|apply optional_member_wf; intros q; by apply encode_problem_wf].
  unfold encode_result in E. destruct (Resp_Result r) as [m|]; [|by injection E as <-].
  case_bool_decide; [by injection E as <-|]. destruct (dict_json m) as [w|] eqn:Ew; [|done]. injection E as <-.
  repeat constructor. by apply (to_dict_of m 1).
Qed.

Lemma unmarshal_line {A} (d : decoder A) v : well_formed 0 v -> unmarshal d (encoded_line (Some v)) = d [v].
Proof. intros H. unfold unmarshal, encoded_line, marshal. by rewrite parse_printed. Qed.

(** *** Refused requests *)

Definition problem_json (p : Problem) : json := of_struct [("error", encode_Problem p); ("time", of_instant clock)].
Lemma problem_values names name v w : resolve names "time" = None -> "error" ∈ names ->
  values_of names ((fun kv => (escape kv.1, kv.2)) <$> [("error", v); ("time", w)]) name = if "error" == name then [v] else [].
Proof.
  intros Ht He. unfold values_of. rewrite !fmap_cons, fmap_nil. cbn [omap list_omap fst snd]. rewrite !unquote_escape.
  change (scrub "error") with "error". change (scrub "time") with "time". rewrite Ht, resolve_own by done.
  destruct (String.eqb_spec "error" name) as [<-|Hne]; [by rewrite decide_True|]. by rewrite decide_False by congruence.
Qed.
Lemma problem_struct {A} names (fields : (string -> list json) -> option A) (result : option A) p :
  resolve names "time" = None -> "error" ∈ names ->
  (forall get, (forall name, get name = if "error" == name then [encode_Problem p] else []) -> fields get = result) ->
  to_struct false names fields [problem_json p] = result.
Proof.
  intros Ht He Hf. unfold to_struct, problem_json, of_struct. cbn [all_members mbind option_bind andb]. rewrite app_nil_r.
  apply Hf. intros name. by apply problem_values.
Qed.
Ltac no_values Hget := rewrite !Hget; compare_names
with compare_names :=
  repeat match goal with |- context [String.eqb ?a ?b] =>
    let r := eval vm_compute in (String.eqb a b) in change (String.eqb a b) with r end; cbn beta iota.

Lemma problem_as_plan p : decode_BrokerPlan false [problem_json p] = Some (spoken_plan (zero_BrokerPlan p)).
Proof.
  apply problem_struct; [done|set_solver|]. intros get Hget. no_values Hget.
  rewrite (to_pointer_problem false (Some p)). reflexivity.
Qed.
Lemma problem_as_response p : decode_OperationResponse false [problem_json p] = Some (spoken_response (zero_response p)).
Proof.
  apply problem_struct; [done|set_solver|]. intros get Hget. no_values Hget.
  rewrite (to_pointer_problem false (Some p)). reflexivity.
Qed.

(** *** Every answer *)

Definition maxBrokerResponseBytes : Z := Z.shiftl 4 20.
(** The clock can be written, the result fits, and the client does not stop reading. *)
Definition body_fits (x : body) : bool :=
  marshals clock && match x with JSONOperation response => response_fits response | _ => true end
  && (Z.of_nat (length (answer_bytes x)) <=? maxBrokerResponseBytes).

(** The client decodes what [Client.v] makes of the value, and nothing where nothing was written. *)
Definition reads {A} (d : decoder A) (output : body -> option A) (spoken : A -> A) : Prop :=
  forall x, body_fits x = true ->
    (forall a, output x = Some a -> unmarshal d (answer_bytes x) = Some (spoken a)) /\
    (body_marshals x = false -> unmarshal d (answer_bytes x) = None).

Lemma response_encoded r : is_Some (encode_OperationResponse r) <-> response_marshals r = true.
Proof.
  unfold encode_OperationResponse, response_marshals, encode_result. destruct (_ && marshals _); [|split; [by intros []|done]].
  destruct (Resp_Result r) as [m|]; [|by cbn; split]. case_bool_decide; [by cbn; split|]. cbn [orb andb].
  rewrite bool_decide_eq_true. destruct (dict_json m); cbn; [by split|split; by intros []].
Qed.
Lemma nothing_written x : body_marshals x = false -> answer_bytes x = [].
Proof.
  destruct x as [| | | |grant|response|]; try done; cbn [body_marshals answer_bytes body_json]; intros H.
  - unfold encode_GrantResponse. by rewrite H.
  - destruct (encode_OperationResponse response) as [v|] eqn:E; [|done].
    by rewrite (proj1 (response_encoded response)) in H by by rewrite E.
Qed.
Lemma reads_intro {A} (d : decoder A) output spoken :
  (forall x a, body_fits x = true -> output x = Some a ->
     exists v, body_json x = Some v /\ well_formed 0 v /\ d [v] = Some (spoken a)) ->
  (forall u, output (PlainUnmatched u) = None) -> reads d output spoken.
Proof.
  intros H Hu x Hx. split.
  - intros a Ha. destruct (H x a Hx Ha) as (v & Hv & Hw & Hd). destruct x; try (by rewrite Hu in Ha);
      unfold answer_bytes; rewrite Hv, unmarshal_line; done.
  - intros ->%nothing_written. done.
Qed.

Lemma reads_health : reads read_health as_health (fun u => u).
Proof.
  apply reads_intro; [|done]. intros [| | | | | |] [] _ Ha; try discriminate Ha. eexists. split; [done|]. split; [|done].
  apply of_struct_wf; [done|]. each_member.
Qed.
Lemma reads_operations : reads read_operations as_operations (fun l => l).
Proof.
  apply reads_intro; [|done]. intros [|l| | | | |] a _ Ha; try discriminate Ha. injection Ha as <-. eexists. split; [done|]. split.
  - apply of_struct_wf; [done|]. each_member. apply of_slice_wf; [done|]. apply Forall_true. intros d. by apply encode_definition_wf.
  - unfold read_operations. decode_fields. apply to_slice_of. intros d _. apply decode_encode_definition.
Qed.
Lemma reads_problem x p : body_fits x = true -> x = JSONProblem p -> body_json x = Some (problem_json p) /\ well_formed 0 (problem_json p).
Proof.
  intros Hx ->. unfold body_fits in Hx. bool_prop. destruct Hx as [[Hc _] _]. cbn [body_json]. rewrite Hc. split; [done|].
  apply of_struct_wf; [done|]. each_member. by apply encode_problem_wf.
Qed.
Lemma reads_plan : reads (decode_BrokerPlan false) as_plan spoken_plan.
Proof.
  apply reads_intro; [|done]. intros [| |p|plan| | |] a Hx Ha; try discriminate Ha; injection Ha as <-.
  - destruct (reads_problem _ p Hx eq_refl) as [E Hw]. eexists. split; [exact E|]. split; [done|]. apply problem_as_plan.
  - eexists. split; [done|]. split; [apply encode_broker_plan_wf|]. apply decode_encode_broker_plan.
Qed.
Lemma reads_response : reads (decode_OperationResponse false) as_response spoken_response.
Proof.
  apply reads_intro; [|done]. intros [| |p| | |response|] a Hx Ha; try discriminate Ha.
  - injection Ha as <-. destruct (reads_problem _ p Hx eq_refl) as [E Hw]. eexists. split; [exact E|]. split; [done|]. apply problem_as_response.
  - cbn [as_response] in Ha. destruct (response_marshals response) eqn:Hm; [|done]. injection Ha as <-.
    unfold body_fits in Hx. bool_prop. destruct Hx as [[_ Hf] _].
    destruct (proj2 (response_encoded response) Hm) as [v E]. exists v. split; [done|].
    split; [by eapply encode_response_wf|by apply decode_encode_response].
Qed.
Lemma reads_grant : reads (decode_GrantResponse false) as_grant (fun g => g).
Proof.
  apply reads_intro; [|done]. intros [| | | |grant| |] a Hx Ha; try discriminate Ha. cbn [as_grant] in Ha.
  destruct (grant_marshals _) eqn:Hm; [|done]. injection Ha as <-. cbn [body_json].
  destruct (encode_GrantResponse grant) as [v|] eqn:E; [|by unfold encode_GrantResponse in E; rewrite Hm in E].
  exists v. split; [done|]. split; [by eapply encode_grant_response_wf|by apply decode_encode_grant_response].
Qed.
End answers.
