(* ===== verification/Routes.v ===== *)
(** * Requests as they arrive

    From method, path, query, headers and body to the handlers of both servers: the pattern tables of [Server.Handler]
    (control/server.go and broker/server.go) and of [inventoryHandler] with the test in front of it (inventory_routes.go), on the
    multiplexer of [Mux.v], with the bodies decoded by [Messages.v]. *)

From S2P Require Import Prelude GoStrings GoTime GoConv Mux Protocol Actors Plans Grants ServiceControl System.
From S2P Require Import Control Broker Client.
From S2P Require Import JsonParse JsonDecode JsonAny Messages.
#[local] Open Scope Z_scope.

(** A request line, the headers the servers read (the first value of each, or nothing) and the body.  [RR_EscapedPath] is
    [URL.EscapedPath()]. *)
Record raw_request := {
  RR_Method : string;
  RR_EscapedPath : string;
  RR_RawQuery : string;
  RR_Authorization : string;
  RR_SessionID : string;
  RR_BrokerToken : string;
  RR_Body : bytes
}.
(** [URL.Path]. *)
Definition RR_Path (raw : raw_request) : string := unescape (RR_EscapedPath raw).

(** A table whose patterns conflict panics while it is built; [tables_register] shows that these do not. *)
Definition mux_table {A} (routes : list (string * A)) : list (pattern * A) := default [] (register routes []).

(** ** The public API *)

(** The handlers behind the patterns, each with the permission that [requirePermission] asks for ([protected] of [Control.v]). *)
Inductive control_endpoint :=
| HandleRoot | HandleHealth | HandleReady | HandleInfo | HandleOperations | HandlePlan | HandleExecute | HandleApprovedExecute
| HandleSystemStatus | HandleServiceStatus | HandleAuditQuery | HandleAuditIntegrity | HandleConfirmation
| HandleComponents | HandleComponent.

Definition control_patterns : list (string * control_endpoint) :=
  [("GET /", HandleRoot);
   ("GET /healthz", HandleHealth);
   ("GET /readyz", HandleReady);
   ("GET /v1/control/info", HandleInfo);
   ("GET /v1/operations", HandleOperations);
   ("POST /v1/operations/plan", HandlePlan);
   ("POST /v1/operations/execute", HandleExecute);
   ("POST /v1/operations/execute-approved", HandleApprovedExecute);
   ("GET /v1/system/status", HandleSystemStatus);
   ("GET /v1/services/{unit}", HandleServiceStatus);
   ("GET /v1/audit", HandleAuditQuery);
   ("GET /v1/audit/integrity", HandleAuditIntegrity);
   ("POST /v1/confirmations", HandleConfirmation)].
Definition inventory_patterns : list (string * control_endpoint) :=
  [("GET /v1/components", HandleComponents); ("GET /v1/components/{id}", HandleComponent)].

(** What a handler reads of the request: the value of its wildcard, the query or the body. *)
Definition control_handler (message : bytes -> text) (limit : Z) (raw : raw_request) (h : control_endpoint) (values : list string) :
    route :=
  let body {A} (d : bool -> decoder A) := control_body message limit (d true) (RR_Body raw) in
  let query name := query_get name (RR_RawQuery raw) in
  let value := default "" (head values) in
  match h with
  | HandleRoot => RouteRoot
  | HandleHealth => RouteHealth
  | HandleReady => RouteReady
  | HandleInfo => RouteInfo
  | HandleOperations => RouteOperations
  | HandlePlan => RoutePlan (body decode_OperationRequest)
  | HandleExecute => RouteExecute (body decode_OperationRequest)
  | HandleApprovedExecute => RouteExecuteApproved (body decode_approvedExecutionRequest)
  | HandleSystemStatus => RouteSystemStatus
  | HandleServiceStatus => RouteServiceStatus value
  | HandleAuditQuery => RouteAudit (query "limit") (query "actor_id") (query "action")
  | HandleAuditIntegrity => RouteAuditIntegrity
  | HandleConfirmation => RouteConfirmations (body decode_confirmationRequest)
  | HandleComponents => RouteComponents
  | HandleComponent => RouteComponent value
  end.

(** [ServeHTTP] of the public API: the inventory has a multiplexer of its own. *)
Definition inventory_path (raw : raw_request) : bool :=
  (RR_Method raw == "GET") && ((RR_Path raw == "/v1/components") || HasPrefix (RR_Path raw) "/v1/components/").
Definition control_route (message : bytes -> text) (limit : Z) (raw : raw_request) : route :=
  match find_handler (mux_table (if inventory_path raw then inventory_patterns else control_patterns))
          (RR_Method raw) (RR_EscapedPath raw) with
  | Served h values => control_handler message limit raw h values
  | Unmatched u => RouteUnmatched u
  end.
Definition control_request (message : bytes -> text) (limit : Z) (raw : raw_request) : Control.http_request :=
  {| HR_Authorization := RR_Authorization raw; HR_SessionID := RR_SessionID raw; HR_Route := control_route message limit raw |}.

(** ** The broker *)

Inductive broker_endpoint := BrokerHealth | BrokerCatalog | BrokerPlan' | BrokerExecute | BrokerConfirm | BrokerExecuteApproved.

Definition broker_patterns : list (string * broker_endpoint) :=
  [("GET /healthz", BrokerHealth);
   ("GET /v1/operations", BrokerCatalog);
   ("POST /v1/plan", BrokerPlan');
   ("POST /v1/execute", BrokerExecute);
   ("POST /v1/confirm", BrokerConfirm);
   ("POST /v1/execute-approved", BrokerExecuteApproved)].
Definition broker_handler (limit : Z) (raw : raw_request) (h : broker_endpoint) : broker_request :=
  let body {A} (d : bool -> decoder A) := broker_body limit (d true) (RR_Body raw) in
  let token := RR_BrokerToken raw in
  match h with
  | BrokerHealth => GetHealth
  | BrokerCatalog => GetOperations token
  | BrokerPlan' => PostPlan token (body decode_OperationRequest)
  | BrokerExecute => PostExecute token (body decode_OperationRequest)
  | BrokerConfirm => PostConfirm token (body decode_confirmationEnvelope)
  | BrokerExecuteApproved => PostExecuteApproved token (body decode_approvedExecutionEnvelope)
  end.
Definition broker_route (limit : Z) (raw : raw_request) : broker_request :=
  match find_handler (mux_table broker_patterns) (RR_Method raw) (RR_EscapedPath raw) with
  | Served h _ => broker_handler limit raw h
  | Unmatched u => Unrouted u
  end.

(** No pattern conflicts with another, so building the tables never panics. *)
Lemma tables_register :
  is_Some (register control_patterns []) /\ is_Some (register inventory_patterns []) /\ is_Some (register broker_patterns []).
Proof. repeat split; vm_compute; by eexists. Qed.

(** ** What is served where

    The handlers by the segments of the path. *)

Definition get_endpoint (segs : list string) : control_endpoint * list string :=
  match segs with
  | [s] => (if s == "healthz" then HandleHealth else if s == "readyz" then HandleReady else HandleRoot, [])
  | [s; t] =>
    (if negb (s == "v1") then HandleRoot else if t == "operations" then HandleOperations
     else if t == "audit" then HandleAuditQuery else HandleRoot, [])
  | [s; t; u] =>
    if negb (s == "v1") then (HandleRoot, [])
    else if (t == "control") && (u == "info") then (HandleInfo, [])
    else if (t == "system") && (u == "status") then (HandleSystemStatus, [])
    else if (t == "audit") && (u == "integrity") then (HandleAuditIntegrity, [])
    else if (t == "services") && (u != "/") then (HandleServiceStatus, [u])
    else (HandleRoot, [])
  | _ => (HandleRoot, [])
  end.
Definition post_endpoint (segs : list string) : option control_endpoint :=
  match segs with
  | [s; t] => if (s == "v1") && (t == "confirmations") then Some HandleConfirmation else None
  | [s; t; u] =>
    if negb ((s == "v1") && (t == "operations")) then None
    else if u == "plan" then Some HandlePlan
    else if u == "execute" then Some HandleExecute
    else if u == "execute-approved" then Some HandleApprovedExecute
    else None
  | _ => None
  end.
Definition component_endpoint (segs : list string) : option (control_endpoint * list string) :=
  match segs with
  | [s; t] => if (s == "v1") && (t == "components") then Some (HandleComponents, []) else None
  | [s; t; u] => if (s == "v1") && (t == "components") && (u != "/") then Some (HandleComponent, [u]) else None
  | _ => None
  end.
Definition broker_get (segs : list string) : option broker_endpoint :=
  match segs with
  | [s] => if s == "healthz" then Some BrokerHealth else None
  | [s; t] => if (s == "v1") && (t == "operations") then Some BrokerCatalog else None
  | _ => None
  end.
Definition broker_post (segs : list string) : option broker_endpoint :=
  match segs with
  | [s; t] =>
    if negb (s == "v1") then None
    else if t == "plan" then Some BrokerPlan'
    else if t == "execute" then Some BrokerExecute
    else if t == "confirm" then Some BrokerConfirm
    else if t == "execute-approved" then Some BrokerExecuteApproved
    else None
  | _ => None
  end.

(** The handler a search found, with the values of its wildcards. *)
Definition handler_of {A} (found : option (pattern * A * list string)) : option (A * list string) :=
  (fun '(_, a, values) => (a, values)) <$> found.

Lemma match_path_cons {A} seg rest (cands : list (list segment * A)) :
  match_path (seg :: rest) cands =
    match match_path rest (after_literal seg cands) with
    | Some found => Some found
    | None =>
      match (if seg == "/" then None else match_path rest (after_wild cands)) with
      | Some (a, values) => Some (a, seg :: values)
      | None => a ← at_multi cands; Some (a, [])
      end
    end.
Proof. done. Qed.

#[local] Arguments String.eqb : simpl never.

(** Search a table at unknown segments, one level at a time: a case for each literal that the segment may be, and one for all others. *)
Ltac literal_cases seg cands :=
  lazymatch cands with
  | nil => idtac
  | cons (cons (Lit ?l) _, _) ?rest =>
    match goal with
    | _ : l <> seg |- _ => literal_cases seg rest
    | _ => destruct (String.eqb_spec l seg) as [<-|?]; [|literal_cases seg rest]
    end
  | cons _ ?rest => literal_cases seg rest
  end.
Ltac compare_segments :=
  repeat match goal with
  | |- context [String.eqb ?a ?b] =>
    let r := eval vm_compute in (String.eqb a b) in lazymatch r with true => idtac | false => idtac end;
    change (String.eqb a b) with r
  | H : ?l <> ?s |- context [String.eqb ?l ?s] => rewrite (proj2 (String.eqb_neq l s) H)
  | H : ?l <> ?s |- context [String.eqb ?s ?l] => rewrite (proj2 (String.eqb_neq s l) (not_eq_sym H))
  end.
Ltac search_level :=
  rewrite match_path_cons;
  match goal with |- context [after_literal ?seg ?cands] =>
    try (is_var seg; literal_cases seg cands);
    match goal with |- context [after_literal ?seg cands] =>
      let E := fresh in
      eassert (E : after_literal seg cands = _) by (cbn; compare_segments; cbn; reflexivity); rewrite E; clear E;
      let w := eval vm_compute in (after_wild cands) in change (after_wild cands) with w;
      let m := eval vm_compute in (at_multi cands) in change (at_multi cands) with m
    end
  end;
  rewrite ?match_path_none.

Ltac search_done :=
  cbn; compare_segments; cbn; repeat match goal with |- context [String.eqb ?s "/"] => destruct (String.eqb s "/"); cbn end;
  repeat match goal with |- context [match ?segs with [] => _ | _ :: _ => _ end] => is_var segs; destruct segs end;
  reflexivity.
Ltac search_table segs :=
  let seg := fresh "seg" in
  first [ search_done | destruct segs as [|seg segs]; [search_done | search_level; search_table segs] ].

Lemma control_get segs : segs <> [] ->
  handler_of (match_path segs (with_method "GET" (mux_table control_patterns))) = Some (get_endpoint segs).
Proof.
  intros Hne. set (table := with_method _ _). vm_compute in table. subst table.
  destruct segs as [|s segs]; [done|]. clear Hne. search_level; search_table segs.
Qed.
Lemma control_post segs :
  handler_of (match_path segs (with_method "POST" (mux_table control_patterns))) = (fun h => (h, [])) <$> post_endpoint segs.
Proof. set (table := with_method _ _). vm_compute in table. subst table. search_table segs. Qed.
Lemma component_get segs :
  handler_of (match_path segs (with_method "GET" (mux_table inventory_patterns))) = component_endpoint segs.
Proof. set (table := with_method _ _). vm_compute in table. subst table. search_table segs. Qed.
Lemma broker_get_found segs :
  handler_of (match_path segs (with_method "GET" (mux_table broker_patterns))) = (fun h => (h, [])) <$> broker_get segs.
Proof. set (table := with_method _ _). vm_compute in table. subst table. search_table segs. Qed.
Lemma broker_post_found segs :
  handler_of (match_path segs (with_method "POST" (mux_table broker_patterns))) = (fun h => (h, [])) <$> broker_post segs.
Proof. set (table := with_method _ _). vm_compute in table. subst table. search_table segs. Qed.

(** ** The routes of the public API *)

Lemma control_rooted : rooted_table (mux_table control_patterns) /\ rooted_table (mux_table inventory_patterns).
Proof. by vm_compute. Qed.

Lemma trailing_slash_unserved segs :
  post_endpoint (segs ++ ["/"]) = None /\ component_endpoint (segs ++ ["/"]) = None /\
  broker_get (segs ++ ["/"]) = None /\ broker_post (segs ++ ["/"]) = None.
Proof.
  destruct segs as [|s [|t [|u [|v segs]]]]; cbn; repeat split; try done; by rewrite ?andb_false_r; repeat case_match.
Qed.

Lemma is_Some_handler {A} (found : option (pattern * A * list string)) : bool_decide (is_Some found) = bool_decide (is_Some (handler_of found)).
Proof. apply bool_decide_ext. unfold handler_of. by rewrite fmap_is_Some. Qed.

Lemma clean_segments path : clean_path path = path -> path_segments path <> [].
Proof.
  intros H. destruct (clean_path_slash path) as [l E]. rewrite H in E. unfold path_segments. rewrite E.
  pose proof (split_byte_nonempty slash l) as Hne. destruct (split_byte slash l) as [|x [|y z]]; done.
Qed.

(** The methods a table knows for a path, given which of [GET] and [POST] it knows. *)
Lemma filter_methods {A} (table : list (pattern * A)) path methods (gets posts : bool) :
  P_Method <$> table.*1 = methods -> forallb (fun m => (m == "GET") || (m == "POST")) methods = true ->
  bool_decide (is_Some (match_path (path_segments path) (with_method "GET" table))) = gets ->
  bool_decide (is_Some (match_path (path_segments path) (with_method "POST" table))) = posts ->
  methods_of table path =
    let found := List.filter (fun m => if m == "GET" then gets else posts) methods in
    if existsb (String.eqb "GET") found then "HEAD" :: found else found.
Proof.
  intros Hm Hall Hg Hp. unfold methods_of. rewrite Hm. clear Hm. cbv zeta.
  assert (E : List.filter (fun m => bool_decide (is_Some (match_path (path_segments path) (with_method m table)))) methods =
    List.filter (fun m => if m == "GET" then gets else posts) methods); [|by rewrite E].
  induction methods as [|m methods IH]; [done|]. cbn [forallb] in Hall. apply andb_true_iff in Hall as [Hm Hall].
  cbn [List.filter]. rewrite (IH Hall).
  destruct (String.eqb_spec m "GET") as [->|_]; [by rewrite Hg|].
  destruct (String.eqb_spec m "POST") as [->|_]; [by rewrite Hp|done].
Qed.

Definition allowed (gets posts : bool) : list string := (if gets then ["GET"; "HEAD"] else []) ++ (if posts then ["POST"] else []).

(** The answer of the public API to a method that a path is not registered for. *)
Lemma control_not_allowed path : clean_path path = path ->
  no_handler (mux_table control_patterns) path =
    Unmatched (MuxNotAllowed (allowed true (bool_decide (is_Some (post_endpoint (path_segments path)))))).
Proof.
  intros Hc. unfold no_handler, matching_methods.
  assert (Hm : forall path, path_segments path <> [] ->
    methods_of (mux_table control_patterns) path =
      let found := List.filter (fun m => if m == "GET" then true else bool_decide (is_Some (post_endpoint (path_segments path))))
        (P_Method <$> (mux_table control_patterns).*1) in
      if existsb (String.eqb "GET") found then "HEAD" :: found else found).
  { intros q Hq. apply filter_methods; [done|by vm_compute| |].
    - rewrite is_Some_handler, control_get by done. by apply bool_decide_eq_true_2.
    - rewrite is_Some_handler, control_post. apply bool_decide_ext. by rewrite fmap_is_Some. }
  rewrite Hm by by apply clean_segments.
  destruct (path_segments_slash path) as [segs Es].
  { rewrite <- Hc. apply clean_path_slash. }
  rewrite Hm by (rewrite Es; by destruct segs). rewrite Es.
  destruct (trailing_slash_unserved segs) as (-> & _). rewrite (bool_decide_eq_false_2 (is_Some None)) by by intros [].
  by destruct (bool_decide (is_Some (post_endpoint _))), (ends_in_slash _); vm_compute.
Qed.

(** The same for the tables without a pattern for all paths. *)
Lemma broker_not_allowed path : clean_path path = path ->
  no_handler (mux_table broker_patterns) path =
    let segs := path_segments path in
    Unmatched match allowed (bool_decide (is_Some (broker_get segs))) (bool_decide (is_Some (broker_post segs))) with
              | [] => MuxNotFound
              | allow => MuxNotAllowed allow
              end.
Proof.
  intros Hc. unfold no_handler, matching_methods.
  assert (Hm : forall path,
    methods_of (mux_table broker_patterns) path =
      let found := List.filter (fun m => if m == "GET" then bool_decide (is_Some (broker_get (path_segments path)))
                                        else bool_decide (is_Some (broker_post (path_segments path))))
        (P_Method <$> (mux_table broker_patterns).*1) in
      if existsb (String.eqb "GET") found then "HEAD" :: found else found).
  { intros q. apply filter_methods; [done|by vm_compute|..];
      [rewrite is_Some_handler, broker_get_found|rewrite is_Some_handler, broker_post_found];
      apply bool_decide_ext; by rewrite fmap_is_Some. }
  rewrite !Hm. destruct (path_segments_slash path) as [segs Es].
  { rewrite <- Hc. apply clean_path_slash. }
  rewrite Es. destruct (trailing_slash_unserved segs) as (_ & _ & -> & ->).
  rewrite (bool_decide_eq_false_2 (is_Some None)) by by intros []. cbv zeta.
  by destruct (bool_decide (is_Some (broker_get _))), (bool_decide (is_Some (broker_post _))), (ends_in_slash _); vm_compute.
Qed.
Lemma inventory_not_found path : clean_path path = path -> component_endpoint (path_segments path) = None ->
  no_handler (mux_table inventory_patterns) path = Unmatched MuxNotFound.
Proof.
  intros Hc Hn. unfold no_handler, matching_methods, methods_of.
  assert (Hm : forall path, component_endpoint (path_segments path) = None ->
    List.filter (fun m => bool_decide (is_Some (match_path (path_segments path) (with_method m (mux_table inventory_patterns)))))
      (P_Method <$> (mux_table inventory_patterns).*1) = []).
  { intros q Hq. change (P_Method <$> (mux_table inventory_patterns).*1) with ["GET"; "GET"].
    cbn [List.filter]. rewrite is_Some_handler, component_get, Hq. done. }
  rewrite Hm by done. destruct (path_segments_slash path) as [segs Es].
  { rewrite <- Hc. apply clean_path_slash. }
  rewrite Hm; [by destruct (ends_in_slash _)|]. rewrite Es. apply trailing_slash_unserved.
Qed.

(** A method other than [GET] and [POST] has no patterns. *)
Lemma with_other_method {A} method (table : list (pattern * A)) :
  forallb (fun p => (P_Method p == "GET") || (P_Method p == "POST")) table.*1 = true -> method <> "GET" -> method <> "POST" ->
  with_method method table = [].
Proof.
  intros H Hg Hp. induction table as [|[p a] table IH]; [done|]. cbn in H. apply andb_true_iff in H as [Hm H].
  change (with_method method ((p, a) :: table)) with
    (match (if P_Method p == method then Some (P_Segments p, (p, a)) else None) with
     | Some x => x :: with_method method table | None => with_method method table end).
  destruct (String.eqb_spec (P_Method p) method) as [E|_]; [|by apply IH].
  rewrite E in Hm. bool_prop. by destruct Hm.
Qed.

(** The handler of a request with a clean path, by its method. *)
Lemma served_by {A} (table : list (pattern * A)) method path (gets posts : option (A * list string)) :
  rooted_table table -> forallb (fun p => (P_Method p == "GET") || (P_Method p == "POST")) table.*1 = true ->
  clean_path path = path ->
  handler_of (match_path (path_segments path) (with_method "GET" table)) = gets ->
  handler_of (match_path (path_segments path) (with_method "POST" table)) = posts ->
  find_handler table method path =
    match (if (method == "GET") || (method == "HEAD") then gets else if method == "POST" then posts else None) with
    | Some (a, values) => Served a values
    | None => no_handler table path
    end.
Proof.
  intros Hr Hm Hc Hg Hp. rewrite find_handler_clean; [|done|done|rewrite <- Hc; apply clean_path_slash].
  unfold match_method_path. cbv zeta.
  rewrite <- Hg, <- Hp. clear Hg Hp. unfold handler_of.
  destruct (String.eqb_spec method "GET") as [->|Hg']; [by destruct (match_path _ _) as [[[p a] v]|]|].
  destruct (String.eqb_spec method "POST") as [->|Hp']; [by destruct (match_path _ (with_method "POST" _)) as [[[p a] v]|]|].
  rewrite (with_other_method method), match_path_none by done.
  by destruct (method == "HEAD"); [destruct (match_path _ _) as [[[p a] v]|]|].
Qed.

(** The route of the public API as a table. *)
Definition route_table (message : bytes -> text) (limit : Z) (raw : raw_request) : route :=
  let segs := path_segments (RR_EscapedPath raw) in
  let serve := fun h => control_handler message limit raw h.1 h.2 in
  if inventory_path raw then
    match component_endpoint segs with Some h => serve h | None => RouteUnmatched MuxNotFound end
  else if (RR_Method raw == "GET") || (RR_Method raw == "HEAD") then serve (get_endpoint segs)
  else
    match (if RR_Method raw == "POST" then post_endpoint segs else None) with
    | Some h => serve (h, [])
    | None => RouteUnmatched (MuxNotAllowed (allowed true (bool_decide (is_Some (post_endpoint segs)))))
    end.

Lemma control_route_clean message limit raw :
  clean_path (RR_EscapedPath raw) = RR_EscapedPath raw -> control_route message limit raw = route_table message limit raw.
Proof.
  intros Hc. unfold control_route, route_table. destruct (inventory_path raw) eqn:Ei.
  - assert (Hg : RR_Method raw = "GET") by (unfold inventory_path in Ei; apply andb_true_iff in Ei as [E%String.eqb_eq _]; exact E).
    rewrite (served_by _ _ _ _ None (proj2 control_rooted) eq_refl Hc (component_get _));
      [|set (table := with_method _ _); vm_compute in table; subst table; by rewrite match_path_none].
    rewrite Hg. rewrite String.eqb_refl. cbn [orb].
    destruct (component_endpoint _) as [[h values]|] eqn:E; [done|]. by rewrite inventory_not_found.
  - rewrite (served_by _ _ _ _ _ (proj1 control_rooted) eq_refl Hc (control_get _ (clean_segments _ Hc)) (control_post _)).
    destruct (_ || _); [by destruct (get_endpoint _)|].
    destruct (RR_Method raw == "POST"); [|by rewrite control_not_allowed].
    destruct (post_endpoint _) as [h|] eqn:E; [done|]. cbn [fmap option_fmap option_map]. rewrite control_not_allowed by done. by rewrite E.
Qed.
Lemma control_route_unclean message limit raw :
  clean_path (RR_EscapedPath raw) <> RR_EscapedPath raw -> exists u, control_route message limit raw = RouteUnmatched u.
Proof.
  intros Hc. unfold control_route.
  edestruct (find_handler_unclean (mux_table (if inventory_path raw then inventory_patterns else control_patterns)))
    as [u ->]; [by destruct (inventory_path raw); vm_compute|exact Hc|by exists u].
Qed.

(** C21 The routes of the public API.  Building the tables of patterns never panics.  A request with a clean path is served
    exactly as the written-out table says: the component inventory by [GET] only, every other read by [GET] and [HEAD] with the root
    answering what no pattern takes, the four [POST] endpoints by [POST], anything else 405 or 404.  A request with a path that is not
    clean reaches no handler, whatever its method. *)
Theorem control_routing message limit raw :
  is_Some (register control_patterns []) /\ is_Some (register inventory_patterns []) /\
  (clean_path (RR_EscapedPath raw) = RR_EscapedPath raw -> control_route message limit raw = route_table message limit raw) /\
  (clean_path (RR_EscapedPath raw) <> RR_EscapedPath raw -> exists u, control_route message limit raw = RouteUnmatched u).
Proof.
  destruct tables_register as (H1 & H2 & _). split; [exact H1|]. split; [exact H2|].
  split; [apply control_route_clean|apply control_route_unclean].
Qed.

(** *** The endpoints that take bodies *)

Definition posted_to (raw : raw_request) (segs : list string) : Prop :=
  RR_Method raw = "POST" /\ clean_path (RR_EscapedPath raw) = RR_EscapedPath raw /\ path_segments (RR_EscapedPath raw) = segs.

Definition reads_only (h : control_endpoint) : bool :=
  match h with HandlePlan | HandleExecute | HandleApprovedExecute | HandleConfirmation => false | _ => true end.
Lemma get_endpoint_reads segs : reads_only (get_endpoint segs).1 = true.
Proof. unfold get_endpoint. by repeat case_match. Qed.
Lemma component_endpoint_reads segs h : component_endpoint segs = Some h -> reads_only h.1 = true.
Proof. unfold component_endpoint. repeat case_match; intros; by simplify_eq. Qed.
Lemma post_endpoint_segments segs h :
  post_endpoint segs = Some h ->
  segs = match h with
         | HandlePlan => ["v1"; "operations"; "plan"]
         | HandleExecute => ["v1"; "operations"; "execute"]
         | HandleApprovedExecute => ["v1"; "operations"; "execute-approved"]
         | _ => ["v1"; "confirmations"]
         end.
Proof.
  unfold post_endpoint. destruct segs as [|s [|t [|u [|]]]]; try done.
  - destruct (String.eqb_spec s "v1") as [->|], (String.eqb_spec t "confirmations") as [->|]; cbn; by intros [= <-].
  - destruct (String.eqb_spec s "v1") as [->|], (String.eqb_spec t "operations") as [->|]; cbn; try done.
    destruct (String.eqb_spec u "plan") as [->|]; [by intros [= <-]|].
    destruct (String.eqb_spec u "execute") as [->|]; [by intros [= <-]|].
    destruct (String.eqb_spec u "execute-approved") as [->|]; by intros [= <-].
Qed.

Lemma control_route_posts message limit raw :
  let body := fun A (d : bool -> decoder A) => control_body message limit (d true) (RR_Body raw) in
  match control_route message limit raw with
  | RoutePlan b => posted_to raw ["v1"; "operations"; "plan"] /\ b = body _ decode_OperationRequest
  | RouteExecute b => posted_to raw ["v1"; "operations"; "execute"] /\ b = body _ decode_OperationRequest
  | RouteExecuteApproved b =>
    posted_to raw ["v1"; "operations"; "execute-approved"] /\ b = body _ decode_approvedExecutionRequest
  | RouteConfirmations b => posted_to raw ["v1"; "confirmations"] /\ b = body _ decode_confirmationRequest
  | _ => True
  end.
Proof.
  intros body. destruct (decide (clean_path (RR_EscapedPath raw) = RR_EscapedPath raw)) as [Hc|Hc];
    [|by destruct (control_route_unclean message limit raw Hc) as [u ->]].
  rewrite control_route_clean by done. unfold route_table.
  assert (Hread : forall h values, reads_only h = true -> match control_handler message limit raw h values with
    | RoutePlan _ | RouteExecute _ | RouteExecuteApproved _ | RouteConfirmations _ => False | _ => True end) by by intros [].
  destruct (inventory_path raw).
  { destruct (component_endpoint _) as [h|] eqn:E; [|done]. apply component_endpoint_reads in E.
    specialize (Hread h.1 h.2 E). by destruct (control_handler _ _ _ _ _). }
  destruct (_ || _).
  { specialize (Hread _ (get_endpoint (path_segments (RR_EscapedPath raw))).2 (get_endpoint_reads (path_segments (RR_EscapedPath raw)))).
    by destruct (control_handler _ _ _ _ _). }
  destruct (String.eqb_spec (RR_Method raw) "POST") as [Hm|]; [|done].
  destruct (post_endpoint _) as [h|] eqn:E; [|done]. apply post_endpoint_segments in E.
  destruct h; try exact I; split; try reflexivity; by split.
Qed.

(** A body that is, within the limit and up to white space, one JSON object with known members, decoded to [a]. *)
Definition clean_body {A} (limit : Z) (names : list string) (d : decoder A) (body : bytes) (a : A) : Prop :=
  exists members rest, Z.of_nat (length body) <= limit /\ parse body = Parsed (JObject members) rest /\ skip_space rest = [] /\
    (forall key value, (key, value) ∈ members -> resolve names (unquote key) <> None) /\ d [JObject members] = Some a.

Lemma control_body_clean {A} message limit names (fields : (string -> list json) -> option A) body a null :
  to_struct true names fields [JNull] = Some null -> a <> null ->
  control_body message limit (to_struct true names fields) body = Decoded a ->
  clean_body limit names (to_struct true names fields) body a.
Proof.
  intros Hnull Hne H. unfold control_body in H.
  destruct (read_body limit (to_struct true names fields) body) as [| | |b] eqn:E; try discriminate H. injection H as ->.
  apply read_body_value in E as (Hlen & v & rest & Hp & Hr & Hd).
  destruct (to_struct_strict _ _ _ _ Hd) as [->|(members & -> & Hm)]; [congruence|].
  exists members, rest. split; [done|]. split; [done|]. split; [done|]. by split.
Qed.

Section wire.
Context {H B : Type} `{!Host H} `{!BrokerAPI B}.

(** C5 From the wire to the broker.  Whatever requests arrive, in whatever order they are worked on, the broker is asked for an
    execution only by a [POST] to the clean path /v1/operations/execute-approved whose body, within the limit, is one JSON object that
    names nothing but a plan and a confirmation token: the plan that was then taken from the cache and the token that is passed on.
    Confirmations are asked for by [POST] to /v1/confirmations in the same way. *)
Theorem mutations_on_the_wire message limit srv raws (s : control_state H B) schedule before i o after :
  PL_History (run_pool schedule (start_pool srv (control_request message limit <$> raws) s)) = before ++ (i, o) :: after ->
  match o with
  | SawExecuteApproved plan confirmation _ _ =>
    exists raw envelope t, raws !! i = Some raw /\ posted_to raw ["v1"; "operations"; "execute-approved"] /\
      clean_body limit ["plan_id"; "confirmation_token"] (decode_approvedExecutionRequest true) (RR_Body raw) envelope /\
      (i, SawGet (TrimSpace (AX_PlanID envelope)) t (Some plan)) ∈ before /\ confirmation = TrimSpace (AX_ConfirmationToken envelope)
  | SawConfirm plan _ _ =>
    exists raw envelope t, raws !! i = Some raw /\ posted_to raw ["v1"; "confirmations"] /\
      clean_body limit ["plan_id"] (decode_confirmationRequest true) (RR_Body raw) envelope /\
      (i, SawGet (TrimSpace (CR_PlanID envelope)) t (Some plan)) ∈ before
  | _ => True
  end.
Proof.
  intros E. pose proof (event_path srv _ s schedule before i o after E) as (request & q & Hr & Hp).
  rewrite list_lookup_fmap in Hr. apply fmap_Some in Hr as (raw & Hraw & ->).
  pose proof (control_route_posts message limit raw) as Hroute. cbv zeta in Hroute.
  assert (Hlast : o ∈ thread_history i before ++ [o]) by (apply elem_of_app; right; by left).
  assert (Hget : forall id t plan l, SawGet id t (Some plan) <> o ->
    thread_history i before ++ [o] = SawRead :: SawGet id t (Some plan) :: l -> (i, SawGet id t (Some plan)) ∈ before).
  { intros id t plan l Hne Htr. apply elem_of_thread_history.
    assert (Hin : SawGet id t (Some plan) ∈ thread_history i before ++ [o]) by (rewrite Htr; right; by left).
    apply elem_of_app in Hin as [Hin|Hin]; [exact Hin|]. by apply list_elem_of_singleton in Hin. }
  destruct o; try exact I.
  - destruct (request_confirm _ _ _ _ _ _ _ _ Hp Hlast) as (cx & b & tr & Hb & _ & Htr & shape).
    cbn [HR_Route control_request] in Hb. rewrite Hb in Hroute. destruct Hroute as [Hposted ->].
    destruct shape as (envelope & t & g & rest & Hd & Hne & _ & Hshape). rewrite Hshape in Htr.
    exists raw, envelope, t. split; [done|]. split; [done|]. split; [|by eapply Hget].
    eapply control_body_clean; [reflexivity| |exact Hd]. by intros ->.
  - destruct (request_execute _ _ _ _ _ _ _ _ _ Hp Hlast) as (cx & b & tr & Hb & _ & Htr & shape).
    cbn [HR_Route control_request] in Hb. rewrite Hb in Hroute. destruct Hroute as [Hposted ->].
    destruct shape as (envelope & t & attempt & rest & Hd & Hne & -> & _ & _ & Hshape & _). rewrite Hshape in Htr.
    exists raw, envelope, t. split; [done|]. split; [done|]. split; [|split; [|done]].
    + eapply control_body_clean; [reflexivity| |exact Hd]. by intros ->.
    + by eapply Hget.
Qed.
End wire.

(** ** The routes of the broker *)

Definition broker_table (limit : Z) (raw : raw_request) : broker_request :=
  let segs := path_segments (RR_EscapedPath raw) in
  match (if (RR_Method raw == "GET") || (RR_Method raw == "HEAD") then broker_get segs
         else if RR_Method raw == "POST" then broker_post segs else None) with
  | Some h => broker_handler limit raw h
  | None =>
    Unrouted match allowed (bool_decide (is_Some (broker_get segs))) (bool_decide (is_Some (broker_post segs))) with
             | [] => MuxNotFound
             | allow => MuxNotAllowed allow
             end
  end.

Lemma broker_route_clean limit raw :
  clean_path (RR_EscapedPath raw) = RR_EscapedPath raw -> broker_route limit raw = broker_table limit raw.
Proof.
  intros Hc. unfold broker_route, broker_table.
  rewrite (served_by (mux_table broker_patterns) _ _ _ _ eq_refl eq_refl Hc (broker_get_found _) (broker_post_found _)).
  rewrite broker_not_allowed by done. cbv zeta.
  destruct (_ || _); [by destruct (broker_get _)|]. destruct (RR_Method raw == "POST"); [by destruct (broker_post _)|done].
Qed.
Lemma broker_route_unclean limit raw :
  clean_path (RR_EscapedPath raw) <> RR_EscapedPath raw -> exists u, broker_route limit raw = Unrouted u.
Proof.
  intros Hc. unfold broker_route.
  edestruct (find_handler_unclean (mux_table broker_patterns)) as [u ->]; [by vm_compute|exact Hc|by exists u].
Qed.

(** C14 The routes of the broker.  Building the table never panics; a clean path is served exactly as the written-out table says and any
    other reaches no handler.  Without the shared token a request changes neither grants nor machine and learns nothing: it gets the
    health answer, 401, or an answer of the multiplexer itself. *)
Theorem broker_routing {S} `{!System S} limit raw srv env (st : broker_state S) :
  is_Some (register broker_patterns []) /\
  (clean_path (RR_EscapedPath raw) = RR_EscapedPath raw -> broker_route limit raw = broker_table limit raw) /\
  (clean_path (RR_EscapedPath raw) <> RR_EscapedPath raw -> exists u, broker_route limit raw = Unrouted u) /\
  (TrimSpace (RR_BrokerToken raw) <> Srv_Token srv ->
   serve srv env (broker_route limit raw) st =
   Answered match broker_route limit raw with
            | GetHealth => Broker.writeJSON 200 Broker.JSONHealth
            | Unrouted u => Broker.writeJSON (unmatched_status u) (Broker.PlainUnmatched u)
            | _ => Broker.writeProblem 401 "unauthorized" "valid broker token required"
            end [] st).
Proof.
  split; [apply tables_register|]. split; [apply broker_route_clean|]. split; [apply broker_route_unclean|].
  intros Ht. destruct (broker_token_required srv env (broker_route limit raw) st) as (_ & Hrefused & Hpublic).
  assert (Htoken : forall header, request_token (broker_route limit raw) = Some header -> header = RR_BrokerToken raw).
  { intros header. unfold broker_route. destruct (find_handler _ _ _) as [h values|u]; [|done]. destruct h; cbn; congruence. }
  destruct (request_token (broker_route limit raw)) as [header|] eqn:E.
  - rewrite (Htoken header eq_refl) in *. rewrite (Hrefused _ eq_refl Ht). by destruct (broker_route limit raw).
  - rewrite (Hpublic eq_refl). by destruct (broker_route limit raw).
Qed.

(** ** What the client sends *)

(** [Client.do]: the request of a call. *)
Definition client_raw (method path token : string) (body : bytes) : raw_request :=
  {| RR_Method := method; RR_EscapedPath := path; RR_RawQuery := ""; RR_Authorization := ""; RR_SessionID := "";
     RR_BrokerToken := token; RR_Body := body |}.

(** The socket carries messages faithfully.  Each call of the client reaches its own handler, and whatever the client marshals
    the broker decodes, strictly and under its own limit, to the same message with invalid UTF-8 replaced; a message longer than the limit
    is refused, never cut.  So the requests that the broker sees are those of the model of the client. *)
Lemma client_requests_arrive limit token :
  broker_route limit (client_raw "GET" "/healthz" "" []) = GetHealth /\
  broker_route limit (client_raw "GET" "/v1/operations" token []) = GetOperations token /\
  (forall r, let sent := marshal (encode_OperationRequest r) in
   let body := sent_body (scrub_request r) (limit <? Z.of_nat (length sent)) in
   broker_route limit (client_raw "POST" "/v1/plan" token sent) = PostPlan token body /\
   broker_route limit (client_raw "POST" "/v1/execute" token sent) = PostExecute token body) /\
  (forall plan credential, plan_marshals plan = true ->
   let sent := marshal (encode_confirmationEnvelope {| CE_Plan := plan; CE_ActorToken := credential |}) in
   broker_route limit (client_raw "POST" "/v1/confirm" token sent) =
     PostConfirm token (sent_body {| CE_Plan := scrub_plan plan; CE_ActorToken := scrub credential |}
       (limit <? Z.of_nat (length sent)))) /\
  (forall plan confirmation credential, plan_marshals plan = true ->
   let sent := marshal (encode_approvedExecutionEnvelope
     {| AE_Plan := plan; AE_ConfirmationToken := confirmation; AE_ActorToken := credential |}) in
   broker_route limit (client_raw "POST" "/v1/execute-approved" token sent) =
     PostExecuteApproved token
       (sent_body {| AE_Plan := scrub_plan plan; AE_ConfirmationToken := scrub confirmation; AE_ActorToken := scrub credential |}
         (limit <? Z.of_nat (length sent)))).
Proof.
  split; [by rewrite broker_route_clean|]. split; [by rewrite broker_route_clean|].
  split; [|split]; intros; rewrite ?broker_route_clean by done.
  - split.
    + change (broker_table limit (client_raw "POST" "/v1/plan" token sent)) with
        (PostPlan token (broker_body limit (decode_OperationRequest true) sent)). unfold body. f_equal. apply socket_request.
    + change (broker_table limit (client_raw "POST" "/v1/execute" token sent)) with
        (PostExecute token (broker_body limit (decode_OperationRequest true) sent)). unfold body. f_equal. apply socket_request.
  - change (broker_table limit (client_raw "POST" "/v1/confirm" token sent)) with
      (PostConfirm token (broker_body limit (decode_confirmationEnvelope true) sent)). f_equal. by apply socket_confirmation.
  - change (broker_table limit (client_raw "POST" "/v1/execute-approved" token sent)) with
      (PostExecuteApproved token (broker_body limit (decode_approvedExecutionEnvelope true) sent)). f_equal. by apply socket_execution.
Qed.

(** ** Concrete requests *)

Definition decoder_message (body : bytes) : text := Text "invalid character" [].
Definition example_raw (method path : string) (body : bytes) : raw_request :=
  {| RR_Method := method; RR_EscapedPath := path; RR_RawQuery := "limit=7"; RR_Authorization := "Bearer alice-token";
     RR_SessionID := "session-1"; RR_BrokerToken := ""; RR_Body := body |}.

Example route_examples :
  control_route decoder_message 64 (example_raw "GET" "/v1/audit" []) = RouteAudit "7" "" "" /\
  control_route decoder_message 64 (example_raw "HEAD" "/v1/services/a%2Fb" []) = RouteServiceStatus "a/b" /\
  control_route decoder_message 64 (example_raw "HEAD" "/v1/components" []) = RouteRoot /\
  control_route decoder_message 64 (example_raw "GET" "/v1/components/x/y" []) = RouteUnmatched MuxNotFound /\
  control_route decoder_message 64 (example_raw "DELETE" "/v1/confirmations" []) =
    RouteUnmatched (MuxNotAllowed ["GET"; "HEAD"; "POST"]) /\
  control_route decoder_message 64 (example_raw "GET" "/v1//audit" []) = RouteUnmatched (MuxRedirect "/v1/audit") /\
  control_route decoder_message 64 (example_raw "POST" "/v1/operations/plan" (to_bytes " null ")) =
    RoutePlan (Decoded {| Req_RequestID := ""; Req_Action := ""; Req_Actor := ""; Req_Parameters := ∅; Req_Confirmation := "" |}) /\
  control_route decoder_message 4 (example_raw "POST" "/v1/operations/plan" (to_bytes " null ")) = RoutePlan TooLarge.
Proof. by vm_compute. Qed.

Lemma control_routing_witness :
  control_route decoder_message 64 (example_raw "GET" "/v1/audit" []) =
    route_table decoder_message 64 (example_raw "GET" "/v1/audit" []) /\
  exists u, control_route decoder_message 64 (example_raw "POST" "/v1/operations//execute-approved" []) = RouteUnmatched u.
Proof.
  split.
  - destruct (control_routing decoder_message 64 (example_raw "GET" "/v1/audit" [])) as (_ & _ & H & _). apply H. reflexivity.
  - destruct (control_routing decoder_message 64 (example_raw "POST" "/v1/operations//execute-approved" [])) as (_ & _ & _ & H).
    apply H. vm_compute. discriminate.
Defined.

Lemma client_requests_arrive_example :
  plan_marshals example_plan = true /\
  exists request, broker_route 65536 (client_raw "POST" "/v1/confirm" "token"
    (marshal (encode_confirmationEnvelope {| CE_Plan := example_plan; CE_ActorToken := "bob" |}))) = PostConfirm "token" request.
Proof.
  split; [reflexivity|]. destruct (client_requests_arrive 65536 "token") as (_ & _ & _ & H & _).
  eexists. apply (H example_plan "bob" eq_refl).
Defined.

Lemma broker_routing_witness :
  let raw := client_raw "POST" "/v1/execute-approved" "guess" [] in
  let st := broker_start "/var/lib/grants.json" (5 * Minute) FileMissing (idle_machine "inactive" ActionsWork later) in
  serve example_server example_env (broker_route 64 raw) st =
    Answered (Broker.writeProblem 401 "unauthorized" "valid broker token required") [] st /\
  exists u, broker_route 64 (client_raw "POST" "/v1//execute-approved" "broker-secret" []) = Unrouted u.
Proof.
  cbv zeta. set (st := broker_start _ _ _ _). split.
  - destruct (broker_routing 64 (client_raw "POST" "/v1/execute-approved" "guess" []) example_server example_env st) as (_ & _ & _ & H).
    rewrite H; [reflexivity|]. vm_compute. discriminate.
  - destruct (broker_routing 64 (client_raw "POST" "/v1//execute-approved" "broker-secret" []) example_server example_env st)
      as (_ & _ & H & _). apply H. vm_compute. discriminate.
Defined.

(** A plan and its execution, as in [example_requests]. *)
Definition example_raws : list raw_request :=
  [example_raw "POST" "/v1/operations/plan" (marshal (encode_OperationRequest (BP_Request example_broker_plan)));
   example_raw "POST" "/v1/operations/execute-approved"
     (marshal (of_struct [("plan_id", of_string "plan-02"); ("confirmation_token", of_string "token")]))].
#[local] Existing Instances counting_scanner counting_host agreeing_broker.
Notation wire_pool :=
  (run_pool example_schedule (start_pool example_control (control_request decoder_message 65536 <$> example_raws) example_control_state)).

Lemma mutations_on_the_wire_witness :
  exists i raw envelope, example_raws !! i = Some raw /\ posted_to raw ["v1"; "operations"; "execute-approved"] /\
    clean_body 65536 ["plan_id"; "confirmation_token"] (decode_approvedExecutionRequest true) (RR_Body raw) envelope.
Proof.
  assert (H : existsb is_execution (PL_History wire_pool) = true) by (vm_compute; reflexivity).
  apply existsb_elem in H as ([i o] & Hin & Ho). apply list_elem_of_split in Hin as (before & after & Heq).
  pose proof (mutations_on_the_wire decoder_message 65536 example_control example_raws example_control_state example_schedule
    before i o after Heq) as Hw.
  destruct o; try discriminate Ho. destruct Hw as (raw & envelope & t & Hr & Hp & Hb & _). exists i, raw, envelope.
  split; [exact Hr|]. split; [exact Hp|exact Hb].
Defined.
