(* ===== verification/Wire.v ===== *)
(** * The client on bytes

    [Client.do] of broker/client.go from the marshalled request to the unmarshalled answer: the broker routes and decodes the bytes of
    the request ([Routes.v]), and the client decodes the bytes of the answer ([Answers.v]).  The client on values of [Client.v] is an
    abstraction of it. *)

From S2P Require Import Prelude GoStrings GoTime Mux Protocol Actors Plans Grants ServiceControl System Registry Mutations.
From S2P Require Import Control Broker Client.
From S2P Require Import JsonParse JsonDecode JsonAny Messages Answers Routes.
#[local] Open Scope Z_scope.

Section wire.
Context {S : Type} `{!System S}.
(** As in [Answers.v]; the limit is that of the broker for bodies. *)
Context (message : text -> string) (page : unmatched -> bytes) (version : string) (clock : time) (limit : Z).
Implicit Types b : client_state S.

#[local] Notation answer_bytes := (answer_bytes message page version clock).

(** [do]: [encoded] says whether the input can be marshalled. *)
Definition wire_do {A} (method path : string) (encoded : bool) (input : option json) (authenticated : bool) (accepted : list Z)
    (d : decoder A) b : result A * client_state S :=
  if negb encoded then (fail "encode broker request", b)
  else
    let sent := match input with Some v => marshal v | None => [] end in
    let raw := client_raw method path (if authenticated then CL_Token b else "") sent in
    let m := next_moment b in
    let b := others_first b in
    if negb (MO_Sent m) then (fail "broker request", b)
    else
      let b' := broker_round true b (BServe (MO_Env m) (broker_route limit raw)) in
      match (broker_step (CL_Server b) (BServe (MO_Env m) (broker_route limit raw)) (CL_Broker b)).1 with
      | None => (fail "broker request", b')
      | Some response =>
        let data := answer_bytes (HTTP_Body response) in
        if negb (MO_Received m) then (fail "read broker response", b')
        else if maxBrokerResponseBytes <? Z.of_nat (length data) then
          (Err (errorf "broker response exceeds %d bytes" [decimal (Z.to_N maxBrokerResponseBytes)]), b')
        else if negb (containsStatus accepted (HTTP_Status response)) then
          (Err (errorf "broker returned HTTP %d" [decimal (Z.to_N (HTTP_Status response))]), b')
        else
          match unmarshal d data with
          | Some a => (Ok a, b')
          | None => (fail "decode broker response", b')
          end
      end.

Definition wire_Health b : option text * client_state S :=
  let '(r, b) := wire_do "GET" "/healthz" true None false [200] read_health b in
  (match r with Ok _ => None | Err e => Some e end, b).
Definition wire_Catalog b : result (list OperationDefinition) * client_state S :=
  wire_do "GET" "/v1/operations" true None true [200] read_operations b.
Definition wire_Plan (request : OperationRequest) b : result BrokerPlan * client_state S :=
  wire_do "POST" "/v1/plan" true (Some (encode_OperationRequest request)) true [200; 400] (decode_BrokerPlan false) b.
Definition wire_Execute (request : OperationRequest) b : result OperationResponse * client_state S :=
  wire_do "POST" "/v1/execute" true (Some (encode_OperationRequest request)) true [200; 400; 500] (decode_OperationResponse false) b.
Definition wire_Confirm (plan : OperationPlan) (actorToken : string) b : result GrantResponse * client_state S :=
  wire_do "POST" "/v1/confirm" (plan_marshals plan)
    (Some (encode_confirmationEnvelope {| CE_Plan := plan; CE_ActorToken := actorToken |})) true [201] (decode_GrantResponse false) b.
Definition wire_ExecuteApproved (plan : OperationPlan) (confirmationToken actorToken : string) b :
    result OperationResponse * client_state S :=
  wire_do "POST" "/v1/execute-approved" (plan_marshals plan)
    (Some (encode_approvedExecutionEnvelope
      {| AE_Plan := plan; AE_ConfirmationToken := confirmationToken; AE_ActorToken := actorToken |})) true [200; 400; 500]
    (decode_OperationResponse false) b.

(** The client on bytes is a [Client] too. *)
Definition wire_api : BrokerAPI (client_state S) := {|
  api_Health := wire_Health;
  api_Catalog := wire_Catalog;
  api_Plan := wire_Plan;
  api_Execute := wire_Execute;
  api_Approval := true;
  api_Confirm := wire_Confirm;
  api_ExecuteApproved := wire_ExecuteApproved
|}.

(** ** The requests of the client on bytes *)

Lemma wire_do_calls {A} method path (encoded : bool) (input : option json) (authenticated : bool) accepted (d : decoder A) (P : broker_request -> Prop) b :
  (encoded = true -> P (broker_route limit (client_raw method path (if authenticated then CL_Token b else "")
     match input with Some v => marshal v | None => [] end))) ->
  calls P b (wire_do method path encoded input authenticated accepted d b).2.
Proof.
  intros HP. unfold wire_do. destruct encoded; cbn [negb]; [|constructor]. cbv zeta.
  destruct (MO_Sent _); cbn [negb]; [|constructor]. specialize (HP eq_refl).
  destruct (broker_step _ _ _).1 as [response|]; [|by constructor]. destruct (MO_Received _); cbn [negb]; [|by constructor].
  destruct (_ <? _); [by constructor|]. destruct (containsStatus _ _); cbn [negb]; [|by constructor]. destruct (unmarshal _ _); by constructor.
Qed.

(** Whatever its length and whatever becomes of the answer, the request that the broker sees is the one of the model on values. *)
Definition wire_socket : SocketClient S.
Proof.
  refine {| socket_api := wire_api |}.
  - intros b. cbn [api_Health wire_api]. unfold wire_Health.
    pose proof (wire_do_calls "GET" "/healthz" true None false [200] read_health (eq GetHealth) b) as H.
    destruct (wire_do _ _ _ _ _ _ _ b). apply H. intros _.
    destruct (client_requests_arrive limit "") as [E _]. exact (eq_sym E).
  - intros b. destruct (client_requests_arrive limit (CL_Token b)) as (_ & E & _). apply wire_do_calls. intros _. exact (eq_sym E).
  - intros request b. destruct (client_requests_arrive limit (CL_Token b)) as (_ & _ & Hreq & _).
    apply wire_do_calls. intros _. eexists. exact (proj1 (Hreq request)).
  - intros request b. destruct (client_requests_arrive limit (CL_Token b)) as (_ & _ & Hreq & _).
    apply wire_do_calls. intros _. eexists. exact (proj2 (Hreq request)).
  - intros plan credential b. destruct (client_requests_arrive limit (CL_Token b)) as (_ & _ & _ & Hconf & _).
    apply wire_do_calls. intros Hm. split; [exact Hm|]. eexists. exact (Hconf plan credential Hm).
  - intros plan confirmation credential b. destruct (client_requests_arrive limit (CL_Token b)) as (_ & _ & _ & _ & Hexec).
    apply wire_do_calls. intros Hm. split; [exact Hm|]. eexists. exact (Hexec plan confirmation credential Hm).
Defined.

(** ** It refines the client on values *)

(** The moment tells the truth about the length of the request, and the answer fits. *)
Definition length_known (input : json) b : Prop :=
  MO_TooLong (next_moment b) = (limit <? Z.of_nat (length (marshal input))).
Definition answer_fits (request : bool -> broker_request) b : bool :=
  match (broker_step (CL_Server (others_first b)) (BServe (MO_Env (next_moment b)) (request (MO_TooLong (next_moment b))))
           (CL_Broker (others_first b))).1 with
  | Some response => body_fits message page version clock (HTTP_Body response)
  | None => true
  end.

Lemma wire_do_refines {A} method path (encoded : bool) (input : option json) (authenticated : bool) accepted (d : decoder A) request output spoken b :
  (encoded = true -> broker_route limit (client_raw method path (if authenticated then CL_Token b else "")
     match input with Some v => marshal v | None => [] end) = request (MO_TooLong (next_moment b))) ->
  reads message page version clock d output spoken ->
  (forall srv env long st, readable_answers accepted output (serve (S := S) srv env (request long) st)) ->
  answer_fits request b = true ->
  wire_do method path encoded input authenticated accepted d b =
    (spoken <$> (client_do encoded request accepted output b).1, (client_do encoded request accepted output b).2).
Proof.
  intros Hroute Hreads Hr Hfits. unfold wire_do, client_do. destruct encoded; cbn [negb]; [|done]. cbv zeta.
  rewrite Hroute by done. destruct (MO_Sent _); cbn [negb]; [|done]. unfold answer_fits in Hfits.
  specialize (Hr (CL_Server (others_first b)) (MO_Env (next_moment b)) (MO_TooLong (next_moment b)) (CL_Broker (others_first b))).
  destruct (broker_step _ _ _).1 as [response|] eqn:E; [|done].
  destruct (MO_Received _); cbn [negb]; [|done].
  pose proof Hfits as Hlen. unfold body_fits in Hlen. bool_prop. destruct Hlen as [_ Hlen]. rewrite (proj2 (Z.ltb_ge _ _)) by exact Hlen.
  destruct (containsStatus _ _) eqn:Ec; cbn [negb]; [|done].
  assert (Hok : body_marshals (HTTP_Body response) = true -> is_Some (output (HTTP_Body response))).
  { simpl in E. destruct (serve _ _ _ _); simplify_eq/=; by apply Hr. }
  destruct (Hreads _ Hfits) as [Hread Hnone]. destruct (output (HTTP_Body response)) as [a|] eqn:Ea; [by rewrite (Hread a eq_refl)|].
  destruct (body_marshals _); [by destruct (Hok eq_refl)|]. by rewrite Hnone.
Qed.

(** C6 The client on bytes is the client on values.  Marshalling a request, routing and strictly decoding it at the broker, encoding the
    answer and unmarshalling it at the client is what the model on values says, call by call, state and result: the result differs only in
    the text of messages, and an answer that the broker could not encode is the same error.  It needs to know whether the request exceeds
    the limit of the broker, and that the answer stays below the limit of the client and its integers within [float64]. *)
Theorem wire_client_refines b :
  (answer_fits (fun _ => GetHealth) b = true -> wire_Health b = client_Health b) /\
  (answer_fits (fun _ => GetOperations (CL_Token b)) b = true -> wire_Catalog b = client_Catalog b) /\
  (forall request, length_known (encode_OperationRequest request) b ->
   answer_fits (fun long => PostPlan (CL_Token b) (sent_body (scrub_request request) long)) b = true ->
   wire_Plan request b = (spoken_plan message <$> (client_Plan request b).1, (client_Plan request b).2)) /\
  (forall request, length_known (encode_OperationRequest request) b ->
   answer_fits (fun long => PostExecute (CL_Token b) (sent_body (scrub_request request) long)) b = true ->
   wire_Execute request b = (spoken_response message <$> (client_Execute request b).1, (client_Execute request b).2)) /\
  (forall plan credential, length_known (encode_confirmationEnvelope {| CE_Plan := plan; CE_ActorToken := credential |}) b ->
   answer_fits (fun long => PostConfirm (CL_Token b) (sent_body {| CE_Plan := scrub_plan plan; CE_ActorToken := scrub credential |} long)) b = true ->
   wire_Confirm plan credential b = client_Confirm plan credential b) /\
  (forall plan confirmation credential,
   length_known (encode_approvedExecutionEnvelope
     {| AE_Plan := plan; AE_ConfirmationToken := confirmation; AE_ActorToken := credential |}) b ->
   answer_fits (fun long => PostExecuteApproved (CL_Token b)
     (sent_body {| AE_Plan := scrub_plan plan; AE_ConfirmationToken := scrub confirmation; AE_ActorToken := scrub credential |} long)) b = true ->
   wire_ExecuteApproved plan confirmation credential b =
     (spoken_response message <$> (client_ExecuteApproved plan confirmation credential b).1,
      (client_ExecuteApproved plan confirmation credential b).2)).
Proof.
  destruct (client_requests_arrive limit "") as [Hhealth _].
  destruct (client_requests_arrive limit (CL_Token b)) as (_ & Hops & Hreq & Hconf & Hexec).
  assert (Hid : forall {A} (x : result A * client_state S), ((fun a => a) <$> x.1, x.2) = x) by (by intros A [[] ?]).
  split; [|split; [|split; [|split; [|split]]]].
  - intros Hf. unfold wire_Health, client_Health. rewrite (wire_do_refines _ _ _ _ _ _ _ (fun _ => GetHealth) as_health (fun u => u));
      [by destruct (client_do _ _ _ _ b) as [[] ?]|intros _; exact Hhealth|apply reads_health|intros; apply health_served|exact Hf].
  - intros Hf. unfold wire_Catalog, client_Catalog.
    rewrite (wire_do_refines _ _ _ _ _ _ _ (fun _ => GetOperations (CL_Token b)) as_operations (fun l => l));
      [by rewrite Hid|intros _; exact Hops|apply reads_operations|intros; apply operations_served|exact Hf].
  - intros request Hl Hf. apply wire_do_refines; [|apply reads_plan|intros; apply plan_served|exact Hf].
    intros _. rewrite Hl. exact (proj1 (Hreq request)).
  - intros request Hl Hf. apply wire_do_refines; [|apply reads_response|intros; apply execute_served|exact Hf].
    intros _. rewrite Hl. exact (proj2 (Hreq request)).
  - intros plan credential Hl Hf. unfold wire_Confirm, client_Confirm.
    erewrite (wire_do_refines _ _ _ _ _ _ _ _ as_grant (fun g => g));
      [by rewrite Hid| |apply reads_grant|intros; apply confirm_served|exact Hf].
    intros Hm. cbv beta. rewrite Hl. exact (Hconf plan credential Hm).
  - intros plan confirmation credential Hl Hf. apply wire_do_refines; [|apply reads_response|intros; apply execute_approved_served|exact Hf].
    intros Hm. rewrite Hl. exact (Hexec plan confirmation credential Hm).
Qed.
End wire.

(** ** A concrete call *)

(** A client of a broker that has just started; the next call is a confirmation. *)
Definition wire_client : client_state machine :=
  {| CL_Token := "broker-secret"; CL_Server := example_server;
     CL_Broker := broker_start "/var/lib/grants.json" (5 * Minute) FileMissing (idle_machine "inactive" ActionsWork later);
     CL_Script := fun _ => {| MO_Before := []; MO_Env := example_env; MO_Sent := true; MO_TooLong := false; MO_Received := true |};
     CL_Calls := 0; CL_Rounds := [] |}.
(** A message is its format, and the broker reads bodies of 64 KiB. *)
Notation example_confirm := (wire_Confirm text_format (fun _ => []) "0.1.0" later 65536 example_plan "approver-token" wire_client).

Lemma wire_client_refines_witness :
  example_confirm = client_Confirm example_plan "approver-token" wire_client /\ is_ok example_confirm.1 = true.
Proof.
  destruct (wire_client_refines text_format (fun _ => []) "0.1.0" later 65536 wire_client) as (_ & _ & _ & _ & H & _).
  assert (E : example_confirm = client_Confirm example_plan "approver-token" wire_client).
  { apply H; [vm_compute; reflexivity|vm_compute; reflexivity]. }
  split; [exact E|]. vm_compute. reflexivity.
Defined.
