(* ===== verification/Payloads.v ===== *)
(** * The answers of the public API as bytes

    The payloads that control/server.go, inventory_routes.go, security_routes.go and mutation_routes.go pass to [writeJSON], with the JSON
    fields of inventory/inventory.go: what [Encoder.Encode] writes for them, and that it is one line with one JSON value. *)

From S2P Require Import Prelude GoStrings GoTime Mux Protocol Inventory Actors Plans Grants AuditLog ServiceControl System Registry Mutations.
From S2P Require Import Broker Control Client.
From S2P Require Import Json JsonParse TimeText JsonDecode JsonAny Messages AuditBytes StateFiles Answers.
#[local] Open Scope Z_scope.

(** [internal/buildinfo]; a release build replaces the values. *)
Record build_info := { BI_Version : string; BI_Commit : string; BI_BuildTime : string }.
Definition development_build : build_info := {| BI_Version := "0.3.0-alpha.1"; BI_Commit := "unknown"; BI_BuildTime := "unknown" |}.

(** ** The inventory *)

Definition encode_Listener (l : Listener) : json :=
  of_struct [("address", of_string (Ln_Address l)); ("port", JNumber (integer_text (Ln_Port l))); ("protocol", of_string (Ln_Protocol l))].
Definition encode_Evidence (e : Evidence) : json :=
  of_struct ([("kind", of_string (Evi_Kind e)); ("source", of_string (Evi_Source e))]
    ++ omit_if (Evi_Detail e == "") ("detail", of_string (Evi_Detail e))).
Definition encode_Component (c : Component) : json :=
  of_struct [("id", of_string (Cp_ID c)); ("name", of_string (Cp_Name c)); ("category", of_string (Cp_Category c));
    ("version", of_string (Cp_Version c)); ("ownership", of_string (Cp_Ownership c)); ("health", of_string (Cp_Health c));
    ("services", of_slice of_string (Cp_Services c)); ("listeners", of_slice encode_Listener (Cp_Listeners c));
    ("roots", of_slice of_string (Cp_Roots c)); ("capabilities", of_slice of_string (Cp_Capabilities c));
    ("evidence", of_slice encode_Evidence (Cp_Evidence c)); ("observed_at", of_instant (Cp_ObservedAt c));
    ("warnings", of_slice of_string (Cp_Warnings c))].
Definition encode_Snapshot (s : Snapshot) : json :=
  of_struct [("schema", of_string (Sn_Schema s)); ("observed_at", of_instant (Sn_ObservedAt s));
    ("components", of_slice encode_Component (Sn_Components s))].
Definition snapshot_marshals (s : Snapshot) : bool :=
  marshals (Sn_ObservedAt s) && forallb (fun c => marshals (Cp_ObservedAt c)) (Sn_Components s).

(** ** Payloads *)

Section payloads.
(** How a message reads, as in [Answers.v]. *)
Context (message : text -> string) (info : build_info).

Definition capabilities (durable_audit service_mutations : bool) : json :=
  of_struct [("actor_permissions", JBool true); ("confirmation_contracts", JBool true); ("durable_audit", JBool durable_audit);
    ("operation_plans", JBool true); ("service_mutations", JBool service_mutations); ("service_status", JBool true);
    ("system_snapshot", JBool true); ("typed_operations", JBool true); ("web_ui", JBool false)].

(** Maps are written in the order of their keys; [None] where a value has no text. *)
Definition payload_json (p : payload) : option json :=
  match p with
  | JSONRoot =>
    Some (of_struct [("service", of_string "quantum-control"); ("status", of_string "online"); ("version", of_string (BI_Version info))])
  | JSONHealth =>
    Some (of_struct [("service", of_string "quantum-control"); ("status", of_string "ok"); ("version", of_string (BI_Version info))])
  | JSONReady => Some (of_struct [("broker", of_string "qcored"); ("security", of_string "ready"); ("status", of_string "ready")])
  | JSONInfo durable_audit service_mutations =>
    Some (of_struct [("broker", of_string "qcored"); ("build_time", of_string (BI_BuildTime info));
      ("capabilities", capabilities durable_audit service_mutations); ("commit", of_string (BI_Commit info));
      ("service", of_string "quantum-control"); ("version", of_string (BI_Version info))])
  | JSONOperations definitions => Some (of_struct [("operations", of_slice encode_OperationDefinition definitions)])
  | JSONPlan plan => if plan_marshals plan then Some (encode_OperationPlan plan) else None
  | JSONOperation response => encode_OperationResponse message response
  | JSONResult None => Some JNull
  | JSONResult (Some m) => dict_json m
  | JSONAudit integrity records =>
    integrity ← dict_json integrity;
    if forallb (fun r => marshals (AR_Timestamp r)) records then
      Some (of_struct [("integrity", integrity); ("records", of_slice encode_AuditRecord records)])
    else None
  | JSONIntegrity integrity => dict_json integrity
  | JSONIntegrityUnavailable => Some (of_struct [("status", of_string "unavailable"); ("verified", JBool false)])
  | JSONGrant grant => encode_GrantResponse grant
  | JSONSnapshot snapshot => if snapshot_marshals snapshot then Some (encode_Snapshot snapshot) else None
  | JSONComponent component => if marshals (Cp_ObservedAt component) then Some (encode_Component component) else None
  | JSONProblem p request_id => Some (of_struct [("error", encode_Problem message p); ("request_id", of_string request_id)])
  | PlainUnmatched _ => None
  end.
Definition payload_bytes (p : payload) : bytes := encoded_line (payload_json p).

(** ** One line, one value *)

(** Integers within [float64], and not too deep. *)
Definition payload_fits (p : payload) : bool :=
  let fits depth (m : dict) := any_fits depth (AMap (Some (map_to_list m))) in
  match p with
  | JSONOperation response => response_fits response
  | JSONResult (Some m) | JSONIntegrity m => fits 0 m
  | JSONAudit m _ => fits 1 m
  | _ => true
  end.

Lemma strings_wf depth l : depth < maxNestingDepth -> well_formed depth (of_slice of_string l).
Proof. intros H. apply of_slice_wf; [done|]. apply Forall_true. intros. apply of_string_wf. Qed.
Lemma encode_component_wf depth c : depth + 2 < maxNestingDepth -> well_formed depth (encode_Component c).
Proof.
  intros H. apply of_struct_wf; [lia|]. each_member; cbn [snd]; try (apply strings_wf; lia).
  - apply of_slice_wf; [lia|]. apply Forall_true. intros l. apply of_struct_wf; [lia|]. each_member. apply integer_text_number.
  - apply of_slice_wf; [lia|]. apply Forall_true. intros e. apply of_struct_wf; [lia|]. apply Forall_app. split; [each_member|].
    apply omit_if_wf, of_string_wf.
Qed.

Lemma payload_wf p v : payload_fits p = true -> payload_json p = Some v -> well_formed 0 v.
Proof.
  assert (Hdict : forall depth m w, any_fits depth (AMap (Some (map_to_list m))) = true -> dict_json m = Some w -> well_formed depth w).
  { intros depth m w Hm Hw. by apply (to_dict_of m depth w Hm Hw). }
  destruct p as [| | |audit mutations|definitions|plan|response|[m|]|m records|m| |grant|snapshot|component| |problem id];
    cbn [payload_fits payload_json]; intros Hf Hv; try discriminate Hv;
    try (injection Hv as <-; apply of_struct_wf; [done|]; each_member; cbn [snd]; fail).
  - injection Hv as <-. apply of_struct_wf; [done|]. each_member. cbn [snd]. apply of_struct_wf; [done|]. each_member.
  - injection Hv as <-. apply of_struct_wf; [done|]. each_member. cbn [snd]. apply of_slice_wf; [done|]. apply Forall_true. intros d.
    by apply encode_definition_wf.
  - destruct (plan_marshals plan); [|done]. injection Hv as <-. by apply encode_plan_wf.
  - by eapply encode_response_wf.
  - by apply (Hdict 0 m).
  - by injection Hv as <-.
  - destruct (dict_json m) as [w|] eqn:E; [|done]. cbn [mbind option_bind] in Hv. destruct (forallb _ _); [|done]. injection Hv as <-.
    apply of_struct_wf; [done|]. each_member; cbn [snd]; [by apply (Hdict 1 m)|]. apply of_slice_wf; [done|]. apply Forall_true. intros r.
    by apply encode_record_wf.
  - by apply (Hdict 0 m).
  - by eapply encode_grant_response_wf.
  - destruct (snapshot_marshals snapshot); [|done]. injection Hv as <-. apply of_struct_wf; [done|]. each_member. cbn [snd].
    apply of_slice_wf; [done|]. apply Forall_true. intros c. by apply encode_component_wf.
  - destruct (marshals _); [|done]. injection Hv as <-. by apply encode_component_wf.
  - injection Hv as <-. apply of_struct_wf; [done|]. each_member. cbn [snd]. by apply encode_problem_wf.
Qed.

Lemma payload_line p v : payload_fits p = true -> payload_json p = Some v -> parse (payload_bytes p) = Parsed v [chr 10].
Proof. intros Hf Hv. unfold payload_bytes, encoded_line. rewrite Hv. by apply parse_printed; [eapply payload_wf|]. Qed.
End payloads.
