(* ===== verification/Schema.v ===== *)
(** * The published schemas

    The documents of [schema/], with the keywords they use: that everything the programs write (inventory, operation plan, audit record,
    confirmation grant) is valid under them, and what they say of the files the programs read (actor registry, service policy). *)

From S2P Require Import Prelude GoStrings Sha256 GoTime Regexp Protocol Inventory Actors Plans Grants AuditLog ServiceControl System.
From S2P Require Import Control Client.
From S2P Require Import Json JsonParse TimeText JsonDecode JsonAny Messages AuditBytes StateFiles Payloads.
From S2P Require Import Backtrack.
From Stdlib Require Import Ascii.
#[local] Open Scope Z_scope.

(** ** Schemas and validation *)

(** A [pattern] with its alternatives; lengths count characters; of [date-time] only the way the programs write it, in UTC, is let pass. *)
Inductive string_rule := Pattern (alternatives : list string) | MinLength (n : nat) | MaxLength (n : nat) | DateTime.

(** [const] is an enumeration of one; a [$ref] is the schema it refers to; [uniqueItems] stands at arrays of strings only. *)
Inductive schema :=
| SString (rules : list string_rule)
| SInteger (minimum : Z) (maximum : option Z)
| SBoolean
| SEnum (values : list string)
| SArray (minItems : nat) (items : schema)
| SUnique (minItems : nat) (items : schema)
| SObject (closed : bool) (required : list string) (properties : list (string * schema))
| SMap (values : schema).

Definition rule_holds (s : string) (rule : string_rule) : bool :=
  match rule with
  | Pattern alternatives => existsb (fun pattern => matches pattern s) alternatives
  | MinLength n => (n <=? length (tokens (to_bytes s)))%nat
  | MaxLength n => (length (tokens (to_bytes s)) <=? n)%nat
  | DateTime => match parse_rfc3339 (to_bytes s) with Some t => s == format_rfc3339nano t | None => false end
  end.

Definition string_of (v : json) : option string := match v with JString raw => Some (unquote raw) | _ => None end.
Definition names_of (members : list (bytes * json)) : list string := (fun kv => unquote kv.1) <$> members.

(** Of integers only unsigned 64-bit ones without fraction and exponent are let pass. *)
Fixpoint valid (s : schema) (v : json) : bool :=
  match s, v with
  | SString rules, JString raw => forallb (rule_holds (unquote raw)) rules
  | SInteger minimum maximum, JNumber text =>
    match ParseUint text with
    | Some n => (minimum <=? n) && match maximum with Some maximum => n <=? maximum | None => true end
    | None => false
    end
  | SBoolean, JBool _ => true
  | SEnum values, JString raw => bool_decide (unquote raw ∈ values)
  | SArray minItems items, JArray vs => (minItems <=? length vs)%nat && forallb (valid items) vs
  | SUnique minItems items, JArray vs => (minItems <=? length vs)%nat && forallb (valid items) vs && bool_decide (NoDup (string_of <$> vs))
  | SObject closed required properties, JObject members =>
    forallb (fun name => bool_decide (name ∈ names_of members)) required &&
    forallb (fun kv =>
      (fix find properties :=
         match properties with
         | [] => negb closed
         | (name, s) :: properties => if name == unquote kv.1 then valid s kv.2 else find properties
         end) properties) members
  | SMap values, JObject members => forallb (fun kv => valid values kv.2) members
  | _, _ => false
  end.

(** ** The documents *)

Definition text_schema : schema := SString [].
Definition instant_schema : schema := SString [DateTime].
Definition digest_pattern : string := "^[0-9a-f]{64}$".
Definition digest_schema : schema := SString [Pattern [digest_pattern]].
Definition optional_digest_schema : schema := SString [Pattern ["^$"; digest_pattern]].

Definition actor_members : list string := ["id"; "kind"; "display_name"; "roles"; "permissions"].
Definition actor_schema (kinds : list string) : schema :=
  SObject false actor_members
    [("id", text_schema); ("kind", SEnum kinds); ("display_name", text_schema); ("roles", SArray 0 text_schema);
     ("permissions", SArray 0 text_schema)].
Definition actor_kinds : list string := ["human"; "service"; "tci"].

Definition listener_schema : schema :=
  SObject true ["address"; "port"; "protocol"]
    [("address", text_schema); ("port", SInteger 1 (Some 65535)); ("protocol", text_schema)].
Definition evidence_schema : schema :=
  SObject true ["kind"; "source"] [("kind", text_schema); ("source", text_schema); ("detail", text_schema)].
Definition component_schema : schema :=
  SObject true
    ["id"; "name"; "category"; "version"; "ownership"; "health"; "services"; "listeners"; "roots"; "capabilities"; "evidence";
     "observed_at"; "warnings"]
    [("id", SString [Pattern ["^[a-z0-9][a-z0-9-]{0,63}$"]]); ("name", text_schema); ("category", text_schema); ("version", text_schema);
     ("ownership", SEnum ["managed"; "external"; "disabled"; "unknown"]); ("health", SEnum ["healthy"; "degraded"; "disabled"; "unknown"]);
     ("services", SUnique 0 text_schema); ("listeners", SArray 0 listener_schema); ("roots", SUnique 0 text_schema);
     ("capabilities", SUnique 0 text_schema); ("evidence", SArray 0 evidence_schema); ("observed_at", instant_schema);
     ("warnings", SArray 0 text_schema)].
Definition inventory_schema : schema :=
  SObject true ["schema"; "observed_at"; "components"]
    [("schema", SEnum ["quantum.control/component-inventory/v1alpha1"]); ("observed_at", instant_schema);
     ("components", SArray 0 component_schema)].

Definition parameter_schema : schema :=
  SObject true ["name"; "value"] [("name", text_schema); ("value", text_schema)].
Definition plan_schema : schema :=
  SObject true
    ["schema"; "id"; "digest"; "request_id"; "session_id"; "actor"; "action"; "parameters"; "risk"; "requires_confirmation"; "valid";
     "created_at"; "expires_at"]
    [("schema", SEnum ["quantum.control/operation-plan/v1alpha1"]); ("id", text_schema); ("digest", digest_schema);
     ("request_id", text_schema); ("session_id", text_schema); ("actor", actor_schema actor_kinds); ("action", text_schema);
     ("parameters", SArray 0 parameter_schema); ("risk", text_schema); ("requires_confirmation", SBoolean); ("valid", SBoolean);
     ("created_at", instant_schema); ("expires_at", instant_schema); ("error_code", text_schema)].

Definition record_schema : schema :=
  SObject true ["schema"; "sequence"; "id"; "timestamp"; "event"; "actor"; "status"; "previous_hash"; "entry_hash"]
    [("schema", SEnum ["quantum.control/audit-record/v1alpha1"]); ("sequence", SInteger 1 None); ("id", text_schema);
     ("timestamp", instant_schema); ("event", text_schema); ("actor", actor_schema actor_kinds); ("request_id", text_schema);
     ("session_id", text_schema); ("plan_id", text_schema); ("plan_digest", optional_digest_schema); ("action", text_schema);
     ("risk", text_schema); ("status", text_schema); ("rollback_status", text_schema); ("parameters", SMap text_schema);
     ("error_code", text_schema); ("previous_hash", optional_digest_schema); ("entry_hash", digest_schema)].

Definition grant_schema : schema :=
  SObject true
    ["schema"; "id"; "plan_id"; "plan_digest"; "subject_actor_id"; "session_id"; "approver"; "action"; "issued_at"; "expires_at"]
    [("schema", SEnum ["quantum.control/confirmation-grant/v1alpha1"]); ("id", text_schema); ("plan_id", text_schema);
     ("plan_digest", digest_schema); ("subject_actor_id", text_schema); ("session_id", SString [MinLength 1; MaxLength 160]);
     ("approver", actor_schema ["human"]); ("action", text_schema); ("issued_at", instant_schema); ("expires_at", instant_schema);
     ("used_at", instant_schema)].

(** The two files that are only read. *)
Definition registered_actor_schema : schema :=
  SObject true actor_members
    [("id", SString [Pattern [actorIDPattern]]); ("kind", SEnum actor_kinds); ("display_name", SString [MinLength 1; MaxLength 160]);
     ("roles", SUnique 1 (SEnum ["reader"; "operator"; "mutator"; "auditor"; "approver"; "tci-proposer"; "service"]));
     ("permissions", SUnique 0 (SEnum ["control.read"; "inventory.read"; "operations.catalog.read"; "operations.plan";
        "operations.execute.readonly"; "operations.execute.mutate"; "audit.read"; "operations.confirm"; "operations.propose"]))].
Definition registry_schema : schema :=
  SObject true ["schema"; "actors"]
    [("schema", SEnum ["quantum.control/actors/v1alpha1"]);
     ("actors", SArray 1 (SObject true ["actor"; "token_sha256"]
        [("actor", registered_actor_schema); ("token_sha256", SString [Pattern ["^[0-9a-fA-F]{64}$"]])]))].
Definition policy_schema : schema :=
  SObject true ["schema"; "allowed_units"]
    [("schema", SEnum ["quantum.control/service-mutation-policy/v1alpha1"]);
     ("allowed_units", SUnique 0 (SEnum ["quantum-runtime.service"]))].

(** ** Values that are valid *)

Lemma valid_text s : valid text_schema (of_string s) = true.
Proof. reflexivity. Qed.

Lemma valid_instant t : time_ok t -> valid instant_schema (of_instant t) = true.
Proof.
  intros Ht. rewrite of_instant_string. cbn [valid of_string instant_schema forallb]. rewrite andb_true_r, unquote_escape. cbn [rule_holds].
  rewrite scrub_valid by (apply is_ascii_valid, format_ascii, Ht). rewrite parse_format by done. apply String.eqb_refl.
Qed.

Lemma valid_enum values s :
  forallb valid_utf8 values = true -> s ∈ values -> valid (SEnum values) (of_string s) = true.
Proof.
  intros Hv Hs. cbn [valid of_string]. rewrite forallb_elem in Hv. rewrite unquote_escape, scrub_valid by by apply Hv.
  by apply bool_decide_eq_true.
Qed.

Definition digest_class : char_class := [(chr 48, chr 57); (chr 97, chr 102)].
Lemma digest_pattern_compiled : Compile digest_pattern = Some [Item digest_class 64 64].
Proof. vm_compute. reflexivity. Qed.
Lemma digest_class_hex a : in_class digest_class a = lower_hex a.
Proof. destruct a as [[] [] [] [] [] [] [] []]; reflexivity. Qed.

(** The text of a SHA-256 digest. *)
Definition digest_text (s : string) : Prop := is_hex s = true /\ slen s = 64.
Lemma digest_text_matches s : digest_text s -> matches digest_pattern s = true.
Proof.
  intros [Hh Hl]. unfold matches. rewrite digest_pattern_compiled. apply match_items_last; [lia|]. unfold slen in Hl. rewrite <-length_to_bytes in Hl.
  split; [|split; lia]. rewrite (forallb_ext' _ _ _ digest_class_hex). exact Hh.
Qed.
Lemma digest_text_sha256 s : digest_text (sha256_hex s).
Proof. split; [apply sha256_hex_is_hex|apply slen_sha256_hex]. Qed.

Lemma valid_digest s : digest_text s -> valid digest_schema (of_string s) = true.
Proof.
  intros Hs. cbn [valid of_string digest_schema forallb]. rewrite unquote_escape, scrub_valid by (apply is_ascii_valid, is_hex_ascii, Hs).
  cbn [rule_holds existsb]. by rewrite digest_text_matches.
Qed.
Lemma valid_optional_digest s : s = "" \/ digest_text s -> valid optional_digest_schema (of_string s) = true.
Proof.
  intros [->|Hs]; [reflexivity|]. cbn [valid of_string optional_digest_schema forallb].
  rewrite unquote_escape, scrub_valid by (apply is_ascii_valid, is_hex_ascii, Hs).
  cbn [rule_holds existsb]. rewrite (digest_text_matches s Hs). by rewrite orb_true_r.
Qed.

Lemma valid_slice {A} items (f : A -> json) l : Forall (fun a => valid items (f a) = true) l -> valid (SArray 0 items) (of_slice f l) = true.
Proof. intros H. cbn [valid of_slice]. cbn [Nat.leb andb]. apply forallb_elem. intros v (a & -> & Ha)%list_elem_of_fmap. rewrite Forall_forall in H. by apply H. Qed.

Lemma valid_texts l : valid (SArray 0 text_schema) (of_slice of_string l) = true.
Proof. apply valid_slice, Forall_true. intros. apply valid_text. Qed.

(** *** Objects *)

Definition property (properties : list (string * schema)) (key : string) : option schema :=
  find_first (fun p => if p.1 == key then Some p.2 else None) properties.
Definition member_fits (closed : bool) (properties : list (string * schema)) (kv : string * json) : Prop :=
  valid_utf8 kv.1 = true /\
  match property properties kv.1 with Some s => valid s kv.2 = true | None => closed = false end.

Lemma valid_object closed required properties members :
  valid (SObject closed required properties) (JObject members) =
    forallb (fun name => bool_decide (name ∈ names_of members)) required &&
    forallb (fun kv => match property properties (unquote kv.1) with Some s => valid s kv.2 | None => negb closed end) members.
Proof.
  cbn [valid]. f_equal. apply forallb_ext'. intros [k v]. cbn [fst snd].
  induction properties as [|[name s] properties IH]; [done|]. unfold property. cbn [find_first fst snd].
  by destruct (name == unquote k).
Qed.

Lemma valid_struct closed required properties members :
  Forall (member_fits closed properties) members ->
  Forall (fun name => existsb (fun kv => kv.1 == name) members = true) required ->
  valid (SObject closed required properties) (of_struct members) = true.
Proof.
  intros Hm Hr. unfold of_struct. rewrite valid_object. rewrite Forall_forall in Hm. rewrite Forall_forall in Hr. apply andb_true_iff. split.
  - apply forallb_elem. intros name Hname. apply bool_decide_eq_true.
    specialize (Hr name Hname). apply existsb_elem in Hr as ([k v] & Hin & Hk). apply String.eqb_eq in Hk. cbn in Hk. subst k.
    unfold names_of. apply list_elem_of_fmap. exists (escape name, v). split.
    + change (name = unquote (escape name)). by rewrite unquote_escape, scrub_valid by apply (Hm _ Hin).
    + apply list_elem_of_fmap. by exists (name, v).
  - apply forallb_elem. intros kv ([k v] & -> & Hin)%list_elem_of_fmap. cbn [fst snd]. destruct (Hm _ Hin) as [Hk Hv]. cbn [fst snd] in *.
    rewrite unquote_escape, scrub_valid by done. destruct (property properties k); [exact Hv|by rewrite Hv].
Qed.

Lemma omit_fits closed properties empty member :
  (empty = false -> member_fits closed properties member) -> Forall (member_fits closed properties) (omit_if empty member).
Proof. destruct empty; repeat constructor; by apply H. Qed.

Create HintDb published.
#[export] Hint Resolve valid_text valid_texts valid_instant valid_digest valid_optional_digest valid_enum : published.

(** The members of a struct one by one, each under the schema of its name; what is required is there. *)
Ltac each_property :=
  repeat first
    [ apply Forall_nil_2
    | apply Forall_app; split
    | apply omit_fits; intros ?; split; [reflexivity|cbn [fst snd]]
    | apply Forall_cons_2; [split; [reflexivity|cbn [fst snd]]|] ];
  try match goal with |- match property ?ps ?k with _ => _ end => let s := eval vm_compute in (property ps k) in change (property ps k) with s; cbn iota end.
Ltac all_required := repeat constructor; rewrite ?existsb_app; cbn [existsb fst]; rewrite ?String.eqb_refl, ?orb_true_r; reflexivity.

(** ** Actors *)

Lemma valid_actor kinds a :
  forallb valid_utf8 kinds = true -> Actor_Kind a ∈ kinds -> valid (actor_schema kinds) (encode_Actor a) = true.
Proof.
  intros Hk Ha. apply valid_struct; [each_property|all_required]; auto with published.
Qed.

(** ** Inventories *)

Lemma valid_unique l : Forall (fun s => valid_utf8 s = true) l -> NoDup l -> valid (SUnique 0 text_schema) (of_slice of_string l) = true.
Proof.
  intros Hv Hl. cbn [valid of_slice]. apply andb_true_iff. split; [exact (valid_texts l)|].
  apply bool_decide_eq_true. rewrite <-list_fmap_compose.
  assert (string_of ∘ of_string <$> l = Some <$> l) as ->; [|by apply (NoDup_fmap_2 Some)].
  apply list_fmap_ext. intros i s Hs. cbn. rewrite unquote_escape. f_equal. rewrite Forall_lookup in Hv. apply scrub_valid. by eapply Hv.
Qed.

Lemma sorted_unique l : StronglySorted str_lt l -> NoDup l.
Proof.
  induction 1 as [|s l _ IH Hs]; constructor; [|exact IH]. intros Hin. rewrite Forall_forall in Hs. exact (str_lt_irrefl s (Hs s Hin)).
Qed.

Definition first_class : char_class := [(chr 97, chr 122); (chr 48, chr 57)].
Lemma id_pattern_compiled : Compile id_pattern = Some [Item first_class 1 1; Item (first_class ++ [(chr 45, chr 45)]) 0 63].
Proof. vm_compute. reflexivity. Qed.
Lemma id_class_ascii a : in_class (first_class ++ [(chr 45, chr 45)]) a = true -> ascii7 a = true.
Proof. destruct a as [[] [] [] [] [] [] [] []]; vm_compute; auto. Qed.
Lemma first_class_ascii a : in_class first_class a = true -> ascii7 a = true.
Proof. destruct a as [[] [] [] [] [] [] [] []]; vm_compute; auto. Qed.
Lemma id_ascii s : matches id_pattern s = true -> is_ascii s = true.
Proof.
  unfold matches. rewrite id_pattern_compiled. intros (a & l & E & Ha & Hl)%match_items_one. apply match_items_last in Hl as [Hl _]; [|lia].
  unfold is_ascii. rewrite E. cbn [forallb]. rewrite first_class_ascii by done. cbn [andb].
  rewrite forallb_elem in Hl. apply forallb_elem. intros b Hb. by apply id_class_ascii, Hl.
Qed.

(** The names that came from the host are text. *)
Definition readable_names (c : Component) : Prop :=
  forallb (forallb valid_utf8) [Cp_Services c; Cp_Roots c; Cp_Capabilities c] = true.
#[export] Instance readable_names_dec c : Decision (readable_names c) := bool_eq_dec _ _.

Lemma valid_sorted l : StronglySorted str_lt l -> forallb valid_utf8 l = true -> valid (SUnique 0 text_schema) (of_slice of_string l) = true.
Proof. intros Hs Hv. apply valid_unique; [|by apply sorted_unique]. apply Forall_forall. by apply forallb_elem. Qed.

Lemma valid_component observed c :
  time_ok observed -> conforms observed c -> readable_names c -> valid component_schema (encode_Component c) = true.
Proof.
  intros Ht [Hid Hown Hhealth Hs Hr Hc Hl Ho] Hn. unfold readable_names in Hn. cbn [forallb] in Hn.
  apply andb_true_iff in Hn as [Ns Hn]. apply andb_true_iff in Hn as [Nr Hn]. apply andb_true_iff in Hn as [Nc _].
  apply valid_struct; [each_property|all_required]; try (auto with published; fail).
  - cbn [valid of_string forallb]. rewrite unquote_escape, scrub_valid by (apply is_ascii_valid, id_ascii, Hid).
    unfold id_pattern in Hid. cbn [rule_holds existsb]. by rewrite Hid.
  - by apply valid_sorted.
  - by rewrite Hl.
  - by apply valid_sorted.
  - by apply valid_sorted.
  - apply (valid_slice evidence_schema), Forall_true. intros e. apply valid_struct; [each_property|all_required]; auto with published.
  - rewrite Ho. auto with published.
Qed.

Lemma valid_inventory snapshot :
  Sn_Schema snapshot = SchemaVersion -> time_ok (Sn_ObservedAt snapshot) ->
  Forall (conforms (Sn_ObservedAt snapshot)) (Sn_Components snapshot) -> Forall readable_names (Sn_Components snapshot) ->
  valid inventory_schema (encode_Snapshot snapshot) = true.
Proof.
  intros Hs Ht Hc Hn. apply valid_struct; [each_property|all_required].
  - rewrite Hs. reflexivity.
  - auto with published.
  - apply (valid_slice component_schema). rewrite Forall_forall in *. intros c Hin. eapply valid_component; eauto.
Qed.

(** ** Plans *)

Lemma valid_plan p :
  Plan_Schema p = PlanSchema -> digest_text (Plan_Digest p) -> Actor_Kind (Plan_Actor p) ∈ actor_kinds ->
  time_ok (Plan_CreatedAt p) -> time_ok (Plan_ExpiresAt p) -> valid plan_schema (encode_OperationPlan p) = true.
Proof.
  intros Hs Hd Ha Hc He. apply valid_struct; [each_property|all_required]; try (auto with published; fail).
  - rewrite Hs. reflexivity.
  - by apply (valid_actor actor_kinds).
  - apply (valid_slice parameter_schema), Forall_true. intros q. apply valid_struct; [each_property|all_required]; auto with published.
Qed.

(** ** Audit records *)

Lemma valid_map m : valid (SMap text_schema) (of_map m) = true.
Proof.
  cbn [valid of_map of_struct]. apply forallb_elem. intros kv (kv' & -> & Hin)%list_elem_of_fmap.
  apply list_elem_of_fmap in Hin as (kv'' & -> & _). reflexivity.
Qed.

Lemma valid_sequence n : 1 <= n < 2 ^ 64 -> valid (SInteger 1 None) (of_uint64 n) = true.
Proof. intros H. cbn [valid of_uint64]. rewrite ParseUint_decimal by lia. rewrite andb_true_r. apply Z.leb_le. lia. Qed.

(** A byte after [ToLower] is no capital letter. *)
Lemma lower_no_capital s : forallb (fun a => negb (between 65 (byte a) 90)) (to_bytes (ToLower s)) = true.
Proof.
  unfold ToLower. rewrite to_of_bytes. pose proof (tokens_proper (to_bytes s)) as H. induction H as [|t ts Ht _ IH]; [reflexivity|].
  cbn [fmap list_fmap]. change (mjoin (lower_token t :: (lower_token <$> ts))) with (lower_token t ++ mjoin (lower_token <$> ts)).
  rewrite forallb_app, IH, andb_true_r. destruct t as [[|a [|b bs]]|]; [done| | |reflexivity].
  - cbn. rewrite andb_true_r. destruct a as [[] [] [] [] [] [] [] []]; reflexivity.
  - unfold lower_token. repeat case_decide; [reflexivity..|]. apply forallb_elem. intros c Hc.
    pose proof (proper_high_all a b bs Ht) as Hh. rewrite Forall_forall in Hh. specialize (Hh c Hc).
    destruct c as [[] [] [] [] [] [] [] []]; (reflexivity || discriminate Hh).
Qed.

Lemma hex_decode_digits l r : hex_decode_bytes l = Some r -> forallb (fun a => bool_decide (is_Some (from_hex a))) l = true.
Proof.
  revert r. induction l as [l IH] using (induction_ltof1 _ (@length ascii)). intros r. destruct l as [|a [|b l]]; [done|discriminate|].
  cbn [hex_decode_bytes forallb]. destruct (from_hex a) as [x|]; [|done]. destruct (from_hex b) as [y|]; [|done].
  destruct (hex_decode_bytes l) as [k|] eqn:E; [|done]. intros _. cbn. eapply (IH l); [|exact E]. unfold ltof. cbn. lia.
Qed.

Lemma sanitizeDigest_text value : sanitizeDigest value = "" \/ digest_text (sanitizeDigest value).
Proof.
  unfold sanitizeDigest. cbv zeta. set (v := ToLower (TrimSpace value)). destruct (Z.eqb_spec (slen v) 64) as [Hl|]; [|by left]. cbn [negb].
  destruct (hex_decode v) as [r|] eqn:E; [|by left]. right. split; [|exact Hl]. apply hex_decode_digits in E.
  unfold is_hex. pose proof (lower_no_capital (TrimSpace value)) as Hc. fold v in Hc. rewrite forallb_elem in *. intros a Ha.
  specialize (E a Ha). specialize (Hc a Ha). cbn beta in *. clear -E Hc. destruct a as [[] [] [] [] [] [] [] []]; (reflexivity || discriminate).
Qed.

Lemma valid_record r :
  AR_Schema r = AuditSchema -> 1 <= AR_Sequence r < 2 ^ 64 -> time_ok (AR_Timestamp r) -> Actor_Kind (AR_Actor r) ∈ actor_kinds ->
  AR_PlanDigest r = "" \/ digest_text (AR_PlanDigest r) -> AR_PreviousHash r = "" \/ digest_text (AR_PreviousHash r) ->
  digest_text (AR_EntryHash r) -> valid record_schema (encode_AuditRecord r) = true.
Proof.
  intros Hs Hn Ht Ha Hp Hprev He. apply valid_struct; [each_property|all_required]; try (auto with published; fail).
  - rewrite Hs. reflexivity.
  - by apply valid_sequence.
  - by apply (valid_actor actor_kinds).
  - apply valid_map.
Qed.

(** Appends to a log, one after the other, whatever becomes of each. *)
Record append_input := { AI_IO : append_io; AI_Entropy : entropy; AI_Now : time; AI_Event : AuditEvent }.
Definition append_all (inputs : list append_input) (s : AuditStore) (file : audit_file) : AuditStore * audit_file :=
  fold_left (fun '(s, file) i => let '(_, s, file) := Append (AI_IO i) (AI_Entropy i) (AI_Now i) (AI_Event i) s file in (s, file))
    inputs (s, file).
Definition proper_input (i : append_input) : Prop := time_ok (AI_Now i) /\ Actor_Kind (Ev_Actor (AI_Event i)) ∈ actor_kinds.

(** A store that holds what it held before and then only valid records, with room for more. *)
Record published_store (before : list AuditRecord) (n : Z) (s : AuditStore) : Prop := {
  ps_sequence : 0 <= AS_Sequence s <= n;
  ps_head : AS_LastHash s = "" \/ digest_text (AS_LastHash s);
  ps_records : exists added, AS_Records s = before ++ added /\
    Forall (fun r => valid record_schema (encode_AuditRecord r) = true) added
}.

Lemma append_published before n i s file :
  n + 1 < 2 ^ 64 -> proper_input i -> published_store before n s ->
  published_store before (n + 1) (Append (AI_IO i) (AI_Entropy i) (AI_Now i) (AI_Event i) s file).1.2.
Proof.
  intros Hn [Ht Ha] [Hs Hh (added & Hadded & Hr)].
  assert (Hsame : published_store before (n + 1) s) by (split; [lia|exact Hh|by exists added]).
  destruct (Append_cases (AI_IO i) (AI_Entropy i) (AI_Now i) (AI_Event i) s file) as [r _ _ _|err _|err remains _|err _ _]; try exact Hsame.
  assert (Hseq : AR_Sequence r = AS_Sequence s + 1) by (cbn; unfold w64; rewrite Z.mod_small by lia; done).
  assert (Hdigest : digest_text (AR_EntryHash r)) by apply digest_text_sha256.
  split; cbn [fst snd store_with AS_Sequence AS_LastHash AS_Records]; [lia|by right|].
  exists (added ++ [r]). split; [by rewrite Hadded, app_assoc|].
  apply Forall_app. split; [exact Hr|]. constructor; [|constructor].
  apply valid_record; [reflexivity|lia|exact Ht|exact Ha|apply sanitizeDigest_text|exact Hh|exact Hdigest].
Qed.

Lemma append_all_published before inputs n s file :
  n + Z.of_nat (length inputs) < 2 ^ 64 -> Forall proper_input inputs -> published_store before n s ->
  published_store before (n + Z.of_nat (length inputs)) (append_all inputs s file).1.
Proof.
  intros Hn Hi. revert n s file Hn. induction Hi as [|i inputs Hi _ IH]; intros n s file Hn Hs; [by rewrite Z.add_0_r|].
  cbn [length] in *. unfold append_all. cbn [fold_left].
  pose proof (append_published before n i s file ltac:(lia) Hi Hs) as Hstep.
  destruct (Append (AI_IO i) (AI_Entropy i) (AI_Now i) (AI_Event i) s file) as [[res s'] file']. cbn [fst snd] in Hstep.
  replace (n + Z.of_nat (S (length inputs))) with (n + 1 + Z.of_nat (length inputs)) by lia. apply IH; [lia|exact Hstep].
Qed.

(** ** Grants *)

Lemma tokens_length l : (length (tokens l) <= length l)%nat.
Proof.
  induction l as [l IH] using (induction_ltof1 _ (@length ascii)). unfold ltof in IH.
  destruct l as [|a [|b [|c [|d l]]]]; cbn [tokens]; repeat case_match; cbn [length]; try lia;
    repeat match goal with |- context [tokens ?k] => pose proof (IH k ltac:(cbn [length]; lia)); generalize dependent (tokens k); intros end;
    cbn [length] in *; lia.
Qed.

Lemma valid_session s : s <> "" -> slen s <= 160 -> valid (SString [MinLength 1; MaxLength 160]) (of_string s) = true.
Proof.
  intros Hne Hl. cbn [valid of_string forallb rule_holds]. rewrite unquote_escape, tokens_scrub, length_fmap, andb_true_r.
  unfold slen in Hl. rewrite <-length_to_bytes in Hl. pose proof (tokens_length (to_bytes s)) as Ht.
  assert (Hpos : (1 <= length (tokens (to_bytes s)))%nat).
  { destruct s as [|a s]; [done|]. cbn [to_bytes String.list_ascii_of_string tokens]. repeat case_match; cbn [length]; lia. }
  apply andb_true_iff. split; apply Nat.leb_le; lia.
Qed.

Lemma valid_grant g :
  Grant_Schema g = GrantSchema -> digest_text (Grant_PlanDigest g) -> Grant_SessionID g <> "" -> slen (Grant_SessionID g) <= 160 ->
  Actor_Kind (Grant_Approver g) = ActorHuman -> time_ok (Grant_IssuedAt g) -> time_ok (Grant_ExpiresAt g) -> time_ok (Grant_UsedAt g) ->
  valid grant_schema (encode_ConfirmationGrant g) = true.
Proof.
  intros Hs Hd Hne Hl Ha Hi He Hu. apply valid_struct; [each_property|all_required]; try (auto with published; fail).
  - rewrite Hs. reflexivity.
  - by apply valid_session.
  - apply (valid_actor ["human"]); [reflexivity|]. rewrite Ha. by left.
Qed.

(** ** What the programs write is valid *)

(** The grants of the broker for plans of the public API. *)
Lemma issued_grant_valid io e now plan approver s file g s' file' :
  Issue io e now plan approver s file = (Ok g, s', file') ->
  digest_text (Plan_Digest plan) -> slen (Plan_SessionID plan) <= 160 -> grant_marshals (GR_Grant g) = true ->
  valid grant_schema (encode_ConfirmationGrant (GR_Grant g)) = true.
Proof.
  intros E Hd Hl Hm. pose proof (Issue_cases io e now plan approver s file) as H. rewrite E in H.
  inversion H as [raw s1 Hi _ _|]. subst. unfold grant_marshals in Hm. bool_prop.
  destruct Hm as [[Hissued Hexpires] Hused].
  apply valid_grant; [done|exact Hd| |exact Hl|apply Hi|by apply marshals_ok..].
  intros Hs. apply (is_session _ _ _ _ Hi). cbn in Hs. by rewrite Hs.
Qed.

Lemma built_plan_digest b now e actor session bp plan :
  Build b now e actor session bp = Ok plan ->
  digest_text (Plan_Digest plan) /\ Plan_Schema plan = PlanSchema /\ Plan_Actor plan = actor.
Proof. unfold Build. case_match; [done|]. intros [= <-]. split; [apply digest_text_sha256|done]. Qed.

(** C38 The published schemas are kept, for four kinds of documents, whenever they are encoded at all: every inventory whose host
    names are valid UTF-8; every plan that [Build] makes for an actor of a known kind; every record that the program
    appends, whatever fails on the way, for actors of known kinds at times that JSON can hold, to a store that is empty or ends in a
    lower-case digest, as one that it wrote itself does, while the 64-bit sequence lasts; and every grant issued for a plan
    that [Build] made with a session of at most 160 bytes.  (Records that a reopened log held before are what its file
    said; a plan from elsewhere may get a grant outside its schema, [shouted_digest_granted].) *)
Theorem published_documents_validate message info :
  (forall O (observer : Observer O) (s : sight O) snapshot v,
     (take_Snapshot defaultDefinitions s).1 = Ok snapshot -> Forall readable_names (Sn_Components snapshot) ->
     payload_json message info (JSONSnapshot snapshot) = Some v -> valid inventory_schema v = true) /\
  (forall b now e actor session bp plan v,
     Build b now e actor session bp = Ok plan -> Actor_Kind actor ∈ actor_kinds ->
     payload_json message info (JSONPlan plan) = Some v -> valid plan_schema v = true) /\
  (forall s file inputs, Forall proper_input inputs -> AS_LastHash s = "" \/ digest_text (AS_LastHash s) ->
     0 <= AS_Sequence s -> AS_Sequence s + Z.of_nat (length inputs) < 2 ^ 64 ->
     exists added, AS_Records (append_all inputs s file).1 = AS_Records s ++ added /\
       Forall (fun r => valid record_schema (encode_AuditRecord r) = true) added) /\
  (forall b now e actor session bp plan io entropy t approver s file g s' file',
     Build b now e actor session bp = Ok plan -> slen (Plan_SessionID plan) <= 160 ->
     Issue io entropy t plan approver s file = (Ok g, s', file') -> grant_marshals (GR_Grant g) = true ->
     valid grant_schema (encode_ConfirmationGrant (GR_Grant g)) = true).
Proof.
  split; [|split; [|split]].
  - intros O Ho s snapshot v E Hn Hv. destruct (snapshot_conforms s snapshot E) as (Hs & Hc & _). cbn [payload_json] in Hv.
    destruct (snapshot_marshals snapshot) eqn:Hm; [|done]. injection Hv as <-. unfold snapshot_marshals in Hm. bool_prop.
    destruct Hm. apply valid_inventory; [exact Hs|by apply marshals_ok|exact Hc|exact Hn].
  - intros b now e actor session bp plan v E Ha Hv. apply built_plan_digest in E as (Hd & Hs & <-). cbn [payload_json] in Hv.
    destruct (plan_marshals plan) eqn:Hm; [|done]. injection Hv as <-. unfold plan_marshals in Hm. bool_prop.
    destruct Hm. by apply valid_plan; try apply marshals_ok.
  - intros s file inputs Hi Hh H0 Hn. refine (ps_records _ _ _ (append_all_published (AS_Records s) inputs (AS_Sequence s) s file Hn Hi _)).
    split; [lia|exact Hh|]. exists []. by rewrite app_nil_r.
  - intros b now e actor session bp plan io entropy t approver s file g s' file' Hb Hl Hi Hm.
    apply built_plan_digest in Hb as (Hd & _ & _). by eapply issued_grant_valid.
Qed.

(** *** Beyond the plans of the public API

    [VerifyPlanDigest] does not look at the case of the digest, the schema of a grant does. *)
Definition shouted_plan : OperationPlan := with_digest (of_bytes (upper_ascii <$> to_bytes (Plan_Digest example_plan))) example_plan.

Lemma shouted_digest_granted :
  match (Issue io_works example_entropy example_now shouted_plan example_approver
    {| Store_Path := "/var/lib/grants.json"; Store_TTL := 5 * Minute; Store_Data := {| GS_Schema := grantStoreSchema; GS_Grants := [] |} |}
    FileMissing).1.1 with
  | Ok g => valid grant_schema (encode_ConfirmationGrant (GR_Grant g)) = false
  | Err _ => False
  end.
Proof. vm_compute. reflexivity. Qed.

(** ** Concrete documents *)

Definition example_input : append_input :=
  {| AI_IO := audit_io_works; AI_Entropy := example_id; AI_Now := example_now; AI_Event := example_plain |}.

Lemma published_documents_validate_witness :
  (exists snapshot v, (take_Snapshot defaultDefinitions (Sight starlight [])).1 = Ok snapshot /\
     payload_json text_format development_build (JSONSnapshot snapshot) = Some v /\ valid inventory_schema v = true) /\
  valid plan_schema (encode_OperationPlan example_plan) = true /\
  Forall (fun r => valid record_schema (encode_AuditRecord r) = true)
    (AS_Records (append_all [example_input; example_input] (empty_store example_path) AuditMissing).1) /\
  length (AS_Records (append_all [example_input; example_input] (empty_store example_path) AuditMissing).1) = 2%nat.
Proof.
  destruct (published_documents_validate text_format development_build) as (Hinv & Hplan & Hrec & _). split; [|split; [|split]].
  - assert (H : match (take_Snapshot defaultDefinitions (Sight starlight [])).1 with
      | Ok s => bool_decide (Forall readable_names (Sn_Components s)) && snapshot_marshals s
      | Err _ => false
      end = true) by (vm_compute; reflexivity).
    destruct (take_Snapshot defaultDefinitions (Sight starlight [])).1 as [snapshot|e] eqn:E; [|discriminate H].
    apply andb_true_iff in H as [Hn Hm]. apply bool_decide_eq_true in Hn.
    assert (Hj : payload_json text_format development_build (JSONSnapshot snapshot) = Some (encode_Snapshot snapshot))
      by (cbn [payload_json]; by rewrite Hm).
    exists snapshot, (encode_Snapshot snapshot). split; [reflexivity|]. split; [exact Hj|]. exact (Hinv _ _ _ _ _ E Hn Hj).
  - refine (Hplan {| PB_TTL := 0 |} example_now {| Ent_Bytes := Some [chr 1; chr 2]; Ent_UnixNano := 0 |} example_actor "session-1"
      example_broker_plan example_plan _ _ _ _); [vm_compute; reflexivity|by left|vm_compute; reflexivity].
  - destruct (Hrec (empty_store example_path) AuditMissing [example_input; example_input]) as (added & -> & Hadded);
      [|by left|by vm_compute|by vm_compute|exact Hadded].
    repeat constructor; vm_compute; congruence.
  - vm_compute. reflexivity.
Defined.

(** *** The files that are read

    The shipped examples are valid.  The schema counts the characters of a display name, the reader its bytes: 81 letters of two bytes
    are valid and refused. *)
Definition document_valid (s : schema) (content : bytes) : bool := match parse content with Parsed v _ => valid s v | _ => false end.

Example shipped_documents_valid : document_valid registry_schema actors_example = true /\ document_valid policy_schema policy_example = true.
Proof. split; vm_compute; reflexivity. Qed.

Definition long_name : string := of_bytes (mjoin (repeat [chr 0xC3; chr 0xA9] 81)).
Definition long_name_actor : Actor :=
  {| Actor_ID := "human:alice"; Actor_Kind := ActorHuman; Actor_DisplayName := long_name; Actor_Roles := ["reader"]; Actor_Permissions := [] |}.
Definition long_name_document : bytes :=
  marshal (of_struct [("schema", of_string ActorSchema); ("actors", JArray [of_struct [("actor", encode_Actor long_name_actor);
    ("token_sha256", of_string (sha256_hex "token"))]])]).

Lemma long_display_name_refused :
  document_valid registry_schema long_name_document = true /\
  LoadActorRegistry (registry_of (ReadBytes long_name_document)) =
    Err (errorf "actor %d: %w" ["0"; "actor display_name is required and must not exceed 160 characters"]).
Proof. split; vm_compute; reflexivity. Qed.
