(* ===== verification/Access.v ===== *)
(** * Answers as they leave, and the access log

    Around the handlers of the public API (internal/control/server.go): [withRequestID], [logRequests] with its [statusRecorder], and
    the headers that [writeJSON] and [requirePermission] set, over the [ResponseWriter] of net/http. *)

From S2P Require Import Prelude GoStrings GoTime Json Mux Protocol Actors Plans Grants AuditLog ServiceControl System.
From S2P Require Import Control Json JsonParse Messages Answers Routes Payloads.
#[local] Open Scope Z_scope.

(** ** The writer of net/http *)

(** The calls of a handler.  A header key is written in one way throughout, so keys are compared as they stand. *)
Inductive writer_call := SetHeader (key value : string) | CallWriteHeader (status : Z) | CallWrite (data : bytes).

#[local] Notation headers := (gmap string string).
(** What has been set, what was sent (status line, the headers as they were then, the body), and informational answers before it. *)
Record response_writer := {
  RW_Header : headers;
  RW_Sent : option (Z * headers);
  RW_Body : bytes;
  RW_Informational : list Z
}.
Definition new_writer : response_writer := {| RW_Header := ∅; RW_Sent := None; RW_Body := []; RW_Informational := [] |}.

(** A status 1xx other than 101 is sent at once and another may follow. *)
Definition informational (status : Z) : bool := (100 <=? status) && (status <=? 199) && negb (status =? 101).

(** [WriteHeader]: only the first final status counts; one that has not three digits panics ([None]). *)
Definition http_WriteHeader (status : Z) (w : response_writer) : option response_writer :=
  match RW_Sent w with
  | Some _ => Some w
  | None =>
    if (status <? 100) || (999 <? status) then None
    else if informational status then
      Some {| RW_Header := RW_Header w; RW_Sent := None; RW_Body := RW_Body w; RW_Informational := RW_Informational w ++ [status] |}
    else
      Some {| RW_Header := RW_Header w; RW_Sent := Some (status, RW_Header w); RW_Body := RW_Body w;
              RW_Informational := RW_Informational w |}
  end.
Definition http_Write (data : bytes) (w : response_writer) : option response_writer :=
  w ← match RW_Sent w with None => http_WriteHeader 200 w | Some _ => Some w end;
  Some {| RW_Header := RW_Header w; RW_Sent := RW_Sent w; RW_Body := RW_Body w ++ data; RW_Informational := RW_Informational w |}.
Definition http_SetHeader (key value : string) (w : response_writer) : response_writer :=
  {| RW_Header := <[key := value]> (RW_Header w); RW_Sent := RW_Sent w; RW_Body := RW_Body w;
     RW_Informational := RW_Informational w |}.
Definition http_call (c : writer_call) (w : response_writer) : option response_writer :=
  match c with
  | SetHeader key value => Some (http_SetHeader key value w)
  | CallWriteHeader status => http_WriteHeader status w
  | CallWrite data => http_Write data w
  end.
(** A handler that has not written anything answers 200. *)
Definition http_finish (w : response_writer) : option response_writer :=
  match RW_Sent w with None => http_WriteHeader 200 w | Some _ => Some w end.

(** ** [statusRecorder] *)

Record statusRecorder := { SR_Writer : response_writer; SR_status : Z; SR_wroteHeader : bool }.
Definition new_recorder (w : response_writer) : statusRecorder := {| SR_Writer := w; SR_status := 200; SR_wroteHeader := false |}.

Definition recorder_WriteHeader (status : Z) (r : statusRecorder) : option statusRecorder :=
  if SR_wroteHeader r then Some r
  else
    w ← http_WriteHeader status (SR_Writer r);
    Some {| SR_Writer := w; SR_status := status; SR_wroteHeader := true |}.
Definition recorder_Write (data : bytes) (r : statusRecorder) : option statusRecorder :=
  r ← (if negb (SR_wroteHeader r) then recorder_WriteHeader 200 r else Some r);
  w ← http_Write data (SR_Writer r);
  Some {| SR_Writer := w; SR_status := SR_status r; SR_wroteHeader := SR_wroteHeader r |}.
Definition recorder_call (c : writer_call) (r : statusRecorder) : option statusRecorder :=
  match c with
  | SetHeader key value =>
    Some {| SR_Writer := http_SetHeader key value (SR_Writer r); SR_status := SR_status r; SR_wroteHeader := SR_wroteHeader r |}
  | CallWriteHeader status => recorder_WriteHeader status r
  | CallWrite data => recorder_Write data r
  end.

Fixpoint run_calls {W} (call : writer_call -> W -> option W) (calls : list writer_call) (w : W) : option W :=
  match calls with
  | [] => Some w
  | c :: calls => w ← call c w; run_calls call calls w
  end.

(** ** Headers and log *)

Record access_record := {
  AC_request_id : string;
  AC_method : string;
  AC_path : string;
  AC_status : Z;
  AC_duration_ms : Z
}.

(** [logRequests] around calls on the writer: nothing is logged when the handler panics. *)
Definition logRequests (raw : raw_request) (request_id : string) (elapsed : duration) (calls : list writer_call)
    (w : response_writer) : option (response_writer * access_record) :=
  recorder ← run_calls recorder_call calls (new_recorder w);
  Some (SR_Writer recorder,
        {| AC_request_id := request_id; AC_method := RR_Method raw; AC_path := RR_Path raw; AC_status := SR_status recorder;
           AC_duration_ms := elapsed ÷ 1000000 |}).

Section answers.
(** How a message reads, the build, and the texts that net/http writes into its own answers. *)
Context (message : text -> string) (info : build_info) (location : unmatched -> string) (page : unmatched -> bytes).
#[local] Notation payload_json := (payload_json message info).
#[local] Notation payload_bytes := (payload_bytes message info).

Definition quoted (s : string) : string := String quote_char s +:+ String quote_char EmptyString.

(** [writeJSON]: a payload that cannot be encoded leaves the status with an empty body. *)
Definition write_json (status : Z) (p : payload) : list writer_call :=
  [SetHeader "Content-Type" "application/json; charset=utf-8";
   SetHeader "Cache-Control" "no-store";
   SetHeader "X-Content-Type-Options" "nosniff";
   CallWriteHeader status] ++ (if payload_json p then [CallWrite (payload_bytes p)] else []).

(** The multiplexer's own answers: [http.Error], [http.Redirect]. *)
Definition write_unmatched (method : string) (u : unmatched) : list writer_call :=
  match u with
  | MuxBadRequest => [SetHeader "Connection" "close"; CallWriteHeader (unmatched_status u)]
  | MuxNotFound =>
    [SetHeader "Content-Type" "text/plain; charset=utf-8"; SetHeader "X-Content-Type-Options" "nosniff";
     CallWriteHeader (unmatched_status u); CallWrite (page u)]
  | MuxNotAllowed allow =>
    [SetHeader "Allow" (String.concat ", " allow); SetHeader "Content-Type" "text/plain; charset=utf-8";
     SetHeader "X-Content-Type-Options" "nosniff"; CallWriteHeader (unmatched_status u); CallWrite (page u)]
  | MuxRedirect _ =>
    [SetHeader "Location" (location u)]
    ++ (if (method == "GET") || (method == "HEAD") then [SetHeader "Content-Type" "text/html; charset=utf-8"] else [])
    ++ [CallWriteHeader (unmatched_status u)] ++ (if method == "GET" then [CallWrite (page u)] else [])
  end.

(** What the handlers do to the writer for an answer of [Control.v]. *)
Definition response_calls (method : string) (response : http_response) : list writer_call :=
  (if HTTP_Challenge response then [SetHeader "WWW-Authenticate" ("Bearer realm=" +:+ quoted "Quantum Control")] else [])
  ++ match HTTP_Payload response with
     | PlainUnmatched u => write_unmatched method u
     | p => write_json (HTTP_Status response) p
     end.

(** [ServeHTTP]: [withRequestID] sets the header before [logRequests] runs the multiplexer. *)
Definition answered (raw : raw_request) (elapsed : duration) (response : http_response) :
    option (response_writer * access_record) :=
  let id := HTTP_RequestID response in
  '(w, record) ← logRequests raw id elapsed (response_calls (RR_Method raw) response) (http_SetHeader "X-Quantum-Request-ID" id new_writer);
  w ← http_finish w;
  Some (w, record).
Definition ServeHTTP (error_text : bytes -> text) (limit : Z) (srv : Server) (approval : bool) (elapsed : duration) (raw : raw_request) :
    prog (option (response_writer * access_record)) :=
  response ← Handler srv approval (control_request error_text limit raw);
  mret (answered raw elapsed response).
End answers.

(** ** The recorder changes nothing and records the truth *)

Definition final_status (c : writer_call) : Prop :=
  match c with CallWriteHeader status => informational status = false | _ => True end.

(** The recorder of a writer that has been written through it. *)
Definition recorder_of (w : response_writer) : statusRecorder :=
  {| SR_Writer := w; SR_status := default 200 (fst <$> RW_Sent w); SR_wroteHeader := bool_decide (is_Some (RW_Sent w)) |}.

Lemma recorder_WriteHeader_of status w : informational status = false ->
  recorder_WriteHeader status (recorder_of w) = recorder_of <$> http_WriteHeader status w.
Proof.
  intros Hf. unfold recorder_WriteHeader, http_WriteHeader. cbn. destruct (RW_Sent w) as [[code sent]|] eqn:E; [done|]. cbn.
  destruct (_ || _); [done|]. by rewrite Hf.
Qed.
Lemma recorder_call_of c w : final_status c -> recorder_call c (recorder_of w) = recorder_of <$> http_call c w.
Proof.
  destruct c as [key value|status|data]; intros Hf; [done|by apply recorder_WriteHeader_of|].
  unfold recorder_call, recorder_Write, http_call, http_Write. cbn. destruct (RW_Sent w) as [[code sent]|] eqn:E; cbn.
  - rewrite E. cbn. by unfold recorder_of; cbn; rewrite E.
  - rewrite recorder_WriteHeader_of by done. unfold http_WriteHeader. rewrite E. done.
Qed.
Lemma recorder_calls calls w : Forall final_status calls ->
  run_calls recorder_call calls (recorder_of w) = recorder_of <$> run_calls http_call calls w.
Proof.
  intros H. revert w. induction H as [|c calls Hc _ IH]; intros w; [done|]. cbn. rewrite recorder_call_of by done.
  destruct (http_call c w); cbn; [apply IH|done].
Qed.

(** ** What every answer of the handlers has *)

(** All answers a program can end in. *)
Fixpoint always {A} (P : A -> Prop) (p : prog A) : Prop :=
  match p with
  | Ret a => P a
  | Do e k => forall a, always P (k a)
  end.
Lemma always_mono {A} (P Q : A -> Prop) (p : prog A) : (forall a, P a -> Q a) -> always P p -> always Q p.
Proof. intros HPQ. induction p as [a|e k IH]; cbn; auto. Qed.
Lemma always_bind {A B} (P : B -> Prop) (k : A -> prog B) (p : prog A) :
  always (fun a => always P (k a)) p -> always P (a ← p; k a).
Proof. induction p as [a|e j IH]; cbn; auto. Qed.

Record proper (rt : route) (id : string) (r : http_response) : Prop := {
  pr_id : HTTP_RequestID r = id;
  pr_status : 200 <= HTTP_Status r <= 599;
  pr_challenge : HTTP_Challenge r = true <-> HTTP_Status r = 401;
  pr_payload :
    match HTTP_Payload r with
    | JSONProblem _ i => i = id
    | PlainUnmatched u => rt = RouteUnmatched u /\ HTTP_Status r = unmatched_status u
    | _ => True
    end
}.

Lemma operationHTTPStatus_values status : operationHTTPStatus status ∈ [200; 400; 500; 502].
Proof. unfold operationHTTPStatus. repeat case_match; set_solver. Qed.
Lemma proper_operation rt id status response : proper rt id
  {| HTTP_Status := operationHTTPStatus status; HTTP_Challenge := false; HTTP_RequestID := id; HTTP_Payload := JSONOperation response |}.
Proof.
  pose proof (operationHTTPStatus_values status) as H. split; cbn; try done; set_unfold; [lia|]. split; [done|lia].
Qed.
Lemma appendAudit_always srv event (P : unit -> Prop) : P tt -> always P (appendAudit srv event).
Proof. intros H. unfold appendAudit. destruct (negb _); cbn; auto. Qed.

Ltac always_step :=
  match goal with
  | |- always _ (mbind _ (appendAudit _ _)) => apply always_bind, appendAudit_always
  | |- always _ (mbind _ _) => apply always_bind; cbn; intros ?
  | |- always _ (decode_body _ _ ?b _) => unfold decode_body; destruct b
  | |- always _ (match ?x with _ => _ end) => destruct x
  | |- always _ (let _ := _ in _) => cbv zeta
  | |- always _ (writeJSON _ (operationHTTPStatus _) (JSONOperation _)) => apply proper_operation
  | |- always _ (Ret _) => cbn
  | |- always _ (Do _ _) => cbn
  | |- forall _, _ => intros ?
  | |- proper _ _ _ => first [apply proper_operation | split; cbn; repeat case_match; (done || lia)]
  | |- always _ (mret _) => unfold mret, prog_ret
  | |- always _ (writeProblem _ _ _ _) => unfold writeProblem
  | |- always _ (writeJSON _ _ _) => unfold writeJSON, mret, prog_ret
  | |- always _ (brokerGatewayError _) => unfold brokerGatewayError
  end.

Lemma next_proper srv approval rt permission next cx id :
  protected srv approval rt = Some (permission, next) -> CX_RequestID cx = id -> always (proper rt id) (next cx).
Proof.
  intros H <-. destruct rt; cbn in H; try discriminate H; injection H as <- <-.
  all: unfold handleInfo, handleOperations, handlePlan, handleExecute, handleApprovedExecute, handleSystemStatus, handleServiceStatus,
    read_status, handleAuditQuery, handleAuditIntegrity, handleConfirmation, handleComponents, handleComponent, inventory_failure; cbv zeta.
  all: repeat always_step.
Qed.

Lemma Handler_proper srv approval request :
  always (fun r => exists id, proper (HR_Route request) id r) (Handler srv approval request).
Proof.
  unfold Handler. apply always_bind. cbn. intros e. set (id := match Ent_Bytes e with Some _ => _ | None => _ end).
  apply (always_mono (proper (HR_Route request) id)); [by eexists|]. generalize id; clear id e. intros id.
  destruct (protected srv approval (HR_Route request)) as [[permission next]|] eqn:E.
  - unfold requirePermission. cbv zeta. repeat always_step.
    all: by eapply next_proper.
  - destruct (HR_Route request); unfold handleReady; repeat always_step. all: destruct u; cbn; (done || lia).
Qed.

Lemma response_calls_final method message info location page rt id r :
  proper rt id r -> Forall final_status (response_calls message info location page method r).
Proof.
  intros [_ Hs _ Hp]. assert (Hf : informational (HTTP_Status r) = false) by (unfold informational; lia).
  unfold response_calls. apply Forall_app. split; [by destruct (HTTP_Challenge r); repeat constructor|].
  assert (Hw : forall p, Forall final_status (write_json message info (HTTP_Status r) p)).
  { intros p. unfold write_json. apply Forall_app. split; [repeat (constructor; [done|]); by constructor|].
    destruct (payload_json _ _ _); by repeat constructor. }
  destruct (HTTP_Payload r); try apply Hw.
  destruct Hp as [_ Hp]. rewrite Hp in Hf. destruct u; cbn; repeat case_match; repeat (constructor; [done|]); by constructor.
Qed.

Lemma run_calls_app {W} (call : writer_call -> W -> option W) l k w :
  run_calls call (l ++ k) w = w ← run_calls call l w; run_calls call k w.
Proof. revert w. induction l as [|c l IH]; intros w; [done|]. cbn. destruct (call c w); cbn; [apply IH|done]. Qed.

Lemma response_calls_cases message info location page method r :
  (exists u, HTTP_Payload r = PlainUnmatched u) \/
  response_calls message info location page method r =
    (if HTTP_Challenge r then [SetHeader "WWW-Authenticate" ("Bearer realm=" +:+ quoted "Quantum Control")] else [])
    ++ write_json message info (HTTP_Status r) (HTTP_Payload r).
Proof. unfold response_calls. destruct (HTTP_Payload r); first [by right|left; by eexists]. Qed.

(** A writer with headers and nothing sent; one that has sent. *)
Definition fresh (h : headers) : response_writer := {| RW_Header := h; RW_Sent := None; RW_Body := []; RW_Informational := [] |}.
Definition sent_writer (status : Z) (h : headers) (body : bytes) : response_writer :=
  {| RW_Header := h; RW_Sent := Some (status, h); RW_Body := body; RW_Informational := [] |}.

Lemma send_status status h body rest : 200 <= status <= 599 ->
  run_calls http_call (CallWriteHeader status :: rest) (fresh h) = run_calls http_call rest (sent_writer status h []) /\
  run_calls http_call [CallWrite body] (sent_writer status h []) = Some (sent_writer status h body).
Proof.
  intros Hs. split; [|done]. cbn [run_calls http_call]. unfold http_WriteHeader. cbn [fresh RW_Sent RW_Header RW_Body RW_Informational].
  assert (((status <? 100) || (999 <? status) = false) /\ informational status = false) as [-> ->] by (unfold informational; lia).
  done.
Qed.

Lemma run_write_json message info status p h : 200 <= status <= 599 ->
  run_calls http_call (write_json message info status p) (fresh h) =
    Some (sent_writer status (<["X-Content-Type-Options" := "nosniff"]> (<["Cache-Control" := "no-store"]>
      (<["Content-Type" := "application/json; charset=utf-8"]> h))) (payload_bytes message info p)).
Proof.
  intros Hs. set (h' := <["X-Content-Type-Options" := "nosniff"]> _).
  set (rest := if payload_json message info p then [CallWrite (payload_bytes message info p)] else []).
  change (run_calls http_call (write_json message info status p) (fresh h)) with
    (run_calls http_call (CallWriteHeader status :: rest) (fresh h')).
  edestruct (send_status status h' (payload_bytes message info p) rest) as [-> E]; [done|]. unfold rest.
  destruct (payload_json message info p) eqn:Ej; [exact E|]. cbn. unfold payload_bytes. by rewrite Ej.
Qed.
Lemma run_unmatched location page method u h :
  exists h' body, run_calls http_call (write_unmatched location page method u) (fresh h) =
    Some (sent_writer (unmatched_status u) h' body) /\ h' !! "X-Quantum-Request-ID" = h !! "X-Quantum-Request-ID".
Proof.
  destruct u; cbn; repeat case_match; cbn; eexists _, _; (split; [reflexivity|]); cbn; by rewrite ?lookup_insert_ne by done.
Qed.

(** C16 What a client receives and what the log says.  However the effects of a request are answered, the request ends in one final
    answer and one line of the log.  The status of the line is the status that was sent, its request number is in the header
    X-Quantum-Request-ID of the answer and in its error object, its method and path are those of the request.  Every answer of a handler
    is announced as JSON and forbids caching and sniffing; it carries a challenge exactly when its status is 401; its body is the
    encoding of the payload of the handler, empty when that has no JSON text, and otherwise (integers within [float64], nesting within
    the limit) one JSON value and a newline. *)
Theorem access_log message info location page error_text limit srv approval elapsed raw :
  always (fun o => exists w record sent,
    o = Some (w, record) /\ RW_Sent w = Some (AC_status record, sent) /\ RW_Informational w = [] /\
    AC_method record = RR_Method raw /\ AC_path record = RR_Path raw /\
    sent !! "X-Quantum-Request-ID" = Some (AC_request_id record) /\
    ((exists u, control_route error_text limit raw = RouteUnmatched u /\ AC_status record = unmatched_status u) \/
     (exists p, RW_Body w = payload_bytes message info p /\
      (payload_json message info p = None -> RW_Body w = []) /\
      (forall v, payload_json message info p = Some v -> payload_fits p = true -> parse (RW_Body w) = Parsed v [chr 10]) /\
      (forall problem id, p = JSONProblem problem id -> id = AC_request_id record) /\
      sent !! "Content-Type" = Some "application/json; charset=utf-8" /\ sent !! "Cache-Control" = Some "no-store" /\
      sent !! "X-Content-Type-Options" = Some "nosniff" /\ (is_Some (sent !! "WWW-Authenticate") <-> AC_status record = 401))))
    (ServeHTTP message info location page error_text limit srv approval elapsed raw).
Proof.
  unfold ServeHTTP. apply always_bind. eapply always_mono; [|apply Handler_proper]. cbn.
  intros r [id Hr]. pose proof (response_calls_final (RR_Method raw) message info location page _ _ _ Hr) as Hf.
  unfold answered, logRequests. change (new_recorder ?w) with (recorder_of w). rewrite recorder_calls by exact Hf. clear Hf.
  destruct Hr as [-> Hs Hc Hp]. change (http_SetHeader "X-Quantum-Request-ID" id new_writer) with (fresh {["X-Quantum-Request-ID" := id]}).
  destruct (response_calls_cases message info location page (RR_Method raw) r) as [[u Hu]|Hcalls].
  - rewrite Hu in Hp. destruct Hp as [Hroute Hstatus].
    assert (Hn : HTTP_Challenge r = false).
    { apply not_true_is_false. rewrite Hc, Hstatus. by destruct u. }
    unfold response_calls. rewrite Hu, Hn, app_nil_l.
    destruct (run_unmatched location page (RR_Method raw) u {["X-Quantum-Request-ID" := id]}) as (h & body & -> & Hh).
    cbn. eexists _, _, h. split; [reflexivity|]. cbn. split; [reflexivity|]. do 3 (split; [reflexivity|]). split; [exact Hh|].
    left. exists u. split; [exact Hroute|reflexivity].
  - rewrite Hcalls, run_calls_app.
    set (h := if HTTP_Challenge r then <["WWW-Authenticate" := "Bearer realm=" +:+ quoted "Quantum Control"]> {["X-Quantum-Request-ID" := id]}
              else {["X-Quantum-Request-ID" := id]} : headers).
    assert (Hh : run_calls http_call (if HTTP_Challenge r then [SetHeader "WWW-Authenticate" ("Bearer realm=" +:+ quoted "Quantum Control")]
      else []) (fresh {["X-Quantum-Request-ID" := id]}) = Some (fresh h)) by (unfold h; by destruct (HTTP_Challenge r)).
    rewrite Hh. cbn [mbind option_bind]. rewrite run_write_json by exact Hs. cbn. eexists _, _, _. split; [reflexivity|]. cbn.
    split; [reflexivity|]. do 3 (split; [reflexivity|]).
    rewrite !lookup_insert_ne by done.
    assert (Hid : h !! "X-Quantum-Request-ID" = Some id) by (unfold h; destruct (HTTP_Challenge r); by rewrite ?lookup_insert_ne, lookup_singleton_eq by done).
    split; [exact Hid|]. right. exists (HTTP_Payload r). split; [reflexivity|].
    split; [intros E; unfold payload_bytes; by rewrite E|].
    split; [intros v Hv Hfit; by apply payload_line|]. split; [intros problem i E; by rewrite E in Hp|].
    do 3 (split; [by rewrite ?lookup_insert_ne, lookup_insert_eq by done|]).
    rewrite !lookup_insert_ne by done. rewrite <-Hc. unfold h. destruct (HTTP_Challenge r); [by rewrite lookup_insert_eq|].
    rewrite lookup_singleton_ne by done. split; [by intros []|done].
Qed.
