(* ===== verification/EndToEnd.v ===== *)
(** * Both processes together

    The public API of [Control.v] in front of the broker of [Broker.v], connected by the client of [Client.v]: what one has to
    establish for a mutation that the public API asked for. *)

From S2P Require Import Prelude GoStrings Sha256 GoTime Protocol Actors Plans Grants AuditLog ServiceControl System Registry Mutations.
From S2P Require Import Control Broker Client.
From S2P Require Import JsonDecode JsonAny Messages Routes Wire.
#[local] Open Scope Z_scope.

Section separation.
Context {H S : Type} `{!Host H} `{!System S} `{!SystemLaws S} `{!SocketClient S}.

(** A client of a broker that has just started without a grant file. *)
Definition fresh_client (token : string) (srv : Server) (path : string) (ttl : duration) (w : world S)
    (script : nat -> moment) : client_state S :=
  {| CL_Token := token; CL_Server := srv; CL_Broker := broker_start path ttl FileMissing w; CL_Script := script;
     CL_Calls := 0; CL_Rounds := [] |}.

Lemma fresh_connected token srv path ttl w script :
  connected token srv (broker_start path ttl FileMissing w) script (fresh_client token srv path ttl w script).
Proof. split; try reflexivity. constructor. Qed.

(** The rounds are a run of the broker over decodable requests. *)
Lemma connected_wire token srv start script (b : client_state S) :
  connected token srv start script b -> (forall n, Forall wire_broker_op (MO_Before (script n))) ->
  Forall wire_broker_op (rd_op <$> (CL_Rounds b).*2).
Proof.
  intros Hb Hw. apply Forall_fmap, Forall_fmap. eapply Forall_impl; [apply (cn_ops _ _ _ _ _ Hb)|].
  intros [[] rd]; simpl.
  - intros (env & request & -> & Hr). by eapply client_request_wire.
  - intros [n Hn]. specialize (Hw n). rewrite Forall_forall in Hw. by apply Hw.
Qed.

Lemma own_executions_elem (b : client_state S) k rd :
  CL_Rounds b !! k = Some (true, rd) -> is_Some (presented (rd_op rd)) -> rd ∈ own_executions b.
Proof.
  intros Hk [token Hp]. apply list_elem_of_lookup_2 in Hk. apply list_elem_of_omap. exists (true, rd). split; [done|].
  unfold own_execution, presented in *. simpl in *. destruct (rd_op rd) as [env request|]; [|done].
  by destruct request as [| | | | |? []|].
Qed.

Section run.
Context (control : Control.Server) (requests : list http_request) (s : control_state H (client_state S)) (schedule : list nat).
Let pl := run_pool schedule (start_pool control requests s).

(** An own round that executes was requested by a handler. *)
Lemma own_round_requested k rd :
  CL_Rounds (CS_Broker s) = [] -> CL_Rounds (CS_Broker (PL_State pl)) !! k = Some (true, rd) ->
  is_Some (presented (rd_op rd)) ->
  exists before i plan confirmation credential response after,
    PL_History pl = before ++ (i, SawExecuteApproved plan confirmation credential response) :: after /\
    executes_in rd plan confirmation credential.
Proof.
  intros Hs Hk Hp. pose proof (own_executions_elem _ _ _ Hk Hp) as Hin.
  destruct (executions_requested control requests s schedule) as (new & sent & Hnew & Hf & Hsub). fold pl in Hnew, Hsub.
  simpl in Hnew. rewrite Hnew in Hin. unfold own_executions in Hin at 1. rewrite Hs in Hin. simpl in Hin.
  apply list_elem_of_lookup in Hin as [n Hn]. destruct (Forall2_lookup_l _ _ _ _ _ Hf Hn) as ([[plan confirmation] credential] & Hr & Hx).
  apply list_elem_of_lookup_2 in Hr. eapply elem_of_sublist in Hr; [|exact Hsub].
  apply list_elem_of_omap in Hr as ([i o] & Hin & Ho). apply list_elem_of_split in Hin as (before & after & Hh).
  unfold requested in Ho. destruct o; simplify_eq/=. by eexists before, i, _, _, _, _, after.
Qed.

(** C1 Separation of duty, from the public API to the machine.  In every interleaving of any requests on a fresh public API
    in front of a confined broker that started without a grant file, with other users of its socket, restarts,
    lost messages and failures of any kind: if a call of the public API changes a service, then a caller authenticated there
    with the permission to mutate asked for this plan; an admitted caller had it built, as its actor, from a request to this server;
    an append to the audit log was attempted that announces it (a failed append is passed over); the broker itself authenticated an executor with the permission; its actions
    are the plan's action on the plan's one unit and at most one recovery; and before, in a request of its own, a human with
    the permission to confirm whom the broker authenticated, and who is not the planning actor, confirmed exactly this plan
    (or SHA-256 has a collision). *)
Theorem separation_of_duty srv token path ttl w script k rd :
  confined (Srv_Registry srv) -> wire_actors srv -> (forall n, Forall wire_broker_op (MO_Before (script n))) ->
  CS_Plans s = ∅ -> CS_Broker s = fresh_client token srv path ttl w script ->
  let rounds := CL_Rounds (CS_Broker (PL_State pl)) in
  rounds !! k = Some (true, rd) -> round_actions rd <> [] ->
  exists before i plan confirmation credential response after cx t,
    PL_History pl = before ++ (i, SawExecuteApproved plan confirmation credential response) :: after /\
    forwarded control requests before i PermissionOperationMutate cx plan /\ credential = CX_Credential cx /\
    (Control.Srv_Audit control = true -> exists record, (i, SawAppend (attempt_event cx plan) record) ∈ before) /\
    executes_in rd plan confirmation credential /\ presents srv rd (scrub confirmation) t (scrub_plan plan) /\
    acts_as_planned srv rd (scrub_plan plan) /\
    exists k0 own rd0 g plan0 approver, (k0 < k)%nat /\ rounds !! k0 = Some (own, rd0) /\
      confirms srv rd0 g plan0 approver /\ issuance g plan0 approver /\ t < Grant_ExpiresAt (GR_Grant g) /\
      (binding (scrub_plan plan) = binding plan0 \/ collision (canonical_plan (scrub_plan plan)) (canonical_plan plan0)).
Proof.
  intros Hc Hwa Hw Hplans Hb rounds Hk Hacts.
  assert (Hconn : connected token srv (broker_start path ttl FileMissing w) script (CS_Broker (PL_State pl))).
  { apply run_broker; [apply connected_closed|]. rewrite Hb. apply fresh_connected. }
  assert (Hrun : broker_run srv (broker_start path ttl FileMissing w) (rd_op <$> rounds.*2) !! k = Some rd)
    by (unfold rounds in *; rewrite (cn_rounds _ _ _ _ _ Hconn), list_lookup_fmap, Hk; reflexivity).
  destruct (confirmed_mutation srv path ttl w _ k rd Hc Hwa (connected_wire _ _ _ _ _ Hconn Hw) Hrun Hacts)
    as (tok & t & plan' & Hp & Ha & _ & k0 & rd0 & g & plan0 & approver & Hlt & Hk0 & Hconf & Hiss & _ & Hexp & Hbind).
  pose proof Hp as (env & tok' & envelope & executor & Hop & _ & Hplan & Htok & _).
  destruct (own_round_requested k rd) as (before & i & plan & confirmation & credential & response & after & Hh & Hx);
    [by rewrite Hb|exact Hk|by rewrite Hop|].
  pose proof Hx as (env' & tok'' & Hop'). rewrite Hop in Hop'. simplify_eq/=.
  destruct (forwarded_all control requests s schedule before i _ after Hplans Hh) as (cx & Hf & Hcred & Haudit).
  exists before, i, plan, confirmation, credential, response, after, cx, t.
  unfold rounds in Hk0. rewrite (cn_rounds _ _ _ _ _ Hconn), list_lookup_fmap in Hk0.
  apply fmap_Some in Hk0 as ([own rd0'] & Hk0 & ->).
  do 7 (split; [assumption|]). exists k0, own, rd0', g, plan0, approver. do 5 (split; [assumption|]). exact Hbind.
Qed.
End run.
End separation.

(** ** A concrete run

    Alice plans a restart, the approver confirms it, the executor has it executed. *)

Definition example_control_server : Control.Server :=
  {| Srv_Authenticator := Some (fun token =>
       if token == "alice-token" then Some example_caller else example_authenticator token);
     Srv_Audit := true; Srv_Plans := true; Srv_PlanBuilder := {| PB_TTL := 5 * Minute |} |}.
(** The requests as bytes. *)
Definition posted (path token : string) (body : bytes) : raw_request :=
  {| RR_Method := "POST"; RR_EscapedPath := path; RR_RawQuery := ""; RR_Authorization := "Bearer " +:+ token; RR_SessionID := "session-1";
     RR_BrokerToken := ""; RR_Body := body |}.
Definition three_raws : list raw_request :=
  [posted "/v1/operations/plan" "alice-token" (marshal (encode_OperationRequest (BP_Request example_broker_plan)));
   posted "/v1/confirmations" "approver-token" (marshal (of_struct [("plan_id", of_string "plan-02")]));
   posted "/v1/operations/execute-approved" "executor-token"
     (marshal (of_struct [("plan_id", of_string "plan-02"); ("confirmation_token", of_string example_token)]))].
Definition three_requests : list http_request := control_request decoder_message 65536 <$> three_raws.
Definition delivered (n : nat) : moment :=
  {| MO_Before := [BRestart true]; MO_Env := example_env; MO_Sent := true; MO_TooLong := false; MO_Received := true |}.
Definition example_client : client_state machine :=
  fresh_client "broker-secret" example_server "/var/lib/grants.json" (5 * Minute) (idle_machine "inactive" ActionsWork later)
    delivered.
Definition three_state : control_state nat (client_state machine) :=
  {| CS_Host := 0%nat; CS_Broker := example_client; CS_Audit := Some (empty_store example_path, AuditMissing); CS_Plans := ∅ |}.
Definition three_schedule : list nat := [0; 0; 0; 0; 0; 1; 1; 1; 2; 2; 2; 1; 2; 2]%nat.
(** The client on bytes, for a message that is its format. *)
Definition example_wire : SocketClient machine := wire_socket text_format (fun _ => []) "0.1.0" later 65536.
#[local] Existing Instances counting_host example_wire.
Notation three_pool := (run_pool three_schedule (start_pool example_control_server three_requests three_state)).

Lemma three_round : exists rd, CL_Rounds (CS_Broker (PL_State three_pool)) !! 5%nat = Some (true, rd) /\
  round_actions rd = [(VRestart, "quantum-runtime.service")].
Proof.
  assert (H : (fun x : bool * round machine => (x.1, round_actions x.2)) <$> CL_Rounds (CS_Broker (PL_State three_pool)) !! 5%nat =
    Some (true, [(VRestart, "quantum-runtime.service")])) by (vm_compute; reflexivity).
  apply fmap_Some in H as ([own rd] & Hk & E). injection E as <- E. exists rd. split; [exact Hk|exact (eq_sym E)].
Qed.

Lemma separation_of_duty_witness :
  exists rd before i plan confirmation credential response after,
    CL_Rounds (CS_Broker (PL_State three_pool)) !! 5%nat = Some (true, rd) /\
    PL_History three_pool = before ++ (i, SawExecuteApproved plan confirmation credential response) :: after /\
    executes_in rd plan confirmation credential.
Proof.
  destruct three_round as (rd & Hk & Ha). assert (Hne : round_actions rd <> []) by (rewrite Ha; discriminate).
  assert (Hw : forall n, Forall wire_broker_op (MO_Before (delivered n))) by (intros n; repeat constructor).
  destruct (separation_of_duty example_control_server three_requests three_state three_schedule example_server "broker-secret"
    "/var/lib/grants.json" (5 * Minute) (idle_machine "inactive" ActionsWork later) delivered 5 rd
    example_registry_confined example_server_wire Hw eq_refl eq_refl Hk Hne)
    as (before & i & plan & confirmation & credential & response & after & cx & t & Hh & _ & _ & _ & Hx & _).
  exists rd, before, i, plan, confirmation, credential, response, after. split; [exact Hk|]. split; [exact Hh|exact Hx].
Defined.

(** ** Accepted requests can be executed *)

(** A request as the JSON decoder of the public API delivers it. *)
Definition wire_request (q : OperationRequest) : Prop :=
  Forall (fun s => valid_utf8 s = true) [Req_RequestID q; Req_Action q; Req_Actor q; Req_Confirmation q] /\
  map_Forall (fun k v => valid_utf8 k = true /\ valid_utf8 v = true) (Req_Parameters q).

Lemma scrub_request_wire q : wire_request q -> scrub_request q = q.
Proof.
  intros [Hs Hp]. repeat (apply Forall_cons in Hs as [? Hs]). unfold scrub_request.
  rewrite (scrub_map_valid _ Hp), !scrub_valid by assumption. by destruct q.
Qed.

Lemma scrub_plan_id plan :
  wire_plan plan -> wire_actor (Plan_Actor plan) -> valid_utf8 (Plan_Digest plan) = true -> scrub_plan plan = plan.
Proof.
  intros [Hs Hp _ _] Ha Hd. repeat (apply Forall_cons in Hs as [? Hs]). unfold scrub_plan.
  rewrite (scrub_actor_wire _ Ha), !scrub_valid by assumption.
  assert (scrub_parameter <$> Plan_Parameters plan = Plan_Parameters plan) as ->.
  { induction Hp as [|[name value] l [Hn Hv] _ IH]; [done|]. rewrite fmap_cons, IH. f_equal.
    unfold scrub_parameter. simpl in *. by rewrite !scrub_valid by assumption. }
  by destruct plan.
Qed.

Lemma compiled_unit_valid unit : is_Some (compiledServices !! unit) -> valid_utf8 unit = true.
Proof.
  assert (Hall : forallb (fun kv => valid_utf8 kv.1) (map_to_list compiledServices) = true) by (vm_compute; reflexivity).
  intros [spec E%elem_of_map_to_list]. rewrite forallb_elem in Hall. exact (Hall _ E).
Qed.

(** The risks of a started broker are ASCII. *)
Lemma started_risk cfg files srv grants action operation :
  start_broker cfg files = Ok (srv, grants) -> R_Operations (Srv_Registry srv) !! action = Some operation ->
  valid_utf8 (OD_Risk (RO_Definition operation)) = true.
Proof.
  intros (policy & _ & ->)%start_broker_registry. unfold enabled, register_mutation, register, NewRegistry. simpl.
  rewrite !lookup_insert_Some, lookup_empty.
  intros [[_ <-]|[_ [[_ <-]|[_ [[_ <-]|[_ [[_ <-]|[_ [[_ <-]|[_ [=]]]]]]]]]]]; reflexivity.
Qed.

(** The plan built for an accepted request passes the validation of the broker as long as its times allow. *)
Lemma built_plan_valid r builder t e actor session request answer operation unit v plan :
  accepts r request false operation -> OD_RequiresConfirmation (RO_Definition operation) = true ->
  verb_of (TrimSpace (Req_Action request)) = Some v -> Req_Parameters request = {["unit" := unit]} ->
  TrimSpace (Actor_ID actor) <> "" -> TrimSpace session <> "" ->
  PB_TTL builder <= 15 * Minute -> 0 < t ->
  BP_Request answer = request -> BP_Valid answer = true -> BP_RequiresConfirmation answer = true ->
  OD_Risk (BP_Definition answer) = OD_Risk (RO_Definition operation) ->
  Build builder t e actor session answer = Ok plan ->
  forall t', ValidateApprovedPlan r t' plan = None <-> t <= t' + 30 * Second /\ t' < Plan_ExpiresAt plan.
Proof.
  intros Hacc Hconf Hv Hpar Hid Hblank Httl Ht Ereq Evalid Econf Erisk Hbuild t'.
  unfold Build in Hbuild. rewrite (proj2 (String.eqb_neq _ _) Hid) in Hbuild. injection Hbuild as <-.
  rewrite ValidateApprovedPlan_None. split.
  { intros (op & []). simpl in *. lia. }
  assert (Hps : plan_parameters (map_to_list (Req_Parameters (BP_Request answer))) = [{| Param_Name := "unit"; Param_Value := unit |}])
    by (rewrite Ereq, Hpar, map_to_list_singleton; reflexivity).
  intros Hwin. exists operation. unfold Add in *. change (5 * Minute) with 300000000000 in *.
  change (15 * Minute) with 900000000000 in *.
  split; try assumption; cbn -[TrimSpace newSecurityID verb_of plan_parameters] in *; try done.
  - apply VerifyPlanDigest_own.
  - split; [|by rewrite TrimSpace_idemp].
    rewrite TrimSpace_graphic by by apply newSecurityID_graphic. unfold newSecurityID. by destruct (Ent_Bytes e).
  - change (15 * Minute) with 900000000000. destruct (Z.leb_spec (PB_TTL builder) 0); lia.
  - rewrite Hps. split; [repeat constructor; vm_compute; discriminate|]. apply NoDup_singleton.
  - unfold trimmed_parameters. cbn -[TrimSpace plan_parameters]. rewrite Hps. destruct Hacc as (Ha1 & Ha2 & Ha3 & Ha4 & Ha5).
    unfold accepts, plan_request. cbn -[TrimSpace]. rewrite Ereq, TrimSpace_idemp. rewrite Hpar in Ha5. by split_and!.
Qed.

(** It keeps every byte on its way to the broker. *)
Lemma built_plan_wire builder t e actor session answer v unit plan :
  wire_request (BP_Request answer) -> wire_actor actor -> valid_utf8 (TrimSpace session) = true ->
  verb_of (TrimSpace (Req_Action (BP_Request answer))) = Some v ->
  Req_Parameters (BP_Request answer) = {["unit" := unit]} -> valid_utf8 unit = true ->
  valid_utf8 (OD_Risk (BP_Definition answer)) = true -> BP_Error answer = None ->
  PB_TTL builder <= 15 * Minute -> 0 < t -> t + 15 * Minute < max_time ->
  Build builder t e actor session answer = Ok plan ->
  plan_marshals plan = true /\ scrub_plan plan = plan.
Proof.
  intros [Hs _] Hactor Hsession Hv Hpar Hunit Hrisk Herr Httl Ht0 Ht1 Hbuild.
  repeat (apply Forall_cons in Hs as [? Hs]). unfold Build in Hbuild.
  destruct (TrimSpace (Actor_ID actor) == ""); [done|]. injection Hbuild as <-. rewrite Herr, Hpar, map_to_list_singleton.
  assert (Hex : t <= Add t (if PB_TTL builder <=? 0 then 5 * Minute else PB_TTL builder) <= t + 15 * Minute).
  { unfold Add. change (5 * Minute) with 300000000000 in *. change (15 * Minute) with 900000000000 in *.
    destruct (Z.leb_spec (PB_TTL builder) 0); lia. }
  change (15 * Minute) with 900000000000 in *.
  assert (Haction : valid_utf8 (TrimSpace (Req_Action (BP_Request answer))) = true)
    by (destruct (verb_of_cases _ (mk_is_Some _ _ Hv)) as [->|[->| ->]]; reflexivity).
  assert (Hid : valid_utf8 (newSecurityID e "plan") = true) by (by apply is_ascii_valid, newSecurityID_ascii).
  pose proof Hactor as Ha. unfold wire_actor in Ha. do 2 (apply Forall_cons in Ha as [? Ha]).
  split.
  - unfold plan_marshals, marshals. cbn -[max_time newSecurityID TrimSpace]. bool_prop. lia.
  - apply scrub_plan_id; [|exact Hactor|apply is_ascii_valid, is_hex_ascii, sha256_hex_is_hex].
    split; cbn -[max_time newSecurityID TrimSpace valid_utf8].
    + by repeat (constructor; [first [assumption|reflexivity]|]).
    + by repeat constructor.
    + unfold time_ok. lia.
    + unfold time_ok. lia.
Qed.

(** C11 Accepted requests can be executed.  The public API builds a plan for every request that the broker's policy accepts as a
    mutation, and exactly as long as it has not expired (and the broker's clock is no more than 30 seconds behind) the
    broker accepts this plan, unchanged by the way through both processes, for confirmation and for execution. *)
Theorem accepted_requests_validate cfg files srv grants builder t e actor session request :
  start_broker cfg files = Ok (srv, grants) ->
  wire_request request -> wire_actor actor -> TrimSpace (Actor_ID actor) <> "" ->
  valid_utf8 (TrimSpace session) = true -> TrimSpace session <> "" ->
  PB_TTL builder <= 15 * Minute -> 0 < t -> t + 15 * Minute < max_time ->
  let answer := Plan (Srv_Registry srv) request in
  BP_Valid answer = true -> BP_RequiresConfirmation answer = true ->
  exists plan, Build builder t e actor session (scrub_broker_plan answer) = Ok plan /\
    plan_marshals plan = true /\ scrub_plan plan = plan /\ Plan_Actor plan = actor /\
    PlanParametersMap plan = Req_Parameters request /\
    forall t', ValidateApprovedPlan (Srv_Registry srv) t' plan = None <->
      t <= t' + 30 * Second /\ t' < Plan_ExpiresAt plan.
Proof.
  intros Hstart Hwire Hactor Hid Hsession Hblank Httl Ht0 Ht1. cbv zeta. unfold Plan.
  pose proof (started_confined _ _ _ _ Hstart) as Hc. set (r := Srv_Registry srv) in *.
  destruct (validate r request false) as [p|operation] eqn:Ev; [done|]. intros _ Hconf. simpl in Hconf.
  apply validate_inr in Ev.
  destruct (accepts_unit r request false operation Hc Ev Hconf) as (unit & v & Htx & Hv & Hpar & Hunit).
  pose proof (started_risk _ _ _ _ _ _ Hstart (proj1 (proj2 Ev))) as Hrisk.
  set (answer := scrub_broker_plan _). assert (Ereq : BP_Request answer = request) by exact (scrub_request_wire _ Hwire).
  destruct (Build builder t e actor session answer) as [plan|] eqn:Hbuild.
  2: { exfalso. unfold Build in Hbuild. by rewrite (proj2 (String.eqb_neq _ _) Hid) in Hbuild. }
  exists plan. split; [done|].
  assert (Hvalid := built_plan_valid r builder t e actor session request answer operation unit v plan Ev Hconf Hv Hpar Hid
    Hblank Httl Ht0 Ereq eq_refl Hconf (scrub_valid _ Hrisk) Hbuild).
  assert (Hw : wire_request (BP_Request answer)) by by rewrite Ereq.
  assert (Hu : valid_utf8 unit = true).
  { apply compiled_unit_valid. destruct Hunit as [target E]. destruct (cf_targets _ Hc _ _ E) as (spec & ? & _). by exists spec. }
  rewrite <- Ereq in Hv, Hpar.
  destruct (built_plan_wire builder t e actor session answer v unit plan Hw Hactor Hsession Hv Hpar Hu (scrub_is_valid _)
    eq_refl Httl Ht0 Ht1 Hbuild) as [Hm Hscrub].
  split; [exact Hm|]. split; [exact Hscrub|].
  assert (Hb : Plan_Actor plan = actor /\ PlanParametersMap plan = Req_Parameters (BP_Request answer)).
  { unfold Build in Hbuild. rewrite (proj2 (String.eqb_neq _ _) Hid) in Hbuild. injection Hbuild as <-.
    split; [done|]. apply parameters_map_sorted. }
  destruct Hb as [Ha Hp]. rewrite Ereq in Hp. by split.
Qed.

Lemma accepted_requests_validate_witness :
  exists srv grants plan, start_broker example_config example_files = Ok (srv, grants) /\
    Build {| PB_TTL := 5 * Minute |} example_now {| Ent_Bytes := None; Ent_UnixNano := 7 |} example_caller "session-1"
      (scrub_broker_plan (Plan (Srv_Registry srv) (BP_Request example_broker_plan))) = Ok plan /\
    ValidateApprovedPlan (Srv_Registry srv) later plan = None.
Proof.
  destruct (start_broker example_config example_files) as [[srv grants]|err] eqn:E; [|exfalso; vm_compute in E; discriminate E].
  exists srv, grants.
  destruct (accepted_requests_validate example_config example_files srv grants {| PB_TTL := 5 * Minute |} example_now
    {| Ent_Bytes := None; Ent_UnixNano := 7 |} example_caller "session-1" (BP_Request example_broker_plan) E)
    as (plan & Hb & _ & _ & _ & _ & Hv).
  - split; [repeat constructor|]. apply map_Forall_singleton. by split.
  - repeat constructor.
  - vm_compute. discriminate.
  - reflexivity.
  - vm_compute. discriminate.
  - vm_compute. discriminate.
  - reflexivity.
  - reflexivity.
  - vm_compute in E. injection E as <- _. vm_compute. reflexivity.
  - vm_compute in E. injection E as <- _. vm_compute. reflexivity.
  - exists plan. split; [reflexivity|]. split; [exact Hb|]. apply Hv. split.
    + vm_compute. discriminate.
    + unfold Build in Hb. cbv zeta in Hb. destruct (_ == ""); [discriminate Hb|]. injection Hb as <-. reflexivity.
Defined.

(** ** Confirmed plans are executed *)

Section liveness.
Context {S : Type} `{!System S} `{!SystemLaws S}.

(** The readings of the clock at which the broker validates a plan: the first one of a confirmation; the one of an
    execution after its answer has been prepared; and then the one of [ExecuteApproved], which leaves the machine in [w']. *)
Definition confirmation_clock (st : broker_state S) : time := (sys_now (w_sys (BS_World st))).1.
Definition execution_clocks (plan : OperationPlan) (st : broker_state S) (t t' : time) (w' : world S) : Prop :=
  exists w, (_ ← rejectedApprovedResponse plan; now) (BS_World st) = Done t w /\ approval_clock plan w = Done t' w'.

Lemma execution_clocks_silent plan (w0 : world S) t w : (_ ← rejectedApprovedResponse plan; now) w0 = Done t w -> w_log w = w_log w0.
Proof.
  intros H. assert (runs (_ ← rejectedApprovedResponse plan; now) w0 (fun _ added _ => added = [])) as (t0 & added & s & E & ->).
  { apply runs_bind. eapply runs_mono; [apply rejected_silent|]. intros _ ? s -> log. by apply now_runs. }
  rewrite H in E. injection E as _ ->. apply app_nil_r.
Qed.

(** The grant is issued, and the store has it. *)
Lemma issue_succeeds io e now plan approver s file raw :
  issuable now plan approver s -> IE_Token e = Some raw -> io_ok io ->
  exists file', Issue io e now plan approver s file =
    (Ok {| GR_Grant := new_grant (Store_TTL s) now (IE_ID e) plan approver; GR_Token := hex_encode raw |},
     with_grants (store_grants s ++ [issued (IE_ID e) (hex_encode raw) now plan approver s]) s, file').
Proof.
  intros Hi He Hio. pose proof (Issue_cases io e now plan approver s file) as H.
  inversion H as [raw' s' Hi' He' Hio' E|err Hn E]; [|destruct Hn as [?|[?|[step Hs]]]; [done|congruence|by rewrite Hio in Hs]].
  rewrite He in He'. injection He' as <-. by eexists.
Qed.

Lemma consume_succeeds io now token plan subject action s file index stored :
  consumable now token plan subject action s index stored -> io_ok io ->
  exists s' file', Consume io now token plan subject action s file = (Ok (with_used now (SG_Grant stored)), s', file').
Proof.
  intros Hc Hio. pose proof (Consume_cases io now token plan subject action s file) as H.
  inversion H as [index' stored' s' Hc' Hio' E|err Hn E]; [|destruct Hn as [Hn|[step Hs]]; [destruct Hn; by exists index, stored|by rewrite Hio in Hs]].
  pose proof (co_found _ _ _ _ _ _ _ _ Hc) as H1. pose proof (co_found _ _ _ _ _ _ _ _ Hc') as H2.
  rewrite H1 in H2. injection H2 as <- <-. by eexists _, _.
Qed.

(** A grant just issued under a new token is consumable until it expires. *)
Lemma issued_consumable id raw issued_at now plan approver s :
  issuable issued_at plan approver s -> raw <> [] ->
  Forall (fun stored => ~ token_matches (Sum256 (hex_encode raw)) stored) (store_grants s) ->
  now < Plan_ExpiresAt plan -> now < issued_at + Store_TTL s ->
  let stored := issued id (hex_encode raw) issued_at plan approver s in
  consumable now (hex_encode raw) plan (Actor_ID (Plan_Actor plan)) (Plan_Action plan)
    (with_grants (store_grants s ++ [stored]) s) (length (store_grants s)) stored.
Proof.
  intros [Hx Hv Hf Hs _ _ _ _] Hraw Hnew H1 H2. cbv zeta. set (token := hex_encode raw) in *.
  split; try assumption; try reflexivity.
  - unfold token. rewrite TrimSpace_hex by apply hex_encode_is_hex. intros E.
    change "" with (hex_encode []) in E. by apply hex_encode_inj in E.
  - rewrite store_grants_with. apply list_find_Some. split; [by apply list_lookup_middle|].
    split; [apply decodeSHA256_sha256|].
    intros j y Hj Hlt. rewrite lookup_app_l in Hj by done. rewrite Forall_lookup in Hnew. by apply (Hnew j).
  - cbn. unfold Before, Add. destruct (Z.ltb_spec (Plan_ExpiresAt plan) (issued_at + Store_TTL s)); lia.
  - apply EqualFold_refl.
Qed.

(** C12 Confirmed plans are executed.  On a confined registry, when the broker validates a plan whose action carries no
    surrounding blanks at its clock, an authenticated human who may confirm it gets a token for it, if the disk and the random
    source work.  With this token, in the state that the confirmation left, an authenticated executor has the plan carried out, under
    sufficient conditions:
    the broker still validates the plan at the two readings of the clock that an execution makes, the grant has not
    expired and the disk works.  Carried out means: one service transaction for the action of the plan on its
    unit, in one of the four ways of [transaction_outcome], with the action itself run first whenever the state of the unit could
    be observed; the answer and the log line report the transaction as completed or failed, and the log of the
    machine grows by its events. *)
Theorem confirmed_plans_execute srv env token plan approver approver_token (st : broker_state S) store raw :
  confined (Srv_Registry srv) -> TrimSpace (Plan_Action plan) = Plan_Action plan ->
  broker_authorized srv token = true -> GP_Store (BS_Grants st) = Some store ->
  ValidateApprovedPlan (Srv_Registry srv) (confirmation_clock st) plan = None ->
  authenticateActor (Srv_Actors srv) approver_token = Ok approver -> issuable (GE_Now env) plan approver store ->
  IE_Token (GE_Entropy env) = Some raw -> raw <> [] -> io_ok (GE_IO env) ->
  Forall (fun stored => ~ token_matches (Sum256 (hex_encode raw)) stored) (store_grants store) ->
  exists g st1,
    serve srv env (PostConfirm token (BodyValue {| CE_Plan := plan; CE_ActorToken := approver_token |})) st =
      Answered (writeJSON 201 (JSONGrant g)) [logConfirmation g plan approver] st1 /\
    GR_Token g = hex_encode raw /\
    forall env' executor executor_token t t' w',
      authenticateActor (Srv_Actors srv) executor_token = Ok executor -> may_mutate executor = true ->
      execution_clocks plan st1 t t' w' ->
      ValidateApprovedPlan (Srv_Registry srv) t plan = None -> ValidateApprovedPlan (Srv_Registry srv) t' plan = None ->
      GE_Now env' < Plan_ExpiresAt plan -> GE_Now env' < GE_Now env + Store_TTL store -> io_ok (GE_IO env') ->
      exists gp resp added s,
        serve srv env' (PostExecuteApproved token (BodyValue {| AE_Plan := plan; AE_ConfirmationToken := GR_Token g;
                                                                AE_ActorToken := executor_token |})) st1 =
          Answered (writeOperationResponse resp) [logOperation resp (Actor_ID (Plan_Actor plan)) (Actor_ID executor)]
            (resumed gp (World s (w_log (BS_World st1) ++ added))) /\
        carried_out (Srv_Registry srv) plan executor w' resp added.
Proof.
  intros Hconf Htrim Hauth Hstore Hval Happ Hiss Hraw Hne Hio Hnew.
  destruct (issue_succeeds (GE_IO env) (GE_Entropy env) (GE_Now env) plan approver store (GP_File (BS_Grants st)) raw Hiss Hraw Hio)
    as (file' & Eissue).
  simpl. unfold requireBrokerAuth. rewrite Hauth. unfold handleConfirm. rewrite Hstore. cbn [decodeJSON CE_Plan CE_ActorToken].
  unfold confirmation_clock in Hval. unfold with_machine at 1. unfold now at 1, step.
  destruct (sys_now (w_sys (BS_World st))) as [t0 s0] eqn:Enow. cbn [fst] in Hval. rewrite Hval, Happ.
  assert (Hmay : (Actor_Kind approver != ActorHuman) || negb (HasPermission approver PermissionConfirm) = false).
  { rewrite (is_human _ _ _ _ Hiss), String.eqb_refl. unfold HasPermission.
    by rewrite (proj2 (has_permission_in_elem _ _) (is_approver _ _ _ _ Hiss)). }
  rewrite Hmay. cbn [BS_Grants]. rewrite Eissue. eexists _, _. split; [reflexivity|]. split; [reflexivity|].
  intros env' executor executor_token t t' w' Hexec Hmut (w & Hclock & Hclock') Hval1 Hval2 Hfresh Hlive Hio'. cbn [GR_Token].
  destruct (consume_succeeds (GE_IO env') (GE_Now env') (hex_encode raw) plan (Actor_ID (Plan_Actor plan)) (Plan_Action plan)
    _ file' _ _ (issued_consumable (IE_ID (GE_Entropy env)) raw (GE_Now env) (GE_Now env') plan approver store Hiss Hne Hnew Hfresh Hlive) Hio')
    as (s' & file'' & Econsume).
  pose proof (execution_clocks_silent _ _ _ _ Hclock) as Hlog.
  destruct (approved_executes (Srv_Registry srv) plan executor w t' w' Hconf Hmut Htrim Hclock' Hval2)
    as (resp & added & s & Erun & Hdone).
  unfold handleExecuteApproved. cbn [decodeJSON AE_Plan AE_ActorToken AE_ConfirmationToken].
  unfold with_machine at 1. unfold mbind, M_bind in Hclock.
  destruct (rejectedApprovedResponse plan _) as [rejected w1|w1|] eqn:Erej; [|discriminate Hclock..].
  cbn [with_grant_store BS_Grants BS_World GP_Store]. rewrite Hexec, Hmut. cbn [negb].
  unfold with_machine at 1. cbn [BS_World]. rewrite Hclock, Hval1. cbn [BS_Grants with_grant_store GP_File]. rewrite Econsume.
  eexists _, resp, added, s. split; [|exact Hdone].
  unfold with_machine, resumed. cbn [with_grant_store BS_Grants BS_World]. rewrite Erun, Hlog. reflexivity.
Qed.
End liveness.

Notation fresh_broker := (broker_start "/var/lib/grants.json" (5 * Minute) FileMissing (idle_machine "inactive" ActionsWork later)).

Lemma confirmed_plans_execute_witness :
  exists g st1 gp resp added s rest,
    serve example_server example_env
      (PostConfirm "broker-secret" (BodyValue {| CE_Plan := example_plan; CE_ActorToken := "approver-token" |})) fresh_broker =
      Answered (writeJSON 201 (JSONGrant g)) [logConfirmation g example_plan example_approver] st1 /\
    serve example_server example_env
      (PostExecuteApproved "broker-secret" (BodyValue {| AE_Plan := example_plan; AE_ConfirmationToken := GR_Token g;
                                                         AE_ActorToken := "executor-token" |})) st1 =
      Answered (writeOperationResponse resp) [logOperation resp (Actor_ID (Plan_Actor example_plan)) (Actor_ID example_executor)]
        (resumed gp (World s (w_log (BS_World st1) ++ added))) /\
    actions added = (VRestart, "quantum-runtime.service") :: rest.
Proof.
  destruct (confirmed_plans_execute example_server example_env "broker-secret" example_plan example_approver "approver-token"
    fresh_broker {| Store_Path := "/var/lib/grants.json"; Store_TTL := 5 * Minute;
      Store_Data := {| GS_Schema := grantStoreSchema; GS_Grants := [] |} |} [chr 7; chr 8; chr 9]) as (g & st1 & Hc & _ & Hx).
  - apply example_registry_confined.
  - vm_compute. reflexivity.
  - vm_compute. reflexivity.
  - vm_compute. reflexivity.
  - vm_compute. reflexivity.
  - vm_compute. reflexivity.
  - split; first [vm_compute; reflexivity|vm_compute; discriminate|apply has_permission_in_elem; vm_compute; reflexivity].
  - vm_compute. reflexivity.
  - discriminate.
  - by intros [].
  - constructor.
  - assert (exists w', execution_clocks example_plan st1 later later w' /\
      (sys_status "quantum-runtime.service" (sys_with_timeout (R_TransactionTimeout example_registry) (w_sys w'))).1.2 = None)
      as (w' & Hclocks & Hobs).
    { apply (f_equal (fun o => match o with Answered _ _ st => Some st | _ => None end)) in Hc. vm_compute in Hc.
      apply (inj Some) in Hc as <-. eexists. split; [eexists; split; vm_compute; reflexivity|vm_compute; reflexivity]. }
    destruct (Hx example_env example_executor "executor-token" later later w') as (gp & resp & added & s & He & Hdone).
    + vm_compute. reflexivity.
    + vm_compute. reflexivity.
    + exact Hclocks.
    + vm_compute. reflexivity.
    + vm_compute. reflexivity.
    + vm_compute. reflexivity.
    + vm_compute. reflexivity.
    + by intros [].
    + destruct Hdone as [unit target v res pre Hp _ Hv _ _ _ _ Hacts].
      assert (Hu : trimmed_parameters example_plan !! "unit" = Some "quantum-runtime.service") by (vm_compute; reflexivity).
      rewrite Hp, lookup_singleton_eq in Hu. apply (inj Some) in Hu. subst unit.
      assert (Hv' : verb_of (Plan_Action example_plan) = Some VRestart) by (vm_compute; reflexivity).
      rewrite Hv in Hv'. apply (inj Some) in Hv'. subst v.
      destruct (Hacts Hobs) as [rest Hrest].
      exists g, st1, gp, resp, added, s, rest. split; [exact Hc|]. split; [exact He|exact Hrest].
Defined.
